(* ===== verification/_CoqProject ===== *)
-Q . S2P
Prelude.v
Tasks.v
Errors.v
Integrations.v
Executors.v
Events.v
Schema.v
Database.v
Platform.v
Tables.v
Secrets.v
Vault.v
VaultMigrate.v
HetznerClient.v
Safety.v
Cluster.v
Addons.v
Workflows.v
Runner.v
Runs.v
Lifecycle.v
Credentials.v
Membership.v
Sessions.v
Access.v
RateLimit.v
Api.v
ClusterRoutes.v
CreateRoute.v
RouteLaws.v
Stripe.v
Billing.v
TeamRoutes.v
Metrics.v
Victoria.v
AgentTunnel.v
ClusterAgent.v
Account.v
Passkeys.v
MfaRoutes.v
Login.v
Startup.v
E2e.v
E2eHelm.v
Integrity.v
SingleUse.v
System.v
Races.v
Deadline.v
Router.v
WorkflowTests.v
UnitTests.v
