(* ===== verification/Prelude.v ===== *)
(** * Kubinate: a verified model of the control plane

    Kubinate provisions Kubernetes clusters on Hetzner Cloud for the
    organisations (tenants) that sign up for it.  The control plane is the
    Rust workspace [src/crates]: an HTTP API over a PostgreSQL schema
    ([src/migrations]), domain crates with a repository and a service each, and
    a runner that executes long workflows against Hetzner, SSH hosts, Helm and
    kubectl.  This library models its core and proves what the parts promise.

    ** How the code is rendered

    An [async fn] that reads and writes shared state and returns
    [Result<A, E>] is a function of type [M World E A]
    ([World -> result E A * World]): [x <- m ;; k] is [.await?], [attempt] is a
    [match] on a result, [ignore] is [.ok()] or [let _ =].  Where the await points
    matter it is a [Task] ([Tasks.v]), cut at them, and proved to be that function
    when it runs alone.  An error keeps the
    writes made before it; only a database transaction puts the tables back.
    [World] ([Schema.v]) holds the tables, the session variables of the
    connection, the calls made to the outside so far, the event hub and the
    staged files.  What the code cannot choose comes from two parameters: [Env]
    ([Schema.v]: clock, identifiers, hashing, pgcrypto, which round trips to the
    database fail, whether the database role bypasses row security) and
    [Externals] ([Integrations.v]: the answers of Hetzner, SSH, Helm and
    kubectl, which may depend on every earlier call).  A theorem without a
    hypothesis on them holds for any behaviour of these services.

    Integers of a machine width are [Z] with the conversions of the code
    written out (below); strings are UTF-8 byte strings; time is in
    microseconds, the agent's in milliseconds.  Operations recurse structurally; the
    loops with a bound, the poll of a booting server and the retries of SSH, take it
    from the code.  Loops without an end, the agent's and the process's, are step
    relations.  Fuel occurs in the reading of a string ([Prelude.v], [Metrics.v],
    [Victoria.v]), where it is the string's length or number of lines, in the
    client's paging loop ([TeamRoutes.v]), in the batches of the migration
    ([VaultMigrate.v]) and in the waits of the harness ([E2e.v]: 121 pauses of 15
    seconds are more than half an hour; [E2eHelm.v]: 210 of two seconds are seven
    minutes); the theorems show that this much is enough.

    ** The database

    [Database.v] gives the statements the repositories issue (select, insert,
    [ON CONFLICT], update, delete) over a [Table]: policies of row-level security,
    unique indexes, check and foreign-key constraints, BEFORE and AFTER
    triggers, and the audit trigger with its hash chain.  [tenant_tx] is the
    pattern [begin; SET LOCAL app.current_tenant_id; audit.apply; ..; commit],
    [on_pool] a statement on the pool without a tenant.  [bypass_rls = false] is
    the role of production ([NOBYPASSRLS]).  A transaction is one step, as if
    transactions were serialised; what PostgreSQL lets two open ones see of each
    other is not modelled.

    ** The files, in order

    - [Prelude.v]: results, the monad and its weakest precondition [wp],
      integer conversions, the string operations of Rust, sorting and
      list lemmas.
    - [Errors.v]: [platform/src/error.rs], the secret errors and the problem
      details of [api/src/problem.rs].
    - [Integrations.v]: data and calls of [integrations/src].
    - [Events.v]: [workflows/src/events.rs], over tokio's broadcast channel as a
      class with its documented laws ([BroadcastLaws]).
    - [Schema.v], [Database.v], [Tables.v]: rows, world, statements, tables.
    - [Secrets.v]: [platform/src/secrets.rs].  The class [SecretStore] with
      [SecretStoreLaws] is what the services are proved against; the pgcrypto
      store is proved to meet it.
    - [Safety.v]: the two-state invariant [safe] of tenant-scoped operations
      (other tenants' rows, earlier audit entries, the hash chain) with the
      judgement [keeps] and its hint database.
    - [Cluster.v], [Addons.v]: repositories, services and models of
      [cluster/src] and [addons/src].
    - [Workflows.v]: [activities.rs] and [workflows.rs] of [workflows/src].
    - [Runner.v]: [runner.rs]; [Runs.v]: what its runs leave behind.
    - [Membership.v]: members and invitations of [identity/src].
    - [Credentials.v]: Hetzner credentials of [identity/src].
    - [Sessions.v], [Access.v]: [identity/src/session.rs], the log-in's choice of
      session, and the extractors and API keys of [api/src] ([actor.rs],
      [api_keys.rs], [audit_ctx.rs]).
    - [RateLimit.v]: [api/src/rate_limit.rs].
    - [Api.v]: the state of the API process ([App]: world, limiter, spawned
      runs), the extractor wrappers and the views of [clusters.rs].
    - [ClusterRoutes.v]: the handlers of [api/src/clusters.rs]; [CreateRoute.v]:
      creation and its idempotency; [RouteLaws.v]: the other handlers.
    - [Stripe.v]: [integrations/src/stripe.rs]; [Billing.v]: [billing/src] and
      [api/src/billing.rs].
    - [TeamRoutes.v]: [api/src/team.rs], [integrations.rs] and [audit_log.rs].
    - [Metrics.v]: [observability/src/metrics.rs] and the metrics route of
      [clusters.rs]; floating-point samples are the class [Float].
    - [AgentTunnel.v]: [api/src/agent.rs], the stream of one agent.  [ClusterAgent.v]:
      [agent/src], the agent itself: its start, and its reader, tickers and connections as
      a transition system over the class [AgentOs].
    - [Account.v]: [/v1/me] of [main.rs] and the log-out of [auth.rs].
    - [Passkeys.v]: passkeys and recovery codes of [identity/src]
      ([repository.rs], [webauthn.rs], [recovery_codes.rs]) over the class
      [WebAuthn] of the crate's verdicts; [MfaRoutes.v]: [api/src/auth_passkey.rs].
    - [Login.v]: [identity/src/oidc.rs], [integrations/src/github.rs] and the
      log-in handlers of [auth.rs], over the class [GithubHost].
    - [Integrity.v]: well-formed tables ([wf]) and the judgement [evolving] that
      every statement and operation meets; [System.v]: the router of [main.rs] as
      [Endpoint] and [serve], the events of the process, and their executions;
      [Router.v]: the routing tables and the extractor each handler stands behind.
    - [Vault.v]: the Vault half of [platform/src/secrets.rs]: the transit engine as
      the class [VaultTransit], [VaultStore] over it, the client over HTTP and the
      fake of the tests; [VaultMigrate.v]: [vault-migrate/src/main.rs].
    - [Executors.v]: [ssh.rs], [helm.rs] and [kubectl.rs] of [integrations/src] as
      programs over a host ([HostOs]); [host_externals] makes them answer the calls
      of the workflows.  [HetznerClient.v]: [hetzner.rs], one exchange per call.
    - [Victoria.v]: the client of Victoria Metrics of [observability/src/metrics.rs].
    - [Startup.v]: the start of the API process: [main.rs: main], [platform/src]
      ([config.rs], [db.rs], [metrics.rs]), the constructors of the stores and the
      reading of their settings, and the probes.
    - [Lifecycle.v]: provisioning and destruction composed over the records they share.
    - [E2e.v], [E2eHelm.v]: the nightly harness and the chart runner of [e2e/src].
    - [Tasks.v]: tasks, their interleavings, what every step of a pool preserves, and
      races for what one step uses up.  [SingleUse.v]: the handlers that use something
      up, as tasks; [Races.v]: the change of a role, the creation of a cluster, its
      provisioning and destruction, as tasks; [Deadline.v]: the harness behind its
      deadline, and what a request loses at its timeout.
    - [WorkflowTests.v], [UnitTests.v]: the unit tests of the crates, run on the model.
    - [Platform.v]: the tenant transaction and the identifiers of [platform/src].

    ** What the theorems show

    - Runs ([Runs.v]): each run of the runner ends in one of the outcomes listed
      by its [_outcomes] definition, with the rows, the calls and the published
      events of that outcome, for any answers of the cloud.
    - Workflows ([Workflows.v]): the exact sequence of calls on success, and on
      failure a prefix of it that ends with the failed call; servers requested
      at most once with distinct keys; drains before deletions; quoting that a
      shell splits back into the intended words; the bound on polling.
    - Clusters and secrets ([Cluster.v], [Secrets.v]): tenant safety of every
      operation, functional correctness of creation, destruction and of the
      kubeconfig round trip against the store's contract, refinement of that
      contract by the pgcrypto store, confidentiality across tenants and keys.
    - Members ([Membership.v]): who may manage members, that an organisation
      keeps an owner under role changes, single use of invitations, and the
      invariant of [users.requires_mfa].
    - Requests ([Router.v], [Access.v], [Sessions.v], [RateLimit.v]): that no handler's
      body runs for a request its extractor does not admit, who an accepted request
      speaks for, what the owner gate guarantees, the life of sessions and keys,
      and the sliding window against its reference log.
    - Routes ([CreateRoute.v], [RouteLaws.v], [TeamRoutes.v]): the outcomes of each
      handler with the rows written and the runs spawned, replay under an
      idempotency key, audited downloads, bounded scaling, complete paging.
    - Billing ([Stripe.v], [Billing.v]): exactly which signatures are accepted,
      that only a signed delivery changes anything, and what it changes.
    - Executions ([System.v]): whatever requests, runs and agent messages reach
      the process, in any order and with any answers from outside, the tables
      stay well formed and the audit log only grows along its hash chain.
    - Second factor ([Passkeys.v], [MfaRoutes.v]): what an accepted assertion
      proves, that enrolment follows the live passkeys, that a recovery code
      works once and a fresh one does work, and which events go unaudited.
    - Log-in ([Login.v]): each outcome of the callback, with the pending request
      consumed and one session issued for the right account.
    - Metrics ([Metrics.v], [Victoria.v], [AgentTunnel.v]): the selector a query is
      turned into, read back by a PromQL parser, and what a server that obeys it
      lets through; the written text, read back line for line; isolation of tenants
      in the in-memory store; samples are forwarded for clusters the stream named.
    - The cluster agent ([ClusterAgent.v]): how long it backs off, that heartbeats keep
      coming and how many there can be, when it exits, and that the API's stream answers
      what it sends.
    - Secret stores ([Vault.v], [VaultMigrate.v]): the Vault store meets the contract
      of the pgcrypto store, for any transit engine that decrypts what it encrypted;
      the HTTP client is such an engine; a migration loses no secret, and which rows
      it leaves behind.
    - Clients ([Executors.v], [HetznerClient.v]): how often and with which pauses a
      command is run and whose answer counts; no values file is left by a Helm run;
      one request per call, with the token of the tenant.
    - Start-up ([Startup.v]): the process serves exactly when it was given all it
      needs, after the schema was migrated; otherwise no socket was bound.
    - Life cycle ([Lifecycle.v]): every server a successful provisioning had the cloud
      create is deleted by a later successful destruction.  The harness ([E2e.v]):
      what a pass of it means, that its waits end, and what its residue check misses.
    - Concurrency ([SingleUse.v], [Races.v]): an invitation, a recovery code, a ceremony
      or a pending log-in serves one request, however requests interleave; the tables
      stay well formed and the audit log only grows at the grain of transactions, too;
      and where a check no longer holds when the code acts on it.
    - Theorems that exhibit a fault of the code are concrete runs or hold under
      [bypass_rls = false]; the manifest lists them as findings.

    ** What is not modelled

    HTTP parsing and serialisation, tracing and metric counters; what the external
    processes and servers do (Hetzner, Vault, GitHub, Stripe, Victoria Metrics, SSH
    hosts, Helm, kubectl) and the WebAuthn cryptography, which are classes here;
    the interleaving of handlers and runs other than those [SingleUse.v] and [Races.v]
    cut into tasks (elsewhere a run is queued by [spawn] and executed as a whole by
    [run_job], a handler runs to its end); the steps inside the cloud's part of a run;
    transactions that overlap; columns no operation reads (client addresses,
    some timestamps).  A timeout inside a
    client is an answer of the call; the deadlines of [Deadline.v] drop a task, which
    is then one that gets no more turns.  The generated crate
    [agent-proto] is outside, as is the front end except for its paging of the audit
    log; the manifest says so part by part. *)

From Stdlib Require Import Ascii.
From stdpp Require Import base numbers list strings pretty sorting.

Declare Scope rust_scope.
Delimit Scope rust_scope with rust.
#[global] Open Scope rust_scope.
#[global] Open Scope Z_scope.

(** * [Result] and the state-and-error monad *)

(** Rust's [Result<A, E>]. *)
Inductive result (E A : Type) : Type :=
| Ok (a : A)
| Err (e : E).
Arguments Ok {E A} a.
Arguments Err {E A} e.

#[export] Instance result_eq_dec {E A} `{EqDecision E, EqDecision A} :
  EqDecision (result E A).
Proof. solve_decision. Defined.

Definition result_map_err {E F A} (f : E -> F) (r : result E A) : result F A :=
  match r with Ok a => Ok a | Err e => Err (f e) end.

Definition is_ok {E A} (r : result E A) : bool :=
  match r with Ok _ => true | Err _ => false end.

(** An [async fn] of the code that reads and writes the state [S] and returns
    [Result<A, E>].  A state change made before an error is kept: only a
    database transaction rolls back, and it says so itself. *)
Definition M (S E A : Type) : Type := S -> result E A * S.

Section Monad.
Context {S : Type}.

Definition ret {E A} (a : A) : M S E A := fun s => (Ok a, s).

Definition throw {E A} (e : E) : M S E A := fun s => (Err e, s).

Definition bind {E A B} (m : M S E A) (k : A -> M S E B) : M S E B :=
  fun s => match m s with
           | (Ok a, s') => k a s'
           | (Err e, s') => (Err e, s')
           end.

(** [.await.map_err(f)] and the [From] conversions of [?]. *)
Definition map_err {E F A} (f : E -> F) (m : M S E A) : M S F A :=
  fun s => let '(r, s') := m s in (result_map_err f r, s').

(** [match m.await { Ok .. => , Err .. => }]: the error becomes a value. *)
Definition attempt {E F A} (m : M S E A) : M S F (result E A) :=
  fun s => let '(r, s') := m s in (Ok r, s').

(** [m.await.ok();], [let _ = m.await;]: the result is dropped. *)
Definition ignore {E F A} (m : M S E A) : M S F unit :=
  fun s => let '(_, s') := m s in (Ok tt, s').

Definition get_state {E} : M S E S := fun s => (Ok s, s).

Definition modify {E} (f : S -> S) : M S E unit := fun s => (Ok tt, f s).

Definition lift {E A} (r : result E A) : M S E A := fun s => (r, s).

(** [for x in l { f(x).await? }] *)
Fixpoint for_each {E X} (f : X -> M S E unit) (l : list X) : M S E unit :=
  match l with
  | [] => ret tt
  | x :: l' => bind (f x) (fun _ => for_each f l')
  end.

(** [let mut v = vec![]; for x in l { v.push(f(x).await?) }] *)
Fixpoint map_each {E X A} (f : X -> M S E A) (l : list X) : M S E (list A) :=
  match l with
  | [] => ret []
  | x :: l' => bind (f x) (fun a =>
               bind (map_each f l') (fun r => ret (a :: r)))
  end.
End Monad.

Notation "x <- m ;; k" := (bind m (fun x => k))
  (at level 100, m at next level, right associativity) : rust_scope.
Notation "m ;;; k" := (bind m (fun _ => k))
  (at level 100, right associativity) : rust_scope.

(** [a == b] on data with decidable equality. *)
Notation "x ==? y" := (bool_decide (x = y)) (at level 70) : rust_scope.

(** * Weakest preconditions *)

Definition wp {S E A} (m : M S E A) (Q : result E A -> S -> Prop) (s : S) : Prop :=
  Q (m s).1 (m s).2.

Section Wp.
Context {S : Type}.

Lemma wp_ret {E A} (a : A) (Q : result E A -> S -> Prop) s :
  Q (Ok a) s -> wp (ret a) Q s.
Proof. done. Qed.

Lemma wp_throw {E A} (e : E) (Q : result E A -> S -> Prop) s :
  Q (Err e) s -> wp (throw e) Q s.
Proof. done. Qed.

Lemma wp_lift {E A} (r : result E A) (Q : result E A -> S -> Prop) s :
  Q r s -> wp (lift r) Q s.
Proof. done. Qed.

Lemma wp_bind {E A B} (m : M S E A) (k : A -> M S E B) Q s :
  wp m (fun r s' => match r with
                    | Ok a => wp (k a) Q s'
                    | Err e => Q (Err e) s'
                    end) s ->
  wp (bind m k) Q s.
Proof. unfold wp, bind. by destruct (m s) as [[a|e] s']. Qed.

Lemma wp_map_err {E F A} (f : E -> F) (m : M S E A) (Q : result F A -> S -> Prop) s :
  wp m (fun r s' => Q (result_map_err f r) s') s -> wp (map_err f m) Q s.
Proof. unfold wp, map_err. by destruct (m s). Qed.

Lemma wp_attempt {E F A} (m : M S E A) (Q : result F (result E A) -> S -> Prop) s :
  wp m (fun r s' => Q (Ok r) s') s -> wp (attempt m) Q s.
Proof. unfold wp, attempt. by destruct (m s). Qed.

Lemma wp_ignore {E F A} (m : M S E A) (Q : result F unit -> S -> Prop) s :
  wp m (fun _ s' => Q (Ok tt) s') s -> wp (ignore m) Q s.
Proof. unfold wp, ignore. by destruct (m s). Qed.

Lemma wp_get_state {E} (Q : result E S -> S -> Prop) s :
  Q (Ok s) s -> wp get_state Q s.
Proof. done. Qed.

Lemma wp_modify {E} (f : S -> S) (Q : result E unit -> S -> Prop) s :
  Q (Ok tt) (f s) -> wp (modify f) Q s.
Proof. done. Qed.

Lemma wp_mono {E A} (m : M S E A) (P Q : result E A -> S -> Prop) s :
  wp m P s -> (forall r s', P r s' -> Q r s') -> wp m Q s.
Proof. unfold wp. auto. Qed.

Lemma wp_and {E A} (m : M S E A) (P Q : result E A -> S -> Prop) s :
  wp m P s -> wp m Q s -> wp m (fun r s' => P r s' /\ Q r s') s.
Proof. done. Qed.

(** A loop keeps an invariant indexed by the elements already handled. *)
Lemma wp_for_each {E X} (f : X -> M S E unit) (l : list X)
    (I : list X -> S -> Prop) (Q : result E unit -> S -> Prop) s :
  I [] s ->
  (forall done x todo s', l = done ++ x :: todo -> I done s' ->
     wp (f x) (fun r s'' => match r with
                            | Ok _ => I (done ++ [x]) s''
                            | Err e => Q (Err e) s''
                            end) s') ->
  (forall s', I l s' -> Q (Ok tt) s') ->
  wp (for_each f l) Q s.
Proof.
  intros H0 Hstep Hend.
  cut (forall todo done s', l = done ++ todo -> I done s' -> wp (for_each f todo) Q s').
  { intros H. by apply (H l []). }
  clear s H0. induction todo as [|x todo IH]; intros dn s' -> HI; simpl.
  - apply wp_ret, Hend. by rewrite app_nil_r.
  - apply wp_bind. eapply wp_mono; [by eapply Hstep|].
    intros [[]|e] s'' H; [|done].
    apply (IH (dn ++ [x])); [by rewrite <- app_assoc | done].
Qed.

(** The same rule for a loop that collects the results. *)
Lemma wp_map_each {E X A} (f : X -> M S E A) (l : list X)
    (I : list X -> list A -> S -> Prop) (Q : result E (list A) -> S -> Prop) s :
  I [] [] s ->
  (forall done x todo acc s', l = done ++ x :: todo -> I done acc s' ->
     wp (f x) (fun r s'' => match r with
                            | Ok a => I (done ++ [x]) (acc ++ [a]) s''
                            | Err e => Q (Err e) s''
                            end) s') ->
  (forall acc s', I l acc s' -> Q (Ok acc) s') ->
  wp (map_each f l) Q s.
Proof.
  intros H0 Hstep Hend.
  cut (forall todo done acc s', l = done ++ todo -> I done acc s' ->
         wp (map_each f todo)
           (fun r s'' => match r with
                         | Ok rest => I l (acc ++ rest) s''
                         | Err e => Q (Err e) s''
                         end) s').
  { intros H. eapply wp_mono; [by apply (H l [] [])|].
    intros [rest|e] s' Hr; [by apply Hend | done]. }
  clear s H0. induction todo as [|x todo IH]; intros dn acc s' Hl HI; simpl.
  - apply wp_ret. rewrite app_nil_r in Hl. subst. by rewrite app_nil_r.
  - apply wp_bind. eapply wp_mono; [by eapply Hstep|].
    intros [a|e] s'' H; [|done].
    apply wp_bind. eapply wp_mono.
    { apply (IH (dn ++ [x]) (acc ++ [a])); [by rewrite <- app_assoc, Hl | done]. }
    intros [rest|e] s3 H3; [|done].
    apply wp_ret. by rewrite <- app_assoc in H3.
Qed.

(** A transition relation every iteration respects is respected by the loop,
    whatever the outcome. *)
Lemma for_each_preserves {E X} (R : S -> S -> Prop) `{!PreOrder R}
    (f : X -> M S E unit) (l : list X) :
  (forall x s, wp (f x) (fun _ s' => R s s') s) ->
  forall s, wp (for_each f l) (fun _ s' => R s s') s.
Proof.
  intros Hf. induction l as [|x l IH]; intros s; simpl; [by apply wp_ret|].
  apply wp_bind. eapply wp_mono; [apply Hf|].
  intros [a|e] s' H; [|done].
  eapply wp_mono; [apply IH|]. intros r s'' H'. by etrans.
Qed.

Lemma map_each_preserves {E X A} (R : S -> S -> Prop) `{!PreOrder R}
    (f : X -> M S E A) (l : list X) :
  (forall x s, wp (f x) (fun _ s' => R s s') s) ->
  forall s, wp (map_each f l) (fun _ s' => R s s') s.
Proof.
  intros Hf. induction l as [|x l IH]; intros s; simpl; [by apply wp_ret|].
  apply wp_bind. eapply wp_mono; [apply Hf|].
  intros [a|e] s' H; [|done].
  apply wp_bind. eapply wp_mono; [apply IH|].
  intros [r|e] s'' H'; [apply wp_ret|]; by etrans.
Qed.

Lemma bind_preserves {E A B} (R : S -> S -> Prop) `{!PreOrder R}
    (m : M S E A) (k : A -> M S E B) s :
  wp m (fun _ s' => R s s') s ->
  (forall a s', wp (k a) (fun _ s'' => R s' s'') s') ->
  wp (bind m k) (fun _ s' => R s s') s.
Proof.
  intros Hm Hk. apply wp_bind. eapply wp_mono; [exact Hm|].
  intros [a|e] s' H; [|done].
  eapply wp_mono; [apply Hk|]. intros r s'' H'. by etrans.
Qed.
End Wp.

Create HintDb wp discriminated.
#[export] Hint Resolve wp_ret wp_throw wp_lift wp_get_state wp_modify : wp.

(** One structural step of the calculus; [wp_steps] repeats it. *)
Ltac wp_step :=
  lazymatch goal with
  | |- wp (ret _) _ _ => apply wp_ret
  | |- wp (throw _) _ _ => apply wp_throw
  | |- wp (lift _) _ _ => apply wp_lift
  | |- wp (bind _ _) _ _ => apply wp_bind
  | |- wp (map_err _ _) _ _ => apply wp_map_err
  | |- wp (attempt _) _ _ => apply wp_attempt
  | |- wp (ignore _) _ _ => apply wp_ignore
  | |- wp get_state _ _ => apply wp_get_state
  | |- wp (modify _) _ _ => apply wp_modify
  | |- wp (if ?b then _ else _) _ _ => destruct b eqn:?
  | |- wp (match ?r with Ok _ => _ | Err _ => _ end) _ _ => destruct r eqn:?
  | |- wp (match ?o with Some _ => _ | None => _ end) _ _ => destruct o eqn:?
  end.
Ltac wp_steps := repeat (wp_step; cbn beta iota).

(** Run the specification [H] of a call and continue with its post-condition. *)
Tactic Notation "wp_call" uconstr(H) := eapply wp_mono; [eapply H|]; cbn beta.

Lemma bind_lift {S E A B} (r : result E A) (k : A -> M S E B) s :
  bind (lift r) k s = match r with Ok a => k a s | Err e => (Err e, s) end.
Proof. by destruct r. Qed.

Lemma wp_run {S E A} (m : M S E A) (Q : result E A -> S -> Prop) s r s' :
  wp m Q s -> m s = (r, s') -> Q r s'.
Proof. unfold wp. intros H Heq. by rewrite Heq in H. Qed.

(** * Identifiers *)

(** [uuid::Uuid], as the number its 128 bits spell; [Uuid::nil()] is 0. *)
Definition Uuid : Type := N.
Definition Uuid_nil : Uuid := 0%N.

(** * Fixed-width integers *)

Definition i16_min : Z := -32768.
Definition i16_max : Z := 32767.
Definition i64_max : Z := 9223372036854775807.
Definition i64_min : Z := -9223372036854775808.
Definition u64_max : Z := 18446744073709551615.
Definition u32_max : Z := 4294967295.

(** [i64::try_from(x: u64).unwrap_or(i64::MAX)] *)
Definition u64_to_i64_sat (x : Z) : Z := if x <=? i64_max then x else i64_max.

(** [u64::try_from(x: i64).unwrap_or_default()] *)
Definition i64_to_u64_or_zero (x : Z) : Z := if x <? 0 then 0 else x.

(** [i16::saturating_add] *)
Definition i16_saturating_add (x y : Z) : Z := Z.max i16_min (Z.min i16_max (x + y)).

(** Two's-complement wrap-around of a 64-bit operation (release builds). *)
Definition wrap_i64 (x : Z) : Z := (x - i64_min) `mod` 2 ^ 64 + i64_min.

Lemma u64_i64_roundtrip (x : Z) :
  0 <= x <= i64_max -> i64_to_u64_or_zero (u64_to_i64_sat x) = x.
Proof.
  unfold u64_to_i64_sat, i64_to_u64_or_zero. intros [H1 H2].
  apply Z.leb_le in H2 as ->. destruct (x <? 0) eqn:E; [|done].
  apply Z.ltb_lt in E. lia.
Qed.

Lemma wrap_i64_id (x : Z) : i64_min <= x <= i64_max -> wrap_i64 x = x.
Proof. unfold wrap_i64, i64_min, i64_max. intros. rewrite Z.mod_small; lia. Qed.

Lemma wrap_i64_range (x : Z) : i64_min <= wrap_i64 x <= i64_max.
Proof.
  unfold wrap_i64, i64_max, i64_min.
  pose proof (Z.mod_pos_bound (x - -9223372036854775808) (2 ^ 64)). lia.
Qed.

(** * Strings (UTF-8 bytes) *)

(** [str::starts_with] *)
Fixpoint starts_with (pat s : string) : bool :=
  match pat, s with
  | EmptyString, _ => true
  | String a pat', String b s' => if Ascii.eqb a b then starts_with pat' s' else false
  | _, EmptyString => false
  end.

(** [str::contains] *)
Fixpoint contains (pat s : string) : bool :=
  starts_with pat s ||
  match s with EmptyString => false | String _ s' => contains pat s' end.

Definition ascii_lower (c : Ascii.ascii) : Ascii.ascii :=
  let n := Ascii.nat_of_ascii c in
  if (65 <=? n)%nat && (n <=? 90)%nat then Ascii.ascii_of_nat (n + 32) else c.

Fixpoint string_map (f : Ascii.ascii -> Ascii.ascii) (s : string) : string :=
  match s with EmptyString => EmptyString | String c s' => String (f c) (string_map f s') end.

(** [str::to_ascii_lowercase] *)
Definition to_ascii_lowercase (s : string) : string := string_map ascii_lower s.

(** [str::eq_ignore_ascii_case] *)
Definition eq_ignore_ascii_case (s t : string) : bool :=
  String.eqb (to_ascii_lowercase s) (to_ascii_lowercase t).

(** [str::replace] for a non-empty pattern: left to right, without overlap;
    [skip] counts the bytes of a match still to be dropped. *)
Fixpoint replace_go (from to : string) (skip : nat) (s : string) : string :=
  match s with
  | EmptyString => EmptyString
  | String c s' =>
      match skip with
      | S k => replace_go from to k s'
      | O => if starts_with from s
             then String.append to (replace_go from to (String.length from - 1) s')
             else String c (replace_go from to O s')
      end
  end.
Definition str_replace (from to s : string) : string := replace_go from to O s.

(** The UTF-8 encodings of the code points with the Unicode property
    [White_Space], which [str::trim] removes. *)
Definition bytes (l : list nat) : string :=
  fold_right (fun n s => String (Ascii.ascii_of_nat n) s) EmptyString l.
Definition white_space : list string :=
  map bytes
    ([ [9]; [10]; [11]; [12]; [13]; [32]; [194; 133]; [194; 160]; [225; 154; 128];
       [226; 128; 168]; [226; 128; 169]; [226; 128; 175]; [226; 129; 159]; [227; 128; 128] ]
     ++ map (fun k => [226; 128; 128 + k]) (seq 0 11))%nat.

Fixpoint drop_bytes (n : nat) (s : string) : string :=
  match n, s with
  | S n', String _ s' => drop_bytes n' s'
  | _, _ => s
  end.

Fixpoint trim_start_go (fuel : nat) (ws : list string) (s : string) : string :=
  match fuel with
  | O => s
  | S fuel' =>
      match List.find (fun w => starts_with w s) ws with
      | Some w => trim_start_go fuel' ws (drop_bytes (String.length w) s)
      | None => s
      end
  end.

Fixpoint string_rev_app (s acc : string) : string :=
  match s with EmptyString => acc | String c s' => string_rev_app s' (String c acc) end.
Definition string_rev (s : string) : string := string_rev_app s EmptyString.

(** [str::trim]: every round removes at least one byte, so [length s] rounds
    are enough at each end. *)
Definition trim_start (s : string) : string := trim_start_go (String.length s) white_space s.
Definition trim_end (s : string) : string :=
  string_rev (trim_start_go (String.length s) (map string_rev white_space) (string_rev s)).
Definition trim (s : string) : string := trim_end (trim_start s).

(** [str::strip_prefix], and [str::split] at an ASCII character. *)
Definition strip_prefix (p s : string) : option string :=
  if starts_with p s then Some (drop_bytes (String.length p) s) else None.
Fixpoint split_char (c : Ascii.ascii) (s : string) : list string :=
  match s with
  | EmptyString => [EmptyString]
  | String a s' =>
      if Ascii.eqb a c then EmptyString :: split_char c s'
      else match split_char c s' with
           | x :: l => String a x :: l
           | [] => [String a EmptyString]
           end
  end.

(** A UTF-8 continuation byte: [str::is_char_boundary] is false before it. *)
Definition is_continuation (c : Ascii.ascii) : bool :=
  let n := Ascii.nat_of_ascii c in (128 <=? n)%nat && (n <? 192)%nat.

(** The ranges of the bytes that follow the first byte of a character. *)
Definition utf8_tail (lead : nat) : option (list (nat * nat)) :=
  let any := (128, 191)%nat in
  (if lead <? 128 then Some []
   else if lead <? 194 then None
   else if lead <? 224 then Some [any]
   else if lead <? 225 then Some [(160, 191); any]
   else if lead =? 237 then Some [(128, 159); any]
   else if lead <? 240 then Some [any; any]
   else if lead <? 241 then Some [(144, 191); any; any]
   else if lead <? 244 then Some [any; any; any]
   else if lead =? 244 then Some [(128, 143); any; any]
   else None)%nat.
Fixpoint utf8_from (pending : list (nat * nat)) (s : string) : bool :=
  match s, pending with
  | EmptyString, [] => true
  | EmptyString, _ => false
  | String c s', (lo, hi) :: pending' =>
      let n := Ascii.nat_of_ascii c in
      (lo <=? n)%nat && (n <=? hi)%nat && utf8_from pending' s'
  | String c s', [] =>
      match utf8_tail (Ascii.nat_of_ascii c) with
      | Some pending' => utf8_from pending' s'
      | None => false
      end
  end.
Definition utf8_valid (s : string) : bool := utf8_from [] s.
(** [String::from_utf8], [str::from_utf8] *)
Definition from_utf8 (bytes : string) : option string :=
  if utf8_valid bytes then Some bytes else None.

(** [s.chars().take(n).collect::<String>()] *)
Fixpoint take_chars (n : nat) (s : string) : string :=
  match s with
  | EmptyString => EmptyString
  | String c s' =>
      if is_continuation c then String c (take_chars n s')
      else match n with O => EmptyString | S n' => String c (take_chars n' s') end
  end.

(** [&s[..n]] for [n <= s.len()]: [None] is the panic of a slice that would
    cut a character. *)
Definition slice_to (n : nat) (s : string) : option string :=
  match String.get n s with
  | Some c => if is_continuation c then None else Some (String.substring 0 n s)
  | None => Some s
  end.

(** [{n:02}] *)
Definition pad2 (n : nat) : string :=
  if (n <? 10)%nat then String.append "0" (pretty n) else pretty n.

#[global] Arguments String.append : simpl never.
Infix "+++" := String.append (at level 60, right associativity) : rust_scope.

Lemma append_nil_r (s : string) : s +++ EmptyString = s.
Proof. induction s as [|c s IH]; [done|]. unfold String.append in *. simpl. by rewrite IH. Qed.

Lemma append_cons (c : Ascii.ascii) (s t : string) : String c s +++ t = String c (s +++ t).
Proof. done. Qed.

Lemma append_nil_l (s : string) : EmptyString +++ s = s.
Proof. done. Qed.

Lemma append_assoc (s t u : string) : (s +++ t) +++ u = s +++ (t +++ u).
Proof.
  induction s as [|c s IH]; [done|].
  by rewrite !append_cons, IH.
Qed.

(** Replacing a single character. *)
Lemma str_replace_char a to c s :
  str_replace (String a EmptyString) to (String c s) =
  if Ascii.eqb a c then to +++ str_replace (String a EmptyString) to s
  else String c (str_replace (String a EmptyString) to s).
Proof. unfold str_replace. cbn [replace_go starts_with]. by destruct (Ascii.eqb a c). Qed.

Lemma append_inj_r (s t u : string) : s +++ t = s +++ u -> t = u.
Proof.
  induction s as [|c s IH]; [done|].
  rewrite !append_cons. intros [= H]. by apply IH.
Qed.

Lemma starts_with_append (p s : string) : starts_with p (p +++ s) = true.
Proof.
  induction p as [|c p IH]; [by destruct s|].
  rewrite append_cons. simpl. by rewrite Ascii.eqb_refl.
Qed.

(** Every byte satisfies [p]. *)
Fixpoint all_chars (p : Ascii.ascii -> bool) (s : string) : bool :=
  match s with EmptyString => true | String c s' => p c && all_chars p s' end.

(** A pattern whose first byte does not occur is not contained. *)
Lemma contains_first (a : Ascii.ascii) p s :
  all_chars (fun c => negb (Ascii.eqb a c)) s = true -> contains (String a p) s = false.
Proof.
  induction s as [|c s IH]; simpl; [done|]. intros [Hc Hs]%andb_true_iff.
  apply negb_true_iff in Hc. rewrite Hc. by apply IH.
Qed.

Definition decimal (c : Ascii.ascii) : bool :=
  let n := Ascii.nat_of_ascii c in ((48 <=? n) && (n <=? 57) || (n =? 45))%nat.

Lemma pretty_N_go_decimal x s :
  all_chars decimal s = true -> all_chars decimal (pretty_N_go x s) = true.
Proof.
  revert s. induction (N.lt_wf_0 x) as [x _ IH]; intros s Hs.
  destruct (decide (x = 0)%N) as [->|Hx]; [by rewrite pretty_N_go_0|].
  rewrite pretty_N_go_step by lia. apply IH; [apply N.div_lt; lia|].
  simpl. rewrite Hs. unfold pretty_N_char. by repeat case_match.
Qed.

(** Decimal numbers are written with digits and a minus sign. *)
Lemma pretty_Z_decimal (z : Z) : all_chars decimal (pretty z) = true.
Proof.
  assert (HN : forall n : N, all_chars decimal (pretty n) = true).
  { intros n. unfold pretty, pretty_N. destruct (decide (n = 0%N)); [done|].
    by apply pretty_N_go_decimal. }
  unfold pretty, pretty_Z. destruct z as [|p|p]; [done|apply HN|].
  exact (HN (Npos p)).
Qed.

Lemma all_chars_mono (p q : Ascii.ascii -> bool) s :
  (forall c, p c = true -> q c = true) -> all_chars p s = true -> all_chars q s = true.
Proof.
  intros Hpq. induction s as [|c s IH]; simpl; [done|].
  intros [Hc Hs]%andb_true_iff. by rewrite (Hpq c Hc), IH.
Qed.

Lemma all_chars_map p (f : Ascii.ascii -> Ascii.ascii) s :
  all_chars p (string_map f s) = all_chars (fun c => p (f c)) s.
Proof. induction s as [|c s IH]; simpl; [done|]. by rewrite IH. Qed.

Lemma all_chars_app p (s t : string) : all_chars p (s +++ t) = all_chars p s && all_chars p t.
Proof. induction s as [|c s IH]; [done|]. rewrite append_cons. simpl. by rewrite IH, andb_assoc. Qed.

Lemma all_chars_rev_app p s acc : all_chars p (string_rev_app s acc) = all_chars p s && all_chars p acc.
Proof.
  revert acc. induction s as [|c s IH]; intros acc; simpl; [done|]. rewrite IH. simpl.
  by destruct (p c), (all_chars p s), (all_chars p acc).
Qed.

Lemma string_rev_app_twice s t u : string_rev_app (string_rev_app s t) u = string_rev_app t (s +++ u).
Proof. revert t. induction s as [|c s IH]; intros t; simpl; [done|]. by rewrite IH. Qed.

Lemma string_rev_involutive s : string_rev (string_rev s) = s.
Proof. unfold string_rev. rewrite string_rev_app_twice. simpl. by rewrite append_nil_r. Qed.

(** The printable ASCII characters other than the space. *)
Definition graphic (c : Ascii.ascii) : bool :=
  let n := Ascii.nat_of_ascii c in (33 <=? n)%nat && (n <? 127)%nat.

Lemma trim_start_go_graphic fuel ws s :
  forallb (fun w => match w with String a _ => negb (graphic a) | EmptyString => false end) ws = true ->
  all_chars graphic s = true -> trim_start_go fuel ws s = s.
Proof.
  intros Hws Hs. destruct fuel as [|fuel]; [done|]. simpl.
  assert (Hn : List.find (fun w => starts_with w s) ws = None); [|by rewrite Hn].
  induction ws as [|w ws IH]; [done|]. simpl in *. apply andb_true_iff in Hws as [Hw Hws].
  rewrite IH by done. destruct w as [|a w]; [done|]. destruct s as [|c s]; [done|]. simpl in *.
  apply andb_true_iff in Hs as [Hc _]. destruct (Ascii.eqb a c) eqn:E; [|done].
  apply Ascii.eqb_eq in E as ->. by rewrite Hc in Hw.
Qed.

(** There is nothing to trim. *)
Lemma trim_graphic s : all_chars graphic s = true -> trim s = s.
Proof.
  intros Hs. unfold trim, trim_start, trim_end.
  rewrite (trim_start_go_graphic _ white_space s); [|vm_compute; done|done].
  rewrite trim_start_go_graphic; [apply string_rev_involutive|vm_compute; done|].
  unfold string_rev. by rewrite all_chars_rev_app, Hs.
Qed.

Lemma split_char_none c s :
  all_chars (fun a => negb (Ascii.eqb a c)) s = true -> split_char c s = [s].
Proof.
  induction s as [|a s IH]; simpl; [done|]. intros [Ha Hs]%andb_true_iff.
  apply negb_true_iff in Ha. by rewrite Ha, IH.
Qed.

Lemma split_char_app c s t :
  all_chars (fun a => negb (Ascii.eqb a c)) s = true ->
  split_char c (s +++ String c t) = s :: split_char c t.
Proof.
  induction s as [|a s IH]; [intros _; rewrite append_nil_l; simpl; by rewrite Ascii.eqb_refl|].
  rewrite append_cons. simpl. intros [Ha Hs]%andb_true_iff.
  apply negb_true_iff in Ha. by rewrite Ha, IH.
Qed.

(** [str::splitn(2, c)]: the first piece, and the rest if [c] occurs. *)
Fixpoint split_once (c : Ascii.ascii) (s : string) : string * option string :=
  match s with
  | EmptyString => (EmptyString, None)
  | String a s' =>
      if Ascii.eqb a c then (EmptyString, Some s')
      else let '(k, v) := split_once c s' in (String a k, v)
  end.

(** [str::parse::<i64>]: an optional sign and decimal digits, within range. *)
Definition digit (c : Ascii.ascii) : option Z :=
  let n := Z.of_nat (Ascii.nat_of_ascii c) in
  if (48 <=? n) && (n <=? 57) then Some (n - 48) else None.
Fixpoint parse_digits (acc : Z) (s : string) : option Z :=
  match s with
  | EmptyString => Some acc
  | String c s' => match digit c with Some d => parse_digits (acc * 10 + d) s' | None => None end
  end.
Definition parse_unsigned (s : string) : option Z :=
  match s with EmptyString => None | _ => parse_digits 0 s end.
Definition parse_i64 (s : string) : option Z :=
  let value := match s with
               | String "+"%char s' => parse_unsigned s'
               | String "-"%char s' => Z.opp <$> parse_unsigned s'
               | _ => parse_unsigned s
               end in
  match value with
  | Some z => if (i64_min <=? z) && (z <=? i64_max) then Some z else None
  | None => None
  end.

Lemma parse_i64_range s z : parse_i64 s = Some z -> i64_min <= z <= i64_max.
Proof.
  unfold parse_i64. destruct (match s with String "+"%char _ => _ | _ => _ end); [|done].
  destruct (Z.leb_spec i64_min z0), (Z.leb_spec z0 i64_max); simpl; intros [= <-]; done.
Qed.

Lemma digit_pretty n : (n < 10)%N -> digit (pretty_N_char n) = Some (Z.of_N n).
Proof.
  intros H. assert (Hall : forall k, (k < 10)%nat ->
    digit (pretty_N_char (N.of_nat k)) = Some (Z.of_nat k)).
  { intros k Hk. do 10 (destruct k as [|k]; [reflexivity|]). lia. }
  rewrite <- (N2Nat.id n) at 1. rewrite Hall by lia. f_equal. lia.
Qed.

Lemma parse_digits_pretty n s : parse_digits 0 (pretty_N_go n s) = parse_digits (Z.of_N n) s.
Proof.
  revert s. induction (N.lt_wf_0 n) as [n _ IH]; intros s.
  destruct (decide (n = 0)%N) as [->|Hn]; [by rewrite pretty_N_go_0|].
  rewrite pretty_N_go_step by lia. rewrite IH by (apply N.div_lt; lia). simpl.
  rewrite digit_pretty by (apply N.mod_lt; lia). f_equal.
  rewrite N2Z.inj_div, N2Z.inj_mod. pose proof (Z.div_mod (Z.of_N n) 10). lia.
Qed.

Lemma pretty_N_head n : exists c s, pretty (n : N) = String c s /\ digit c <> None.
Proof.
  assert (Hgo : forall n s, (n <> 0)%N -> exists c t, pretty_N_go n s = String c t /\ digit c <> None).
  { clear n. intros n. induction (N.lt_wf_0 n) as [n _ IH]; intros s Hn.
    rewrite pretty_N_go_step by lia. destruct (decide (n / 10 = 0)%N) as [->|Hd].
    - rewrite pretty_N_go_0. eexists _, _. split; [done|].
      by rewrite digit_pretty by (apply N.mod_lt; lia).
    - apply IH; [apply N.div_lt; lia|done]. }
  unfold pretty, pretty_N. destruct (decide (n = 0)%N) as [->|Hn]; [|by apply Hgo].
  by eexists _, _.
Qed.

(** A number that is printed is read back. *)
Lemma parse_i64_pretty z : 0 <= z <= i64_max -> parse_i64 (pretty z) = Some z.
Proof.
  intros Hz. assert (Hp : pretty z = pretty (Z.to_N z)) by (by destruct z; [| |lia]).
  rewrite Hp. destruct (pretty_N_head (Z.to_N z)) as (c & s & Hs & Hc).
  assert (Hu : parse_unsigned (pretty (Z.to_N z)) = Some z).
  { unfold parse_unsigned. rewrite Hs. rewrite <- Hs. unfold pretty, pretty_N.
    destruct (decide (Z.to_N z = 0)%N) as [E|E].
    - trans (Some 0); [reflexivity|f_equal; lia].
    - rewrite parse_digits_pretty. simpl. f_equal. lia. }
  unfold parse_i64. rewrite Hs in *.
  assert (Hv : match String c s with
    | String "+"%char s' => parse_unsigned s'
    | String "-"%char s' => Z.opp <$> parse_unsigned s'
    | _ => parse_unsigned (String c s)
    end = Some z).
  { rewrite <- Hu. destruct c as [[] [] [] [] [] [] [] []]; try reflexivity; by destruct Hc. }
  rewrite Hv. destruct (Z.leb_spec i64_min z), (Z.leb_spec z i64_max);
    unfold i64_min, i64_max in *; simpl; done || lia.
Qed.

Create Rewrite HintDb str.
#[export] Hint Rewrite append_nil_r append_nil_l append_assoc append_cons : str.

(** * Lists as tables *)

Section Tables.
Context {A : Type}.

(** [UPDATE .. WHERE p]: the rows [p] selects, rewritten by [f]. *)
Definition update_rows (p : A -> bool) (f : A -> A) (l : list A) : list A :=
  map (fun r => if p r then f r else r) l.

Lemma update_rows_none (p : A -> bool) f (l : list A) :
  List.filter p l = [] -> update_rows p f l = l.
Proof.
  unfold update_rows. induction l as [|x l IH]; simpl; [done|].
  destruct (p x); [done|]. intros H. by rewrite IH.
Qed.

Lemma update_rows_ext (p q : A -> bool) f g (l : list A) :
  (forall x, p x = q x) -> (forall x, p x = true -> f x = g x) ->
  update_rows p f l = update_rows q g l.
Proof.
  intros Hp Hf. unfold update_rows. apply map_ext. intros x.
  rewrite <- Hp. destruct (p x) eqn:E; [by apply Hf | done].
Qed.

Lemma update_rows_in (p q : A -> bool) f g (l : list A) :
  (forall x, In x l -> p x = q x /\ f x = g x) -> update_rows p f l = update_rows q g l.
Proof.
  intros H. unfold update_rows. apply map_ext_in. intros x Hx. by destruct (H x Hx) as [-> ->].
Qed.

Lemma update_rows_false (p : A -> bool) f (l : list A) :
  (forall x, p x = false) -> update_rows p f l = l.
Proof.
  intros H. unfold update_rows. rewrite <- (map_id l) at 2.
  apply map_ext. intros x. by rewrite H.
Qed.

Lemma filter_false (p : A -> bool) (l : list A) :
  (forall x, p x = false) -> List.filter p l = [].
Proof. intros H. induction l as [|x l IH]; simpl; [done|]. by rewrite H. Qed.

Lemma filter_false_in (p : A -> bool) (l : list A) :
  (forall x, In x l -> p x = false) -> List.filter p l = [].
Proof.
  induction l as [|x l IH]; simpl; [done|]. intros H. rewrite H by auto. auto.
Qed.

(** Dropping the rows an update rewrote leaves the others as they were. *)
Lemma filter_not_updated (p q : A -> bool) f (l : list A) :
  (forall x, p x = true -> q (f x) = true) -> (forall x, q x = p x) ->
  List.filter (fun x => negb (q x)) (update_rows p f l) = List.filter (fun x => negb (p x)) l.
Proof.
  intros Hf Hq. unfold update_rows. induction l as [|x l IH]; simpl; [done|].
  destruct (p x) eqn:E; simpl; [by rewrite Hf|]. by rewrite Hq, E, IH.
Qed.

Lemma in_update_rows (p : A -> bool) f (l : list A) r :
  In r (update_rows p f l) <->
  exists x, In x l /\ r = if p x then f x else x.
Proof.
  unfold update_rows. rewrite in_map_iff. split; intros (x & H & H'); eauto.
Qed.

(** An update that only rewrites rows outside [q] and keeps them outside
    [q] does not change what [q] selects. *)
Lemma filter_update_rows_other (q p : A -> bool) f (l : list A) :
  (forall x, p x = true -> q x = false /\ q (f x) = false) ->
  List.filter q (update_rows p f l) = List.filter q l.
Proof.
  intros H. unfold update_rows. induction l as [|x l IH]; simpl; [done|].
  destruct (p x) eqn:E; rewrite IH; [|done].
  destruct (H x E) as [-> ->]. done.
Qed.

Lemma filter_update_rows (q p : A -> bool) f (l : list A) :
  (forall x, p x = true -> q (f x) = q x) ->
  List.filter q (update_rows p f l) = update_rows p f (List.filter q l).
Proof.
  intros H. unfold update_rows. induction l as [|x l IH]; simpl; [done|].
  destruct (p x) eqn:E.
  - rewrite (H x E). destruct (q x); simpl; [rewrite E|]; by rewrite IH.
  - destruct (q x); simpl; [rewrite E|]; by rewrite IH.
Qed.

Lemma length_update_rows (p : A -> bool) f (l : list A) :
  length (update_rows p f l) = length l.
Proof. apply length_map. Qed.

Lemma update_rows_app (p : A -> bool) f (l k : list A) :
  update_rows p f (l ++ k) = update_rows p f l ++ update_rows p f k.
Proof. apply map_app. Qed.

Lemma update_rows_twice (p : A -> bool) f g (l : list A) :
  (forall x, p x = true -> p (f x) = true) ->
  update_rows p g (update_rows p f l) = update_rows p (fun x => g (f x)) l.
Proof.
  intros H. unfold update_rows. rewrite map_map. apply map_ext. intros x.
  destruct (p x) eqn:E; [by rewrite (H x E) | by rewrite E].
Qed.

Lemma in_list_filter (p : A -> bool) (l : list A) x :
  In x (List.filter p l) <-> In x l /\ p x = true.
Proof. apply filter_In. Qed.
End Tables.

(** A key without duplicates identifies the element. *)
Lemma existsb_filter {A} (p : A -> bool) (l : list A) :
  existsb p l = match List.filter p l with [] => false | _ => true end.
Proof. induction l as [|x l IH]; simpl; [done|]. by destruct (p x). Qed.

Lemma filter_true_in {A} (p : A -> bool) (l : list A) :
  (forall x, In x l -> p x = true) -> List.filter p l = l.
Proof.
  induction l as [|x l IH]; simpl; intros H; [done|]. rewrite (H x), IH by auto. done.
Qed.

Lemma filter_narrow {A} (p q : A -> bool) (l : list A) :
  (forall x, p x = true -> q x = true) ->
  List.filter p (List.filter q l) = List.filter p l.
Proof.
  intros H. induction l as [|x l IH]; simpl; [done|]. destruct (q x) eqn:Q; simpl.
  - by rewrite IH.
  - rewrite IH. destruct (p x) eqn:P; [|done]. by rewrite (H x P) in Q.
Qed.

Lemma NoDup_map_filter {A B} (f : A -> B) p (l : list A) :
  NoDup (map f l) -> NoDup (map f (List.filter p l)).
Proof.
  induction l as [|x l IH]; simpl; [done|]. intros [Hx Hl]%NoDup_cons.
  destruct (p x); simpl; [|by apply IH]. apply NoDup_cons. split; [|by apply IH].
  rewrite list_elem_of_In, in_map_iff in *. intros (y & Hy & [Hin _]%filter_In). apply Hx. by exists y.
Qed.

Lemma NoDup_map_inj {A B} (f : A -> B) l x y :
  NoDup (map f l) -> In x l -> In y l -> f x = f y -> x = y.
Proof.
  induction l as [|a l IH]; simpl; [done|]. intros [Ha Hnd]%NoDup_cons.
  assert (Hout : forall z, In z l -> f z <> f a).
  { intros z Hz Heq. apply Ha. rewrite <- Heq. apply list_elem_of_In, in_map, Hz. }
  intros [->|Hx] [->|Hy] Heq; [done| | |by apply IH].
  - by destruct (Hout y Hy).
  - by destruct (Hout x Hx).
Qed.

(** [ORDER BY]: a stable sort by a total preorder. *)
Section Sorting.
Context {A : Type} (leb : A -> A -> bool).

Fixpoint insert_by (x : A) (l : list A) : list A :=
  match l with
  | [] => [x]
  | y :: l' => if leb x y then x :: l else y :: insert_by x l'
  end.
Definition sort_by (l : list A) : list A := fold_right insert_by [] l.

Lemma insert_by_perm x l : insert_by x l ≡ₚ x :: l.
Proof.
  induction l as [|y l IH]; simpl; [done|]. destruct (leb x y); [done|].
  rewrite IH. apply Permutation_swap.
Qed.

Lemma sort_by_perm l : sort_by l ≡ₚ l.
Proof. induction l as [|x l IH]; simpl; [done|]. by rewrite insert_by_perm, IH. Qed.

Lemma in_sort_by x l : In x (sort_by l) <-> In x l.
Proof.
  split; apply Permutation_in; [apply sort_by_perm | symmetry; apply sort_by_perm].
Qed.

Lemma insert_by_sorted x l :
  (forall a b, leb a b = false -> leb b a = true) ->
  Sorted (fun a b => leb a b = true) l -> Sorted (fun a b => leb a b = true) (insert_by x l).
Proof.
  intros Htot Hl. induction Hl as [|y l Hl IH Hy]; simpl; [by repeat constructor|].
  destruct (leb x y) eqn:E; [by repeat constructor|].
  constructor; [done|]. destruct l as [|z l]; simpl in *; [constructor; auto|].
  inversion Hy; subst. destruct (leb x z); constructor; auto.
Qed.

Lemma sort_by_sorted l :
  (forall a b, leb a b = false -> leb b a = true) ->
  Sorted (fun a b => leb a b = true) (sort_by l).
Proof. intros Htot. induction l; simpl; [constructor|]. by apply insert_by_sorted. Qed.

Definition sorted (l : list A) : Prop := Sorted (fun a b => leb a b = true) l.

(** For a total preorder, sorting and filtering commute. *)
Context (leb_total : forall a b, leb a b = false -> leb b a = true)
        (leb_trans : forall a b c, leb a b = true -> leb b c = true -> leb a c = true).

Lemma sorted_head x l : sorted (x :: l) -> forall y, In y l -> leb x y = true.
Proof.
  intros Hs. apply Sorted_StronglySorted in Hs; [|intros a b c; apply leb_trans].
  inversion Hs as [|? ? _ Hall]; subst. by rewrite List.Forall_forall in Hall.
Qed.

Lemma insert_by_first x l : (forall y, In y l -> leb x y = true) -> insert_by x l = x :: l.
Proof. intros H. destruct l as [|y l]; [done|]. simpl. by rewrite H by (simpl; auto). Qed.

Lemma filter_insert_by p x l :
  sorted l ->
  List.filter p (insert_by x l) =
  if p x then insert_by x (List.filter p l) else List.filter p l.
Proof.
  induction l as [|y l IH]; intros Hs; simpl; [by destruct (p x)|].
  destruct (leb x y) eqn:E.
  - simpl. destruct (p x) eqn:Px; [|done]. symmetry. apply insert_by_first.
    intros z Hz. destruct (p y) eqn:Py; [destruct Hz as [->|Hz]; [done|]|];
      apply filter_In in Hz as [Hz _]; apply leb_trans with y; try done; by eapply sorted_head.
  - simpl. rewrite IH by (by inversion Hs). destruct (p x), (p y); try done.
    simpl. by rewrite E.
Qed.

Lemma filter_sort_by p l : List.filter p (sort_by l) = sort_by (List.filter p l).
Proof.
  induction l as [|x l IH]; simpl; [done|].
  rewrite filter_insert_by, IH by (by apply sort_by_sorted). by destruct (p x).
Qed.
End Sorting.

Create Rewrite HintDb tables.
#[export] Hint Rewrite @length_update_rows @update_rows_app : tables.
