(* ===== verification/Tasks.v ===== *)
(** Concurrent tasks.  An [async fn] gives up its thread at its awaits: between two of
    them it is one step, and the steps of different tasks interleave in any order.  A
    [Task] is such a function cut into its steps; run alone it is the operation it was
    cut from. *)

From stdpp Require Import base list.
From S2P Require Import Prelude.

Section Task.
Context {S : Type}.

#[local] Unset Elimination Schemes.
Inductive Task (E A : Type) : Type :=
| Done (r : result E A)
| Await (step : S -> Task E A * S).
#[local] Set Elimination Schemes.
Arguments Done {E A} r.
Arguments Await {E A} step.

(** Induction over what follows each step. *)
Fixpoint task_induct {E A} (P : Task E A -> Prop) (HD : forall r, P (Done r))
    (HA : forall step, (forall s, P (step s).1) -> P (Await step)) (t : Task E A) : P t :=
  match t with
  | Done r => HD r
  | Await step => HA step (fun s => task_induct P HD HA (step s).1)
  end.

(** A step that is the whole operation. *)
Definition atom {E A} (m : M S E A) : Task E A := Await (fun s => let '(r, s') := m s in (Done r, s')).

Fixpoint and_then {E A B} (t : Task E A) (k : A -> Task E B) : Task E B :=
  match t with
  | Done (Ok a) => k a
  | Done (Err e) => Done (Err e)
  | Await step => Await (fun s => let '(t', s') := step s in (and_then t' k, s'))
  end.

(** The end of a task mapped. *)
Fixpoint finally {E A F B} (f : result E A -> result F B) (t : Task E A) : Task F B :=
  match t with
  | Done r => Done (f r)
  | Await step => Await (fun s => let '(t', s') := step s in (finally f t', s'))
  end.
Definition task_map_err {E F A} (f : E -> F) : Task E A -> Task F A := finally (result_map_err f).
Definition task_ignore {E F A} : Task E A -> Task F unit := finally (fun _ => Ok tt).
Definition task_attempt {E F A} : Task E A -> Task F (result E A) := finally Ok.

Fixpoint task_for_each {E X} (f : X -> Task E unit) (l : list X) : Task E unit :=
  match l with
  | [] => Done (Ok tt)
  | x :: l' => and_then (f x) (fun _ => task_for_each f l')
  end.

(** Alone. *)
Fixpoint alone {E A} (t : Task E A) : M S E A := fun s =>
  match t with
  | Done r => (r, s)
  | Await step => let '(t', s') := step s in alone t' s'
  end.

Lemma alone_atom {E A} (m : M S E A) s : alone (atom m) s = m s.
Proof. simpl. by destruct (m s). Qed.
Lemma alone_and_then {E A B} (t : Task E A) (k : A -> Task E B) s :
  alone (and_then t k) s = bind (alone t) (fun a => alone (k a)) s.
Proof.
  revert s. induction t as [[a|e]|step IH] using task_induct; intros s; [done|done|]. simpl. unfold bind. simpl.
  specialize (IH s). destruct (step s) as [t' s']. cbn in *. by rewrite IH.
Qed.
Lemma alone_finally {E A F B} (f : result E A -> result F B) (t : Task E A) s :
  alone (finally f t) s = (f (alone t s).1, (alone t s).2).
Proof.
  revert s. induction t as [r|step IH] using task_induct; intros s; [done|]. simpl.
  specialize (IH s). destruct (step s) as [t' s']. cbn in *. apply IH.
Qed.
Lemma alone_map_err {E F A} (f : E -> F) (t : Task E A) s :
  alone (task_map_err f t) s = map_err f (alone t) s.
Proof. unfold task_map_err. rewrite alone_finally. unfold map_err. by destruct (alone t s). Qed.
Lemma alone_ignore {E F A} (t : Task E A) s :
  alone (task_ignore t : Task F unit) s = ignore (alone t) s.
Proof. unfold task_ignore. rewrite alone_finally. unfold ignore. by destruct (alone t s). Qed.
Lemma alone_attempt {E F A} (t : Task E A) s :
  alone (task_attempt t : Task F (result E A)) s = attempt (alone t) s.
Proof. unfold task_attempt. rewrite alone_finally. unfold attempt. by destruct (alone t s). Qed.
Lemma alone_for_each {E X} (f : X -> Task E unit) l s :
  alone (task_for_each f l) s = for_each (fun x => alone (f x)) l s.
Proof.
  revert s. induction l as [|x l IH]; intros s; [done|]. cbn [task_for_each for_each].
  rewrite alone_and_then. unfold bind. destruct (alone (f x) s) as [[a|e] s']; [apply IH|done].
Qed.

Lemma bind_eq {E A B} (m m' : M S E A) (k k' : A -> M S E B) s :
  m s = m' s -> (forall a s', k a s' = k' a s') -> bind m k s = bind m' k' s.
Proof. intros Hm Hk. unfold bind. rewrite Hm. destruct (m' s) as [[a|e] s']; [apply Hk|done]. Qed.

Lemma map_err_eq {E F A} (f : E -> F) (m m' : M S E A) s : m s = m' s -> map_err f m s = map_err f m' s.
Proof. unfold map_err. by intros ->. Qed.
Lemma ignore_eq {E F A} (m m' : M S E A) s : m s = m' s -> (ignore m : M S F unit) s = ignore m' s.
Proof. unfold ignore. by intros ->. Qed.
Lemma attempt_eq {E F A} (m m' : M S E A) s :
  m s = m' s -> (attempt m : M S F (result E A)) s = attempt m' s.
Proof. unfold attempt. by intros ->. Qed.
Lemma for_each_eq {E X} (f g : X -> M S E unit) l s :
  (forall x s, f x s = g x s) -> for_each f l s = for_each g l s.
Proof.
  intros H. revert s. induction l as [|x l IH]; intros s; [done|]. cbn [for_each].
  apply bind_eq; [apply H|]. intros _ s'. apply IH.
Qed.

(** ** Pools *)

(** One step of the [i]-th task. *)
Definition pool_step {E A} (i : nat) (p : list (Task E A) * S) : list (Task E A) * S :=
  match p.1 !! i with
  | Some (Await step) => let '(t', s') := step p.2 in (<[i := t']> p.1, s')
  | _ => p
  end.
Definition interleave {E A} (schedule : list nat) (p : list (Task E A) * S) : list (Task E A) * S :=
  foldl (fun p i => pool_step i p) p schedule.

(** Every task has an end: some schedule brings the whole pool to it. *)
Lemma task_ends {E A} (t : Task E A) (i : nat) : forall ts s, ts !! i = Some t ->
  exists n r s', interleave (replicate n i) (ts, s) = (<[i := Done r]> ts, s').
Proof.
  induction t as [r|step IH] using task_induct; intros ts s Hi.
  - exists 0%nat, r, s. by rewrite list_insert_id.
  - destruct (step s) as [t' s'] eqn:Hs. specialize (IH s). rewrite Hs in IH. cbn in IH.
    destruct (IH (<[i := t']> ts) s') as (n & r & s2 & Hn).
    { apply list_lookup_insert_eq. by eapply lookup_lt_Some. }
    exists (Datatypes.S n), r, s2. cbn [replicate interleave foldl]. unfold pool_step at 2. cbn [fst snd].
    rewrite Hi, Hs. fold (interleave (E := E) (A := A)). unfold interleave in Hn. rewrite Hn.
    by rewrite list_insert_insert_eq.
Qed.
End Task.
Arguments Task : clear implicits.
Arguments Done {S E A} r.
Arguments Await {S E A} step.

Notation "x <~ t ;; k" := (and_then t (fun x => k))
  (at level 100, t at next level, right associativity) : rust_scope.
Notation "t ~;; k" := (and_then t (fun _ => k))
  (at level 100, right associativity) : rust_scope.

(** A task cut from an operation is the operation when it runs alone. *)
Ltac same_alone :=
  cbv beta zeta;
  lazymatch goal with
  | |- alone (and_then _ _) _ = bind _ _ _ => rewrite alone_and_then; apply bind_eq; [same_alone|intros; same_alone]
  | |- alone (task_map_err _ _) _ = map_err _ _ _ => rewrite alone_map_err; apply map_err_eq; same_alone
  | |- alone (task_ignore _) _ = ignore _ _ => rewrite alone_ignore; apply ignore_eq; same_alone
  | |- alone (task_attempt _) _ = attempt _ _ => rewrite alone_attempt; apply attempt_eq; same_alone
  | |- alone (task_for_each _ _) _ = for_each _ _ _ =>
      rewrite alone_for_each; apply for_each_eq; intros; same_alone
  | |- alone (atom _) _ = _ => apply alone_atom
  | |- alone (match ?x with _ => _ end) _ = _ => destruct x; same_alone
  | |- _ => try done
  end.

(** * What every step does *)

(** Every step of the task, from whatever state, is an [R]-step. *)
Section Each.
Context {S : Type} (R : S -> S -> Prop).

Fixpoint each {E A} (t : Task S E A) : Prop :=
  match t with
  | Done _ => True
  | Await step => forall s, R s (step s).2 /\ each (step s).1
  end.

Lemma each_atom {E A} (m : M S E A) : (forall s, R s (m s).2) -> each (atom m).
Proof. intros H s. specialize (H s). by destruct (m s). Qed.
Lemma each_and_then {E A B} (t : Task S E A) (k : A -> Task S E B) :
  each t -> (forall a, each (k a)) -> each (and_then t k).
Proof.
  intros Ht Hk. induction t as [[a|e]|step IH] using task_induct; [apply Hk|done|]. intros s.
  destruct (Ht s) as [Hs Ht']. specialize (IH s Ht'). by destruct (step s).
Qed.
Lemma each_finally {E A F B} (f : result E A -> result F B) (t : Task S E A) : each t -> each (finally f t).
Proof.
  intros Ht. induction t as [r|step IH] using task_induct; [done|]. intros s.
  destruct (Ht s) as [Hs Ht']. specialize (IH s Ht'). by destruct (step s).
Qed.
Lemma each_for_each {E X} (f : X -> Task S E unit) l : (forall x, each (f x)) -> each (task_for_each f l).
Proof. intros Hf. induction l as [|x l IH]; [done|]. by apply each_and_then. Qed.

(** Then every interleaving is a chain of [R]-steps. *)
Lemma interleave_each `{!PreOrder R} {E A} schedule (ts : list (Task S E A)) s :
  Forall each ts -> R s (interleave schedule (ts, s)).2.
Proof.
  unfold interleave. revert ts s. induction schedule as [|i l IH]; intros ts s Hts; [reflexivity|].
  cbn [foldl]. unfold pool_step at 2. cbn [fst snd].
  destruct (ts !! i) as [[r|step]|] eqn:Hi; [by apply IH| |by apply IH].
  pose proof (Forall_lookup_1 _ _ _ _ Hts Hi s) as [H1 H2]. destruct (step s) as [t' s']. cbn [fst snd] in *.
  etrans; [exact H1|]. apply IH. by apply Forall_insert.
Qed.
End Each.

(** [leaf] treats the steps. *)
Ltac every leaf :=
  cbv beta zeta;
  lazymatch goal with
  | |- forall _, _ => intro; every leaf
  | |- each _ (and_then _ _) => apply each_and_then; [every leaf|intro; every leaf]
  | |- each _ (finally _ _) => apply each_finally; every leaf
  | |- each _ (task_map_err _ _) => apply each_finally; every leaf
  | |- each _ (task_ignore _) => apply each_finally; every leaf
  | |- each _ (task_attempt _) => apply each_finally; every leaf
  | |- each _ (task_for_each _ _) => apply each_for_each; intro; every leaf
  | |- each _ (Done _) => exact I
  | |- each _ (match ?x with _ => _ end) => destruct x; every leaf
  | |- each _ (atom _) => apply each_atom; leaf
  | |- _ => idtac
  end.

(** A task of a part of the state. *)
Fixpoint focus {S T E A} (get : T -> S) (put : S -> T -> T) (t : Task S E A) : Task T E A :=
  match t with
  | Done r => Done r
  | Await step => Await (fun x => let '(t', s') := step (get x) in (focus get put t', put s' x))
  end.
Lemma each_focus {S T E A} (R : S -> S -> Prop) (Q : T -> T -> Prop) (get : T -> S) (put : S -> T -> T)
    (t : Task S E A) :
  (forall x s, R (get x) s -> Q x (put s x)) -> each R t -> each Q (focus get put t).
Proof.
  intros HQ Ht. induction t as [r|step IH] using task_induct; [done|]. intros x.
  destruct (Ht (get x)) as [H1 H2]. specialize (IH (get x) H2). destruct (step (get x)). cbn in *. auto.
Qed.
Lemma alone_focus {S T E A} (get : T -> S) (put : S -> T -> T) (t : Task S E A) x :
  (forall s x, get (put s x) = s) -> (forall s s' x, put s (put s' x) = put s x) ->
  (forall x, put (get x) x = x) ->
  alone (focus get put t) x = let '(r, s) := alone t (get x) in (r, put s x).
Proof.
  intros H1 H2 H3. revert x. induction t as [r|step IH] using task_induct; intros x; cbn; [by rewrite H3|].
  specialize (IH (get x)). destruct (step (get x)) as [t' s']. cbn in *. rewrite IH, H1.
  destruct (alone t' s') as [r s2]. by rewrite H2.
Qed.

(** * Deadlines *)

(** [tokio::time::timeout]: after [n] steps a task that has not ended is dropped. *)
Fixpoint drive {S E A} (n : nat) (t : Task S E A) (s : S) : option (result E A) * S :=
  match t with
  | Done r => (Some r, s)
  | Await step =>
      match n with
      | O => (None, s)
      | Datatypes.S n' => let '(t', s') := step s in drive n' t' s'
      end
  end.

Section Drive.
Context {S E A : Type}.

(** What ends in time ends as it would alone, and everything ends in some time. *)
Lemma drive_alone n (t : Task S E A) s r s' : drive n t s = (Some r, s') -> alone t s = (r, s').
Proof.
  revert n s. induction t as [r0|step IH] using task_induct; intros n s; [destruct n; cbn; congruence|].
  destruct n as [|n]; [done|]. cbn. specialize (IH s). destruct (step s) as [t' s1]. apply IH.
Qed.
Lemma drive_enough (t : Task S E A) s :
  exists n, forall m, (n <= m)%nat -> drive m t s = (Some (alone t s).1, (alone t s).2).
Proof.
  revert s. induction t as [r|step IH] using task_induct; intros s.
  - exists O. by intros [].
  - specialize (IH s). destruct (step s) as [t' s1] eqn:Hs. cbn in IH. destruct (IH s1) as [n Hn].
    exists (Datatypes.S n). intros [|m] Hm; [lia|]. cbn. rewrite Hs. apply Hn. lia.
Qed.

(** A task that is dropped is one that gets no more turns. *)
Lemma drive_interleave n (t : Task S E A) s : (interleave (replicate n O) ([t], s)).2 = (drive n t s).2.
Proof.
  unfold interleave. revert t s. induction n as [|n IH]; intros t s; [by destruct t|].
  cbn [replicate foldl]. unfold pool_step at 2. cbn [fst snd]. change ([t] !! O) with (Some t). cbv iota.
  destruct t as [r|step]; cbn [drive].
  - rewrite IH. by destruct n.
  - destruct (step s) as [t' s']. apply IH.
Qed.
End Drive.

(** * At most one of many tasks *)

(** A resource that one step uses up.  A task races for it: until its step used it up
    it must not end with [Q false], and no step gives the resource back. *)
Section Race.
Context {S : Type} (Inv spent : S -> Prop).

Fixpoint races {E A} (won : bool) (Q : bool -> result E A -> Prop) (t : Task S E A) : Prop :=
  match t with
  | Done r => Q won r
  | Await step => forall s, Inv s ->
      Inv (step s).2 /\ (spent s -> spent (step s).2) /\
      (races won Q (step s).1 \/
       won = false /\ ~ spent s /\ spent (step s).2 /\ races true Q (step s).1)
  end.

Lemma races_mono {E A} won (Q Q' : bool -> result E A -> Prop) t :
  races won Q t -> (forall won r, Q won r -> Q' won r) -> races won Q' t.
Proof.
  intros Ht HQ. revert won Ht. induction t as [r|step IH] using task_induct; intros won Ht; [by apply HQ|].
  intros s Hs. destruct (Ht s Hs) as (H1 & H2 & H3). split; [done|]. split; [done|].
  destruct H3 as [H3|(Hw & Hn & Hy & H3)]; [left|right]; eauto.
Qed.

Lemma races_and_then {E A B} won (Q : bool -> result E B -> Prop) (t : Task S E A) k :
  races won (fun won r => match r with Ok a => races won Q (k a) | Err e => Q won (Err e) end) t ->
  races won Q (and_then t k).
Proof.
  revert won. induction t as [[a|e]|step IH] using task_induct; intros won Ht; [done|done|].
  intros s Hs. destruct (Ht s Hs) as (H1 & H2 & H3). specialize (IH s).
  destruct (step s) as [t' s']. cbn in *. split; [done|]. split; [done|].
  destruct H3 as [H3|(Hw & Hn & Hy & H3)]; [left|right]; eauto.
Qed.

Lemma races_finally {E A F B} won (f : result E A -> result F B) (Q : bool -> result F B -> Prop) t :
  races won (fun won r => Q won (f r)) t -> races won Q (finally f t).
Proof.
  revert won. induction t as [r|step IH] using task_induct; intros won Ht; [done|].
  intros s Hs. destruct (Ht s Hs) as (H1 & H2 & H3). specialize (IH s).
  destruct (step s) as [t' s']. cbn in *. split; [done|]. split; [done|].
  destruct H3 as [H3|(Hw & Hn & Hy & H3)]; [left|right]; eauto.
Qed.

Lemma races_atom {E A} won (Q : bool -> result E A -> Prop) (m : M S E A) :
  (forall s, Inv s -> wp m (fun r s' => Inv s' /\ (spent s -> spent s') /\
     (Q won r \/ won = false /\ ~ spent s /\ spent s' /\ Q true r)) s) ->
  races won Q (atom m).
Proof. intros Hm s Hs. specialize (Hm s Hs). unfold wp in Hm. by destruct (m s). Qed.

Lemma races_for_each {E X} won (Q : bool -> result E unit -> Prop) (f : X -> Task S E unit) l :
  Q won (Ok tt) ->
  (forall x, races won (fun w r => w = won /\ match r with Ok _ => True | Err e => Q w (Err e) end) (f x)) ->
  races won Q (task_for_each f l).
Proof.
  intros H0 Hf. induction l as [|x l IH]; [done|]. cbn [task_for_each]. apply races_and_then.
  eapply races_mono; [apply Hf|]. intros w [[]|e] [-> H]; [apply IH|apply H].
Qed.

(** A task that only wins the resource [c] ends. *)
Definition fair {E A} (c : A) (won : bool) (r : result E A) : Prop := won = true \/ r <> Ok c.

Definition pool_races {E A} (c : A) (p : list (Task S E A) * S) : Prop :=
  Inv p.2 /\
  ((forall i t, p.1 !! i = Some t -> races false (fair c) t) \/
   (spent p.2 /\ exists k, (forall t, p.1 !! k = Some t -> races true (fair c) t) /\
      forall i t, i <> k -> p.1 !! i = Some t -> races false (fair c) t)).

Lemma pool_step_races {E A} (c : A) i (p : list (Task S E A) * S) :
  pool_races c p -> pool_races c (pool_step i p).
Proof.
  destruct p as [ts s]. unfold pool_races, pool_step. cbn [fst snd].
  destruct (ts !! i) as [[r|step]|] eqn:Hi; try done. intros [Hs Hp].
  assert (Hlen : (i < length ts)%nat) by by eapply lookup_lt_Some.
  assert (Hput : forall (P : Task S E A -> Prop) j t' u, (i = j -> P t') -> (i <> j -> ts !! j = Some u -> P u) ->
    <[i:=t']> ts !! j = Some u -> P u).
  { intros P j t' u H1 H2. destruct (decide (i = j)) as [<-|Hne].
    - rewrite list_lookup_insert_eq by done. intros [= <-]. by apply H1.
    - rewrite list_lookup_insert_ne by done. by apply H2. }
  destruct Hp as [Hp|(Hsp & k & Hk & Hp)].
  - destruct (Hp i _ Hi s Hs) as (H1 & H2 & H3). destruct (step s) as [t' s']. cbn in *. split; [done|].
    destruct H3 as [H3|(_ & _ & Hy & H3)].
    + left. intros j u. apply Hput; [done|]. intros _. apply Hp.
    + right. split; [done|]. exists i. split.
      * intros u. by apply Hput.
      * intros j u Hne. apply Hput; [congruence|]. intros _. apply Hp.
  - destruct (decide (i = k)) as [->|Hne].
    + destruct (Hk _ Hi s Hs) as (H1 & H2 & H3). destruct (step s) as [t' s']. cbn in *. split; [done|].
      destruct H3 as [H3|[? _]]; [|done]. right. split; [by apply H2|]. exists k. split.
      * intros u. by apply Hput.
      * intros j u Hj. apply Hput; [congruence|]. intros _. by apply Hp.
    + destruct (Hp i _ Hne Hi s Hs) as (H1 & H2 & H3). destruct (step s) as [t' s']. cbn in *. split; [done|].
      destruct H3 as [H3|(_ & Hn & _)]; [|done]. right. split; [by apply H2|]. exists k. split.
      * intros u. apply Hput; [congruence|]. intros _. apply Hk.
      * intros j u Hj. apply Hput; [done|]. intros _. by apply Hp.
Qed.

Lemma interleave_races {E A} (c : A) schedule (p : list (Task S E A) * S) :
  pool_races c p -> pool_races c (interleave schedule p).
Proof.
  unfold interleave. revert p. induction schedule as [|x l IH]; intros p H0; [done|]. by apply IH, pool_step_races.
Qed.

Lemma lost {E A} (c : A) k (ts : list (Task S E A)) : ts !! k = Some (Done (Ok c)) ->
  ~ (forall t, ts !! k = Some t -> races false (fair c) t).
Proof. intros Hk H. destruct (H _ Hk) as [H1|H1]; [done|by apply H1]. Qed.

(** Of tasks that race for [c], at most one ends with it, whatever the schedule, and
    [c] is used up then. *)
Lemma at_most_one {E A} (c : A) schedule (ts ts' : list (Task S E A)) s s' i :
  Inv s -> (forall i t, ts !! i = Some t -> races false (fair c) t) ->
  interleave schedule (ts, s) = (ts', s') -> ts' !! i = Some (Done (Ok c)) ->
  spent s' /\ forall j, ts' !! j = Some (Done (Ok c)) -> i = j.
Proof.
  intros Hs Hts Hrun Hi.
  assert (Hp : pool_races c (ts', s')) by (rewrite <- Hrun; apply interleave_races; split; [done|by left]).
  destruct Hp as [_ [Hp|(Hsp & k & _ & Hp)]]; [by destruct (lost c i ts' Hi (fun t => Hp i t))|].
  split; [done|]. intros j Hj.
  destruct (decide (i = k)) as [->|Hik]; [destruct (decide (j = k)) as [->|Hjk]; [done|]|].
  - by destruct (lost c j ts' Hj (fun t => Hp j t Hjk)).
  - by destruct (lost c i ts' Hi (fun t => Hp i t Hik)).
Qed.

(** What is used up before they start, none of them gets. *)
Definition pool_lost {E A} (c : A) (p : list (Task S E A) * S) : Prop :=
  Inv p.2 /\ spent p.2 /\ forall i t, p.1 !! i = Some t -> races false (fair c) t.

Lemma pool_step_lost {E A} (c : A) x (p : list (Task S E A) * S) :
  pool_lost c p -> pool_lost c (pool_step x p).
Proof.
  destruct p as [ts s]. unfold pool_lost, pool_step. cbn [fst snd].
  destruct (ts !! x) as [[r|step]|] eqn:Hx; try done. intros (Hs & Hsp & Hts).
  destruct (Hts x _ Hx s Hs) as (H1 & H2 & H3). destruct (step s) as [t' s2]. cbn in *.
  split; [done|]. split; [by apply H2|]. intros j u. destruct (decide (x = j)) as [<-|Hne].
  - rewrite list_lookup_insert_eq by by eapply lookup_lt_Some. intros [= <-].
    by destruct H3 as [H3|(_ & Hn & _)].
  - rewrite list_lookup_insert_ne by done. apply Hts.
Qed.

Lemma none_of_spent {E A} (c : A) schedule (ts ts' : list (Task S E A)) s s' i :
  Inv s -> spent s -> (forall i t, ts !! i = Some t -> races false (fair c) t) ->
  interleave schedule (ts, s) = (ts', s') -> ts' !! i <> Some (Done (Ok c)).
Proof.
  intros Hs Hsp Hts Hrun Hi. apply (lost c i ts' Hi). intros t.
  assert (Hp : pool_lost c (ts', s')); [|by apply Hp].
  rewrite <- Hrun. assert (H0 : pool_lost c (ts, s)) by done. clear -H0. revert H0. unfold interleave.
  generalize (ts, s). induction schedule as [|x l IH]; intros p H0; [done|]. by apply IH, pool_step_lost.
Qed.
End Race.
