(* ===== verification/Errors.v ===== *)
(** Error types of the platform crate ([crates/platform/src/error.rs],
    [crates/platform/src/secrets.rs]) and their rendering as RFC 7807 Problem
    Details at the API edge ([crates/api/src/problem.rs]). *)

From stdpp Require Import base strings.
From S2P Require Import Prelude.

(** What [sqlx::Error] distinguishes for the code: a unique violation
    ([is_unique_violation]), the other database-side rejections, a decode
    error of a returned row, and a transport failure. *)
Inductive DbError :=
| DbUnique
| DbForeignKey
| DbCheck
| DbRowSecurity
| DbInvalidEnum
| DbDecode
| DbMessage (text : string)
| DbTransport.

(** [sqlx::Error::RowNotFound] of [fetch_one] *)
Definition row_not_found : DbError :=
  DbMessage "no rows returned by a query that expected to return at least one row".

Definition is_unique_violation (e : DbError) : bool :=
  match e with DbUnique => true | _ => false end.

(** [secrets.rs: SecretError] *)
Inductive SecretError :=
| SecretNotFound (id : Uuid)
| Decrypt
| InvalidKek (msg : string)
| AuthFailed (msg : string)
| SecretDatabase (e : DbError).

(** [error.rs: PlatformError] *)
Inductive PlatformError :=
| NotFound (msg : string)
| Forbidden (msg : string)
| MfaRequired (msg : string)
| Invalid (msg : string)
| Conflict (msg : string)
| Database (e : DbError)
| Secret (e : SecretError)
| Internal (msg : string).

#[export] Instance DbError_eq_dec : EqDecision DbError.
Proof. solve_decision. Defined.
#[export] Instance SecretError_eq_dec : EqDecision SecretError.
Proof. solve_decision. Defined.
#[export] Instance PlatformError_eq_dec : EqDecision PlatformError.
Proof. solve_decision. Defined.

(** The error types a database failure converts into ([#[from] sqlx::Error]). *)
Class FromDb (E : Type) := of_db : DbError -> E.
#[export] Instance DbError_from_db : FromDb DbError := fun e => e.
#[export] Instance PlatformError_from_db : FromDb PlatformError := Database.
#[export] Instance SecretError_from_db : FromDb SecretError := SecretDatabase.

(** [problem.rs: Problem] *)
Record Problem := mkProblem {
  pb_type : string;
  pb_title : string;
  pb_status : Z;
  pb_detail : string;
  pb_code : option string;
}.

(** [problem.rs: ApiError::into_response] *)
Definition into_response (err : PlatformError) : Problem :=
  match err with
  | NotFound msg => mkProblem "about:blank" "Not Found" 404 msg None
  | Forbidden msg => mkProblem "about:blank" "Forbidden" 403 msg None
  | MfaRequired msg =>
      mkProblem "https://kubinate.dev/problems/mfa-required" "MFA Required" 401 msg
        (Some "mfa_required"%string)
  | Invalid msg => mkProblem "about:blank" "Invalid Input" 400 msg None
  | Conflict msg => mkProblem "about:blank" "Conflict" 409 msg None
  | Database _ =>
      mkProblem "about:blank" "Internal Server Error" 500 "an unexpected error occurred" None
  | Secret _ =>
      mkProblem "about:blank" "Internal Server Error" 500 "secret-store failure" None
  | Internal _ =>
      mkProblem "about:blank" "Internal Server Error" 500 "an unexpected error occurred" None
  end.

(** The errors whose payload may carry SQL text, key names or stack traces. *)
Definition internal_error (err : PlatformError) : bool :=
  match err with Database _ | Secret _ | Internal _ => true | _ => false end.
