(* ===== verification/Integrations.v ===== *)
(** The traits of [crates/integrations/src]: the data their methods exchange,
    the calls the control plane makes through them (a [Call] carries the
    request and the answer), and the answers themselves as an oracle
    ([Externals]) that may depend on every call made so far, so that a theorem
    about the callers holds for any behaviour of Hetzner, of the SSH hosts, of
    Helm and of kubectl.  [ServerJson::into_view] of the Hetzner client is
    modelled here too; the executors behind SSH, Helm and kubectl are in
    [Executors.v]. *)

From stdpp Require Import base strings list pretty.
From S2P Require Import Prelude Errors.

(** * Hetzner ([hetzner.rs]) *)

(** [ServerId(pub u64)] *)
Definition ServerId : Type := Z.

Inductive HetznerError :=
| HCredential (e : SecretError)
| HTransport
| HStatus (status : Z) (body : string).

Inductive ServerStatus := SReady | SInitializing | SFailed.

Record HetznerServer := mkServer {
  hs_id : ServerId;
  hs_status : ServerStatus;
  hs_ipv4 : option string;
  hs_private_ipv4 : option string;
}.

Record CreateServerParams := mkCreate {
  cp_name : string;
  cp_server_type : string;
  cp_location : string;
  cp_ssh_key : string;
  cp_user_data : string;
  cp_idempotency_key : Uuid;
}.

(** The wire shape [ServerJson] with its nested [PublicNet] / [PrivateNet]. *)
Record ServerJson := mkServerJson {
  sj_id : Z;
  sj_status : string;
  sj_public_ipv4 : option (option string);
  sj_private_net : list (option string);
}.

Fixpoint find_map {A B} (f : A -> option B) (l : list A) : option B :=
  match l with
  | [] => None
  | x :: l' => match f x with Some b => Some b | None => find_map f l' end
  end.

(** [hetzner.rs: ServerJson::into_view] *)
Definition into_view (j : ServerJson) : HetznerServer :=
  let status :=
    if String.eqb (sj_status j) "running" then SReady
    else if existsb (String.eqb (sj_status j)) ["starting"; "initializing"; "off"; "rebuilding"]%string
    then SInitializing
    else SFailed in
  mkServer (sj_id j) status
    (match sj_public_ipv4 j with Some ip => ip | None => None end)
    (find_map (fun p => p) (sj_private_net j)).

(** [hetzner.rs: truncate]; [None] is a panic of the byte slice. *)
Definition truncate (s : string) (max : nat) : option string :=
  if (String.length s <=? max)%nat then Some s
  else match slice_to max s with
       | Some cut => Some (cut +++ bytes [226; 128; 166]%nat)
       | None => None
       end.

(** * SSH, Helm, kubectl ([ssh.rs], [helm.rs], [kubectl.rs]) *)

Inductive SshError :=
| SshNonZeroExit (code : Z) (stderr : string)
| SshConnect (msg : string)
| SshTransport (msg : string).

Record SshTarget := mkTarget { st_host : string; st_user : string }.

Inductive HelmError :=
| HelmNonZeroExit (code : Z) (stderr : string)
| HelmTransport (msg : string)
| HelmTimeout (secs : Z).

Record InstallParams := mkInstall {
  ip_release : string;
  ip_chart : string;
  ip_repo : string;
  ip_version : string;
  ip_namespace : string;
  ip_values_yaml : string;
}.

Inductive KubectlError :=
| KubectlNonZeroExit (code : Z) (stderr : string)
| KubectlTransport (msg : string)
| KubectlTimeout (secs : Z).

(** * Calls and their answers *)

Inductive Call :=
| CCreate (p : CreateServerParams) (r : result HetznerError ServerId)
| CGet (id : ServerId) (r : result HetznerError HetznerServer)
| CDelete (id : ServerId) (r : result HetznerError unit)
| CSsh (target : SshTarget) (command : string) (r : result SshError string)
| CHelmInstall (kubeconfig_path : string) (p : InstallParams) (r : result HelmError unit)
| CHelmUninstall (kubeconfig_path release namespace : string) (r : result HelmError unit)
| CDrain (kubeconfig_path node : string) (r : result KubectlError unit)
| CDeleteNode (kubeconfig_path node : string) (r : result KubectlError unit)
| CSleep (secs : Z)
| CStep (step : string).

(** [HetznerProvider], [SshExecutor], [HelmExecutor] and [KubectlExecutor]: the
    answer to a request, given the calls already made. *)
Class Externals := {
  on_create_server : list Call -> CreateServerParams -> result HetznerError ServerId;
  on_get_server : list Call -> ServerId -> result HetznerError HetznerServer;
  on_delete_server : list Call -> ServerId -> result HetznerError unit;
  on_ssh : list Call -> SshTarget -> string -> result SshError string;
  on_helm_install : list Call -> string -> InstallParams -> result HelmError unit;
  on_helm_uninstall : list Call -> string -> string -> string -> result HelmError unit;
  on_drain : list Call -> string -> string -> result KubectlError unit;
  on_delete_node : list Call -> string -> string -> result KubectlError unit;
}.

(** Answers of a cloud where everything works: every server is ready at its
    first poll, with an address of its own. *)
Definition count_creates (h : list Call) : Z :=
  fold_right (fun c n => match c with CCreate _ _ => n + 1 | _ => n end) 0 h.
Definition calm_externals : Externals := {|
  on_create_server h _ := Ok (100 + count_creates h);
  on_get_server _ id := Ok (mkServer id SReady (Some ("10.0.0." +++ pretty id)) None);
  on_delete_server _ _ := Ok tt;
  on_ssh _ _ command := Ok ("out: " +++ command);
  on_helm_install _ _ _ := Ok tt;
  on_helm_uninstall _ _ _ _ := Ok tt;
  on_drain _ _ _ := Ok tt;
  on_delete_node _ _ _ := Ok tt;
|}.
