(* ===== verification/Executors.v ===== *)
(** The executors behind three of the traits ([crates/integrations/src]: [ssh.rs],
    [helm.rs], [kubectl.rs]): how each turns a request into commands of the host,
    and the outcome of a command into an answer.  [host_externals] makes of them the
    oracle the workflows are proved against. *)

From stdpp Require Import base strings list pretty.
From S2P Require Import Prelude Errors Integrations.

(** * The host *)

(** [tokio::process::Command] *)
Record Command := mkCommand {
  cmd_program : string;
  cmd_env : list (string * string);
  cmd_args : list string;
}.

(** [Command::output] under a timeout; the output is read with
    [String::from_utf8_lossy]. *)
Inductive ProcessOutcome :=
| ProcExited (success : bool) (code : option Z) (stdout stderr : string)
| ProcSpawnFailed (msg : string)
| ProcTimedOut.

(** What the executors do to the host. *)
Inductive HostCall :=
| Ran (c : Command) (o : ProcessOutcome)
| Waited (secs : Z)
| Wrote (path content : string)
| WriteFailed (path : string)
| Removed (path : string).

(** The host's answers, given all that was done to it. *)
Class HostOs := {
  os_run : list HostCall -> Command -> ProcessOutcome;
  os_write_error : list HostCall -> string -> option string;
  os_uuid : list HostCall -> string;
  os_temp_dir : string;
}.

Definition Host := M (list HostCall).

Section Host.
Context `{OS : HostOs}.
Definition output {E} (c : Command) : Host E ProcessOutcome := fun h =>
  (Ok (os_run h c), h ++ [Ran c (os_run h c)]).
Definition sleep {E} (secs : Z) : Host E unit := fun h => (Ok tt, h ++ [Waited secs]).
(** [tokio::fs::write], [tokio::fs::remove_file] with its result dropped. *)
Definition write_file (path content : string) : Host string unit := fun h =>
  match os_write_error h path with
  | Some e => (Err e, h ++ [WriteFailed path])
  | None => (Ok tt, h ++ [Wrote path content])
  end.
Definition remove_file {E} (path : string) : Host E unit := fun h => (Ok tt, h ++ [Removed path]).
End Host.

(** [code().unwrap_or(-1)], [stderr.chars().take(2048).collect()] *)
Definition exit_status (code : option Z) : Z := default (-1) code.
Definition shown (stderr : string) : string := take_chars 2048 stderr.

(** * SSH *)

Module Ssh.
Record OpensshExecutor := mkOpenssh {
  identity_file : option string;
  ssh_timeout : Z;
  connect_retries : nat;
  connect_backoff : Z;
}.
Definition openssh_new (identity : option string) : OpensshExecutor := mkOpenssh identity 300 6 10.

Section Ssh.
Context `{OS : HostOs} (x : OpensshExecutor).

Definition ssh_command (target : SshTarget) (command : string) : Command :=
  mkCommand "ssh" []
    (["-o"; "BatchMode=yes"; "-o"; "StrictHostKeyChecking=accept-new";
      "-o"; "UserKnownHostsFile=/tmp/kubinate-known-hosts"; "-o"; "ConnectTimeout=30";
      "-o"; "ServerAliveInterval=30"]%string
     ++ match identity_file x with Some key => ["-i"%string; key] | None => [] end
     ++ [st_user target +++ "@" +++ st_host target; "--"; command]%string).

Definition is_transport (exit_code : Z) (stderr : string) : bool :=
  (exit_code =? 255)
  || contains "Connection refused" stderr
  || contains "kex_exchange_identification" stderr
  || contains "Connection timed out" stderr
  || contains "Connection closed by" stderr.

(** [for attempt in 0..=self.connect_retries], with [left] retries to go. *)
Fixpoint ssh_attempts (left : nat) (c : Command) : Host SshError string :=
  o <- output c ;;
  match o with
  | ProcSpawnFailed e => throw (SshTransport ("spawn ssh: " +++ e))
  | ProcTimedOut => throw (SshTransport ("ssh command timed out after " +++ pretty (ssh_timeout x) +++ "s"))
  | ProcExited success code stdout stderr =>
      if success then ret stdout
      else if is_transport (exit_status code) stderr
      then match left with
           | S left' => sleep (connect_backoff x) ;;; ssh_attempts left' c
           | O => throw (SshConnect stderr)
           end
      else throw (SshNonZeroExit (exit_status code) (shown stderr))
  end.
Definition ssh_run (target : SshTarget) (command : string) : Host SshError string :=
  ssh_attempts (connect_retries x) (ssh_command target command).
End Ssh.
End Ssh.
Export Ssh.

(** * Helm *)

Module Helm.
Record HelmCliExecutor := mkHelm { helm_path : option string; helm_timeout : Z }.
Definition helm_new (path : option string) : HelmCliExecutor := mkHelm path 300.

Section Helm.
Context `{OS : HostOs} (x : HelmCliExecutor).

Definition helm_binary : string := default "helm"%string (helm_path x).

Definition install_args (params : InstallParams) (values_path : string) : list string :=
  (["upgrade"; "--install"; ip_release params; ip_chart params; "--repo"; ip_repo params;
    "--version"; ip_version params; "--namespace"; ip_namespace params; "--create-namespace";
    "--wait"; "--timeout"; "5m"]%string
   ++ if String.eqb (ip_values_yaml params) EmptyString then [] else ["--values"%string; values_path]).

Definition upgrade_install (kubeconfig_path : string) (params : InstallParams) : Host HelmError unit :=
  uuid <- (fun h => (Ok (os_uuid h), h)) ;;
  let values_path := os_temp_dir +++ "/kubinate-helm-" +++ uuid +++ ".yaml" in
  (if String.eqb (ip_values_yaml params) EmptyString then ret tt
   else map_err (fun e => HelmTransport ("write values: " +++ e))
          (write_file values_path (ip_values_yaml params))) ;;;
  result <- output (mkCommand helm_binary [("KUBECONFIG"%string, kubeconfig_path)]
                      (install_args params values_path)) ;;
  remove_file values_path ;;;
  match result with
  | ProcSpawnFailed e => throw (HelmTransport ("spawn helm: " +++ e))
  | ProcTimedOut => throw (HelmTimeout (helm_timeout x))
  | ProcExited success code _ stderr =>
      if success then ret tt else throw (HelmNonZeroExit (exit_status code) (shown stderr))
  end.

Definition uninstall_args (release namespace : string) : list string :=
  ["uninstall"; release; "--namespace"; namespace; "--wait"; "--timeout"; "5m"]%string.

Definition uninstall (kubeconfig_path release namespace : string) : Host HelmError unit :=
  result <- output (mkCommand helm_binary [("KUBECONFIG"%string, kubeconfig_path)]
                      (uninstall_args release namespace)) ;;
  match result with
  | ProcSpawnFailed e => throw (HelmTransport ("spawn helm: " +++ e))
  | ProcTimedOut => throw (HelmTimeout (helm_timeout x))
  | ProcExited success code _ stderr =>
      if success then ret tt
      else if contains "release: not found" stderr then ret tt
      else throw (HelmNonZeroExit (exit_status code) (shown stderr))
  end.
End Helm.
End Helm.
Export Helm.

(** * kubectl *)

Module Kubectl.
Record KubectlCliExecutor := mkKubectl { kubectl_path : option string; kubectl_timeout : Z }.
Definition kubectl_new (path : option string) : KubectlCliExecutor := mkKubectl path 240.

Section Kubectl.
Context `{OS : HostOs} (x : KubectlCliExecutor).

(** [build_command], with the arguments the callers add. *)
Definition kubectl_command (kubeconfig : string) (args : list string) : Command :=
  mkCommand (default "kubectl"%string (kubectl_path x)) [("KUBECONFIG"%string, kubeconfig)] args.

Definition kubectl_run (cmd : Command) (ignore_not_found : bool) : Host KubectlError unit :=
  result <- output cmd ;;
  match result with
  | ProcSpawnFailed e => throw (KubectlTransport ("spawn kubectl: " +++ e))
  | ProcTimedOut => throw (KubectlTimeout (kubectl_timeout x))
  | ProcExited success code _ stderr =>
      if success then ret tt
      else if ignore_not_found && (contains "NotFound" stderr || contains "not found" stderr)
      then ret tt
      else throw (KubectlNonZeroExit (exit_status code) (shown stderr))
  end.

Definition drain_node (kubeconfig_path node_name : string) : Host KubectlError unit :=
  kubectl_run (kubectl_command kubeconfig_path
    ["drain"; node_name; "--ignore-daemonsets"; "--delete-emptydir-data"; "--force"; "--timeout=180s"]%string)
    true.
Definition delete_node (kubeconfig_path node_name : string) : Host KubectlError unit :=
  kubectl_run (kubectl_command kubeconfig_path ["delete"; "node"; node_name]%string) true.
End Kubectl.
End Kubectl.
Export Kubectl.

(** * The oracle of the workflows *)

(** What the host has been through: the executors' share of the calls made so far. *)
Section Oracle.
Context `{OS : HostOs} (ssh : OpensshExecutor) (helm : HelmCliExecutor) (kubectl : KubectlCliExecutor).

Definition host_step (h : list HostCall) (c : Call) : list HostCall :=
  match c with
  | CSsh target command _ => (ssh_run ssh target command h).2
  | CHelmInstall path params _ => (upgrade_install helm path params h).2
  | CHelmUninstall path release namespace _ => (uninstall helm path release namespace h).2
  | CDrain path node _ => (drain_node kubectl path node h).2
  | CDeleteNode path node _ => (delete_node kubectl path node h).2
  | CSleep secs => h ++ [Waited secs]
  | CCreate _ _ | CGet _ _ | CDelete _ _ | CStep _ => h
  end.
Definition host_log (calls : list Call) : list HostCall := fold_left host_step calls [].

(** The executors behind the traits, beside a Hetzner client. *)
Definition host_externals (hetzner : Externals) : Externals := {|
  on_create_server := @on_create_server hetzner;
  on_get_server := @on_get_server hetzner;
  on_delete_server := @on_delete_server hetzner;
  on_ssh calls target command := (ssh_run ssh target command (host_log calls)).1;
  on_helm_install calls path params := (upgrade_install helm path params (host_log calls)).1;
  on_helm_uninstall calls path release namespace := (uninstall helm path release namespace (host_log calls)).1;
  on_drain calls path node := (drain_node kubectl path node (host_log calls)).1;
  on_delete_node calls path node := (delete_node kubectl path node (host_log calls)).1;
|}.
End Oracle.

(** * What the executors do *)

Section Laws.
Context `{OS : HostOs}.

(** The executor takes this outcome for a flake of the connection. *)
Definition flaky (o : ProcessOutcome) : bool :=
  match o with
  | ProcExited false code _ stderr => is_transport (exit_status code) stderr
  | _ => false
  end.
Definition ssh_answer (x : OpensshExecutor) (o : ProcessOutcome) : result SshError string :=
  match o with
  | ProcSpawnFailed e => Err (SshTransport ("spawn ssh: " +++ e))
  | ProcTimedOut => Err (SshTransport ("ssh command timed out after " +++ pretty (ssh_timeout x) +++ "s"))
  | ProcExited true _ stdout _ => Ok stdout
  | ProcExited false code _ stderr =>
      if is_transport (exit_status code) stderr then Err (SshConnect stderr)
      else Err (SshNonZeroExit (exit_status code) (shown stderr))
  end.
(** Flakes, each followed by the pause, then the last attempt. *)
Definition ssh_trace (x : OpensshExecutor) (c : Command) (flakes : list ProcessOutcome)
    (last : ProcessOutcome) : list HostCall :=
  flat_map (fun o => [Ran c o; Waited (connect_backoff x)]) flakes ++ [Ran c last].

Definition ssh_done (x : OpensshExecutor) (retries : nat) (c : Command) (h : list HostCall)
    (r : result SshError string) (h' : list HostCall) : Prop :=
  exists flakes last, h' = h ++ ssh_trace x c flakes last /\
    (length flakes <= retries)%nat /\ Forall (fun o => flaky o = true) flakes /\
    (flaky last = true -> length flakes = retries) /\ r = ssh_answer x last.

Lemma ssh_attempts_law x left c h : wp (ssh_attempts x left c) (ssh_done x left c h) h.
Proof.
  revert h. induction left as [|left IH]; intros h; cbn [ssh_attempts]; unfold wp, bind, output;
    set (o := os_run h c).
  1: assert (H1 : forall r, r = ssh_answer x o -> ssh_done x 0 c h r (h ++ [Ran c o])).
  1: { intros r ->. exists [], o. by repeat split; try constructor. }
  2: assert (H1 : forall r, flaky o = false -> r = ssh_answer x o -> ssh_done x (S left) c h r (h ++ [Ran c o])).
  2: { intros r Ho ->. exists [], o. split; [done|]. split; [simpl; lia|]. split; [done|].
       split; [congruence|done]. }
  - destruct o as [[|] code out err|e|] eqn:Eo; simpl; try (by apply H1).
    destruct (is_transport _ _) eqn:Et; simpl; apply H1; simpl; by rewrite Et.
  - destruct o as [[|] code out err|e|] eqn:Eo; simpl; try (by apply H1).
    destruct (is_transport _ _) eqn:Et; simpl; [|by apply H1; simpl; rewrite Et].
    destruct (IH ((h ++ [Ran c o]) ++ [Waited (connect_backoff x)])) as (fl & last & Hh & Hl & Hf & Hlast & Hr).
    unfold wp in *. rewrite Eo in *. exists (ProcExited false code out err :: fl), last.
    split; [rewrite Hh; unfold ssh_trace; simpl; by rewrite <- !app_assoc|].
    split; [simpl; lia|]. split; [by constructor|].
    split; [intros H; simpl; by rewrite (Hlast H)|done].
Qed.

(** The values file of an installation is gone when it returns. *)
Fixpoint left_behind (files : list string) (h : list HostCall) : list string :=
  match h with
  | [] => files
  | Wrote path _ :: h' | WriteFailed path :: h' => left_behind (path :: files) h'
  | Removed path :: h' => left_behind (List.filter (fun f => negb (String.eqb f path)) files) h'
  | _ :: h' => left_behind files h'
  end.

Lemma left_behind_app files h h' : left_behind files (h ++ h') = left_behind (left_behind files h) h'.
Proof. revert files. by induction h as [|[] h IH]; intros files; simpl. Qed.

Definition helm_answer (timeout : Z) (gone : bool) (o : ProcessOutcome) : result HelmError unit :=
  match o with
  | ProcSpawnFailed e => Err (HelmTransport ("spawn helm: " +++ e))
  | ProcTimedOut => Err (HelmTimeout timeout)
  | ProcExited true _ _ _ => Ok tt
  | ProcExited false code _ stderr =>
      if gone && contains "release: not found" stderr then Ok tt
      else Err (HelmNonZeroExit (exit_status code) (shown stderr))
  end.
End Laws.

(** * Properties *)

Section Properties.
Context `{OS : HostOs}.

(** A command over SSH ends after at most [connect_retries + 1] executions of one
    and the same command line, with the pause between two of them.  Every execution
    but the last failed in a way the executor takes for a flake of the connection, and
    it gives up on a flake only when the retries are used; the answer is that of the
    last execution: its output if it succeeded, and otherwise the failure to start,
    the time-out, the flake, or the exit code with at most 2048 characters of stderr. *)
Theorem ssh_run_bounded x target command h :
  wp (ssh_run x target command) (fun r h' =>
    exists flakes last,
      h' = h ++ ssh_trace x (ssh_command x target command) flakes last /\
      (length flakes <= connect_retries x)%nat /\ Forall (fun o => flaky o = true) flakes /\
      (flaky last = true -> length flakes = connect_retries x) /\ r = ssh_answer x last) h.
Proof. apply ssh_attempts_law. Qed.

(** Helm runs once, over the values file if there are values, and the file
    is removed whatever came out; only a file that could not be written stays. *)
Theorem helm_install_leaves_no_values x kubeconfig_path params h :
  wp (upgrade_install x kubeconfig_path params) (fun r h' =>
    let path := os_temp_dir +++ "/kubinate-helm-" +++ os_uuid h +++ ".yaml" in
    let c := mkCommand (helm_binary x) [("KUBECONFIG"%string, kubeconfig_path)] (install_args params path) in
    (exists e, r = Err (HelmTransport ("write values: " +++ e)) /\ h' = h ++ [WriteFailed path]) \/
    exists o, r = helm_answer (helm_timeout x) false o /\
      ((ip_values_yaml params = EmptyString /\ h' = h ++ [Ran c o; Removed path]) \/
       h' = h ++ [Wrote path (ip_values_yaml params); Ran c o; Removed path]) /\
      forall f, In f (left_behind [] h') -> In f (left_behind [] h)) h.
Proof.
  unfold wp, upgrade_install.
  cbv beta iota zeta delta [bind output remove_file map_err write_file result_map_err].
  set (path := os_temp_dir +++ _). set (c := mkCommand _ _ _).
  destruct (String.eqb (ip_values_yaml params) EmptyString) eqn:Ev.
  - apply String.eqb_eq in Ev. cbv beta iota delta [ret throw]. right. exists (os_run h c). split; [|split].
    + by destruct (os_run h c) as [[|] code out err|e|].
    + left. split; [done|]. destruct (os_run h c) as [[|] code out err|e|]; simpl; by rewrite <- app_assoc.
    + intros f. assert (Hl : In f (left_behind [] ((h ++ [Ran c (os_run h c)]) ++ [Removed path])) ->
        In f (left_behind [] h)) by (rewrite !left_behind_app; simpl; by intros [Hf _]%filter_In).
      by destruct (os_run h c) as [[|] code out err|e|].
  - cbv beta iota delta [ret throw]. destruct (os_write_error h path) as [e|] eqn:Ee; [left; by exists e|].
    set (h1 := h ++ [Wrote path (ip_values_yaml params)]). right. exists (os_run h1 c). split; [|split].
    + by destruct (os_run h1 c) as [[|] code out err|e|].
    + right. destruct (os_run h1 c) as [[|] code out err|e|]; simpl; unfold h1; by rewrite <- !app_assoc.
    + intros f. assert (Hl : In f (left_behind [] ((h1 ++ [Ran c (os_run h1 c)]) ++ [Removed path])) ->
        In f (left_behind [] h)).
      { unfold h1 at 1. rewrite !left_behind_app. simpl. rewrite String.eqb_refl. simpl.
        by intros [Hf _]%filter_In. }
      by destruct (os_run h1 c) as [[|] code out err|e|].
Qed.

(** Uninstalling a release, draining and deleting a node run one command and
    succeed when it does, and when it fails for there being nothing to do. *)
Theorem removal_idempotent hx kx path release namespace node h :
  wp (uninstall hx path release namespace) (fun r h' => exists o,
    h' = h ++ [Ran (mkCommand (helm_binary hx) [("KUBECONFIG"%string, path)] (uninstall_args release namespace)) o] /\
    r = helm_answer (helm_timeout hx) true o) h /\
  forall m args, In (m, args)
    [(drain_node kx path node, ["drain"; node; "--ignore-daemonsets"; "--delete-emptydir-data"; "--force"; "--timeout=180s"]);
     (delete_node kx path node, ["delete"; "node"; node])]%string ->
  wp m (fun r h' => exists o, h' = h ++ [Ran (kubectl_command kx path args) o] /\
    (r = Ok tt <-> match o with
                   | ProcExited success _ _ stderr =>
                       success || (contains "NotFound" stderr || contains "not found" stderr) = true
                   | _ => False
                   end)) h.
Proof.
  split.
  - unfold wp, uninstall, bind, output. set (c := mkCommand _ _ _). exists (os_run h c).
    destruct (os_run h c) as [[|] code out err|e|]; simpl; try (by split).
    destruct (contains "release: not found" err); by split.
  - intros m args Hin.
    assert (m = kubectl_run kx (kubectl_command kx path args) true) as ->
      by (destruct Hin as [[= <- <-]|[[= <- <-]|[]]]; reflexivity).
    unfold wp, kubectl_run, bind, output. exists (os_run h (kubectl_command kx path args)).
    destruct (os_run h _) as [[|] code out err|e|]; simpl; try (by split).
    destruct (_ || _) eqn:E; simpl; by split.
Qed.
End Properties.

(** * A remote command that fails by itself *)

(** An installation that reaches the host and exits with 1, complaining of a refused
    connection of its own. *)
Definition demo_refused : HostOs := {|
  os_run _ _ := ProcExited false (Some 1) EmptyString "curl: (7) Failed to connect: Connection refused";
  os_write_error _ _ := None;
  os_uuid _ := "u";
  os_temp_dir := "/tmp";
|}%string.
Definition count_runs (h : list HostCall) : nat :=
  length (List.filter (fun c => match c with Ran _ _ => true | _ => false end) h).

(** It is executed seven times, and the answer is a connection error instead of the
    exit code. *)
Theorem ssh_reruns_failed_command :
  let '(r, h) := @ssh_run demo_refused (openssh_new None) (mkTarget "10.0.0.1" "root") "install" [] in
  count_runs h = 7%nat /\ r = Err (SshConnect "curl: (7) Failed to connect: Connection refused").
Proof. vm_compute. auto. Qed.
