(* ===== verification/Events.v ===== *)
(** The cluster event hub behind the SSE endpoint
    ([crates/workflows/src/events.rs]): a map from cluster id to a
    [tokio::sync::broadcast] sender.  The channel itself is tokio's and stays
    abstract: [Broadcast] gives its operations, [BroadcastLaws] the documented
    behaviour the hub relies on ([send] fails exactly when no receiver is
    left, and counts the receivers otherwise). *)

From stdpp Require Import base gmap strings list.
From S2P Require Import Prelude.

Inductive ClusterEvent :=
| Step (step : string)
| Terminal (status : string) (error_category : option string).

#[export] Instance ClusterEvent_eq_dec : EqDecision ClusterEvent.
Proof. solve_decision. Defined.

(** [broadcast::Sender<ClusterEvent>] with the receivers attached to it. *)
Class Broadcast := {
  chan : Type;
  chan_new : nat -> chan;
  chan_subscribe : chan -> chan;
  chan_drop_receiver : chan -> chan;
  chan_send : chan -> ClusterEvent -> option (nat * chan);
  chan_receivers : chan -> nat;
  (** The events sent while at least one receiver was attached. *)
  chan_log : chan -> list ClusterEvent;
}.

Class BroadcastLaws (B : Broadcast) := {
  chan_new_receivers n : chan_receivers (chan_new n) = O;
  chan_subscribe_receivers c : chan_receivers (chan_subscribe c) = S (chan_receivers c);
  chan_drop_receivers c : chan_receivers (chan_drop_receiver c) = pred (chan_receivers c);
  chan_send_none c e : chan_receivers c = O -> chan_send c e = None;
  chan_send_some c e : chan_receivers c <> O ->
    exists c', chan_send c e = Some (chan_receivers c, c') /\
      chan_receivers c' = chan_receivers c /\ chan_log c' = chan_log c ++ [e];
}.

Section Hub.
Context `{B : Broadcast}.

(** [ClusterEventHub { inner: Mutex<HashMap<Uuid, Sender>>, capacity }]; the
    mutex makes every method one atomic step. *)
Record Hub := mkHub { hub_inner : gmap Uuid chan; hub_capacity : nat }.

(** [ClusterEventHub::new] *)
Definition hub_new : Hub := mkHub ∅ 64.

(** [ClusterEventHub::publish] *)
Definition hub_publish (cluster_id : Uuid) (event : ClusterEvent) (h : Hub) : nat * Hub :=
  match hub_inner h !! cluster_id with
  | None => (O, h)
  | Some sender =>
      match chan_send sender event with
      | Some (n, sender') =>
          (n, mkHub (<[cluster_id := sender']> (hub_inner h)) (hub_capacity h))
      | None => (O, mkHub (delete cluster_id (hub_inner h)) (hub_capacity h))
      end
  end.

(** [ClusterEventHub::subscribe]; the receiver is the new attachment. *)
Definition hub_subscribe (cluster_id : Uuid) (h : Hub) : Hub :=
  let sender := default (chan_new (hub_capacity h)) (hub_inner h !! cluster_id) in
  mkHub (<[cluster_id := chan_subscribe sender]> (hub_inner h)) (hub_capacity h).

(** The last receiver of a cluster, or one of several, goes away. *)
Definition hub_disconnect (cluster_id : Uuid) (h : Hub) : Hub :=
  mkHub (alter chan_drop_receiver cluster_id (hub_inner h)) (hub_capacity h).

Definition hub_receivers (cluster_id : Uuid) (h : Hub) : nat :=
  match hub_inner h !! cluster_id with Some c => chan_receivers c | None => O end.

Definition hub_log (cluster_id : Uuid) (h : Hub) : list ClusterEvent :=
  match hub_inner h !! cluster_id with Some c => chan_log c | None => [] end.

Lemma hub_publish_other a b e h :
  a <> b -> hub_inner (hub_publish a e h).2 !! b = hub_inner h !! b.
Proof.
  intros Hab. unfold hub_publish.
  destruct (hub_inner h !! a) as [c|] eqn:E; [|done].
  destruct (chan_send c e) as [[n c']|]; simpl; by simplify_map_eq.
Qed.

Context `{!BroadcastLaws B}.

(** What [publish] returns and does, on each of its three branches. *)
Lemma hub_publish_spec a e h :
  let '(n, h') := hub_publish a e h in
  n = hub_receivers a h /\
  (n = O -> hub_inner h' !! a = None) /\
  (n <> O -> hub_receivers a h' = n /\ hub_log a h' = hub_log a h ++ [e]).
Proof.
  unfold hub_publish, hub_receivers, hub_log.
  destruct (hub_inner h !! a) as [c|] eqn:E; simpl.
  - destruct (decide (chan_receivers c = O)) as [Hz|Hz].
    + rewrite (chan_send_none c e Hz). simpl. rewrite lookup_delete_eq. naive_solver.
    + destruct (chan_send_some c e Hz) as (c' & -> & Hr & Hl). simpl.
      rewrite lookup_insert_eq. naive_solver.
  - rewrite E. naive_solver.
Qed.

Lemma hub_subscribe_receivers a h :
  hub_receivers a (hub_subscribe a h) = S (hub_receivers a h).
Proof.
  unfold hub_receivers, hub_subscribe. simpl. rewrite lookup_insert_eq.
  destruct (hub_inner h !! a); simpl; rewrite chan_subscribe_receivers; [done|].
  by rewrite chan_new_receivers.
Qed.
End Hub.

(** A concrete channel that satisfies the laws: receivers are counted and the
    delivered events logged. *)
Definition counting_broadcast : Broadcast := {|
  chan := nat * list ClusterEvent;
  chan_new _ := (O, []);
  chan_subscribe c := (S c.1, c.2);
  chan_drop_receiver c := (pred c.1, c.2);
  chan_send c e := match c.1 with O => None | S n => Some (S n, (S n, c.2 ++ [e])) end;
  chan_receivers c := c.1;
  chan_log c := c.2;
|}.

Lemma counting_broadcast_laws : BroadcastLaws counting_broadcast.
Proof.
  split; simpl; try done; intros [[|n] l] e H; simpl in *; try done.
  by eexists.
Qed.

(** Two subscribers of cluster 3: both get the event. *)
Lemma hub_publish_spec_witness :
  let h := @hub_subscribe counting_broadcast 3%N (@hub_subscribe counting_broadcast 3%N
             (@hub_new counting_broadcast)) in
  (@hub_publish counting_broadcast 3%N (Step "done") h).1 = 2%nat /\
  @hub_log counting_broadcast 3%N (@hub_publish counting_broadcast 3%N (Step "done") h).2
    = [Step "done"].
Proof.
  intros h.
  pose proof (@hub_publish_spec counting_broadcast counting_broadcast_laws 3%N (Step "done") h) as H.
  destruct (hub_publish 3%N (Step "done") h) as [n h'] eqn:E. simpl.
  destruct H as (Hn & _ & Hlog).
  assert (n = 2%nat) as -> by (rewrite Hn; reflexivity). split; [reflexivity|].
  destruct Hlog as [_ ->]; [discriminate|reflexivity].
Defined.
