(* ===== verification/Schema.v ===== *)
(** The persistent state of the control plane: the enums and row structs of the
    domain crates ([*/src/model.rs]), the tables of [src/migrations], the
    environment the code draws on ([Env]: clock, identifiers, database
    failures, hashing, row-level-security role) and the [World] every operation
    runs in.  [Table] is what the migrations declare about one table: its rows,
    its tenant policy, its unique indexes and checks, its triggers. *)

From Stdlib Require Import Ascii.
From stdpp Require Import base gmap countable strings list pretty.
From S2P Require Import Prelude Errors Integrations Events.

(** * Enums *)

(** [cluster/src/model.rs: ClusterStatus] *)
Inductive ClusterStatus :=
| Pending | Provisioning | Ready | Scaling | Failed | Destroying | Destroyed.
#[export] Instance ClusterStatus_eq_dec : EqDecision ClusterStatus.
Proof. solve_decision. Defined.

(** [cluster/src/model.rs: ClusterNodeRole]; the order of the SQL enum. *)
Inductive ClusterNodeRole := ControlPlane | Worker.
#[export] Instance ClusterNodeRole_eq_dec : EqDecision ClusterNodeRole.
Proof. solve_decision. Defined.

(** [addons/src/model.rs: AddonStatus] *)
Inductive AddonStatus :=
| APending | AInstalling | AReady | AFailed | AUninstalling | AUninstalled.
#[export] Instance AddonStatus_eq_dec : EqDecision AddonStatus.
Proof. solve_decision. Defined.

(** [identity/src/model.rs: MembershipRole] *)
Inductive MembershipRole := Owner | Admin | Developer | Viewer.
#[export] Instance MembershipRole_eq_dec : EqDecision MembershipRole.
Proof. solve_decision. Defined.

(** [billing/src/model.rs: BillingPlan] *)
Inductive BillingPlan := Free | Starter | Pro.
#[export] Instance BillingPlan_eq_dec : EqDecision BillingPlan.
Proof. solve_decision. Defined.

(** * Rows *)

(** [clusters], with the struct [Cluster] of [cluster/src/model.rs]. *)
Record Cluster := mkCluster {
  cl_id : Uuid;
  cl_organization_id : Uuid;
  cl_credential_id : Uuid;
  cl_name : string;
  cl_region : string;
  cl_server_type : string;
  cl_control_plane_count : Z;
  cl_worker_count : Z;
  cl_status : ClusterStatus;
  cl_status_reason : option string;
  cl_created_at : Z;
  cl_updated_at : Z;
  cl_version : Z;
  cl_agent_last_seen_at : option Z;
  cl_agent_version : string;
  cl_kubeconfig_secret_id : option Uuid;
  cl_deleted_at : option Z;
}.

(** [cluster_servers], with the struct [ClusterServer]. *)
Record ClusterServer := mkClusterServer {
  sv_id : Uuid;
  sv_organization_id : Uuid;
  sv_cluster_id : Uuid;
  sv_hetzner_server_id : Z;
  sv_role : ClusterNodeRole;
  sv_public_ipv4 : option string;
  sv_private_ipv4 : option string;
  sv_created_at : Z;
  sv_deleted_at : option Z;
}.

(** [provisioning_workflows]. *)
Record WorkflowRow := mkWorkflowRow {
  wf_id : Uuid;
  wf_cluster_id : Uuid;
  wf_organization_id : Uuid;
  wf_current_step : string;
  wf_error_reason : option string;
  wf_started_at : Z;
  wf_finished_at : option Z;
  wf_version : Z;
}.

(** [secrets]. *)
Record SecretRow := mkSecretRow {
  se_id : Uuid;
  se_organization_id : Uuid;
  se_ciphertext : string;
  se_wrapped_dek : string;
  se_algorithm : string;
}.

(** [hetzner_credentials], with the struct [HetznerCredential]. *)
Record HetznerCredential := mkCredential {
  hc_id : Uuid;
  hc_organization_id : Uuid;
  hc_alias : string;
  hc_secret_id : Uuid;
  hc_created_at : Z;
  hc_updated_at : Z;
  hc_deleted_at : option Z;
  hc_version : Z;
}.

(** [cluster_addons], with the struct [ClusterAddon]. *)
Record ClusterAddon := mkAddon {
  ad_id : Uuid;
  ad_organization_id : Uuid;
  ad_cluster_id : Uuid;
  ad_addon : string;
  ad_version : string;
  ad_helm_release : string;
  ad_status : AddonStatus;
  ad_status_reason : option string;
  ad_created_at : Z;
  ad_updated_at : Z;
  ad_version_lock : Z;
  ad_deleted_at : option Z;
}.

(** [organizations]. *)
Record OrgRow := mkOrg {
  og_id : Uuid;
  og_slug : string;
  og_display_name : string;
  og_plan : BillingPlan;
  og_stripe_customer_id : option string;
  og_created_at : Z;
  og_updated_at : Z;
  og_version : Z;
}.

(** [subscription_events]. *)
Record SubscriptionEvent := mkSubEvent {
  ev_id : Uuid;
  ev_stripe_event_id : string;
  ev_organization_id : option Uuid;
  ev_event_type : string;
  ev_decision : string;
  ev_received_at : Z;
}.

(** The columns of [users] the sources read. *)
Record UserRow := mkUser {
  us_id : Uuid;
  us_email : string;
  us_display_name : string;
  us_requires_mfa : bool;
  us_mfa_enrolled : bool;
}.

(** [memberships]. *)
Record Membership := mkMembership {
  mb_id : Uuid;
  mb_organization_id : Uuid;
  mb_user_id : Uuid;
  mb_role : MembershipRole;
  mb_created_at : Z;
  mb_deleted_at : option Z;
  mb_version : Z;
}.

(** [invites], with the struct [Invite]. *)
Record Invite := mkInvite {
  iv_id : Uuid;
  iv_organization_id : Uuid;
  iv_email : string;
  iv_role : MembershipRole;
  iv_token_hash : string;
  iv_token_prefix : string;
  iv_invited_by : Uuid;
  iv_expires_at : Z;
  iv_accepted_at : option Z;
  iv_accepted_by : option Uuid;
  iv_revoked_at : option Z;
  iv_created_at : Z;
}.

(** [sessions], with the struct [Session]. *)
Record Session := mkSession {
  ss_id : Uuid;
  ss_user_id : Uuid;
  ss_created_at : Z;
  ss_last_used_at : Z;
  ss_expires_at : Z;
  ss_revoked_at : option Z;
  ss_mfa_satisfied : bool;
}.

(** [user_passkeys], with the struct [Passkey]. *)
Record Passkey := mkPasskey {
  pk_id : Uuid;
  pk_user_id : Uuid;
  pk_credential_id : string;
  pk_credential : string;
  pk_sign_counter : Z;
  pk_nickname : string;
  pk_registered_at : Z;
  pk_last_used_at : option Z;
  pk_revoked_at : option Z;
}.

(** [mfa_recovery_codes], with the struct [MfaRecoveryCode]. *)
Record MfaRecoveryCode := mkRecovery {
  rc_id : Uuid;
  rc_user_id : Uuid;
  rc_code_hash : string;
  rc_created_at : Z;
  rc_used_at : option Z;
}.

(** [webauthn_ceremonies], with the enum [CeremonyKind] and the struct
    [CeremonyRow]. *)
Inductive CeremonyKind := Registration | Assertion.
#[global] Instance CeremonyKind_eq : EqDecision CeremonyKind.
Proof. solve_decision. Defined.
Record CeremonyRow := mkCeremony {
  cy_id : Uuid;
  cy_user_id : Uuid;
  cy_kind : CeremonyKind;
  cy_state : string;
  cy_expires_at : Z;
}.

(** [auth_states], with the struct [AuthState]. *)
Record AuthState := mkAuthState {
  as_state : string;
  as_nonce : string;
  as_code_verifier : string;
  as_provider : string;
  as_redirect_to : option string;
  as_created_at : Z;
  as_expires_at : Z;
  as_consumed_at : option Z;
}.

(** [user_oidc_identities] *)
Record OidcIdentity := mkIdentity {
  oi_id : Uuid;
  oi_user_id : Uuid;
  oi_issuer : string;
  oi_subject : string;
  oi_email_at_link : option string;
}.

(** [api_keys]; the key belongs to no one once its user row is gone. *)
Record ApiKey := mkApiKey {
  ak_id : Uuid;
  ak_organization_id : Uuid;
  ak_user_id : option Uuid;
  ak_name : string;
  ak_token_hash : string;
  ak_token_prefix : string;
  ak_created_at : Z;
  ak_last_used_at : option Z;
  ak_expires_at : option Z;
  ak_revoked_at : option Z;
}.

(** [idempotency_keys]. *)
Record IdempotencyRow := mkIdem {
  ik_organization_id : Uuid;
  ik_key : string;
  ik_request_hash : string;
  ik_response_status : Z;
  ik_response_body : string;
  ik_expires_at : Z;
}.

(** [audit_log_entries]. *)
Record AuditEntry := mkAudit {
  au_id : Uuid;
  au_organization_id : Uuid;
  au_actor_user_id : option Uuid;
  au_action : string;
  au_resource_type : string;
  au_resource_id : string;
  au_decision : string;
  au_request_id : option string;
  au_user_agent : option string;
  au_prev_hash : option string;
  au_hash : string;
  au_created_at : Z;
}.

Record DB := mkDB {
  db_clusters : list Cluster;
  db_servers : list ClusterServer;
  db_workflows : list WorkflowRow;
  db_secrets : list SecretRow;
  db_credentials : list HetznerCredential;
  db_addons : list ClusterAddon;
  db_orgs : list OrgRow;
  db_sub_events : list SubscriptionEvent;
  db_users : list UserRow;
  db_memberships : list Membership;
  db_invites : list Invite;
  db_sessions : list Session;
  db_passkeys : list Passkey;
  db_recovery : list MfaRecoveryCode;
  db_idempotency : list IdempotencyRow;
  db_api_keys : list ApiKey;
  db_audit : list AuditEntry;
  db_ceremonies : list CeremonyRow;
  db_auth_states : list AuthState;
  db_identities : list OidcIdentity;
}.

Definition empty_db : DB := mkDB [] [] [] [] [] [] [] [] [] [] [] [] [] [] [] [] [] [] [] [].

(** * Environment and world *)

(** What the code asks of its surroundings; the [nat] is the number of
    requests made so far.  [db_fault] says which database round trips fail. *)
Class Env := {
  env_broadcast :: Broadcast;
  (** Microseconds. *)
  clock : nat -> Z;
  rand_uuid : nat -> Uuid;
  uuid_v5 : string -> Uuid;
  uuid_str : Uuid -> string;
  db_fault : nat -> bool;
  (** The connection's role is a superuser (it bypasses row security); [false]
      for the [NOBYPASSRLS] role [kubinate_app] of production. *)
  bypass_rls : bool;
  sha256 : string -> string;
  (** pgcrypto: [pgp_sym_encrypt] (with the randomness it draws) and
      [pgp_sym_decrypt], which fails on a wrong key. *)
  pgp_encrypt : nat -> string -> string -> string;
  pgp_decrypt : string -> string -> option string;
  random_bytes : nat -> string;
  (** The casts [$1::inet] and, of its value, [::text]; [None] is a syntax error. *)
  inet_text : string -> option string;
  (** The error of writing a file, if any. *)
  fs_write_error : nat -> option string;
  (** [std::env::temp_dir()] *)
  temp_dir : string;
  (** The folding under which [citext] compares. *)
  citext_fold : string -> string;
  (** [Uuid::parse_str], and the variable [KUBINATE__ALLOW_HEADER_ACTOR = 1]. *)
  uuid_parse : string -> option Uuid;
  allow_header_actor : bool;
  (** Bytes of [OsRng], and base64url without padding. *)
  os_random : nat -> string;
  base64url : string -> string;
}.

(** The session variables ([SET LOCAL app.current_*]) of the open transaction
    and its start time, which SQL's [now()] returns. *)
Record Guc := mkGuc {
  g_now : Z;
  g_tenant : Uuid;
  g_actor : option Uuid;
  g_request_id : option string;
  g_user_agent : option string;
}.

(** [audit.rs: AuditContext] (the client address is not kept). *)
Record AuditContext := mkAuditContext {
  ac_actor_user_id : option Uuid;
  ac_request_id : option string;
  ac_user_agent : option string;
}.

Section World.
Context `{Env}.

Record World := mkWorld {
  w_db : DB;
  w_tick : nat;
  w_guc : Guc;
  w_calls : list Call;
  w_hub : Hub;
  w_files : list string;
}.

Definition set_db (db : DB) (w : World) : World :=
  let 'mkWorld _ t g c h f := w in mkWorld db t g c h f.
Definition set_guc (g : Guc) (w : World) : World :=
  let 'mkWorld d t _ c h f := w in mkWorld d t g c h f.
Definition tick (w : World) : World :=
  let 'mkWorld d t g c h f := w in mkWorld d (S t) g c h f.
Definition add_call (k : Call) (w : World) : World :=
  let 'mkWorld d t g c h f := w in mkWorld d t g (c ++ [k]) h f.
Definition set_hub (h : Hub) (w : World) : World :=
  let 'mkWorld d t g c _ f := w in mkWorld d t g c h f.
Definition set_files (f : list string) (w : World) : World :=
  let 'mkWorld d t g c h _ := w in mkWorld d t g c h f.

(** What the migrations declare about the table of the rows [R]. *)
Class Table (R : Type) := {
  rows : DB -> list R;
  set_rows : list R -> DB -> DB;
  row_id : R -> Uuid;
  (** The policy [organization_id = app_current_tenant_id()], if any. *)
  row_tenant : R -> option Uuid;
  (** The table name, when [audit_log_append_trigger] is attached. *)
  row_audited : option string;
  (** The BEFORE UPDATE trigger, given [now()], OLD and NEW. *)
  row_touch : Z -> R -> R -> R;
  (** The two rows violate the primary key or a unique index. *)
  row_conflict : R -> R -> bool;
  (** The CHECK and foreign-key constraints of an INSERT. *)
  row_check : DB -> R -> option DbError;
  (** An [ON DELETE RESTRICT] reference to the row exists. *)
  row_referenced : DB -> R -> bool;
  (** The AFTER row trigger other than the audit one. *)
  row_after : Guc -> R -> DB -> DB;
}.
End World.
#[global] Arguments World {_}.

(** The accessors behave as a lens and leave the audit log alone. *)
Class TableLaws `{Env} (R : Type) `{!Table R} := {
  rows_set_rows (l : list R) db : rows (set_rows l db) = l;
  set_rows_rows (db : DB) : set_rows (rows db : list R) db = db;
  set_rows_set_rows (l k : list R) db : set_rows l (set_rows k db) = set_rows l db;
  audit_set_rows (l : list R) db : db_audit (set_rows l db) = db_audit db;
  row_after_rows g (r : R) db : rows (row_after g r db) = (rows db : list R);
  row_after_audit g (r : R) db : db_audit (row_after g r db) = db_audit db;
  row_touch_id now (old new : R) : row_id (row_touch now old new) = row_id new;
  row_touch_tenant now (old new : R) : row_tenant (row_touch now old new) = row_tenant new;
}.

(** * A concrete environment *)

(** A cipher that writes the key before the text, each byte of the key behind
    an [x]: enough to satisfy the laws asked of pgcrypto. *)
Fixpoint toy_encrypt (key text : string) : string :=
  match key with
  | EmptyString => "." +++ text
  | String c key' => String "x"%char (String c (toy_encrypt key' text))
  end.
Fixpoint toy_decrypt (key cipher : string) : option string :=
  match key, cipher with
  | EmptyString, String "."%char text => Some text
  | String c key', String "x"%char (String d cipher') =>
      if Ascii.eqb c d then toy_decrypt key' cipher' else None
  | _, _ => None
  end.

Lemma toy_decrypt_encrypt key text : toy_decrypt key (toy_encrypt key text) = Some text.
Proof.
  induction key as [|c key IH]; [by destruct text|]. simpl. by rewrite Ascii.eqb_refl.
Qed.

Lemma toy_decrypt_other key key' text :
  key <> key' -> toy_decrypt key (toy_encrypt key' text) = None.
Proof.
  revert key'. induction key as [|c key IH]; intros [|d key'] Hne; simpl; try done.
  destruct (Ascii.eqb c d) eqn:E; [|done]. apply Ascii.eqb_eq in E as ->.
  apply IH. congruence.
Qed.

(** An environment without faults, for the two database roles. *)
Definition demo_env_as (superuser : bool) : Env := {|
  env_broadcast := counting_broadcast;
  clock n := 1000 + Z.of_nat n;
  rand_uuid n := (1000 + N.of_nat n)%N;
  uuid_v5 s := (2 ^ 100 + N.pos (encode s))%N;
  uuid_str u := pretty u;
  db_fault _ := false;
  bypass_rls := superuser;
  sha256 s := "#" +++ s;
  pgp_encrypt _ key text := toy_encrypt key text;
  pgp_decrypt key cipher := toy_decrypt key cipher;
  random_bytes n := pretty n;
  inet_text s := Some (s +++ "/32");
  fs_write_error _ := None;
  temp_dir := "/tmp";
  citext_fold s := to_ascii_lowercase s;
  uuid_parse s := head (omap (fun n => if String.eqb (pretty (N.of_nat n)) s
                                       then Some (N.of_nat n) else None) (seq 1 64));
  allow_header_actor := false;
  os_random n := pretty n;
  base64url s := s;
|}.

Definition demo_env : Env := demo_env_as false.

Definition demo_guc : Guc := mkGuc 0 Uuid_nil None None None.
Definition demo_world_as (superuser : bool) (db : DB) : @World (demo_env_as superuser) :=
  @mkWorld (demo_env_as superuser) db 0 demo_guc [] (@hub_new counting_broadcast) [].
Definition demo_world (db : DB) : @World demo_env := demo_world_as false db.
