(* ===== verification/Database.v ===== *)
(** The database the repositories run on: the SQL statements they issue, under
    row-level security, unique indexes, checks and triggers ([src/migrations]),
    and the transaction patterns of the code.  A statement is one round trip
    that [db_fault] may fail; a transaction works on the live tables and puts
    them back when its body or its commit fails. *)

From stdpp Require Import base gmap strings list.
From S2P Require Import Prelude Errors Integrations Events Schema.

(** * Audit log ([20260424120300_audit_log.sql]) *)

Section Audit.
Context `{Env}.

(** [audit_log_hash_input] *)
Definition audit_hash_input (prev : option string) (org : Uuid)
    (action resource_type resource_id : string) : string :=
  default EmptyString prev +++ uuid_str org +++ "|" +++ action +++ "|"
    +++ resource_type +++ "|" +++ resource_id.

(** [ORDER BY created_at, id] *)
Definition audit_leb (a b : AuditEntry) : bool :=
  (au_created_at a <? au_created_at b)
  || ((au_created_at a =? au_created_at b) && (au_id a <=? au_id b)%N).

(** [ORDER BY created_at DESC, id DESC LIMIT 1] *)
Definition audit_tail (org : Uuid) (log : list AuditEntry) : option AuditEntry :=
  fold_left (fun acc e =>
    match acc with
    | None => Some e
    | Some m => if audit_leb m e then Some e else Some m
    end) (List.filter (fun e => bool_decide (au_organization_id e = org)) log) None.

(** The row [audit_log_append_trigger] and [audit_log_append_explicit] insert. *)
Definition audit_entry (g : Guc) (id : Uuid) (org : Uuid)
    (action resource_type resource_id decision : string) (log : list AuditEntry) : AuditEntry :=
  let prev := au_hash <$> audit_tail org log in
  mkAudit id org (g_actor g) action resource_type resource_id decision
    (g_request_id g) (g_user_agent g) prev
    (sha256 (audit_hash_input prev org action resource_type resource_id)) (g_now g).

Definition set_audit (log : list AuditEntry) (db : DB) : DB :=
  let 'mkDB a b c d e f g h i j k l m n o p _ t u v := db in
  mkDB a b c d e f g h i j k l m n o p log t u v.

(** [audit_log_verify]: the ids of the broken rows, walking in order. *)
Fixpoint audit_walk (prev : option string) (l : list AuditEntry) : list (Uuid * string) :=
  match l with
  | [] => []
  | r :: l' =>
      (if bool_decide (au_prev_hash r = prev) then []
       else [(au_id r, "prev_hash mismatch"%string)])
      ++ (if String.eqb (au_hash r)
               (sha256 (audit_hash_input prev (au_organization_id r) (au_action r)
                          (au_resource_type r) (au_resource_id r)))
          then [] else [(au_id r, "hash mismatch"%string)])
      ++ audit_walk (Some (au_hash r)) l'
  end.

Fixpoint audit_insert_sorted (e : AuditEntry) (l : list AuditEntry) : list AuditEntry :=
  match l with
  | [] => [e]
  | x :: l' => if audit_leb e x then e :: l else x :: audit_insert_sorted e l'
  end.

Definition audit_log_verify (org : Uuid) (db : DB) : list (Uuid * string) :=
  audit_walk None
    (fold_right audit_insert_sorted []
       (List.filter (fun e => bool_decide (au_organization_id e = org)) (db_audit db))).
End Audit.

(** * Statements *)

Section Sql.
Context `{Env}.

Definition set_tick (n : nat) (w : World) : World :=
  let 'mkWorld d _ g c h f := w in mkWorld d n g c h f.

(** The row passes the policy [organization_id = app_current_tenant_id()]. *)
Definition visible {R} `{!Table R} (g : Guc) (r : R) : bool :=
  match row_tenant r with
  | None => true
  | Some org => bypass_rls || bool_decide (org = g_tenant g)
  end.

Definition stmt {A} (f : World -> result DbError A * World) : M World DbError A :=
  fun w => if db_fault (w_tick w) then (Err DbTransport, tick w) else f (tick w).

(** The entries the audit trigger adds for the rows [rs], in order. *)
Fixpoint audit_entries {R} `{!Table R} (g : Guc) (t : nat) (op : string) (rs : list R)
    (log : list AuditEntry) : list AuditEntry :=
  match rs, row_audited (R := R) with
  | r :: rs', Some tbl =>
      let e := audit_entry g (rand_uuid t) (default Uuid_nil (row_tenant r))
                 (tbl +++ op) tbl (uuid_str (row_id r)) "allowed" log in
      e :: audit_entries g (S t) op rs' (log ++ [e])
  | _, _ => []
  end.

(** The AFTER triggers of a statement that wrote the rows [rs]. *)
Definition after_rows {R} `{!Table R} (g : Guc) (t : nat) (op : string) (rs : list R)
    (db : DB) : DB :=
  set_audit (db_audit db ++ audit_entries g t op rs (db_audit db))
    (fold_left (fun d r => row_after g r d) rs db).

(** [SELECT * FROM t WHERE p] (rows in insertion order). *)
Definition select {R} `{!Table R} (p : Z -> R -> bool) : M World DbError (list R) :=
  stmt (fun w =>
    let g := w_guc w in
    (Ok (List.filter (fun r => visible g r && p (g_now g) r) (rows (w_db w))), w)).

Definition update_hit {R} `{!Table R} (g : Guc) (p : Z -> R -> bool) (r : R) : bool :=
  visible g r && p (g_now g) r.
Definition update_new {R} `{!Table R} (g : Guc) (f : Z -> R -> R) (r : R) : R :=
  row_touch (g_now g) r (f (g_now g) r).
Definition update_hits {R} `{!Table R} (g : Guc) (p : Z -> R -> bool) (f : Z -> R -> R)
    (db : DB) : list R :=
  map (update_new g f) (List.filter (update_hit g p) (rows db)).
Definition update_db {R} `{!Table R} (t : nat) (g : Guc) (p : Z -> R -> bool)
    (f : Z -> R -> R) (db : DB) : DB :=
  after_rows g t ".updated" (update_hits g p f db)
    (set_rows (update_rows (update_hit g p) (update_new g f) (rows db)) db).

(** [UPDATE t SET f WHERE p RETURNING *]; [chk] is the constraint on the
    columns the statement assigns (foreign key, unique index), if any. *)
Definition update_chk {R} `{!Table R} (chk : DB -> R -> option DbError)
    (p : Z -> R -> bool) (f : Z -> R -> R) : M World DbError (list R) :=
  stmt (fun w =>
    let g := w_guc w in
    let hits := update_hits g p f (w_db w) in
    match find_map (chk (w_db w)) hits with
    | Some e => (Err e, w)
    | None => (Ok hits, set_tick (w_tick w + length hits)%nat
                          (set_db (update_db (w_tick w) g p f (w_db w)) w))
    end).
Definition update {R} `{!Table R} (p : Z -> R -> bool) (f : Z -> R -> R)
  : M World DbError (list R) := update_chk (fun _ _ => None) p f.

Definition insert_db {R} `{!Table R} (t : nat) (g : Guc) (r : R) (db : DB) : DB :=
  after_rows g t ".created" [r] (set_rows (rows db ++ [r]) db).

Definition insert_error {R} `{!Table R} (g : Guc) (r : R) (db : DB) : option DbError :=
  if negb (visible g r) then Some DbRowSecurity
  else if existsb (row_conflict r) (rows db) then Some DbUnique
  else row_check db r.

(** [INSERT INTO t VALUES (r) RETURNING *]; the row is built from the clock. *)
Definition insert {R} `{!Table R} (mk : Z -> R) : M World DbError R :=
  stmt (fun w =>
    let g := w_guc w in
    let r := mk (g_now g) in
    match insert_error g r (w_db w) with
    | Some e => (Err e, w)
    | None => (Ok r, set_tick (w_tick w + 1)%nat
                       (set_db (insert_db (w_tick w) g r (w_db w)) w))
    end).

(** [INSERT .. ON CONFLICT (on) DO NOTHING]: the number of rows written. *)
Definition insert_or_ignore {R} `{!Table R} (on : R -> R -> bool) (mk : Z -> R)
  : M World DbError nat :=
  stmt (fun w =>
    let g := w_guc w in
    let r := mk (g_now g) in
    if negb (visible g r) then (Err DbRowSecurity, w)
    else if existsb (on r) (rows (w_db w)) then (Ok O, w)
    else match insert_error g r (w_db w) with
         | Some e => (Err e, w)
         | None => (Ok 1%nat, set_tick (w_tick w + 1)%nat
                                (set_db (insert_db (w_tick w) g r (w_db w)) w))
         end).

(** [INSERT .. ON CONFLICT (on) DO UPDATE SET f]: the row written is the new
    one, or the one in conflict, rewritten by [f] from the proposed row. *)
Definition upsert_row {R} `{!Table R} (on : R -> R -> bool) (mk : Z -> R) (f : Z -> R -> R -> R)
  : M World DbError unit :=
  stmt (fun w =>
    let g := w_guc w in
    let r := mk (g_now g) in
    if negb (visible g r) then (Err DbRowSecurity, w)
    else match List.find (on r) (rows (w_db w)) with
         | Some old =>
             if visible g old
             then let hits := update_hits g (fun _ => on r) (fun now => f now r) (w_db w) in
                  (Ok tt, set_tick (w_tick w + length hits)%nat
                            (set_db (update_db (w_tick w) g (fun _ => on r) (fun now => f now r)
                                       (w_db w)) w))
             else (Err DbRowSecurity, w)
         | None =>
             match insert_error g r (w_db w) with
             | Some e => (Err e, w)
             | None => (Ok tt, set_tick (w_tick w + 1)%nat
                                 (set_db (insert_db (w_tick w) g r (w_db w)) w))
             end
         end).

(** [DELETE FROM t WHERE p RETURNING *] *)
Definition delete {R} `{!Table R} (p : Z -> R -> bool) : M World DbError (list R) :=
  stmt (fun w =>
    let g := w_guc w in
    let hits := List.filter (update_hit g p) (rows (w_db w)) in
    if existsb (row_referenced (w_db w)) hits then (Err DbForeignKey, w)
    else (Ok hits,
          set_tick (w_tick w + length hits)%nat
            (set_db (after_rows g (w_tick w) ".deleted" hits
               (set_rows (List.filter (fun r => negb (update_hit g p r)) (rows (w_db w)))
                  (w_db w))) w))).

(** * Transactions *)

Definition idle_guc (now : Z) : Guc := mkGuc now Uuid_nil None None None.

(** [pool.begin()] .. [tx.commit()]: an error of the body, or of the commit,
    leaves the tables as they were.  The first two arguments say what the caller
    makes of a failed [begin] and of a failed [commit]. *)
Definition in_tx_with {E A} (begin_failed : E) (commit_failed : A -> result E A)
    (body : M World E A) : M World E A :=
  fun w =>
    if db_fault (w_tick w) then (Err begin_failed, tick w)
    else
      let '(r, w1) := body (set_guc (idle_guc (clock (w_tick w))) (tick w)) in
      match r with
      | Err e => (Err e, set_guc (w_guc w) (set_db (w_db w) w1))
      | Ok a =>
          if db_fault (w_tick w1)
          then (commit_failed a, set_guc (w_guc w) (set_db (w_db w) (tick w1)))
          else (Ok a, set_guc (w_guc w) (tick w1))
      end.
Definition in_tx {E A} `{!FromDb E} (body : M World E A) : M World E A :=
  in_tx_with (of_db DbTransport) (fun _ => Err (of_db DbTransport)) body.

(** [.execute(&self.pool)]: one statement in its own transaction, with no
    session variable set. *)
Definition on_pool {E A} `{!FromDb E} (m : M World DbError A) : M World E A :=
  fun w =>
    let '(r, w1) := m (set_guc (idle_guc (clock (w_tick w))) w) in
    (result_map_err of_db r, set_guc (w_guc w) w1).

Definition set_tenant_guc (org : Uuid) (g : Guc) : Guc :=
  mkGuc (g_now g) org (g_actor g) (g_request_id g) (g_user_agent g).

(** [SET LOCAL app.current_tenant_id = '{organization_id}'] *)
Definition set_tenant (org : Uuid) : M World DbError unit :=
  stmt (fun w => (Ok tt, set_guc (set_tenant_guc org (w_guc w)) w)).

Definition or_else {A} (o o' : option A) : option A :=
  match o with Some _ => o | None => o' end.
Definition set_audit_guc (a : AuditContext) (g : Guc) : Guc :=
  mkGuc (g_now g) (g_tenant g) (or_else (ac_actor_user_id a) (g_actor g))
    (or_else (ac_request_id a) (g_request_id g)) (or_else (ac_user_agent a) (g_user_agent g)).

(** [audit.rs: AuditContext::apply]: one statement per field that is set. *)
Definition set_when {A} (o : option A) (f : A -> Guc -> Guc) : M World DbError unit :=
  match o with
  | None => ret tt
  | Some a => stmt (fun w => (Ok tt, set_guc (f a (w_guc w)) w))
  end.
Definition audit_apply (a : AuditContext) : M World DbError unit :=
  set_when (ac_actor_user_id a) (fun x g =>
    mkGuc (g_now g) (g_tenant g) (Some x) (g_request_id g) (g_user_agent g)) ;;;
  set_when (ac_request_id a) (fun x g =>
    mkGuc (g_now g) (g_tenant g) (g_actor g) (Some x) (g_user_agent g)) ;;;
  set_when (ac_user_agent a) (fun x g =>
    mkGuc (g_now g) (g_tenant g) (g_actor g) (g_request_id g) (Some x)).

(** The opening every tenant-scoped method of the repositories shares:
    [begin], [set_tenant], [audit.apply] for the mutators. *)
Definition tenant_tx {E A} `{!FromDb E} (org : Uuid) (audit : option AuditContext)
    (body : M World E A) : M World E A :=
  in_tx (map_err of_db
           (set_tenant org ;;; match audit with Some a => audit_apply a | None => ret tt end) ;;;
         body).

Definition tenant_guc (now : Z) (org : Uuid) (audit : option AuditContext) : Guc :=
  let g := set_tenant_guc org (idle_guc now) in
  match audit with Some a => set_audit_guc a g | None => g end.

(** [.await?] on a statement. *)
Definition sql {E A} `{!FromDb E} (m : M World DbError A) : M World E A := map_err of_db m.

(** [audit.rs: append_explicit] (the SQL function [audit_log_append_explicit]). *)
Definition append_explicit (org : Uuid) (action resource_type : string)
    (resource_id : option string) (decision : string) : M World PlatformError Uuid :=
  sql (stmt (fun w =>
    let id := rand_uuid (w_tick w) in
    let e := audit_entry (w_guc w) id org action resource_type
               (default EmptyString resource_id) decision (db_audit (w_db w)) in
    (Ok id, tick (set_db (set_audit (db_audit (w_db w) ++ [e]) (w_db w)) w)))).

(** [OffsetDateTime::now_utc()], [Uuid::now_v7()] *)
Definition now_utc {E} : M World E Z := fun w => (Ok (clock (w_tick w)), tick w).
Definition now_v7 {E} : M World E Uuid := fun w => (Ok (rand_uuid (w_tick w)), tick w).
(** A call outside the program, whose answer may differ each time. *)
Definition drawing {E A} (f : nat -> M World E A) : M World E A := fun w => f (w_tick w) (tick w).
End Sql.

(** * Reasoning about statements and transactions *)

Section Rules.
Context `{En : Env}.

(** Everything a database call leaves alone. *)
Record frame (w w' : World) : Prop := mkFrame {
  frame_guc : w_guc w' = w_guc w;
  frame_calls : w_calls w' = w_calls w;
  frame_hub : w_hub w' = w_hub w;
  frame_files : w_files w' = w_files w;
  frame_tick : (w_tick w <= w_tick w')%nat;
}.

#[export] Instance frame_preorder : PreOrder frame.
Proof.
  split; [by intros w; constructor|].
  intros x y z [? ? ? ? ?] [? ? ? ? ?]. constructor; congruence || lia.
Qed.

(** A superuser sees every row. *)
Lemma visible_bypass (Hb : bypass_rls = true) {R} `{!Table R} g (r : R) : visible g r = true.
Proof. unfold visible. destruct (row_tenant r); by rewrite ?Hb. Qed.

(** Some round trip of the run fails: the only way to an error of transport. *)
Definition faulty : Prop := exists n, db_fault n = true.

(** [m], run in a transaction with the session variables [g] on the tables
    [d], ends with a result and tables that satisfy [P]. *)
Definition tx_wp {E A} (g : Guc) (d : DB) (m : M World E A) (P : result E A -> DB -> Prop) : Prop :=
  forall w, w_db w = d -> w_guc w = g ->
    wp m (fun r w' => frame w w' /\ P r (w_db w')) w.

(** The same outside a transaction, whatever the variables. *)
Definition db_wp {E A} (d : DB) (m : M World E A) (P : result E A -> DB -> Prop) : Prop :=
  forall g, tx_wp g d m P.

Lemma tx_mono {E A} g d (m : M World E A) (P Q : result E A -> DB -> Prop) :
  tx_wp g d m P -> (forall r d', P r d' -> Q r d') -> tx_wp g d m Q.
Proof. intros Hm HPQ w Hd Hg. destruct (Hm w Hd Hg). split; auto. Qed.

Lemma db_mono {E A} d (m : M World E A) (P Q : result E A -> DB -> Prop) :
  db_wp d m P -> (forall r d', P r d' -> Q r d') -> db_wp d m Q.
Proof. intros Hm HPQ g. eapply tx_mono; eauto. Qed.

(** The outcome of a run from the tables [d]. *)
Lemma db_run {E A} d (m : M World E A) (P : result E A -> DB -> Prop) w :
  db_wp d m P -> w_db w = d -> P (m w).1 (w_db (m w).2).
Proof.
  intros Hm Hw. destruct (Hm (w_guc w) w Hw eq_refl) as [_ HP].
  by destruct (m w).
Qed.

Lemma tx_ret {E A} g d (a : A) (P : result E A -> DB -> Prop) :
  P (Ok a) d -> tx_wp g d (ret a) P.
Proof. by intros HP w <- _. Qed.

Lemma tx_throw {E A} g d (e : E) (P : result E A -> DB -> Prop) :
  P (Err e) d -> tx_wp g d (throw e) P.
Proof. by intros HP w <- _. Qed.

Lemma tx_lift {E A} g d (r : result E A) (P : result E A -> DB -> Prop) :
  P r d -> tx_wp g d (lift r) P.
Proof. by intros HP w <- _. Qed.

Lemma tx_bind {E A B} g d (m : M World E A) (k : A -> M World E B) P :
  tx_wp g d m (fun r d' => match r with
                           | Ok a => tx_wp g d' (k a) P
                           | Err e => P (Err e) d'
                           end) ->
  tx_wp g d (bind m k) P.
Proof.
  intros Hm w Hd Hg. unfold wp, bind. destruct (Hm w Hd Hg) as [Hf Hr].
  destruct (m w) as [[a|e] w1]; simpl in *; [|done].
  destruct (Hr w1 eq_refl) as [Hf' HP]; [by rewrite (frame_guc _ _ Hf)|].
  split; [by etrans|done].
Qed.

Lemma tx_map_err {E F A} g d (f : E -> F) (m : M World E A) P :
  tx_wp g d m (fun r d' => P (result_map_err f r) d') -> tx_wp g d (map_err f m) P.
Proof.
  intros Hm w Hd Hg. specialize (Hm w Hd Hg). unfold wp, map_err in *. by destruct (m w).
Qed.

Lemma tx_attempt {E F A} g d (m : M World E A) (P : result F (result E A) -> DB -> Prop) :
  tx_wp g d m (fun r d' => P (Ok r) d') -> tx_wp g d (attempt m) P.
Proof.
  intros Hm w Hd Hg. specialize (Hm w Hd Hg). unfold wp, attempt in *. by destruct (m w).
Qed.

Lemma tx_ignore {E F A} g d (m : M World E A) (P : result F unit -> DB -> Prop) :
  tx_wp g d m (fun _ d' => P (Ok tt) d') -> tx_wp g d (ignore m) P.
Proof.
  intros Hm w Hd Hg. specialize (Hm w Hd Hg). unfold wp, ignore in *. by destruct (m w).
Qed.

Lemma frame_ticked w n : (w_tick w <= n)%nat -> frame w (set_tick n w).
Proof. destruct w. by constructor. Qed.
Lemma frame_set_db w d n : (w_tick w <= n)%nat -> frame w (set_tick n (set_db d w)).
Proof. destruct w. by constructor. Qed.

(** A draw from the environment. *)
Lemma tx_ticked {E A} g d (h : nat -> A) (P : result E A -> DB -> Prop) :
  (forall n, P (Ok (h n)) d) -> tx_wp g d (fun w => (Ok (h (w_tick w)), tick w)) P.
Proof.
  intros HP w <- _. split; [|destruct w; apply HP].
  destruct w; constructor; simpl; done || lia.
Qed.

Lemma tx_now_v7 {E} g d (P : result E Uuid -> DB -> Prop) :
  (forall id, P (Ok id) d) -> tx_wp g d now_v7 P.
Proof. intros HP. apply (tx_ticked _ _ rand_uuid). auto. Qed.

Lemma tx_now_utc {E} g d (P : result E Z -> DB -> Prop) :
  (forall t, P (Ok t) d) -> tx_wp g d now_utc P.
Proof. intros HP. apply (tx_ticked _ _ clock). auto. Qed.

Lemma tx_drawing {E A} g d (f : nat -> M World E A) P :
  (forall n, tx_wp g d (f n) P) -> tx_wp g d (drawing f) P.
Proof.
  intros Hf w Hd Hg. destruct (Hf (w_tick w) (tick w)) as [Hr HP]; [by destruct w|by destruct w|].
  split; [|exact HP]. etrans; [|exact Hr]. destruct w; constructor; simpl; done || lia.
Qed.

(** A statement that keeps the frame: one round trip. *)
Lemma tx_stmt {A} g d (f : World -> result DbError A * World) P :
  (faulty -> P (Err DbTransport) d) ->
  (forall w, w_db w = d -> w_guc w = g -> frame w (f w).2 /\ P (f w).1 (w_db (f w).2)) ->
  tx_wp g d (stmt f) P.
Proof.
  intros Hfault Hf w Hd Hg. unfold wp, stmt.
  assert (Ht : frame w (tick w)) by (destruct w; constructor; simpl; done || lia).
  destruct (db_fault (w_tick w)) eqn:E; simpl.
  - split; [done|]. rewrite <- Hd in *. destruct w; simpl. apply Hfault. by eexists.
  - destruct (Hf (tick w)) as [Hfr HP]; [by destruct w|by destruct w|].
    split; [by etrans|done].
Qed.

Lemma tx_select {R} `{!Table R} g d (p : Z -> R -> bool) P :
  (faulty -> P (Err DbTransport) d) ->
  P (Ok (List.filter (fun r => visible g r && p (g_now g) r) (rows d))) d ->
  tx_wp g d (select p) P.
Proof. intros Hf HP. apply tx_stmt; [done|]. intros w <- <-. by split. Qed.

Lemma tx_update_chk {R} `{!Table R} g d chk (p : Z -> R -> bool) f P :
  (faulty -> P (Err DbTransport) d) ->
  (forall e, find_map (chk d) (update_hits g p f d) = Some e -> P (Err e) d) ->
  (find_map (chk d) (update_hits g p f d) = None ->
   forall t, P (Ok (update_hits g p f d)) (update_db t g p f d)) ->
  tx_wp g d (update_chk chk p f) P.
Proof.
  intros Hf Herr HP. apply tx_stmt; [done|]. intros w <- <-.
  cbv beta zeta. destruct (find_map _ _) as [e|] eqn:E; simpl; [split; [reflexivity|by auto]|].
  split; [apply frame_set_db; lia|]. destruct w; simpl. by apply HP.
Qed.

Lemma find_map_none {A B} (l : list A) : find_map (fun _ => @None B) l = None.
Proof. by induction l. Qed.

Lemma tx_update {R} `{!Table R} g d (p : Z -> R -> bool) f P :
  (faulty -> P (Err DbTransport) d) ->
  (forall t, P (Ok (update_hits g p f d)) (update_db t g p f d)) ->
  tx_wp g d (update p f) P.
Proof. intros Hf HP. apply tx_update_chk; [done| |by intros _]. intros e. by rewrite find_map_none. Qed.

Lemma tx_insert {R} `{!Table R} g d (mk : Z -> R) P :
  (faulty -> P (Err DbTransport) d) ->
  (forall e, insert_error g (mk (g_now g)) d = Some e -> P (Err e) d) ->
  (insert_error g (mk (g_now g)) d = None ->
   forall t, P (Ok (mk (g_now g))) (insert_db t g (mk (g_now g)) d)) ->
  tx_wp g d (insert mk) P.
Proof.
  intros Hf Herr HP. apply tx_stmt; [done|]. intros w <- <-.
  cbv beta zeta. destruct (insert_error _ _ _) as [e|] eqn:E; simpl; [split; [reflexivity|by auto]|].
  split; [apply frame_set_db; lia|]. destruct w; simpl. by apply HP.
Qed.

Lemma tx_insert_or_ignore {R} `{!Table R} g d on (mk : Z -> R) P :
  (faulty -> P (Err DbTransport) d) ->
  (visible g (mk (g_now g)) = false -> P (Err DbRowSecurity) d) ->
  (existsb (on (mk (g_now g))) (rows d) = true -> P (Ok O) d) ->
  (forall e, insert_error g (mk (g_now g)) d = Some e -> P (Err e) d) ->
  (insert_error g (mk (g_now g)) d = None ->
   forall t, P (Ok 1%nat) (insert_db t g (mk (g_now g)) d)) ->
  tx_wp g d (insert_or_ignore on mk) P.
Proof.
  intros Hf Hv Hon Herr HP. apply tx_stmt; [done|]. intros w <- <-.
  cbv beta zeta. destruct (visible _ _) eqn:V; simpl; [|split; [reflexivity|by auto]].
  destruct (existsb _ _) eqn:X; simpl; [split; [reflexivity|by auto]|].
  destruct (insert_error _ _ _) as [e|] eqn:E; simpl; [split; [reflexivity|by auto]|].
  split; [apply frame_set_db; lia|]. destruct w; simpl. by apply HP.
Qed.

Lemma tx_upsert_row {R} `{!Table R} g d on (mk : Z -> R) f P :
  let r := mk (g_now g) in
  (faulty -> P (Err DbTransport) d) ->
  (visible g r = false -> P (Err DbRowSecurity) d) ->
  (forall old, List.find (on r) (rows d) = Some old -> visible g old = false ->
     P (Err DbRowSecurity) d) ->
  (forall old, List.find (on r) (rows d) = Some old -> visible g old = true ->
     forall t, P (Ok tt) (update_db t g (fun _ => on r) (fun now => f now r) d)) ->
  (forall e, List.find (on r) (rows d) = None -> insert_error g r d = Some e -> P (Err e) d) ->
  (List.find (on r) (rows d) = None -> insert_error g r d = None ->
     forall t, P (Ok tt) (insert_db t g r d)) ->
  tx_wp g d (upsert_row on mk f) P.
Proof.
  intros r Hf Hv Hold Hupd Herr Hins. apply tx_stmt; [done|]. intros w <- <-.
  cbv beta zeta. fold r. destruct (visible _ r) eqn:V; simpl; [|split; [reflexivity|by auto]].
  destruct (List.find _ _) as [old|] eqn:F.
  - destruct (visible _ old) eqn:O; simpl; [|split; [reflexivity|by eapply Hold]].
    split; [apply frame_set_db; lia|]. destruct w; simpl. by eapply Hupd.
  - destruct (insert_error _ _ _) as [e|] eqn:E; simpl; [split; [reflexivity|by auto]|].
    split; [apply frame_set_db; lia|]. destruct w; simpl. by apply Hins.
Qed.

Definition delete_hits {R} `{!Table R} (g : Guc) (p : Z -> R -> bool) (d : DB) : list R :=
  List.filter (update_hit g p) (rows d).
Definition delete_db {R} `{!Table R} (t : nat) (g : Guc) (p : Z -> R -> bool) (d : DB) : DB :=
  after_rows g t ".deleted" (delete_hits g p d)
    (set_rows (List.filter (fun r => negb (update_hit g p r)) (rows d)) d).

Lemma tx_delete {R} `{!Table R} g d (p : Z -> R -> bool) P :
  (faulty -> P (Err DbTransport) d) ->
  (existsb (row_referenced d) (delete_hits g p d) = true -> P (Err DbForeignKey) d) ->
  (existsb (row_referenced d) (delete_hits g p d) = false ->
   forall t, P (Ok (delete_hits g p d)) (delete_db t g p d)) ->
  tx_wp g d (delete p) P.
Proof.
  intros Hf Herr HP. apply tx_stmt; [done|]. intros w <- <-. simpl.
  unfold delete_hits in *.
  destruct (existsb _ _) eqn:E; simpl; [split; [reflexivity|by auto]|].
  split; [apply frame_set_db; lia|]. destruct w; simpl. by apply HP.
Qed.

(** ** Transactions *)

(** The opening statements of [tenant_tx]: a fault, or the variables set. *)
Lemma set_when_runs {A} (o : option A) (f : A -> Guc -> Guc) w :
  exists n, (w_tick w <= n)%nat /\
  (set_when o f w = (Ok tt, set_tick n (set_guc (match o with Some a => f a (w_guc w) | None => w_guc w end) w))
   \/ (faulty /\ set_when o f w = (Err DbTransport, set_tick n w))).
Proof.
  destruct o as [a|]; simpl; unfold stmt.
  - destruct (db_fault (w_tick w)) eqn:E; exists (S (w_tick w)); (split; [lia|]).
    + right. split; [by eexists|]. by destruct w.
    + left. by destruct w.
  - exists (w_tick w). split; [done|]. left. by destruct w.
Qed.

Lemma tenant_prologue_runs org audit w :
  exists n, (w_tick w <= n)%nat /\
  let m := set_tenant org ;;; match audit with Some a => audit_apply a | None => ret tt end in
  (m w = (Ok tt, set_tick n (set_guc (let g := set_tenant_guc org (w_guc w) in
                                 match audit with Some a => set_audit_guc a g | None => g end) w))
   \/ (faulty /\ exists g, m w = (Err DbTransport, set_tick n (set_guc g w)))).
Proof.
  simpl. unfold set_tenant, bind, stmt.
  destruct (db_fault (w_tick w)) eqn:E.
  { exists (S (w_tick w)). split; [lia|]. right. split; [by eexists|].
    exists (w_guc w). by destruct w. }
  set (w1 := set_guc _ (tick w)).
  assert (Hw1 : (w_tick w <= w_tick w1)%nat) by (destruct w; simpl; lia).
  assert (Hsame : forall n g, set_tick n (set_guc g w1) = set_tick n (set_guc g w)) by by destruct w.
  assert (Hg : w_guc w1 = set_tenant_guc org (w_guc w)) by by destruct w.
  destruct audit as [[a ri ua]|].
  2: { exists (w_tick w1). split; [done|]. left. destruct w; done. }
  unfold audit_apply. simpl. unfold bind.
  set (f1 := fun (x : Uuid) (g : Guc) => _).
  destruct (set_when_runs a f1 w1) as (n1 & Hn1 & [Hr|[Hfl Hr]]); rewrite Hr.
  2: { exists n1. split; [lia|]. right. split; [done|]. exists (w_guc w1). by destruct w. }
  set (w2 := set_tick n1 _). set (f2 := fun (x : string) (g : Guc) => mkGuc _ _ _ (Some x) _).
  destruct (set_when_runs ri f2 w2) as (n2 & Hn2 & [Hr2|[Hfl Hr2]]); rewrite Hr2.
  2: { exists n2. split; [destruct w; simpl in *; lia|]. right. split; [done|].
       exists (w_guc w2). by destruct w. }
  set (w3 := set_tick n2 _). set (f3 := fun (x : string) (g : Guc) => mkGuc _ _ _ _ (Some x)).
  destruct (set_when_runs ua f3 w3) as (n3 & Hn3 & [Hr3|[Hfl Hr3]]); rewrite Hr3.
  2: { exists n3. split; [destruct w; simpl in *; lia|]. right. split; [done|].
       exists (w_guc w3). by destruct w. }
  exists n3. split; [destruct w; simpl in *; lia|]. left.
  unfold w3, w2, w1. destruct w as [d t g c h fl]. simpl. f_equal.
  destruct a, ri, ua; reflexivity.
Qed.

Lemma db_tenant_tx {E A} `{!FromDb E} d org audit (body : M World E A) P :
  (faulty -> P (Err (of_db DbTransport)) d) ->
  (forall now, tx_wp (tenant_guc now org audit) d body (fun r d' =>
     match r with Ok a => P (Ok a) d' | Err e => P (Err e) d end)) ->
  db_wp d (tenant_tx org audit body) P.
Proof.
  intros Hf Hbody g w Hd Hg. unfold wp, tenant_tx, in_tx, in_tx_with.
  destruct (db_fault (w_tick w)) eqn:F0.
  { simpl. split; [destruct w; constructor; simpl; done || lia|].
    destruct w; simpl in *; subst. apply Hf. by eexists. }
  unfold bind, map_err.
  destruct (tenant_prologue_runs org audit
              (set_guc (idle_guc (clock (w_tick w))) (tick w))) as (n & Hn & Hm).
  simpl in Hm. unfold bind in Hm.
  destruct Hm as [Hm|(Hfl & g' & Hm)]; rewrite Hm; simpl.
  2: { split; [destruct w; constructor; simpl in *; done || lia|].
       destruct w; simpl in *; subst. by apply Hf. }
  set (w1 := set_tick n _).
  destruct (Hbody (clock (w_tick w)) w1) as [Hfr HP]; [by destruct w|by destruct w|].
  assert (Hf0 : frame (set_guc (w_guc w1) w) w1)
    by (destruct w; constructor; simpl in *; done || lia).
  pose proof (transitivity Hf0 Hfr) as [Hf1 Hf2 Hf3 Hf4 Hf5].
  destruct (body w1) as [[a|e] w2]; simpl in *.
  - destruct (db_fault (w_tick w2)) eqn:F2; simpl.
    + split; [destruct w, w2; constructor; simpl in *; done || lia|].
      destruct w, w2; simpl in *; subst. apply Hf. by eexists.
    + split; [destruct w, w2; constructor; simpl in *; done || lia|].
      by destruct w2.
  - split; [destruct w, w2; constructor; simpl in *; done || lia|].
    destruct w, w2; simpl in *; subst. done.
Qed.

(** The same for a body that may set the variables of its transaction. *)
Definition tx_loose {E A} (g : Guc) (d : DB) (m : M World E A) (P : result E A -> DB -> Prop) : Prop :=
  forall w, w_db w = d -> w_guc w = g ->
    wp m (fun r w' => frame w (set_guc (w_guc w) w') /\ P r (w_db w')) w.

Lemma tx_loosen {E A} g d (m : M World E A) (P : result E A -> DB -> Prop) :
  tx_wp g d m P -> tx_loose g d m P.
Proof.
  intros Hm w Hd Hg. destruct (Hm w Hd Hg) as [Hf HP]. split; [|done].
  destruct (m w) as [r w']; simpl in *. rewrite <- (frame_guc _ _ Hf). by destruct w'.
Qed.

Lemma loose_bind {E A B} g d (m : M World E A) (k : A -> M World E B) P :
  tx_wp g d m (fun r d' => match r with
                           | Ok a => tx_loose g d' (k a) P
                           | Err e => P (Err e) d'
                           end) ->
  tx_loose g d (bind m k) P.
Proof.
  intros Hm w Hd Hg. destruct (Hm w Hd Hg) as [Hf Hk]. unfold wp, bind.
  destruct (m w) as [[a|e] w1]; simpl in *.
  - destruct (Hk w1 eq_refl) as [Hf' HP]; [by rewrite (frame_guc _ _ Hf)|].
    split; [|done]. etrans; [done|]. by rewrite <- (frame_guc _ _ Hf).
  - split; [|done]. rewrite <- (frame_guc _ _ Hf). by destruct w1.
Qed.

Lemma loose_set_tenant {E A} g d org (k : unit -> M World E A) P :
  (forall g', tx_loose g' d (k tt) P) -> tx_loose g d (bind (ignore (set_tenant org)) k) P.
Proof.
  intros Hk w Hd Hg. unfold wp, bind, ignore, set_tenant, stmt.
  destruct (db_fault (w_tick w)); simpl;
    (match goal with |- context [k tt ?w1] => destruct (Hk (w_guc w1) w1) as [Hf HP] end;
     [by destruct w|done|]; split; [|done]; destruct Hf as [? ? ? ? ?]);
    destruct (k tt _) as [r w']; destruct w, w'; simpl in *; constructor; simpl; done || lia.
Qed.

Lemma db_in_tx_with {E A} d (begin_failed : E) commit_failed (body : M World E A)
    (P : result E A -> DB -> Prop) :
  (faulty -> P (Err begin_failed) d) -> (forall a, faulty -> P (commit_failed a) d) ->
  (forall now, tx_loose (idle_guc now) d body (fun r d' =>
     match r with Ok a => P (Ok a) d' | Err e => P (Err e) d end)) ->
  db_wp d (in_tx_with begin_failed commit_failed body) P.
Proof.
  intros Hf Hc Hbody g w Hd Hg. unfold wp, in_tx_with.
  destruct (db_fault (w_tick w)) eqn:F0.
  { simpl. split; [destruct w; constructor; simpl; done || lia|].
    destruct w; simpl in *; subst. apply Hf. by eexists. }
  set (w1 := set_guc _ (tick w)).
  destruct (Hbody (clock (w_tick w)) w1) as [Hfr HP]; [by destruct w|by destruct w|].
  destruct Hfr as [Hf1 Hf2 Hf3 Hf4 Hf5]. destruct (body w1) as [[a|e] w2]; simpl in *.
  - destruct (db_fault (w_tick w2)) eqn:F2; simpl.
    + split; [destruct w, w2; constructor; simpl in *; done || lia|].
      destruct w, w2; simpl in *; subst. apply Hc. by eexists.
    + split; [destruct w, w2; constructor; simpl in *; done || lia|].
      by destruct w2.
  - split; [destruct w, w2; constructor; simpl in *; done || lia|].
    destruct w, w2; simpl in *; subst. done.
Qed.

Lemma db_in_tx {E A} `{!FromDb E} d (body : M World E A) P :
  (faulty -> P (Err (of_db DbTransport)) d) ->
  (forall now, tx_wp (idle_guc now) d body (fun r d' =>
     match r with Ok a => P (Ok a) d' | Err e => P (Err e) d end)) ->
  db_wp d (in_tx body) P.
Proof. intros Hf Hb. apply db_in_tx_with; auto using tx_loosen. Qed.

Lemma db_on_pool {E A} `{!FromDb E} d (m : M World DbError A) (P : result E A -> DB -> Prop) :
  (forall now, tx_wp (idle_guc now) d m (fun r d' => P (result_map_err of_db r) d')) ->
  db_wp d (on_pool m) P.
Proof.
  intros Hm g w Hd Hg. unfold wp, on_pool.
  destruct (Hm (clock (w_tick w)) (set_guc (idle_guc (clock (w_tick w))) w)) as [Hfr HP];
    [by destruct w|by destruct w|].
  destruct Hfr as [? ? ? ? ?].
  destruct (m _) as [r w1]; simpl in *. destruct w, w1; simpl in *.
  by split; [constructor|].
Qed.
End Rules.

(** One structural step of the database calculus. *)
Ltac tx_step :=
  lazymatch goal with
  | |- tx_wp _ _ (ret _) _ => apply tx_ret
  | |- tx_wp _ _ (throw _) _ => apply tx_throw
  | |- tx_wp _ _ (lift _) _ => apply tx_lift
  | |- tx_wp _ _ (bind _ _) _ => apply tx_bind
  | |- tx_wp _ _ (map_err _ _) _ => apply tx_map_err
  | |- tx_wp _ _ (sql _) _ => apply tx_map_err
  | |- tx_wp _ _ (attempt _) _ => apply tx_attempt
  | |- tx_wp _ _ (ignore _) _ => apply tx_ignore
  | |- tx_wp _ _ now_v7 _ => apply tx_now_v7; intros ?
  | |- tx_wp _ _ now_utc _ => apply tx_now_utc; intros ?
  end; cbn beta iota.
Ltac tx_steps := repeat tx_step.
(** Use the specification [H] of a call and continue with its outcome. *)
Tactic Notation "tx_call" uconstr(H) := eapply tx_mono; [eapply H|]; cbn beta.
