(* ===== verification/Platform.v ===== *)
(** The small helpers of [crates/platform/src]: the transaction of a tenant
    ([tenant.rs]), the typed identifiers ([ids.rs]); and the principal of [crates/identity/src/actor.rs]. *)

From stdpp Require Import base gmap strings list.
From S2P Require Import Prelude Errors Schema Database.

(** * [tenant.rs] *)

Section Tenant.
Context `{En : Env}.

(** [TenantScopedTransaction::begin], the queries on its [executor], [commit]; without
    the commit the transaction is rolled back when it is dropped. *)
Definition scoped {A} (organization_id : Uuid) (body : M World PlatformError A) : M World PlatformError A :=
  in_tx (sql (set_tenant organization_id) ;;; body).

(** It is the opening the repositories write out. *)
Lemma scoped_tenant_tx {A} org (body : M World PlatformError A) w : scoped org body w = tenant_tx org None body w.
Proof.
  unfold scoped, tenant_tx, in_tx, in_tx_with. destruct (db_fault (w_tick w)); [done|].
  unfold sql, map_err, bind. by destruct (set_tenant org _) as [[[]|e] w1].
Qed.
End Tenant.

(** * [ids.rs] *)

(** [define_id!]: a newtype per name. *)
Inductive Id (name : string) : Type := mkId (u : Uuid).
Arguments mkId {name} u.
Definition UserId : Type := Id "UserId".
Definition OrganizationId : Type := Id "OrganizationId".

Section Ids.
Context `{En : Env}.
Definition new_id {E} : M World E Uuid := now_v7.
Definition id_new {name E} : M World E (Id name) := u <- now_v7 ;; ret (mkId u).
Definition id_fmt {name} (i : Id name) : string := let 'mkId u := i in uuid_str u.
End Ids.

(** * [identity/src/actor.rs] *)

Inductive Principal := User (user_id session_id : Uuid).
Definition principal_user_id (a : Principal) : Uuid := let 'User user_id _ := a in user_id.
Definition principal_session_id (a : Principal) : Uuid := let 'User _ session_id := a in session_id.
