(* ===== verification/Tables.v ===== *)
(** The tables of [src/migrations]: for each, the policy, indexes, checks and
    triggers declared there, as an instance of [Table], and the laws every
    table satisfies ([TableLaws]: the accessors form a lens; [TenantTable]: a
    statement under one tenant cannot touch the rows of another). *)

From stdpp Require Import base gmap strings list pretty.
From S2P Require Import Prelude Errors Integrations Events Schema Database.

(** The laws of a table whose rows are one field of [DB]. *)
Ltac table_laws := constructor; intros; repeat match goal with d : DB |- _ => destruct d end; done.

Section Tables.
Context `{En : Env}.

(** The references the constraints follow (they ignore row security). *)
Definition org_exists (db : DB) (org : Uuid) : bool :=
  existsb (fun o => bool_decide (og_id o = org)) (db_orgs db).
Definition secret_exists (db : DB) (id : Uuid) : bool :=
  existsb (fun s => bool_decide (se_id s = id)) (db_secrets db).
Definition user_exists (db : DB) (id : Uuid) : bool :=
  existsb (fun u => bool_decide (us_id u = id)) (db_users db).
Definition cluster_exists (db : DB) (id : Uuid) : bool :=
  existsb (fun c => bool_decide (cl_id c = id)) (db_clusters db).
Definition credential_exists (db : DB) (id : Uuid) : bool :=
  existsb (fun c => bool_decide (hc_id c = id)) (db_credentials db).

(** The first failed constraint of a list. *)
Fixpoint constraints (l : list (bool * DbError)) : option DbError :=
  match l with
  | [] => None
  | (ok, e) :: l' => if ok then constraints l' else Some e
  end.

Definition is_none {A} (o : option A) : bool := match o with None => true | Some _ => false end.

(** [set_updated_at] *)
Definition cluster_touch (now : Z) (old new : Cluster) : Cluster :=
  mkCluster (cl_id new) (cl_organization_id new) (cl_credential_id new) (cl_name new)
    (cl_region new) (cl_server_type new) (cl_control_plane_count new) (cl_worker_count new)
    (cl_status new) (cl_status_reason new) (cl_created_at new) now (cl_version old + 1)
    (cl_agent_last_seen_at new) (cl_agent_version new) (cl_kubeconfig_secret_id new)
    (cl_deleted_at new).

(** [clusters] ([20260424120500], [120700], [20260510120000]) *)
#[export] Instance ClusterTable : Table Cluster := {|
  rows := db_clusters;
  set_rows l db :=
    let 'mkDB _ b c d e f g h i j k m n o p r q t u v := db in mkDB l b c d e f g h i j k m n o p r q t u v;
  row_id := cl_id;
  row_tenant r := Some (cl_organization_id r);
  row_audited := Some "clusters"%string;
  row_touch := cluster_touch;
  row_conflict a b :=
    bool_decide (cl_id a = cl_id b)
    || bool_decide (cl_organization_id a = cl_organization_id b)
       && String.eqb (cl_name a) (cl_name b)
       && is_none (cl_deleted_at a) && is_none (cl_deleted_at b);
  row_check db r := constraints
    [ ((1 <=? cl_control_plane_count r)
       && (1 <=? cl_worker_count r) && (cl_worker_count r <=? 50), DbCheck);
      (org_exists db (cl_organization_id r), DbForeignKey);
      (credential_exists db (cl_credential_id r), DbForeignKey);
      (match cl_kubeconfig_secret_id r with
       | Some id => secret_exists db id | None => true end, DbForeignKey) ];
  row_referenced db r := false;
  row_after _ _ db := db;
|}.

(** [cluster_servers] ([20260424120800]) *)
#[export] Instance ServerTable : Table ClusterServer := {|
  rows := db_servers;
  set_rows l db :=
    let 'mkDB a _ c d e f g h i j k m n o p r q t u v := db in mkDB a l c d e f g h i j k m n o p r q t u v;
  row_id := sv_id;
  row_tenant r := Some (sv_organization_id r);
  row_audited := None;
  row_touch _ _ new := new;
  row_conflict a b :=
    bool_decide (sv_id a = sv_id b)
    || (sv_hetzner_server_id a =? sv_hetzner_server_id b)
       && is_none (sv_deleted_at a) && is_none (sv_deleted_at b);
  row_check db r := constraints
    [ (org_exists db (sv_organization_id r), DbForeignKey);
      (cluster_exists db (sv_cluster_id r), DbForeignKey) ];
  row_referenced _ _ := false;
  row_after _ _ db := db;
|}.

Definition workflow_touch (now : Z) (old new : WorkflowRow) : WorkflowRow :=
  mkWorkflowRow (wf_id new) (wf_cluster_id new) (wf_organization_id new) (wf_current_step new)
    (wf_error_reason new) (wf_started_at new) (wf_finished_at new) (wf_version old + 1).

(** [provisioning_workflows] ([20260424120600]) *)
#[export] Instance WorkflowTable : Table WorkflowRow := {|
  rows := db_workflows;
  set_rows l db :=
    let 'mkDB a b _ d e f g h i j k m n o p r q t u v := db in mkDB a b l d e f g h i j k m n o p r q t u v;
  row_id := wf_id;
  row_tenant r := Some (wf_organization_id r);
  row_audited := None;
  row_touch := workflow_touch;
  row_conflict a b := bool_decide (wf_id a = wf_id b);
  row_check db r := constraints
    [ (org_exists db (wf_organization_id r), DbForeignKey);
      (cluster_exists db (wf_cluster_id r), DbForeignKey) ];
  row_referenced _ _ := false;
  row_after _ _ db := db;
|}.

(** [secrets] ([20260424120100]); the references to it are
    [ON DELETE RESTRICT]. *)
#[export] Instance SecretTable : Table SecretRow := {|
  rows := db_secrets;
  set_rows l db :=
    let 'mkDB a b c _ e f g h i j k m n o p r q t u v := db in mkDB a b c l e f g h i j k m n o p r q t u v;
  row_id := se_id;
  row_tenant r := Some (se_organization_id r);
  row_audited := None;
  row_touch _ _ new := new;
  row_conflict a b := bool_decide (se_id a = se_id b);
  row_check db r := constraints [ (org_exists db (se_organization_id r), DbForeignKey) ];
  row_referenced db r :=
    existsb (fun c => bool_decide (cl_kubeconfig_secret_id c = Some (se_id r))) (db_clusters db)
    || existsb (fun c => bool_decide (hc_secret_id c = se_id r)) (db_credentials db);
  row_after _ _ db := db;
|}.

Definition addon_touch (now : Z) (old new : ClusterAddon) : ClusterAddon :=
  mkAddon (ad_id new) (ad_organization_id new) (ad_cluster_id new) (ad_addon new)
    (ad_version new) (ad_helm_release new) (ad_status new) (ad_status_reason new)
    (ad_created_at new) now (ad_version_lock old + 1) (ad_deleted_at new).

(** [cluster_addons] ([20260427120000]) *)
#[export] Instance AddonTable : Table ClusterAddon := {|
  rows := db_addons;
  set_rows l db :=
    let 'mkDB a b c d e _ g h i j k m n o p r q t u v := db in mkDB a b c d e l g h i j k m n o p r q t u v;
  row_id := ad_id;
  row_tenant r := Some (ad_organization_id r);
  row_audited := Some "cluster_addons"%string;
  row_touch := addon_touch;
  row_conflict a b :=
    bool_decide (ad_id a = ad_id b)
    || bool_decide (ad_cluster_id a = ad_cluster_id b)
       && String.eqb (ad_addon a) (ad_addon b)
       && is_none (ad_deleted_at a) && is_none (ad_deleted_at b);
  row_check db r := constraints
    [ (org_exists db (ad_organization_id r), DbForeignKey);
      (cluster_exists db (ad_cluster_id r), DbForeignKey) ];
  row_referenced _ _ := false;
  row_after _ _ db := db;
|}.

#[export] Instance ClusterTable_laws : TableLaws Cluster.
Proof. table_laws. Qed.
#[export] Instance ServerTable_laws : TableLaws ClusterServer.
Proof. table_laws. Qed.
#[export] Instance WorkflowTable_laws : TableLaws WorkflowRow.
Proof. table_laws. Qed.
#[export] Instance SecretTable_laws : TableLaws SecretRow.
Proof. table_laws. Qed.
#[export] Instance AddonTable_laws : TableLaws ClusterAddon.
Proof. table_laws. Qed.
End Tables.

(** * Writes, by table *)

(** A table without an AFTER trigger of its own. *)
Class PlainTable `{En : Env} (R : Type) `{!Table R} : Prop :=
  row_after_id g (r : R) db : row_after g r db = db.

(** A table under the tenant policy. *)
Class TenantTable `{En : Env} (R : Type) `{!Table R} := {
  tenant_of : R -> Uuid;
  row_tenant_of (r : R) : row_tenant r = Some (tenant_of r);
}.

Section Writes.
Context `{En : Env} {R : Type} `{!Table R}.

Context `{!TableLaws R} `{!PlainTable R}.

Lemma after_rows_plain g t op (rs : list R) d :
  after_rows g t op rs d = set_audit (db_audit d ++ audit_entries g t op rs (db_audit d)) d.
Proof.
  unfold after_rows. f_equal. revert d. induction rs as [|r rs IH]; intros d; simpl; [done|].
  by rewrite row_after_id.
Qed.

Lemma update_db_plain t g (p : Z -> R -> bool) f d :
  update_db t g p f d =
  set_audit (db_audit d ++ audit_entries g t ".updated" (update_hits g p f d) (db_audit d))
    (set_rows (update_rows (update_hit g p) (update_new g f) (rows d)) d).
Proof. unfold update_db. by rewrite after_rows_plain, audit_set_rows. Qed.

Lemma insert_db_plain t g (r : R) d :
  insert_db t g r d =
  set_audit (db_audit d ++ audit_entries g t ".created" [r] (db_audit d))
    (set_rows (rows d ++ [r]) d).
Proof. unfold insert_db. by rewrite after_rows_plain, audit_set_rows. Qed.

Lemma delete_db_plain t g (p : Z -> R -> bool) d :
  delete_db t g p d =
  set_audit (db_audit d ++ audit_entries g t ".deleted" (delete_hits g p d) (db_audit d))
    (set_rows (List.filter (fun r => negb (update_hit g p r)) (rows d)) d).
Proof. unfold delete_db. by rewrite after_rows_plain, audit_set_rows. Qed.

Lemma audit_entries_none g t op (rs : list R) log :
  row_audited (R := R) = None -> audit_entries g t op rs log = [].
Proof. intros Hn. destruct rs; simpl; by rewrite ?Hn. Qed.
End Writes.

Section Instances.
Context `{En : Env}.
#[export] Instance ClusterTable_plain : PlainTable Cluster := fun _ _ _ => eq_refl.
#[export] Instance ServerTable_plain : PlainTable ClusterServer := fun _ _ _ => eq_refl.
#[export] Instance WorkflowTable_plain : PlainTable WorkflowRow := fun _ _ _ => eq_refl.
#[export] Instance SecretTable_plain : PlainTable SecretRow := fun _ _ _ => eq_refl.
#[export] Instance AddonTable_plain : PlainTable ClusterAddon := fun _ _ _ => eq_refl.
#[export] Instance ClusterTable_tenant : TenantTable Cluster :=
  {| tenant_of := cl_organization_id; row_tenant_of _ := eq_refl |}.
#[export] Instance ServerTable_tenant : TenantTable ClusterServer :=
  {| tenant_of := sv_organization_id; row_tenant_of _ := eq_refl |}.
#[export] Instance WorkflowTable_tenant : TenantTable WorkflowRow :=
  {| tenant_of := wf_organization_id; row_tenant_of _ := eq_refl |}.
#[export] Instance SecretTable_tenant : TenantTable SecretRow :=
  {| tenant_of := se_organization_id; row_tenant_of _ := eq_refl |}.
#[export] Instance AddonTable_tenant : TenantTable ClusterAddon :=
  {| tenant_of := ad_organization_id; row_tenant_of _ := eq_refl |}.
End Instances.

(** Unchanged parts of the database after a write elsewhere. *)
Ltac db_project :=
  repeat match goal with d : DB |- _ => destruct d end; reflexivity.

(** Writing a table of its own tenant under the production role. *)
Section Visible.
Context `{En : Env} {R : Type} `{!Table R} `{!TenantTable R}.

Lemma visible_own now org audit (r : R) :
  bypass_rls = false ->
  visible (tenant_guc now org audit) r = bool_decide (tenant_of r = org).
Proof.
  intros Hb. unfold visible. rewrite row_tenant_of, Hb. simpl. by destruct audit.
Qed.

(** Outside a tenant transaction no row of a real tenant is seen. *)
Lemma visible_idle now (r : R) :
  bypass_rls = false -> tenant_of r <> Uuid_nil -> visible (idle_guc now) r = false.
Proof.
  intros Hb Hr. unfold visible. rewrite row_tenant_of, Hb. simpl. by rewrite bool_decide_false.
Qed.

Lemma insert_error_none g (r : R) d :
  insert_error g r d = None ->
  visible g r = true /\ existsb (row_conflict r) (rows d) = false /\ row_check d r = None.
Proof.
  unfold insert_error. destruct (visible g r); simpl; [|done].
  by destruct (existsb _ _).
Qed.
End Visible.

Lemma existsb_false_iff {A} (p : A -> bool) l :
  existsb p l = false <-> forall x, In x l -> p x = false.
Proof.
  induction l as [|a l IH]; simpl; [by split|]. rewrite orb_false_iff, IH.
  split; [intros [H1 H2] x [->|]; auto|]. auto.
Qed.

Lemma filter_ext_list {A} (p q : A -> bool) l :
  (forall x, p x = q x) -> List.filter p l = List.filter q l.
Proof. intros H. by apply filter_ext. Qed.

Lemma filter_app_list {A} (p : A -> bool) l k :
  List.filter p (l ++ k) = List.filter p l ++ List.filter p k.
Proof. apply List.filter_app. Qed.

(** ** Updates that select nothing *)

Section Nothing.
Context `{En : Env}.

Lemma set_audit_self d : set_audit (db_audit d) d = d.
Proof. by destruct d. Qed.

Lemma update_nothing {R} `{!Table R} `{!TableLaws R} `{!PlainTable R} t g (p : Z -> R -> bool) f d :
  update_hits g p f d = [] -> update_db t g p f d = d.
Proof.
  intros Hh. rewrite update_db_plain, Hh. simpl. rewrite app_nil_r.
  rewrite update_rows_none, set_rows_rows; [apply set_audit_self|].
  unfold update_hits in Hh. by apply map_eq_nil in Hh.
Qed.
End Nothing.

(** A small tenant: organisation 1 with a Hetzner credential, a cluster with
    its kubeconfig secret, and one worker; organisation 2 with a cluster of its
    own. *)
Definition demo_cluster (id org : Uuid) (secret : option Uuid) : Cluster :=
  mkCluster id org 10%N "web" "nbg1" "cpx21" 1 1 Ready None 100 100 1 None EmptyString secret None.
Definition demo_orgs : list OrgRow :=
  [mkOrg 1%N "acme" "Acme" Free None 10 10 1; mkOrg 2%N "beta" "Beta" Free (Some "cus_b"%string) 10 10 1].
Definition demo_db : DB :=
  mkDB [demo_cluster 30%N 1%N (Some 21%N); demo_cluster 31%N 2%N None]
    [mkClusterServer 40%N 1%N 30%N 700 ControlPlane (Some "10.0.0.1/32"%string) None 100 None;
     mkClusterServer 41%N 1%N 30%N 701 Worker (Some "10.0.0.2/32"%string) None 101 None]
    []
    [mkSecretRow 20%N 1%N (toy_encrypt "dek" "hcloud-token") (toy_encrypt "kek" "dek") "pgp_sym_v1";
     mkSecretRow 21%N 1%N (toy_encrypt "dek" "kubeconfig") (toy_encrypt "kek" "dek") "pgp_sym_v1"]
    [mkCredential 10%N 1%N "main" 20%N 50 50 None 1]
    [] demo_orgs [] [] [] [] [] [] [] [] [] [] [] [] [].
Definition demo_audit : AuditContext := mkAuditContext (Some 5%N) (Some "req-1"%string) None.
