(* ===== verification/Secrets.v ===== *)
(** The secret store ([crates/platform/src/secrets.rs]): the trait
    [SecretStore] with the contract its clients are proved against
    ([SecretStoreLaws]), and its pgcrypto implementation, which encrypts a
    secret under a fresh key and that key under the KEK, in the table
    [secrets]. *)

From stdpp Require Import base gmap strings list.
From S2P Require Import Prelude Errors Integrations Events Schema Database Tables.

(** [secrets.rs: SecretRef] *)
Record SecretRef := mkSecretRef { sr_id : Uuid; sr_organization_id : Uuid }.

(** The trait [SecretStore]. *)
Class SecretStore `{En : Env} := {
  put : Uuid -> string -> M World SecretError SecretRef;
  get : SecretRef -> M World SecretError string;
  delete_secret : SecretRef -> M World SecretError unit;
  (** The handle resolves to the plaintext in these tables. *)
  resolves : DB -> SecretRef -> string -> Prop;
  (** The errors with which the backend may fail to read a secret it holds. *)
  store_failure : SecretError -> Prop;
}.

Definition set_secrets `{En : Env} (l : list SecretRow) (d : DB) : DB := set_rows l d.
Lemma secrets_of_set_secrets `{En : Env} l d : db_secrets (set_secrets l d) = l.
Proof. by destruct d. Qed.

(** The rows of one tenant. *)
Definition own_secret (ref : SecretRef) (s : SecretRow) : bool :=
  bool_decide (se_organization_id s = sr_organization_id ref)
  && bool_decide (se_id s = sr_id ref).

(** What the clients of a secret store rely on. *)
Class SecretStoreLaws `{En : Env} (St : SecretStore) : Prop := {
  put_law d org plaintext :
    db_wp d (put org plaintext) (fun r d' =>
      match r with
      | Ok ref => sr_organization_id ref = org /\ resolves d' ref plaintext /\
          exists row, own_secret ref row = true /\ d' = set_secrets (db_secrets d ++ [row]) d /\
            existsb (fun s => bool_decide (se_id s = sr_id ref)) (db_secrets d) = false
      | Err _ => d' = d
      end);
  get_law d ref :
    db_wp d (get ref) (fun r d' => d' = d /\
      forall plaintext, resolves d ref plaintext ->
        r = Ok plaintext \/ (exists e, store_failure e /\ r = Err e));
  (** Among them is never a damaged or a missing secret. *)
  failure_law e : store_failure e -> e <> Decrypt /\ forall id, e <> SecretNotFound id;
  delete_law d ref :
    db_wp d (delete_secret ref) (fun r d' =>
      match r with
      | Ok _ => d' = set_secrets (List.filter (fun s => negb (own_secret ref s)) (db_secrets d)) d
      | Err _ => d' = d
      end);
  (** Only the table [secrets] matters. *)
  resolves_local d d' ref plaintext :
    db_secrets d' = db_secrets d -> resolves d ref plaintext -> resolves d' ref plaintext;
}.

(** A handle that was just drawn names none of the earlier rows. *)
Lemma not_own_fresh ref l :
  existsb (fun s => bool_decide (se_id s = sr_id ref)) l = false ->
  List.filter (fun s => negb (own_secret ref s)) l = l.
Proof.
  induction l as [|s l IH]; simpl; [done|]. rewrite orb_false_iff. intros [Hs Hl].
  unfold own_secret at 1. rewrite Hs, andb_false_r. simpl. by rewrite IH.
Qed.

(** [secrets.rs: decrypt_or_db], on the text of the database error. *)
Definition decrypt_or_db (e : DbError) : SecretError :=
  match e with
  | DbMessage text =>
      let text := to_ascii_lowercase text in
      if contains "wrong key" text || contains "corrupt data" text then Decrypt
      else SecretDatabase e
  | _ => SecretDatabase e
  end.

(** [secrets.rs: vault_status_to_error] *)
Definition vault_status_to_error (status : Z) (status_text op : string) : SecretError :=
  if existsb (Z.eqb status) [401; 403; 404]
  then AuthFailed ("vault " +++ op +++ " " +++ status_text)
  else InvalidKek ("vault " +++ op +++ " " +++ status_text).

Definition VAULT_ALGORITHM_TAG : string := "vault_transit_v1".
Definition PGP_ALGORITHM_TAG : string := "pgp_sym_v1".

(** The error pgcrypto raises for a wrong key or a damaged message. *)
Definition pgp_failure : DbError := DbMessage "Wrong key or corrupt data".

Module PgcryptoStore.
Section PgcryptoStore.
Context `{En : Env} (kek : string).

Definition gen_random_bytes {E} : M World E string :=
  fun w => (Ok (random_bytes (w_tick w)), tick w).
Definition pgp_sym_encrypt {E} (text key : string) : M World E string :=
  fun w => (Ok (pgp_encrypt (w_tick w) key text), tick w).

(** [PgcryptoStore::put] *)
Definition pg_put (organization_id : Uuid) (plaintext : string)
  : M World SecretError SecretRef :=
  id <- now_v7 ;;
  tenant_tx organization_id None
    (dek <- gen_random_bytes ;;
     ciphertext <- pgp_sym_encrypt plaintext dek ;;
     wrapped_dek <- pgp_sym_encrypt dek kek ;;
     sql (insert (fun _ =>
       mkSecretRow id organization_id ciphertext wrapped_dek PGP_ALGORITHM_TAG)) ;;;
     ret (mkSecretRef id organization_id)).

(** The expression [pgp_sym_decrypt(ciphertext, pgp_sym_decrypt(wrapped_dek, kek))]. *)
Definition open_row (s : SecretRow) : option string :=
  match pgp_decrypt kek (se_wrapped_dek s) with
  | Some dek => pgp_decrypt dek (se_ciphertext s)
  | None => None
  end.

(** [PgcryptoStore::get]: the decryption runs inside the statement. *)
Definition pg_get (handle : SecretRef) : M World SecretError string :=
  row <- tenant_tx (sr_organization_id handle) None
    (rows <- map_err decrypt_or_db (select (fun _ s => bool_decide (se_id s = sr_id handle))) ;;
     match rows with
     | [] => ret None
     | s :: _ => match open_row s with
                 | Some plaintext => ret (Some plaintext)
                 | None => throw (decrypt_or_db pgp_failure)
                 end
     end) ;;
  match row with
  | Some plaintext => ret plaintext
  | None => throw (SecretNotFound (sr_id handle))
  end.

(** [PgcryptoStore::delete]: blank the key material, then delete. *)
Definition pg_delete (handle : SecretRef) : M World SecretError unit :=
  tenant_tx (sr_organization_id handle) None
    (sql (update (fun _ s => bool_decide (se_id s = sr_id handle))
            (fun _ s => mkSecretRow (se_id s) (se_organization_id s) EmptyString EmptyString (se_algorithm s))) ;;;
     sql (delete (fun _ (s : SecretRow) => bool_decide (se_id s = sr_id handle))) ;;;
     ret tt).

Definition pg_resolves (d : DB) (ref : SecretRef) (plaintext : string) : Prop :=
  exists s, List.filter (own_secret ref) (db_secrets d) = [s] /\ open_row s = Some plaintext.

Definition pg_failure (e : SecretError) : Prop := faulty /\ e = SecretDatabase DbTransport.

Definition pgcrypto_store : SecretStore := {|
  put := pg_put; get := pg_get; delete_secret := pg_delete; resolves := pg_resolves;
  store_failure := pg_failure;
|}.
End PgcryptoStore.
End PgcryptoStore.
Export PgcryptoStore.

(** The documented behaviour of pgcrypto, and the role of production. *)
Class PgcryptoLaws `{En : Env} : Prop := {
  pgp_decrypt_encrypt n key text : pgp_decrypt key (pgp_encrypt n key text) = Some text;
  no_bypass : bypass_rls = false;
}.

#[export] Instance demo_pgcrypto_laws : @PgcryptoLaws demo_env.
Proof. constructor; [|done]. intros n key text. apply toy_decrypt_encrypt. Qed.

Section Contract.
Context `{En : Env} (Hb : bypass_rls = false) (kek : string).
Context (Hpgp : forall n key text, pgp_decrypt key (pgp_encrypt n key text) = Some text).

Lemma own_secret_visible now ref (s : SecretRow) :
  visible (tenant_guc now (sr_organization_id ref) None) s
    && bool_decide (se_id s = sr_id ref) = own_secret ref s.
Proof. by rewrite visible_own. Qed.

Lemma secrets_write (d : DB) l : set_audit (db_audit d ++ []) (set_rows l d) = set_secrets l d.
Proof. rewrite app_nil_r. by destruct d. Qed.

Lemma secrets_inserted t g (row : SecretRow) d :
  insert_db t g row d = set_secrets (db_secrets d ++ [row]) d.
Proof.
  rewrite insert_db_plain. rewrite audit_entries_none by done. apply secrets_write.
Qed.

Lemma secrets_updated t g p f d :
  update_db t g p f d = set_secrets (update_rows (update_hit g p) (update_new g f) (db_secrets d)) d.
Proof.
  rewrite update_db_plain. rewrite audit_entries_none by done. apply secrets_write.
Qed.

Lemma secrets_deleted t g p d :
  delete_db t g p d =
  set_secrets (List.filter (fun s => negb (update_hit g p s)) (db_secrets d)) d.
Proof.
  rewrite delete_db_plain. rewrite audit_entries_none by done. apply secrets_write.
Qed.

(** A row that was just inserted is the only one its handle names. *)
Lemma secret_inserted g (row : SecretRow) d :
  insert_error g row d = None ->
  let ref := mkSecretRef (se_id row) (se_organization_id row) in
  own_secret ref row = true /\
  existsb (fun s => bool_decide (se_id s = sr_id ref)) (db_secrets d) = false /\
  List.filter (own_secret ref) (db_secrets (set_secrets (db_secrets d ++ [row]) d)) = [row].
Proof.
  intros (_ & Hc & _)%insert_error_none ref.
  assert (Hfresh : existsb (fun s => bool_decide (se_id s = sr_id ref)) (db_secrets d) = false).
  { apply existsb_false_iff. intros s Hs. rewrite existsb_false_iff in Hc.
    specialize (Hc s Hs). simpl in Hc. case_bool_decide; [done|].
    by rewrite bool_decide_false. }
  assert (Hown : own_secret ref row = true) by (unfold own_secret; simpl; by rewrite !bool_decide_true).
  split; [done|]. split; [done|]. destruct d. simpl in *. rewrite filter_app_list. simpl. rewrite Hown.
  rewrite filter_false_in; [done|]. intros s Hs. rewrite existsb_false_iff in Hfresh.
  unfold own_secret. simpl. rewrite (Hfresh s Hs). apply andb_false_r.
Qed.

Lemma pg_put_law d org plaintext :
  db_wp d (pg_put kek org plaintext) (fun r d' =>
    match r with
    | Ok ref => sr_organization_id ref = org /\ pg_resolves kek d' ref plaintext /\
        exists row, own_secret ref row = true /\ d' = set_secrets (db_secrets d ++ [row]) d /\
          existsb (fun s => bool_decide (se_id s = sr_id ref)) (db_secrets d) = false
    | Err _ => d' = d
    end).
Proof.
  intros g. unfold pg_put. apply tx_bind, tx_now_v7. intros id. apply db_tenant_tx; [done|]. intros now.
  tx_step. apply (tx_ticked _ _ random_bytes). intros n1.
  tx_step. apply (tx_ticked _ _ (fun n => pgp_encrypt n _ _)). intros n2.
  tx_step. apply (tx_ticked _ _ (fun n => pgp_encrypt n _ _)). intros n3.
  tx_step. tx_step. apply tx_insert; [done|done|].
  intros (Hown & Hfresh & Hrow)%secret_inserted t. simpl. tx_step. rewrite secrets_inserted.
  split; [done|]. split; [|by eexists]. eexists. split; [exact Hrow|].
  unfold open_row. simpl. by rewrite !Hpgp.
Qed.

Lemma pg_get_law d ref :
  db_wp d (pg_get kek ref) (fun r d' => d' = d /\
    forall plaintext, pg_resolves kek d ref plaintext ->
      r = Ok plaintext \/ (exists e, pg_failure e /\ r = Err e)).
Proof.
  intros g. unfold pg_get. tx_step.
  apply db_tenant_tx; [intros Hf; split; [done|by right; eexists]|]. intros now.
  tx_step. tx_step. apply tx_select; [intros Hf; split; [done|by right; eexists]|]. simpl.
  rewrite (filter_ext_list _ (own_secret ref)) by (intros; by apply own_secret_visible).
  destruct (List.filter (own_secret ref) (db_secrets d)) as [|s rest] eqn:E.
  - tx_step. tx_step. split; [done|]. intros p (s & Hs & _). by rewrite Hs in E.
  - destruct (open_row kek s) as [text|] eqn:O; tx_steps; (split; [done|]);
      intros p (s' & Hs & Hp); rewrite Hs in E; injection E as <- <-; left; congruence.
Qed.

Lemma pg_delete_law d ref :
  db_wp d (pg_delete ref) (fun r d' =>
    match r with
    | Ok _ => d' = set_secrets (List.filter (fun s => negb (own_secret ref s)) (db_secrets d)) d
    | Err _ => d' = d
    end).
Proof.
  apply db_tenant_tx; [done|]. intros now. tx_step. tx_step.
  apply tx_update; [done|]. intros t. simpl.
  rewrite secrets_updated.
  tx_step. tx_step. apply tx_delete; [done|done|]. intros _ t'. simpl. tx_step.
  rewrite secrets_deleted.
  destruct d. unfold set_secrets. simpl. f_equal.
  rewrite (filter_not_updated _ _ _ _) by done.
  apply filter_ext_list. intros s. f_equal. by apply own_secret_visible.
Qed.

Lemma pgcrypto_meets_laws : SecretStoreLaws (pgcrypto_store kek).
Proof.
  constructor; [apply pg_put_law | apply pg_get_law | by intros e [_ ->] | apply pg_delete_law|].
  intros d d' ref p Hd (s & Hs & Hp). exists s. by rewrite Hd.
Qed.

(** A secret that a row references survives a deletion: the [DELETE] is
    refused and the blanking that preceded it is rolled back. *)
Lemma pg_delete_referenced d ref :
  (forall s, own_secret ref s = true -> row_referenced d s = true) ->
  db_wp d (pg_delete ref) (fun r d' => d' = d /\
    (existsb (own_secret ref) (db_secrets d) = true -> exists e, r = Err (SecretDatabase e))).
Proof.
  intros Href. apply db_tenant_tx; [by split; eauto|]. intros now. tx_step. tx_step.
  apply tx_update; [by split; eauto|]. intros t. cbn [result_map_err].
  rewrite secrets_updated. tx_step. tx_step.
  apply tx_delete; [by split; eauto|by split; eauto|].
  intros Hnone t'. cbn [result_map_err]. tx_step.
  set (g := tenant_guc now (sr_organization_id ref) None) in *.
  set (p := fun (_ : Z) s => bool_decide (se_id s = sr_id ref)) in *.
  assert (Hno : existsb (own_secret ref) (db_secrets d) = false).
  { apply existsb_false_iff. intros s Hs. destruct (own_secret ref s) eqn:Hown; [|done]. exfalso.
    assert (Hhit : forall x, update_hit g p x = own_secret ref x)
      by (intros x; by apply own_secret_visible).
    rewrite existsb_false_iff in Hnone.
    set (f := fun (_ : Z) (s : SecretRow) => mkSecretRow _ _ EmptyString EmptyString _) in *.
    specialize (Hnone (f (g_now g) s)).
    assert (Hr : row_referenced (set_secrets (update_rows (update_hit g p) (update_new g f)
                   (db_secrets d)) d) (f (g_now g) s) = row_referenced d s) by by destruct d.
    rewrite Hr, (Href s Hown) in Hnone. discriminate Hnone.
    unfold delete_hits. apply filter_In. rewrite Hhit. split; [|exact Hown].
    assert (Hrows : rows (set_secrets (update_rows (update_hit g p) (update_new g f)
                      (db_secrets d)) d) = update_rows (update_hit g p) (update_new g f) (db_secrets d))
      by by destruct d.
    rewrite Hrows. apply in_update_rows. exists s. by rewrite Hhit, Hown. }
  split; [|by rewrite Hno].
  rewrite secrets_deleted. destruct d as [a b c sec e f0 g0 h i j k m n o q u r]. simpl in *.
  unfold set_secrets. simpl. f_equal. rewrite (filter_not_updated _ _ _ _) by done.
  rewrite existsb_false_iff in Hno. clear Href Hnone.
  induction sec as [|s l IH]; simpl; [done|].
  assert (Hhit : update_hit g p s = own_secret ref s) by by apply own_secret_visible.
  rewrite Hhit, (Hno s (or_introl eq_refl)). simpl. f_equal. apply IH. intros x Hx. apply Hno. by right.
Qed.
End Contract.

Lemma pgcrypto_laws `{En : Env} `{!PgcryptoLaws} kek : SecretStoreLaws (pgcrypto_store kek).
Proof. apply pgcrypto_meets_laws; [apply no_bypass|apply pgp_decrypt_encrypt]. Qed.

(** * Properties *)

Section Properties.
Context `{En : Env}.

(** C30: The pgcrypto store meets the contract its clients are proved
    against: a stored secret resolves to its plaintext under its handle,
    reading changes nothing, deleting removes exactly the handle's row, and
    every failed call leaves the tables as they were. *)
Theorem pgcrypto_store_correct kek : PgcryptoLaws -> SecretStoreLaws (pgcrypto_store kek).
Proof. intros Hpg. apply pgcrypto_laws. Qed.

(** A secret never opens under another KEK (the read fails with
    [Decrypt]) nor through a handle of another tenant (the read finds
    nothing), and neither attempt changes the tables. *)
Theorem pgcrypto_get_refused kek kek' d ref other :
  PgcryptoLaws -> (forall n k k' text, k <> k' -> pgp_decrypt k' (pgp_encrypt n k text) = None) ->
  kek <> kek' -> other <> sr_organization_id ref ->
  (exists n dek s, List.filter (own_secret ref) (db_secrets d) = [s] /\
     se_wrapped_dek s = pgp_encrypt n kek dek) ->
  NoDup (map se_id (db_secrets d)) ->
  db_wp d (pg_get kek' ref) (fun r d' => d' = d /\
    (r = Err Decrypt \/ faulty /\ r = Err (SecretDatabase DbTransport))) /\
  db_wp d (pg_get kek (mkSecretRef (sr_id ref) other)) (fun r d' => d' = d /\
    (r = Err (SecretNotFound (sr_id ref)) \/ faulty /\ r = Err (SecretDatabase DbTransport))).
Proof.
  intros [_ Hb] Hwrong Hk Ho (n & dek & s & Hs & Hw) Hnd. split; intros g; unfold pg_get; tx_step.
  - apply db_tenant_tx; [by split; auto|]. intros now. tx_step. tx_step.
    apply tx_select; [by split; auto|]. simpl.
    rewrite (filter_ext_list _ (own_secret ref)) by (intros; by apply own_secret_visible).
    rewrite Hs. unfold open_row. rewrite Hw, Hwrong by done. tx_step. by split; auto.
  - apply db_tenant_tx; [by split; auto|]. intros now. tx_step. tx_step.
    apply tx_select; [by split; auto|]. simpl.
    rewrite (filter_ext_list _ (own_secret (mkSecretRef (sr_id ref) other)))
      by (intros; by apply (own_secret_visible Hb now (mkSecretRef (sr_id ref) other))).
    assert (Hnone : List.filter (own_secret (mkSecretRef (sr_id ref) other)) (db_secrets d) = []).
    { apply filter_false_in. intros x Hx. unfold own_secret. simpl.
      destruct (decide (se_id x = sr_id ref)) as [Hid|]; [|by rewrite andb_comm, bool_decide_false].
      assert (Hin : In s (List.filter (own_secret ref) (db_secrets d))) by (rewrite Hs; by left).
      apply filter_In in Hin as [Hin [Hso Hsi]%andb_true_iff].
      apply bool_decide_eq_true in Hso, Hsi.
      assert (x = s) as ->.
      { eapply NoDup_map_inj; [exact Hnd|done|done|congruence]. }
      rewrite bool_decide_false by congruence. done. }
    rewrite Hnone. tx_step. tx_step. by split; auto.
Qed.

(** A secret that a cluster or a credential references cannot be
    deleted: the call fails and every table, the ciphertext included, is as
    before. *)
Theorem pgcrypto_delete_referenced d ref :
  PgcryptoLaws -> (forall s, own_secret ref s = true -> row_referenced d s = true) ->
  db_wp d (pg_delete ref) (fun r d' => d' = d /\
    (existsb (own_secret ref) (db_secrets d) = true -> exists e, r = Err (SecretDatabase e))).
Proof. intros Hpg. apply pg_delete_referenced, no_bypass. Qed.
End Properties.

(** * The hypotheses hold in the concrete environment *)

Lemma pgcrypto_store_correct_witness :
  @SecretStoreLaws demo_env (@pgcrypto_store demo_env "kek").
Proof. apply (@pgcrypto_store_correct demo_env "kek"). exact demo_pgcrypto_laws. Defined.

(** The Hetzner token of tenant 1, read with another KEK and by tenant 2. *)
Lemma pgcrypto_get_refused_witness :
  (@pg_get demo_env "old" (mkSecretRef 20%N 1%N) (demo_world demo_db)).1 = Err Decrypt /\
  (@pg_get demo_env "kek" (mkSecretRef 20%N 2%N) (demo_world demo_db)).1
    = Err (SecretNotFound 20%N).
Proof.
  destruct (@pgcrypto_get_refused demo_env "kek" "old" demo_db (mkSecretRef 20%N 1%N) 2%N)
    as [H1 H2].
  - exact demo_pgcrypto_laws.
  - intros n k k' text Hk. apply toy_decrypt_other. congruence.
  - discriminate.
  - discriminate.
  - exists O, "dek"%string. eexists. split; reflexivity.
  - vm_compute. repeat constructor; set_solver.
  - destruct (H1 demo_guc (demo_world demo_db) eq_refl eq_refl) as [_ [_ [Hr|[[n Hn] _]]]];
      [|discriminate Hn].
    destruct (H2 demo_guc (demo_world demo_db) eq_refl eq_refl) as [_ [_ [Hr'|[[n Hn] _]]]];
      [|discriminate Hn].
    split; assumption.
Defined.

(** The kubeconfig secret of cluster 30. *)
Lemma pgcrypto_delete_referenced_witness :
  let run := @pg_delete demo_env (mkSecretRef 21%N 1%N) (demo_world demo_db) in
  w_db run.2 = demo_db /\ exists e, run.1 = Err (SecretDatabase e).
Proof.
  intros run.
  assert (Href : forall s : SecretRow, own_secret (mkSecretRef 21%N 1%N) s = true ->
                   row_referenced demo_db s = true).
  { intros s [_ Hs]%andb_true_iff. apply bool_decide_eq_true in Hs. simpl in Hs. simpl. by rewrite Hs. }
  destruct (@pgcrypto_delete_referenced demo_env demo_db (mkSecretRef 21%N 1%N)
    demo_pgcrypto_laws Href demo_guc (demo_world demo_db) eq_refl eq_refl) as [_ [Hd He]].
  split; [exact Hd|]. apply He. vm_compute. reflexivity.
Defined.
