(* ===== verification/Vault.v ===== *)
(** The Vault half of [crates/platform/src/secrets.rs]: the trait [VaultTransit]
    with its HTTP client and its in-memory fake, and [VaultStore], which keeps
    Vault's ciphertexts in the table [secrets] and is proved against the same
    contract as the pgcrypto store. *)

From Stdlib Require Import Ascii.
From stdpp Require Import base gmap strings pretty list.
From S2P Require Import Prelude Errors Integrations Events Schema Database Tables Secrets.

(** * The transit engine *)

(** The trait [VaultTransit]; what Vault answers may differ from call to call. *)
Class VaultTransit := {
  ensure_key : nat -> string -> result SecretError unit;
  encrypt : nat -> string -> string -> result SecretError string;
  decrypt : nat -> string -> string -> result SecretError string;
}.

(** Vault refuses the credential, or cannot be used at all. *)
Definition transit_failure (e : SecretError) : Prop :=
  exists msg, e = AuthFailed msg \/ e = InvalidKek msg.

(** The ciphertext stands for the plaintext: from now on Vault opens it, or fails. *)
Definition sealed `{VT : VaultTransit} (key_name ciphertext plaintext : string) : Prop :=
  forall n, decrypt n key_name ciphertext = Ok plaintext \/
    exists e, transit_failure e /\ decrypt n key_name ciphertext = Err e.

(** What Vault documents: an envelope is text, and every version of a key is kept. *)
Class VaultTransitLaws (VT : VaultTransit) : Prop := {
  encrypt_sealed n key_name plaintext ciphertext :
    encrypt n key_name plaintext = Ok ciphertext ->
    utf8_valid ciphertext = true /\ sealed key_name ciphertext plaintext;
}.

(** * The store *)

Definition vault_key_name `{En : Env} (prefix : string) (organization_id : Uuid) : string :=
  prefix +++ "/" +++ uuid_str organization_id.

Module VaultStore.
Section VaultStore.
Context `{En : Env} `{VT : VaultTransit} (key_prefix : string).

(** One call of the engine. *)
Definition transit {A} (f : nat -> result SecretError A) : M World SecretError A :=
  drawing (fun n => lift (f n)).

Definition vault_put (organization_id : Uuid) (plaintext : string) : M World SecretError SecretRef :=
  let key_name := vault_key_name key_prefix organization_id in
  transit (fun n => ensure_key n key_name) ;;;
  ciphertext <- transit (fun n => encrypt n key_name plaintext) ;;
  id <- now_v7 ;;
  tenant_tx organization_id None
    (sql (insert (fun _ =>
       mkSecretRow id organization_id ciphertext EmptyString VAULT_ALGORITHM_TAG)) ;;;
     ret (mkSecretRef id organization_id)).

(** The transaction is over before Vault is asked. *)
Definition vault_get (handle : SecretRef) : M World SecretError string :=
  rows <- tenant_tx (sr_organization_id handle) None
    (sql (select (fun _ s => bool_decide (se_id s = sr_id handle)))) ;;
  match rows with
  | [] => throw (SecretNotFound (sr_id handle))
  | row :: _ =>
      if negb (String.eqb (se_algorithm row) VAULT_ALGORITHM_TAG) then throw Decrypt
      else
        match from_utf8 (se_ciphertext row) with
        | None => throw Decrypt
        | Some ciphertext =>
            let key_name := vault_key_name key_prefix (sr_organization_id handle) in
            transit (fun n => decrypt n key_name ciphertext)
        end
  end.

Definition vault_delete (handle : SecretRef) : M World SecretError unit :=
  tenant_tx (sr_organization_id handle) None
    (sql (update (fun _ s => bool_decide (se_id s = sr_id handle))
            (fun _ s => mkSecretRow (se_id s) (se_organization_id s) EmptyString EmptyString (se_algorithm s))) ;;;
     sql (delete (fun _ (s : SecretRow) => bool_decide (se_id s = sr_id handle))) ;;;
     ret tt).

Definition vault_resolves (d : DB) (ref : SecretRef) (plaintext : string) : Prop :=
  exists s, List.filter (own_secret ref) (db_secrets d) = [s] /\
    se_algorithm s = VAULT_ALGORITHM_TAG /\ utf8_valid (se_ciphertext s) = true /\
    sealed (vault_key_name key_prefix (sr_organization_id ref)) (se_ciphertext s) plaintext.

Definition vault_failure (e : SecretError) : Prop :=
  pg_failure e \/ transit_failure e.

Definition vault_store : SecretStore := {|
  put := vault_put; get := vault_get; delete_secret := vault_delete; resolves := vault_resolves;
  store_failure := vault_failure;
|}.
End VaultStore.
End VaultStore.
Export VaultStore.

Section Contract.
Context `{En : Env} `{VT : VaultTransit} (Hb : bypass_rls = false) (key_prefix : string).

Lemma tx_transit {A} g d (f : nat -> result SecretError A) P :
  (forall n, P (f n) d) -> tx_wp g d (transit f) P.
Proof. intros HP. apply tx_drawing. intros n. by apply tx_lift. Qed.

(** A secret that Vault sealed is found again by the handle of its row. *)
Lemma vault_put_law d org plaintext :
  (forall n c, encrypt n (vault_key_name key_prefix org) plaintext = Ok c ->
     utf8_valid c = true /\ sealed (vault_key_name key_prefix org) c plaintext) ->
  db_wp d (vault_put key_prefix org plaintext) (fun r d' =>
    match r with
    | Ok ref => sr_organization_id ref = org /\ vault_resolves key_prefix d' ref plaintext /\
        exists row, own_secret ref row = true /\ d' = set_secrets (db_secrets d ++ [row]) d /\
          existsb (fun s => bool_decide (se_id s = sr_id ref)) (db_secrets d) = false
    | Err _ => d' = d
    end).
Proof.
  intros Hseal g. unfold vault_put. apply tx_bind, tx_transit. intros n. destruct (ensure_key _ _); [|done].
  apply tx_bind, tx_transit. intros n'. destruct (encrypt _ _ _) as [c|] eqn:E; [|done].
  apply Hseal in E as [Hc Hs].
  apply tx_bind, tx_now_v7. intros id. apply db_tenant_tx; [done|]. intros now.
  tx_step. tx_step. apply tx_insert; [done|done|].
  intros (Hown & Hfresh & Hrow)%secret_inserted t. simpl. tx_step. rewrite secrets_inserted.
  split; [done|]. split; [|by eexists]. by eexists.
Qed.

Lemma vault_get_law d ref :
  db_wp d (vault_get key_prefix ref) (fun r d' => d' = d /\
    forall plaintext, vault_resolves key_prefix d ref plaintext ->
      r = Ok plaintext \/ (exists e, vault_failure e /\ r = Err e)).
Proof.
  intros g. unfold vault_get. apply tx_bind.
  apply db_tenant_tx; [intros Hf; split; [done|by right; eexists; split; [left|]]|].
  intros now. tx_step. apply tx_select; [intros Hf; split; [done|by right; eexists; split; [left|]]|]. simpl.
  rewrite (filter_ext_list _ (own_secret ref)) by (intros; by apply own_secret_visible).
  destruct (List.filter (own_secret ref) (db_secrets d)) as [|s rest] eqn:E.
  - tx_step. split; [done|]. intros p (s & Hs & _). by rewrite Hs in E.
  - destruct (String.eqb (se_algorithm s) VAULT_ALGORITHM_TAG) eqn:Ea; simpl.
    2: { tx_step. split; [done|]. intros p (s' & Hs & Ha & _). rewrite Hs in E. injection E as <- <-.
         by rewrite Ha in Ea. }
    unfold from_utf8. destruct (utf8_valid (se_ciphertext s)) eqn:Eu.
    + apply tx_transit. intros n. split; [done|]. intros p (s' & Hs & _ & _ & Hp).
      rewrite Hs in E. injection E as <- <-.
      destruct (Hp n) as [->|(e & He & ->)]; [by left|right]. eexists. by split; [right|].
    + tx_step. split; [done|]. intros p (s' & Hs & _ & Hu & _). rewrite Hs in E. injection E as <- <-.
      congruence.
Qed.

Lemma vault_laws : VaultTransitLaws VT -> SecretStoreLaws (vault_store key_prefix).
Proof.
  intros HVT. constructor.
  - intros d org p. apply vault_put_law. intros n c. apply encrypt_sealed.
  - apply vault_get_law.
  - intros e [[_ ->]|(msg & [-> | ->])]; done.
  - intros d ref. by apply pg_delete_law.
  - intros d d' ref p Hd (s & Hs & Hp). exists s. by rewrite Hd.
Qed.
End Contract.

(** * The HTTP client *)

Inductive VaultRequest :=
| CreateKey
| VaultEncryptRequest (plaintext : string)
| VaultDecryptRequest (ciphertext : string).
(** An answer: its status, its body if it can be read, and [data.ciphertext] or
    [data.plaintext] of the body if it parses as that response. *)
Record VaultAnswer := mkAnswer {
  va_status : Z;
  va_text : option string;
  va_data : option string;
}.

(** [base_url.join(path)] and the POST of a request with the token; the display
    of a status; the [STANDARD] base64 alphabet. *)
Class VaultHttp := {
  vault_join : string -> result string string;
  vault_post : nat -> string -> VaultRequest -> option VaultAnswer;
  status_str : Z -> string;
  b64_encode : string -> string;
  b64_decode : string -> option string;
}.

Module HttpVaultTransit.
Section HttpVaultTransit.
Context `{VH : VaultHttp}.

Definition is_success (status : Z) : bool := (200 <=? status) && (status <? 300).
Definition url_for (segment : string) : result SecretError string :=
  result_map_err (fun e => InvalidKek ("vault url join: " +++ e)) (vault_join ("v1/transit/" +++ segment)).

(** The needles are lower-case ASCII and no other letter of theirs has a
    lower-case form in ASCII, so lowering the ASCII letters is enough. *)
Definition body_contains (needle : string) (a : VaultAnswer) : bool :=
  contains needle (to_ascii_lowercase (default EmptyString (va_text a))).

Definition send {A} (n : nat) (op segment : string) (request : VaultRequest)
    (read : VaultAnswer -> result SecretError A) : result SecretError A :=
  match url_for segment with
  | Err e => Err e
  | Ok url =>
      match vault_post n url request with
      | None => Err (InvalidKek ("vault " +++ op +++ " transport"))
      | Some answer => read answer
      end
  end.

Definition http_ensure_key (n : nat) (key_name : string) : result SecretError unit :=
  send n "ensure_key" ("keys/" +++ key_name) CreateKey (fun a =>
    if is_success (va_status a) then Ok tt
    else if body_contains "already exists" a then Ok tt
    else Err (vault_status_to_error (va_status a) (status_str (va_status a)) "ensure_key")).

Definition http_encrypt (n : nat) (key_name plaintext : string) : result SecretError string :=
  send n "encrypt" ("encrypt/" +++ key_name) (VaultEncryptRequest (b64_encode plaintext)) (fun a =>
    if negb (is_success (va_status a))
    then Err (vault_status_to_error (va_status a) (status_str (va_status a)) "encrypt")
    else match va_data a with
         | Some ciphertext => Ok ciphertext
         | None => Err (InvalidKek "vault encrypt response parse")
         end).

Definition http_decrypt (n : nat) (key_name ciphertext : string) : result SecretError string :=
  send n "decrypt" ("decrypt/" +++ key_name) (VaultDecryptRequest ciphertext) (fun a =>
    if negb (is_success (va_status a))
    then if body_contains "could not be decrypted" a then Err Decrypt
         else Err (vault_status_to_error (va_status a) (status_str (va_status a)) "decrypt")
    else match va_data a with
         | None => Err Decrypt
         | Some encoded =>
             match b64_decode encoded with
             | None => Err Decrypt
             | Some bytes =>
                 match from_utf8 bytes with Some plaintext => Ok plaintext | None => Err Decrypt end
             end
         end).

#[export] Instance http_transit : VaultTransit := {|
  ensure_key := http_ensure_key; encrypt := http_encrypt; decrypt := http_decrypt;
|}.
End HttpVaultTransit.
End HttpVaultTransit.
Export HttpVaultTransit.

(** The Vault server, as its transit engine documents itself: an envelope is
    ASCII; what it gave out for a text under a key, it answers with that text, or
    it fails for another reason than a damaged envelope. *)
Class VaultServerLaws (VH : VaultHttp) : Prop := {
  b64_decode_encode bytes : b64_decode (b64_encode bytes) = Some bytes;
  server_opens n m key_name url url' encoded a a' ciphertext :
    vault_join ("v1/transit/" +++ "encrypt/" +++ key_name) = Ok url ->
    vault_join ("v1/transit/" +++ "decrypt/" +++ key_name) = Ok url' ->
    vault_post n url (VaultEncryptRequest encoded) = Some a -> is_success (va_status a) = true ->
    va_data a = Some ciphertext ->
    vault_post m url' (VaultDecryptRequest ciphertext) = Some a' ->
    if is_success (va_status a') then va_data a' = Some encoded
    else body_contains "could not be decrypted" a' = false;
  envelope_text n url encoded a ciphertext :
    vault_post n url (VaultEncryptRequest encoded) = Some a -> va_data a = Some ciphertext ->
    utf8_valid ciphertext = true;
}.

Section Http.
Context `{VH : VaultHttp}.

(** A refused credential, policy or key is [AuthFailed], everything else
    [InvalidKek]. *)
Lemma vault_status_failure status text op : transit_failure (vault_status_to_error status text op).
Proof. unfold vault_status_to_error. case_match; eexists; auto. Qed.

(** [send] fails before the answer is read, or reads it. *)
Lemma send_cases {A} n op segment request (read : VaultAnswer -> result SecretError A) :
  (exists e, transit_failure e /\ send n op segment request read = Err e) \/
  exists url a, vault_join ("v1/transit/" +++ segment) = Ok url /\
    vault_post n url request = Some a /\ send n op segment request read = read a.
Proof.
  unfold send, url_for. destruct (vault_join _) as [url|e]; simpl.
  - destruct (vault_post _ _ _) as [a|] eqn:E; [right; eauto|]. left. eexists. split; [|done]. eexists; auto.
  - left. eexists. split; [|done]. eexists; auto.
Qed.

Lemma http_sealed {HL : VaultServerLaws VH} n key_name plaintext ciphertext :
  utf8_valid plaintext = true -> encrypt n key_name plaintext = Ok ciphertext ->
  utf8_valid ciphertext = true /\ sealed key_name ciphertext plaintext.
Proof.
  intros Hu He. simpl in He. unfold http_encrypt in He.
  match type of He with send ?n ?op ?s ?q ?r = _ =>
    destruct (send_cases n op s q r) as [(e & _ & E)|(url & a & Hj & Hp & E)] end; rewrite E in He; [done|].
  destruct (is_success (va_status a)) eqn:Es; [|done]. simpl in He.
  destruct (va_data a) as [c|] eqn:Ed; [|done]. injection He as ->.
  split; [by eapply envelope_text|]. intros m. simpl. unfold http_decrypt.
  match goal with |- context [send ?n ?op ?s ?q ?r] =>
    destruct (send_cases n op s q r) as [(e & He & ->)|(url' & a' & Hj' & Hp' & ->)] end; [eauto|].
  pose proof (server_opens n m key_name url url' _ a a' ciphertext Hj Hj' Hp Es Ed Hp') as Hs.
  destruct (is_success (va_status a')); simpl.
  - rewrite Hs, b64_decode_encode. unfold from_utf8. rewrite Hu. by left.
  - rewrite Hs. right. eexists. split; [apply vault_status_failure|done].
Qed.
End Http.

(** * The in-memory fake *)

Definition hex_digit (v : Z) : ascii := ascii_of_N (Z.to_N (if v <? 10 then 48 + v else 87 + v)).
(** [{:016x}] of a [u64] *)
Fixpoint hex_digits (n : nat) (v : Z) : string :=
  match n with
  | O => EmptyString
  | S n' => String (hex_digit ((v / 16 ^ Z.of_nat n') mod 16)) (hex_digits n' v)
  end.
Definition hex16 (v : Z) : string := hex_digits 16 v.

Module InMemoryVaultTransit.
(** [InMemoryVault] behind its mutex. *)
Record InMemoryVault := mkVault {
  iv_keys : gset string;
  iv_ciphertexts : gmap (string * string) string;
  iv_counter : Z;
}.
Definition new_vault : InMemoryVault := mkVault ∅ ∅ 0.
Definition no_key (key_name : string) : SecretError :=
  InvalidKek ("no transit key named '" +++ key_name +++ "'").

Definition mem_ensure_key (key_name : string) : M InMemoryVault SecretError unit := fun v =>
  (Ok tt, mkVault ({[key_name]} ∪ iv_keys v) (iv_ciphertexts v) (iv_counter v)).
(** The counter wraps in a release build. *)
Definition mem_encrypt (key_name plaintext : string) : M InMemoryVault SecretError string := fun v =>
  if negb (bool_decide (key_name ∈ iv_keys v)) then (Err (no_key key_name), v)
  else
    let counter := (iv_counter v + 1) mod 2 ^ 64 in
    let ciphertext := "vault:test:" +++ hex16 counter in
    (Ok ciphertext, mkVault (iv_keys v) (<[(key_name, ciphertext) := plaintext]> (iv_ciphertexts v)) counter).
Definition mem_decrypt (key_name ciphertext : string) : M InMemoryVault SecretError string := fun v =>
  if negb (bool_decide (key_name ∈ iv_keys v)) then (Err (no_key key_name), v)
  else match iv_ciphertexts v !! (key_name, ciphertext) with
       | Some plaintext => (Ok plaintext, v)
       | None => (Err Decrypt, v)
       end.
End InMemoryVaultTransit.
Export InMemoryVaultTransit.

Lemma hex_digit_inj a b : 0 <= a < 16 -> 0 <= b < 16 -> hex_digit a = hex_digit b -> a = b.
Proof.
  intros Ha Hb H. apply (f_equal N_of_ascii) in H. unfold hex_digit in H.
  rewrite !N_ascii_embedding in H by (repeat case_match; lia).
  destruct (a <? 10) eqn:?, (b <? 10) eqn:?; lia.
Qed.

Lemma hex_digits_inj n a b : hex_digits n a = hex_digits n b -> a mod 16 ^ Z.of_nat n = b mod 16 ^ Z.of_nat n.
Proof.
  induction n as [|n IH]; intros H; [by rewrite !Z.mod_1_r|].
  cbn [hex_digits] in H. injection H as Hd Ht%IH.
  apply hex_digit_inj in Hd; [|apply Z.mod_pos_bound; lia..].
  rewrite Nat2Z.inj_succ, Z.pow_succ_r, Z.mul_comm by lia.
  rewrite !Z.rem_mul_r by lia. congruence.
Qed.

Lemma hex16_inj a b : 0 <= a < 2 ^ 64 -> 0 <= b < 2 ^ 64 -> hex16 a = hex16 b -> a = b.
Proof.
  intros Ha Hb H%hex_digits_inj. change (16 ^ Z.of_nat 16) with (2 ^ 64) in H.
  by rewrite !Z.mod_small in H.
Qed.

(** The calls a test may make in between. *)
Inductive TransitCall :=
| CallEnsure (key_name : string)
| CallEncrypt (key_name plaintext : string)
| CallDecrypt (key_name ciphertext : string).
Definition transit_call (c : TransitCall) (v : InMemoryVault) : InMemoryVault :=
  match c with
  | CallEnsure k => (mem_ensure_key k v).2
  | CallEncrypt k p => (mem_encrypt k p v).2
  | CallDecrypt k c => (mem_decrypt k c v).2
  end.
Definition transit_calls (cs : list TransitCall) (v : InMemoryVault) : InMemoryVault :=
  fold_left (fun v c => transit_call c v) cs v.

(** [c] was given out for [p] by a vault whose counter is past it. *)
Definition given_out (key_name ciphertext plaintext : string) (v : InMemoryVault) : Prop :=
  key_name ∈ iv_keys v /\ iv_ciphertexts v !! (key_name, ciphertext) = Some plaintext /\
  exists n, 0 <= n <= iv_counter v /\ ciphertext = "vault:test:" +++ hex16 n.

Lemma given_out_step k c p call v :
  iv_counter v + 1 < 2 ^ 64 -> given_out k c p v ->
  given_out k c p (transit_call call v) /\ iv_counter (transit_call call v) <= iv_counter v + 1.
Proof.
  intros Hn (Hk & Hc & n & Hb & Hcn). destruct call as [k'|k' p'|k' c']; simpl.
  - split; [|lia]. split; [set_solver|]. split; [done|]. by exists n.
  - unfold mem_encrypt. destruct (negb _); simpl; [split; [|lia]; by repeat (split; eauto)|].
    rewrite Z.mod_small by lia. split; [|lia]. split; [done|]. split.
    + simpl. rewrite lookup_insert_ne; [done|]. intros [= _ Heq].
      rewrite Hcn in Heq. apply append_inj_r in Heq. apply hex16_inj in Heq; lia.
    + exists n. simpl. split; [lia|done].
  - unfold mem_decrypt. assert (given_out k c p v) by (split; eauto).
    repeat case_match; simpl; (split; [done|lia]).
Qed.

Lemma given_out_steps k c p calls v :
  iv_counter v + Z.of_nat (length calls) < 2 ^ 64 -> given_out k c p v ->
  given_out k c p (transit_calls calls v).
Proof.
  unfold transit_calls. revert v. induction calls as [|call calls IH]; intros v Hn Hv; [done|].
  simpl in *. destruct (given_out_step k c p call v) as [Hv' Hc]; [lia|done|]. apply IH; [lia|done].
Qed.

(** * Properties *)

Section Properties.
Context `{En : Env}.

(** C31: The Vault store meets the contract of the secret store, which the
    pgcrypto store meets as well and the services are proved against: what was
    put is what its handle gets, unless the database or Vault fails; reading
    changes nothing, deleting removes exactly the handle's row, a failed call
    leaves the tables as they were, and a failure is never reported as a damaged
    or missing secret. *)
Theorem vault_store_correct `{VT : VaultTransit} key_prefix :
  VaultTransitLaws VT -> bypass_rls = false -> SecretStoreLaws (vault_store key_prefix).
Proof. intros HVT Hb. by apply vault_laws. Qed.

(** A secret put through Vault's HTTP interface comes back from it: after
    [put] returned a handle, [get] returns the text that was put, or an error of the
    database or of Vault that is not a damaged secret; the same row under the
    handle of another tenant is not found, whatever Vault would answer; and a [put]
    that failed stored nothing. *)
Theorem http_vault_roundtrip `{VH : VaultHttp} key_prefix d org other plaintext :
  VaultServerLaws VH -> bypass_rls = false -> utf8_valid plaintext = true -> other <> org ->
  NoDup (map se_id (db_secrets d)) ->
  db_wp d (vault_put key_prefix org plaintext) (fun r d1 =>
    match r with
    | Ok ref => sr_organization_id ref = org /\
        db_wp d1 (vault_get key_prefix ref) (fun r' d2 => d2 = d1 /\
          (r' = Ok plaintext \/ exists e, vault_failure e /\ r' = Err e)) /\
        db_wp d1 (vault_get key_prefix (mkSecretRef (sr_id ref) other)) (fun r' d2 => d2 = d1 /\
          (r' = Err (SecretNotFound (sr_id ref)) \/ faulty /\ r' = Err (SecretDatabase DbTransport)))
    | Err _ => d1 = d
    end).
Proof.
  intros HL Hb Hu Hother Hnd. eapply db_mono.
  { apply vault_put_law. intros n c. by apply http_sealed. }
  intros [ref|e] d1; [|done]. intros (Ho & Hres & row & Hrow & -> & Hfresh). split; [done|]. split.
  - eapply db_mono; [by apply vault_get_law|]. intros r d2 [-> H]. split; [done|]. by apply H.
  - intros g. unfold vault_get. tx_step. apply db_tenant_tx; [by split; auto|]. intros now.
    tx_step. apply tx_select; [by split; auto|]. simpl.
    rewrite (filter_ext_list _ (own_secret (mkSecretRef (sr_id ref) other)))
      by (intros; by apply (own_secret_visible Hb now (mkSecretRef (sr_id ref) other))).
    rewrite filter_false_in; [tx_step; by split; auto|].
    assert (Hs : db_secrets (set_secrets (db_secrets d ++ [row]) d) = db_secrets d ++ [row]) by by destruct d.
    rewrite existsb_false_iff in Hfresh. unfold own_secret in *. simpl in *.
    intros s. rewrite Hs. intros [Hin|[<-|[]]]%in_app_iff; [by rewrite (Hfresh s Hin), andb_false_r|].
    apply andb_true_iff in Hrow as [Hrow _]. apply bool_decide_eq_true in Hrow.
    by rewrite bool_decide_false by congruence.
Qed.

(** A row that another backend wrote is never handed to Vault: reading it says
    [Decrypt]. *)
Theorem vault_get_other_backend `{VT : VaultTransit} key_prefix d ref s :
  bypass_rls = false -> List.filter (own_secret ref) (db_secrets d) = [s] ->
  se_algorithm s <> VAULT_ALGORITHM_TAG ->
  db_wp d (vault_get key_prefix ref) (fun r d' => d' = d /\
    (r = Err Decrypt \/ faulty /\ r = Err (SecretDatabase DbTransport))).
Proof.
  intros Hb Hs Ha g. unfold vault_get. tx_step. apply db_tenant_tx; [by split; auto|]. intros now.
  tx_step. apply tx_select; [by split; auto|]. simpl.
  rewrite (filter_ext_list _ (own_secret ref)) by (intros; by apply own_secret_visible).
  rewrite Hs. apply String.eqb_neq in Ha. rewrite Ha. simpl. tx_step. by split; auto.
Qed.

(** The fake keeps the transit contract while its counter does not wrap: what it
    encrypted it decrypts under the same key, whatever is called in between. *)
Theorem in_memory_roundtrip key_name plaintext calls v :
  0 <= iv_counter v -> iv_counter v + 1 + Z.of_nat (length calls) < 2 ^ 64 ->
  let sealed := mem_encrypt key_name plaintext v in
  match sealed.1 with
  | Ok c => (mem_decrypt key_name c (transit_calls calls sealed.2)).1 = Ok plaintext
  | Err e => e = no_key key_name /\ key_name ∉ iv_keys v
  end.
Proof.
  intros H0 Hn. unfold mem_encrypt. destruct (bool_decide (key_name ∈ iv_keys v)) eqn:E; simpl.
  2: { by apply bool_decide_eq_false in E. }
  apply bool_decide_eq_true in E. rewrite Z.mod_small by lia. set (c := _ +++ _).
  set (v1 := mkVault _ _ _).
  destruct (given_out_steps key_name c plaintext calls v1) as (Hk & Hc & _).
  - unfold v1. simpl in *. lia.
  - split; [done|]. split; [apply lookup_insert_eq|]. exists (iv_counter v + 1). simpl. split; [lia|done].
  - unfold mem_decrypt. by rewrite bool_decide_true, Hc.
Qed.
End Properties.

(** * A concrete Vault *)

Definition demo_seal (key text : string) : option string :=
  let c := "vault:v1:" +++ toy_encrypt key text in
  if utf8_valid c then Some c else None.
#[export] Instance demo_transit : VaultTransit := {|
  ensure_key _ _ := Ok tt;
  encrypt _ key text :=
    match demo_seal key text with Some c => Ok c | None => Err (InvalidKek "vault encrypt 400") end;
  decrypt _ key c :=
    match strip_prefix "vault:v1:" c with
    | Some c => match toy_decrypt key c with Some text => Ok text | None => Err Decrypt end
    | None => Err Decrypt
    end;
|}.

Lemma strip_prefix_append p s : strip_prefix p (p +++ s) = Some s.
Proof.
  unfold strip_prefix. rewrite starts_with_append. f_equal. induction p as [|c p IH]; [done|]. exact IH.
Qed.

#[export] Instance demo_transit_laws : VaultTransitLaws demo_transit.
Proof.
  constructor. simpl. unfold demo_seal. intros n key p c H. case_match eqn:E; [|done]. injection H as <-.
  case_match eqn:Hu; [|done]. injection E as <-. split; [done|]. intros m. left. cbn [decrypt demo_transit].
  by rewrite strip_prefix_append, toy_decrypt_encrypt.
Qed.

(** A server that keeps the text in the envelope. *)
Definition demo_http : VaultHttp := {|
  vault_join path := Ok ("https://vault/" +++ path);
  vault_post _ url request :=
    Some match request with
         | CreateKey => mkAnswer 204 (Some EmptyString) None
         | VaultEncryptRequest text =>
             let c := "vault:v1:" +++ text in
             mkAnswer 200 (Some c) (if utf8_valid c then Some c else None)
         | VaultDecryptRequest c => mkAnswer 200 None (strip_prefix "vault:v1:" c)
         end;
  status_str s := pretty s;
  b64_encode s := s;
  b64_decode s := Some s;
|}%string.
Lemma demo_server_laws : VaultServerLaws demo_http.
Proof.
  constructor; [done| |]; cbn [vault_post demo_http].
  - intros n m key url url' encoded a a' c _ _ [= <-] _. cbn [va_data]. case_match; [|done].
    intros [= <-] [= <-]. simpl is_success. cbv iota. apply (strip_prefix_append "vault:v1:").
  - intros n url encoded a c [= <-]. cbn [va_data]. case_match eqn:E; [|done]. by intros [= <-].
Qed.

Lemma vault_store_correct_witness :
  @SecretStoreLaws demo_env (@vault_store demo_env demo_transit "kubinate").
Proof. apply (@vault_store_correct demo_env demo_transit "kubinate" demo_transit_laws eq_refl). Defined.

Lemma http_vault_roundtrip_witness :
  let made := @vault_put demo_env (@http_transit demo_http) "kubinate" 1%N "token" (demo_world demo_db) in
  let ref := mkSecretRef 1002%N 1%N in
  made.1 = Ok ref /\
  (@vault_get demo_env (@http_transit demo_http) "kubinate" ref made.2).1 = Ok "token"%string /\
  (@vault_get demo_env (@http_transit demo_http) "kubinate" (mkSecretRef 1002%N 2%N) made.2).1 =
    Err (SecretNotFound 1002%N).
Proof.
  intros made ref. assert (Hok : made.1 = Ok ref) by (vm_compute; reflexivity). split; [exact Hok|].
  assert (Hnd : NoDup (map se_id (db_secrets demo_db))) by (vm_compute; repeat constructor; set_solver).
  assert (Hne : 2%N <> 1%N) by discriminate.
  pose proof (db_run _ _ _ (demo_world demo_db) (@http_vault_roundtrip demo_env demo_http "kubinate"
    demo_db 1%N 2%N "token" demo_server_laws eq_refl eq_refl Hne Hnd) eq_refl) as Hr.
  fold made in Hr. rewrite Hok in Hr. destruct Hr as (_ & H1 & H2). split.
  - destruct (db_run _ _ _ made.2 H1 eq_refl) as [_ [Hf|(e & _ & He)]]; [exact Hf|exfalso].
    assert (Hv : is_ok (@vault_get demo_env (@http_transit demo_http) "kubinate" ref made.2).1 = true)
      by (vm_compute; reflexivity).
    rewrite He in Hv. discriminate Hv.
  - destruct (db_run _ _ _ made.2 H2 eq_refl) as [_ [Hf|[[n Hn] _]]]; [exact Hf|discriminate Hn].
Defined.
