(* ===== verification/VaultMigrate.v ===== *)
(** The migration of the stored secrets from pgcrypto to Vault
    ([crates/vault-migrate/src/main.rs]): the binary, run as a role that sees every
    tenant's rows, what it may do to a secret, and which rows it reaches. *)

From stdpp Require Import base gmap strings pretty list.
From S2P Require Import Prelude Errors Integrations Events Schema Database Tables Secrets Vault.

(** The errors of [anyhow], before they are counted or end the program. *)
Inductive MigrateError :=
| MigrateDatabase (e : DbError)
| MigrateVault (e : SecretError).
#[export] Instance migrate_from_db : FromDb MigrateError := MigrateDatabase.

(** The arguments; [apply] and [dry_run] exclude each other, and one is given. *)
Record Cli := mkCli {
  key_prefix : string;
  kek : string;
  apply : bool;
  batch_size : Z;
}.

Inductive MigrateOutcome := Applied | DryRun.

(** The counters of [main]. *)
Record Tally := mkTally { migrated : Z; skipped : Z; errors : Z }.
Definition no_rows_yet : Tally := mkTally 0 0 0.
Definition count (r : result MigrateError MigrateOutcome) (t : Tally) : Tally :=
  match r with
  | Ok Applied => mkTally (migrated t + 1) (skipped t) (errors t)
  | Ok DryRun => mkTally (migrated t) (skipped t + 1) (errors t)
  | Err _ => mkTally (migrated t) (skipped t) (errors t + 1)
  end.

Module Migration.
Section Migration.
Context `{En : Env} `{VT : VaultTransit} (cli : Cli).

Definition is_pgp (s : SecretRow) : bool := String.eqb (se_algorithm s) PGP_ALGORITHM_TAG.
Definition by_id (a b : SecretRow) : bool := (se_id a <=? se_id b)%N.

(** [fetch_one] of the decrypting query. *)
Definition decrypt_row (id : Uuid) : M World MigrateError string :=
  on_pool (
    rows <- select (fun _ s => bool_decide (se_id s = id)) ;;
    match rows with
    | [] => throw row_not_found
    | s :: _ => match open_row (kek cli) s with
                | Some plaintext => ret plaintext
                | None => throw pgp_failure
                end
    end).

Definition to_vault (ciphertext : string) (s : SecretRow) : SecretRow :=
  mkSecretRow (se_id s) (se_organization_id s) ciphertext EmptyString VAULT_ALGORITHM_TAG.

Definition migrate_row (row : SecretRow) : M World MigrateError MigrateOutcome :=
  plaintext <- decrypt_row (se_id row) ;;
  if negb (apply cli) then ret DryRun
  else
    let key_name := vault_key_name (key_prefix cli) (se_organization_id row) in
    map_err MigrateVault (transit (fun n => ensure_key n key_name)) ;;;
    vault_ciphertext <- map_err MigrateVault (transit (fun n => encrypt n key_name plaintext)) ;;
    on_pool (update (fun _ s => bool_decide (se_id s = se_id row) && is_pgp s)
               (fun _ => to_vault vault_ciphertext)) ;;;
    ret Applied.

(** [SELECT .. WHERE algorithm = 'pgp_sym_v1' ORDER BY id LIMIT $1 OFFSET $2] *)
Definition fetch_batch (offset : Z) : M World MigrateError (list SecretRow) :=
  rows <- on_pool (
    rows <- select (fun _ => is_pgp) ;;
    if batch_size cli <? 0 then throw (DbMessage "LIMIT must not be negative") else ret rows) ;;
  ret (take (Z.to_nat (batch_size cli)) (drop (Z.to_nat offset) (sort_by by_id rows))).

Fixpoint migrate_rows (rows : list SecretRow) (t : Tally) : M World MigrateError Tally :=
  match rows with
  | [] => ret t
  | row :: rows' =>
      r <- attempt (migrate_row row) ;;
      migrate_rows rows' (count r t)
  end.

(** The [loop]; [None] when it has not ended after [fuel] rounds. *)
Fixpoint migrate_batches (fuel : nat) (offset : Z) (t : Tally) : M World MigrateError (option Tally) :=
  match fuel with
  | O => ret None
  | S fuel' =>
      rows <- fetch_batch offset ;;
      match rows with
      | [] => ret (Some t)
      | _ =>
          t' <- migrate_rows rows t ;;
          migrate_batches fuel' (offset + Z.of_nat (length rows)) t'
      end
  end.

(** [main], up to its exit code. *)
Definition migrate (fuel : nat) : M World MigrateError (option Tally) :=
  candidates <- on_pool (select (fun _ => is_pgp)) ;;
  match candidates with
  | [] => ret (Some no_rows_yet)
  | _ => migrate_batches fuel 0 no_rows_yet
  end.

Definition exit_code (r : result MigrateError Tally) : Z :=
  match r with
  | Ok t => if 0 <? errors t then 1 else 0
  | Err _ => 1
  end.
End Migration.
End Migration.
Export Migration.

(** * What it does to the secrets *)

Section Laws.
Context `{En : Env} `{VT : VaultTransit} (HVT : VaultTransitLaws VT) (Hb : bypass_rls = true) (cli : Cli).

(** A row is as before, or Vault holds what the KEK opened. *)
Definition resealed (s s' : SecretRow) : Prop :=
  exists p c, is_pgp s = true /\ open_row (kek cli) s = Some p /\ utf8_valid c = true /\
    sealed (vault_key_name (key_prefix cli) (se_organization_id s)) c p /\ s' = to_vault c s.
Definition row_step (s s' : SecretRow) : Prop := s' = s \/ resealed s s'.
Definition moved (d d' : DB) : Prop :=
  exists l, d' = set_secrets l d /\ Forall2 row_step (db_secrets d) l.

Definition candidates (d : DB) : list SecretRow := List.filter is_pgp (db_secrets d).
Definition remaining (d : DB) : Z := Z.of_nat (length (candidates d)).
Definition distinct_secrets (d : DB) : Prop := NoDup (map se_id (db_secrets d)).

#[export] Instance row_step_preorder : PreOrder row_step.
Proof.
  split; [by left|]. intros x y z [->|Hxy]; [done|]. intros [->|Hyz]; [by right|].
  destruct Hxy as (p & c & _ & _ & _ & _ & ->). by destruct Hyz as (p' & c' & Ht & _).
Qed.

#[export] Instance moved_preorder : PreOrder moved.
Proof.
  split.
  - intros d. exists (db_secrets d). split; [by destruct d|]. reflexivity.
  - intros d1 d2 d3 (l & -> & Hl) (k & -> & Hk). rewrite secrets_of_set_secrets in Hk.
    exists k. split; [by destruct d1|]. by etrans.
Qed.

Lemma row_step_ids s s' : row_step s s' -> se_id s' = se_id s /\ se_organization_id s' = se_organization_id s.
Proof. by intros [->|(p & c & _ & _ & _ & _ & ->)]. Qed.

Lemma moved_ids d d' : moved d d' -> map se_id (db_secrets d') = map se_id (db_secrets d).
Proof.
  intros (l & -> & Hl). rewrite secrets_of_set_secrets.
  induction Hl as [|s s' k k' Hs _ IH]; simpl; [done|]. destruct (row_step_ids _ _ Hs) as [-> _]. by rewrite IH.
Qed.

Lemma moved_distinct d d' : moved d d' -> distinct_secrets d -> distinct_secrets d'.
Proof. unfold distinct_secrets. by intros ->%moved_ids. Qed.

(** The row a handle names, before and after. *)
Lemma moved_own d d' ref s :
  moved d d' -> List.filter (own_secret ref) (db_secrets d) = [s] ->
  exists s', List.filter (own_secret ref) (db_secrets d') = [s'] /\ row_step s s'.
Proof.
  intros (l & -> & Hl). rewrite secrets_of_set_secrets. revert s.
  assert (H : Forall2 row_step (List.filter (own_secret ref) (db_secrets d)) (List.filter (own_secret ref) l)).
  { induction Hl as [|s s' k k' Hs _ IH]; simpl; [done|].
    assert (own_secret ref s' = own_secret ref s) as ->.
    { unfold own_secret. by destruct (row_step_ids _ _ Hs) as [-> ->]. }
    destruct (own_secret ref s); [by constructor|done]. }
  intros s Hs. rewrite Hs in H. inversion H as [|? s' ? k' Hst Hk]; subst. inversion Hk; subst. eauto.
Qed.

(** No secret is lost: whoever could read it through one of the stores still can. *)
Definition secrets_kept (d d' : DB) : Prop := forall ref p,
  (pg_resolves (kek cli) d ref p ->
     pg_resolves (kek cli) d' ref p \/ vault_resolves (key_prefix cli) d' ref p) /\
  (vault_resolves (key_prefix cli) d ref p -> vault_resolves (key_prefix cli) d' ref p).

Lemma own_secret_org ref s l :
  List.filter (own_secret ref) l = [s] -> se_organization_id s = sr_organization_id ref.
Proof.
  intros Hs. assert (Hin : In s (List.filter (own_secret ref) l)) by (rewrite Hs; by left).
  apply filter_In in Hin as [_ [Ho _]%andb_true_iff]. by apply bool_decide_eq_true in Ho.
Qed.

Lemma moved_secrets_kept d d' : moved d d' -> secrets_kept d d'.
Proof.
  intros Hm ref p. split.
  - intros (s & Hs & Hp). destruct (moved_own _ _ _ _ Hm Hs) as (s' & Hs' & [->|Hr]); [left; by exists s|right].
    destruct Hr as (p' & c & _ & Hp' & Hc & Hse & ->). exists (to_vault c s).
    rewrite <- (own_secret_org _ _ _ Hs). split; [done|]. split; [done|]. split; [done|].
    rewrite Hp in Hp'. by injection Hp' as <-.
  - intros (s & Hs & Ha & Hu & Hp). destruct (moved_own _ _ _ _ Hm Hs) as (s' & Hs' & [->|Hr]); [by exists s|].
    destruct Hr as (p' & c & Ht & _). exfalso. unfold is_pgp in Ht. by rewrite Ha in Ht.
Qed.

(** ** One row *)

Lemma decrypt_row_law d id :
  db_wp d (decrypt_row cli id) (fun r d' => d' = d /\ forall p, r = Ok p ->
    exists s, In s (db_secrets d) /\ se_id s = id /\ open_row (kek cli) s = Some p).
Proof.
  intros g. unfold decrypt_row. apply db_on_pool. intros now. tx_step. apply tx_select; [by split|].
  destruct (List.filter _ (rows d)) as [|s l] eqn:E; [by tx_step|].
  assert (Hin : In s (s :: l)) by by left. rewrite <- E in Hin.
  apply filter_In in Hin as [Hin [_ Hid]%andb_true_iff]. apply bool_decide_eq_true in Hid.
  destruct (open_row (kek cli) s) as [p|] eqn:Ho; tx_step; (split; [done|]); [|done].
  intros p' [= <-]. by exists s.
Qed.

(** The rows with the id of a candidate: that one. *)
Lemma hit_one d row s :
  distinct_secrets d -> In row (db_secrets d) -> is_pgp row = true -> In s (db_secrets d) ->
  bool_decide (se_id s = se_id row) && is_pgp s = bool_decide (se_id s = se_id row).
Proof.
  intros Hd Hin Hp Hs. case_bool_decide as Hid; [|done].
  by rewrite (NoDup_map_inj se_id _ s row Hd Hs Hin Hid).
Qed.

Definition reseal (row : SecretRow) (c : string) (d : DB) : DB :=
  set_secrets (update_rows (fun s => bool_decide (se_id s = se_id row)) (to_vault c) (db_secrets d)) d.

Definition row_migrated (d : DB) (row : SecretRow) (r : result MigrateError MigrateOutcome) (d' : DB) : Prop :=
  match r with
  | Ok Applied => apply cli = true /\ exists c, resealed row (to_vault c row) /\ d' = reseal row c d
  | Ok DryRun => apply cli = false /\ d' = d
  | Err _ => d' = d
  end.

Lemma migrate_row_law d row :
  distinct_secrets d -> In row (db_secrets d) -> is_pgp row = true ->
  db_wp d (migrate_row cli row) (row_migrated d row).
Proof.
  intros Hd Hin Hp g. unfold migrate_row. tx_step. tx_call decrypt_row_law. intros [p|e] d1 [-> Hr]; [|done].
  destruct (Hr p eq_refl) as (s & Hs & Hid & Ho).
  assert (s = row) as -> by (eapply NoDup_map_inj; eauto).
  destruct (apply cli) eqn:Ea; simpl; [|by tx_step]. tx_step. tx_step. apply tx_transit. intros n.
  destruct (ensure_key _ _) as [u|e]; [|done]. cbn beta iota delta [result_map_err]. tx_step. tx_step. apply tx_transit.
  intros n'. destruct (encrypt _ _ _) as [c|e] eqn:Ee; [|done]. apply encrypt_sealed in Ee as [Hu Hse].
  cbn beta iota delta [result_map_err]. tx_step. apply db_on_pool. intros now. apply tx_update; [done|]. intros t.
  rewrite secrets_updated. cbn beta iota delta [result_map_err]. tx_step. split; [done|]. exists c. split; [by exists p, c|].
  unfold reseal. f_equal. apply update_rows_in. intros s Hins. split; [|done].
  unfold update_hit. rewrite (visible_bypass Hb). simpl. by apply (hit_one d).
Qed.

Lemma resealed_one d row c :
  distinct_secrets d -> In row (db_secrets d) -> resealed row (to_vault c row) ->
  moved d (reseal row c d) /\ remaining (reseal row c d) = remaining d - 1 /\
  forall s, In s (db_secrets d) -> se_id s <> se_id row -> In s (db_secrets (reseal row c d)).
Proof.
  intros Hd Hin Hr. split; [|split].
  - eexists. split; [done|]. unfold update_rows. apply Forall2_fmap_r, Forall_Forall2_diag.
    apply Forall_forall. intros s Hs%list_elem_of_In. cbn. case_bool_decide as Hid; [|by left].
    right. by rewrite (NoDup_map_inj se_id _ s row Hd Hs Hin Hid).
  - assert (Hp : is_pgp row = true) by by destruct Hr as (p & c' & Hp & _).
    unfold remaining, candidates, reseal. rewrite secrets_of_set_secrets. unfold distinct_secrets in Hd.
    induction (db_secrets d) as [|s l IH]; simpl in *; [done|]. apply NoDup_cons in Hd as [Hs Hl].
    case_bool_decide as Hid.
    + assert (s = row) as ->.
      { destruct Hin as [->|Hin]; [done|]. destruct Hs. rewrite Hid. by apply list_elem_of_In, in_map. }
      rewrite Hp. simpl. rewrite update_rows_none; [lia|]. apply filter_false_in.
      intros s Hs'. rewrite bool_decide_false; [done|]. intros He. apply Hs. rewrite <- He.
      by apply list_elem_of_In, in_map.
    + destruct Hin as [->|Hin]; [done|]. specialize (IH Hl Hin).
      destruct (is_pgp s); cbn [length] in *; lia.
  - intros s Hs Hid. unfold reseal. rewrite secrets_of_set_secrets. apply in_update_rows.
    exists s. split; [done|]. by rewrite bool_decide_false.
Qed.

(** ** A page of rows *)

(** The counters have grown by [m] rows migrated among [n] rows treated. *)
Definition grown (m n : Z) (t t' : Tally) : Prop :=
  migrated t' = migrated t + m /\
  migrated t' + skipped t' + errors t' = migrated t + skipped t + errors t + n /\
  migrated t <= migrated t' /\ skipped t <= skipped t' /\ errors t <= errors t'.

Lemma migrate_rows_law rows t d :
  distinct_secrets d -> NoDup (map se_id rows) ->
  (forall s, In s rows -> In s (db_secrets d) /\ is_pgp s = true) ->
  db_wp d (migrate_rows cli rows t) (fun r d' => exists t', r = Ok t' /\ moved d d' /\
    grown (remaining d - remaining d') (Z.of_nat (length rows)) t t' /\ (apply cli = false -> d' = d) /\
    (apply cli = true -> skipped t' = skipped t)).
Proof.
  revert t d. induction rows as [|row rows IH]; intros t d Hd Hnd Hin g; cbn [migrate_rows].
  { tx_step. exists t. split; [done|]. split; [reflexivity|]. split; [|done].
    unfold grown. simpl. lia. }
  apply NoDup_cons in Hnd as [Hrow Hnd]. destruct (Hin row (or_introl eq_refl)) as [Hr Hp].
  tx_step. tx_step. tx_call (migrate_row_law d row Hd Hr Hp). intros r d1 H1. cbn beta iota.
  assert (Hd1 : moved d d1 /\ remaining d - remaining d1 = migrated (count r t) - migrated t /\
    (apply cli = false -> d1 = d) /\ (apply cli = true -> skipped (count r t) = skipped t) /\
    forall s, In s (db_secrets d) -> se_id s <> se_id row -> In s (db_secrets d1)).
  { destruct r as [[|]|e]; simpl in *.
    - destruct H1 as (Ha & c & Hc & ->). destruct (resealed_one d row c Hd Hr Hc) as (Hm & Hl & Hk).
      split; [done|]. split; [lia|]. split; [congruence|done].
    - destruct H1 as [Ha ->]. split; [reflexivity|]. split; [lia|]. split; [done|].
      split; [congruence|done].
    - subst d1. split; [reflexivity|]. split; [lia|done]. }
  destruct Hd1 as (Hm & Hl & Hdry & Hsk & Hk). tx_call (IH (count r t) d1).
  - by eapply moved_distinct.
  - done.
  - intros s Hs. destruct (Hin s (or_intror Hs)) as [Hs1 Hs2]. split; [|done]. apply Hk; [done|].
    intros He. apply Hrow. rewrite <- He. by apply list_elem_of_In, in_map.
  - intros r' d2 (t' & -> & Hm2 & Hg & Hd2 & Hsk2). exists t'. split; [done|]. split; [by etrans|].
    split; [|split].
    + unfold grown in *. destruct r as [[|]|e]; simpl in *; lia.
    + intros Ha. by rewrite (Hd2 Ha), (Hdry Ha).
    + intros Ha. by rewrite (Hsk2 Ha), (Hsk Ha).
Qed.

(** ** The loop *)

Definition page (offset : Z) (d : DB) : list SecretRow :=
  take (Z.to_nat (batch_size cli)) (drop (Z.to_nat offset) (sort_by by_id (candidates d))).

Lemma fetch_batch_law d offset :
  db_wp d (fetch_batch cli offset) (fun r d' => d' = d /\
    match r with
    | Ok rows => 0 <= batch_size cli /\ rows = page offset d
    | Err e => exists e', e = MigrateDatabase e'
    end).
Proof.
  intros g. unfold fetch_batch. tx_step. apply db_on_pool. intros now. tx_step.
  apply tx_select; [by split; eauto|]. destruct (Z.ltb_spec (batch_size cli) 0); tx_step; cbn beta iota delta [result_map_err];
    [by split; eauto|].
  tx_step. split; [done|]. split; [done|]. unfold page, candidates. do 3 f_equal.
  apply filter_ext_list. intros s. by rewrite (visible_bypass Hb).
Qed.

Lemma in_take_drop {A} n k (l : list A) x : In x (take n (drop k l)) -> In x l.
Proof.
  intros H. rewrite <- (take_drop k l). apply in_app_iff. right.
  rewrite <- (take_drop n (drop k l)). apply in_app_iff. by left.
Qed.

(** A page is made of candidates, each once, and ends with them. *)
Lemma page_rows offset d :
  distinct_secrets d ->
  NoDup (map se_id (page offset d)) /\
  (forall s, In s (page offset d) -> In s (db_secrets d) /\ is_pgp s = true) /\
  (0 <= offset -> 0 <= batch_size cli ->
   Z.of_nat (length (page offset d)) = Z.min (batch_size cli) (Z.max 0 (remaining d - offset))).
Proof.
  intros Hd. assert (Hsub : page offset d `sublist_of` sort_by by_id (candidates d)).
  { unfold page. etrans; [apply sublist_take|apply sublist_drop]. }
  split; [|split].
  - apply (sublist_NoDup _ (map se_id (sort_by by_id (candidates d)))); [|by apply (fmap_sublist se_id)].
    rewrite (sort_by_perm by_id (candidates d)). by apply NoDup_map_filter.
  - intros s Hs. apply in_take_drop, in_sort_by, filter_In in Hs. done.
  - intros Ho Hbs. unfold page. rewrite length_take, length_drop, (sort_by_perm by_id (candidates d)).
    unfold remaining. lia.
Qed.

(** What is left of [n] candidates when every row from [offset] on was migrated that
    the loop reached: it ends where the offset meets the shrinking list. *)
Definition left_over (offset n n' : Z) : Prop :=
  if n <=? offset then n' = n else n + offset - batch_size cli <= 2 * n' <= n + offset.

Definition treated (offset : Z) (d d' : DB) (t : Tally) (r : result MigrateError (option Tally)) : Prop :=
  match r with
  | Ok (Some t') => exists v, grown (remaining d - remaining d') v t t' /\
      0 <= v <= Z.max 0 (remaining d - offset) /\
      ((apply cli = false /\ 0 < batch_size cli) \/ remaining d <= offset + batch_size cli ->
       v = Z.max 0 (remaining d - offset)) /\
      (apply cli = true -> 0 < batch_size cli -> errors t' = errors t -> left_over offset (remaining d) (remaining d'))
  | Ok None => False
  | Err e => exists e', e = MigrateDatabase e'
  end.

Lemma migrate_batches_law fuel offset t d :
  distinct_secrets d -> 0 <= offset -> Z.max 0 (remaining d - offset) < Z.of_nat fuel ->
  db_wp d (migrate_batches cli fuel offset t) (fun r d' =>
    moved d d' /\ (apply cli = false -> d' = d) /\ treated offset d d' t r).
Proof.
  revert offset t d. induction fuel as [|fuel IH]; intros offset t d Hd Ho Hf g; [lia|].
  cbn [migrate_batches]. tx_step. tx_call fetch_batch_law. intros [rows|e] d1 [-> H1].
  2: { split; [reflexivity|]. by split. }
  destruct H1 as [Hbs ->]. destruct (page_rows offset d Hd) as (Hnd & Hin & Hlen). specialize (Hlen Ho Hbs).
  destruct (page offset d) as [|row rows] eqn:Ep.
  { tx_step. split; [reflexivity|]. split; [done|]. exists 0. unfold grown, left_over. simpl in *.
    split; [lia|]. split; [lia|]. split; [lia|]. intros _ ? _. destruct (Z.leb_spec (remaining d) offset); lia. }
  assert (Hpos : 0 < Z.of_nat (length (page offset d))) by (rewrite Ep; simpl; lia).
  rewrite <- Ep in *. clear Ep row rows. tx_step. tx_call (migrate_rows_law (page offset d) t d Hd Hnd Hin).
  intros r d1 (t1 & -> & Hm1 & Hg1 & Hdry1 & Hsk1).
  assert (Hrem : remaining d1 <= remaining d) by (unfold grown in Hg1; lia).
  tx_call (IH (offset + Z.of_nat (length (page offset d))) t1 d1); [by eapply moved_distinct|lia..|].
  intros r d2 (Hm2 & Hdry2 & Ht). split; [by etrans|]. split; [intros Ha; by rewrite (Hdry2 Ha), (Hdry1 Ha)|].
  destruct r as [[t2|]|e]; simpl in *; [|done..]. destruct Ht as (v & Hg2 & Hv & Hall & Hleft).
  exists (Z.of_nat (length (page offset d)) + v). unfold grown in *. split; [lia|]. split; [lia|].
  split.
  - intros Hc. rewrite Hall by (destruct Hc; [by left|right; lia]).
    destruct Hc as [[Ha Hb0]|Hc]; [rewrite (Hdry1 Ha)|]; lia.
  - intros Ha Hb0 He. specialize (Hsk1 Ha).
    specialize (Hleft Ha Hb0 ltac:(lia)). unfold left_over in *.
    destruct (Z.leb_spec (remaining d) offset); [lia|].
    destruct (Z.leb_spec (remaining d1) (offset + Z.of_nat (length (page offset d)))); lia.
Qed.
End Laws.

(** * Properties *)

Section Properties.
Context `{En : Env} `{VT : VaultTransit}.

Lemma migrate_law (HVT : VaultTransitLaws VT) cli fuel d :
  bypass_rls = true -> distinct_secrets d -> remaining d < Z.of_nat fuel ->
  db_wp d (migrate cli fuel) (fun r d' =>
    moved cli d d' /\ (apply cli = false -> d' = d) /\ treated cli 0 d d' no_rows_yet r).
Proof.
  intros Hb Hd Hf g. unfold migrate. tx_step. apply db_on_pool. intros now.
  apply tx_select; [intros _; split; [reflexivity|]; split; [done|by eexists]|].
  cbn beta iota delta [result_map_err].
  rewrite (filter_ext_list _ is_pgp) by (intros s; by rewrite (visible_bypass Hb)).
  change (List.filter is_pgp (rows d)) with (candidates d). destruct (candidates d) as [|s l] eqn:E.
  - tx_step. split; [reflexivity|]. split; [done|]. exists 0. unfold grown, left_over, remaining. rewrite E. simpl. lia.
  - apply migrate_batches_law; [done..|lia|]. unfold remaining in *. lia.
Qed.

(** C32: No run of the migration loses a secret.  Whatever the database and Vault
    answer, and wherever the run stops, a secret that the pgcrypto store could read
    is still read by it or is now read, with the same text and through the same
    handle, by the Vault store; one that the Vault store could read still is; and no
    other table is touched.  The loop ends. *)
Theorem migration_keeps_secrets cli fuel d :
  VaultTransitLaws VT -> bypass_rls = true -> distinct_secrets d -> remaining d < Z.of_nat fuel ->
  db_wp d (migrate cli fuel) (fun r d' =>
    r <> Ok None /\ secrets_kept cli d d' /\ exists l, d' = set_secrets l d).
Proof.
  intros HVT Hb Hd Hf. eapply db_mono; [by apply migrate_law|]. intros r d' (Hm & _ & Ht).
  split; [by intros ->|]. split; [by apply moved_secrets_kept|]. destruct Hm as (l & -> & _). by exists l.
Qed.

(** A run that ends counts its rows right: as many were migrated as there are
    candidates fewer.  A dry run changes nothing and treats every candidate; a run
    that writes treats every candidate if they fit in one batch, so only rows it
    counted as errors are left; beyond one batch a run that writes and counts no
    error leaves up to half of the candidates behind, at least half of those that
    exceed the batch.  Any other end is an error of the database. *)
Theorem migration_counts cli fuel d :
  VaultTransitLaws VT -> bypass_rls = true -> distinct_secrets d -> remaining d < Z.of_nat fuel ->
  0 < batch_size cli ->
  db_wp d (migrate cli fuel) (fun r d' =>
    match r with
    | Ok (Some t) =>
        migrated t = remaining d - remaining d' /\ 0 <= migrated t /\ 0 <= skipped t /\ 0 <= errors t /\
        (apply cli = false -> d' = d /\ skipped t + errors t = remaining d) /\
        (remaining d <= batch_size cli -> migrated t + skipped t + errors t = remaining d) /\
        (apply cli = true -> errors t = 0 -> remaining d - batch_size cli <= 2 * remaining d' <= remaining d)
    | Ok None => False
    | Err e => exists e', e = MigrateDatabase e'
    end).
Proof.
  intros HVT Hb Hd Hf Hbs. eapply db_mono; [by apply migrate_law|]. intros r d' (Hm & Hdry & Ht).
  destruct r as [[t|]|e]; [|done..]. destruct Ht as (v & Hg & Hv & Hall & Hleft). unfold grown in Hg. simpl in Hg.
  assert (Hn : 0 <= remaining d) by (unfold remaining; lia).
  split; [lia|]. split; [lia|]. split; [lia|]. split; [lia|]. split; [|split]; intros Ha.
  - rewrite (Hdry Ha) in *. split; [done|]. specialize (Hall (or_introl (conj Ha Hbs))). lia.
  - specialize (Hall (or_intror Ha)). lia.
  - intros He. specialize (Hleft Ha Hbs He). unfold left_over in Hleft.
    destruct (Z.leb_spec (remaining d) 0); lia.
Qed.
End Properties.

(** * Concrete runs *)

Definition demo_cli (batch : Z) : Cli := mkCli "kubinate" "kek" true batch.
Definition demo_migrate (batch : Z) :=
  @migrate (demo_env_as true) demo_transit (demo_cli batch) 3 (demo_world_as true demo_db).

(** A batch that was migrated is no longer among the candidates, yet the next batch
    starts behind as many of them: with one row per batch, every second row is passed
    over, no error is counted and the program reports success. *)
Theorem migration_skips_rows :
  (demo_migrate 1).1 = Ok (Some (mkTally 1 0 0)) /\ exit_code (Ok (mkTally 1 0 0)) = 0 /\
  remaining demo_db = 2 /\ remaining (w_db (demo_migrate 1).2) = 1.
Proof. vm_compute. auto. Qed.

Lemma demo_distinct : distinct_secrets demo_db.
Proof. apply (bool_decide_unpack _). vm_compute. exact I. Qed.

(** The token and the kubeconfig of tenant 1 move to Vault. *)
Lemma migration_keeps_secrets_witness :
  let run := @migrate (demo_env_as true) demo_transit (demo_cli 100) 3 (demo_world_as true demo_db) in
  @pg_resolves (demo_env_as true) "kek" demo_db (mkSecretRef 20%N 1%N) "hcloud-token" /\
  @vault_resolves (demo_env_as true) demo_transit "kubinate" (w_db run.2) (mkSecretRef 20%N 1%N) "hcloud-token".
Proof.
  intros run.
  assert (Hp : @pg_resolves (demo_env_as true) "kek" demo_db (mkSecretRef 20%N 1%N) "hcloud-token")
    by (eexists; split; vm_compute; reflexivity).
  split; [exact Hp|].
  assert (Hf : remaining demo_db < Z.of_nat 3) by (vm_compute; reflexivity).
  pose proof (db_run _ _ _ (demo_world_as true demo_db) (@migration_keeps_secrets (demo_env_as true)
    demo_transit (demo_cli 100) 3 demo_db demo_transit_laws eq_refl demo_distinct Hf) eq_refl) as (_ & Hk & _).
  destruct (Hk (mkSecretRef 20%N 1%N) "hcloud-token"%string) as [H _].
  destruct (H Hp) as [(s & Hs & Ho)|Hv]; [exfalso|exact Hv].
  vm_compute in Hs. injection Hs as <-. vm_compute in Ho. discriminate Ho.
Defined.

Lemma migration_counts_witness :
  let run := @migrate (demo_env_as true) demo_transit (demo_cli 100) 3 (demo_world_as true demo_db) in
  run.1 = Ok (Some (mkTally 2 0 0)) /\ remaining (w_db run.2) = 0.
Proof.
  intros run. assert (Hr : run.1 = Ok (Some (mkTally 2 0 0))) by (vm_compute; reflexivity).
  split; [exact Hr|].
  assert (Hf : remaining demo_db < Z.of_nat 3) by (vm_compute; reflexivity).
  assert (Hn : remaining demo_db = 2) by (vm_compute; reflexivity).
  assert (Hbs : 0 < batch_size (demo_cli 100)) by (vm_compute; reflexivity).
  pose proof (db_run _ _ _ (demo_world_as true demo_db) (@migration_counts (demo_env_as true)
    demo_transit (demo_cli 100) 3 demo_db demo_transit_laws eq_refl demo_distinct Hf Hbs) eq_refl) as H.
  fold run in H. rewrite Hr in H. destruct H as (H & _). rewrite Hn in H. cbn [migrated] in H. lia.
Defined.
