(* ===== verification/HetznerClient.v ===== *)
(** The HTTP client of Hetzner Cloud ([crates/integrations/src/hetzner.rs]): each
    call resolves the tenant's token from the secret store, makes one request with
    it, and reads the answer. *)

From stdpp Require Import base gmap strings pretty list.
From S2P Require Import Prelude Errors Integrations Events Schema Database Tables Secrets.

Definition HETZNER_API_BASE : string := "https://api.hetzner.cloud/v1".

(** [CreateServerBody] *)
Record CreateServerBody := mkBody {
  cb_name : string;
  cb_server_type : string;
  cb_location : string;
  cb_image : string;
  cb_ssh_keys : list string;
  cb_user_data : string;
  cb_start_after_create : bool;
  cb_labels : list (string * string);
}.

(** A request with its bearer token, and an answer: its status, its text if it can
    be read, and the [server] of its JSON. *)
Record HetznerRequest := mkRequest {
  hr_method : string;
  hr_url : string;
  hr_bearer : string;
  hr_body : option CreateServerBody;
}.
Record HetznerAnswer := mkHetznerAnswer {
  ha_status : Z;
  ha_text : option string;
  ha_server : option ServerJson;
}.
(** [None] is an error of the transport. *)
Class HetznerHttp := { hetzner_send : nat -> HetznerRequest -> option HetznerAnswer }.

(** A call returns an error, or the task panics. *)
Inductive ClientFault :=
| Failed (e : HetznerError)
| Panicked.

Module HetznerClient.
Section HetznerClient.
Context `{En : Env} `{St : !SecretStore} `{HH : HetznerHttp} (handle : SecretRef).

Definition resolve_token : M World ClientFault string :=
  map_err (fun e => Failed (HCredential e)) (get handle).

(** What the three methods make of an answer. *)
Definition read_answer {A} (read : HetznerAnswer -> result ClientFault A) (o : option HetznerAnswer)
  : result ClientFault A :=
  match o with
  | None => Err (Failed HTransport)
  | Some a =>
      if (200 <=? ha_status a) && (ha_status a <? 300) then read a
      else match truncate (default EmptyString (ha_text a)) 512 with
           | Some body => Err (Failed (HStatus (ha_status a) body))
           | None => Err Panicked
           end
  end.
(** [response.json::<T>()]: a body of another shape is an error of the transport. *)
Definition server_of (a : HetznerAnswer) : result ClientFault ServerJson :=
  match ha_server a with Some s => Ok s | None => Err (Failed HTransport) end.

Definition get_json (path : string) : M World ClientFault ServerJson :=
  token <- resolve_token ;;
  drawing (fun n => lift (read_answer server_of
    (hetzner_send n (mkRequest "GET" (HETZNER_API_BASE +++ path) token None)))).
Definition post_json (path : string) (body : CreateServerBody) : M World ClientFault ServerJson :=
  token <- resolve_token ;;
  drawing (fun n => lift (read_answer server_of
    (hetzner_send n (mkRequest "POST" (HETZNER_API_BASE +++ path) token (Some body))))).
Definition delete_path (path : string) : M World ClientFault unit :=
  token <- resolve_token ;;
  drawing (fun n => lift (read_answer (fun _ => Ok tt)
    (hetzner_send n (mkRequest "DELETE" (HETZNER_API_BASE +++ path) token None)))).

Definition create_body (params : CreateServerParams) : CreateServerBody :=
  mkBody (cp_name params) (cp_server_type params) (cp_location params) "debian-12" [cp_ssh_key params]
    (cp_user_data params) true
    [("kubinate.idempotency_key"%string, uuid_str (cp_idempotency_key params))].
Definition create_server (params : CreateServerParams) : M World ClientFault ServerId :=
  response <- post_json "/servers" (create_body params) ;;
  ret (sj_id response).
Definition get_server (id : ServerId) : M World ClientFault HetznerServer :=
  response <- get_json ("/servers/" +++ pretty id) ;;
  ret (into_view response).
Definition delete_server (id : ServerId) : M World ClientFault unit :=
  delete_path ("/servers/" +++ pretty id).
End HetznerClient.
End HetznerClient.
Export HetznerClient.

(** * What a call comes to *)

Section Laws.
Context `{En : Env} `{St : !SecretStore} `{HSt : !SecretStoreLaws St} `{HH : HetznerHttp}.

(** One request, with the token that the handle resolves to. *)
Definition exchanged {A} (token : string) (request : string -> HetznerRequest)
    (read : HetznerAnswer -> result ClientFault A) (r : result ClientFault A) : Prop :=
  (exists e, store_failure e /\ r = Err (Failed (HCredential e))) \/
  exists n, r = read_answer read (hetzner_send n (request token)).

Lemma client_exchange_law {A} d ref token (request : string -> HetznerRequest)
    (read : HetznerAnswer -> result ClientFault A) :
  resolves d ref token ->
  db_wp d (bind (resolve_token ref) (fun t => drawing (fun n =>
    lift (read_answer read (hetzner_send n (request t))))))
    (fun r d' => d' = d /\ exchanged token request read r).
Proof.
  intros Hres g. tx_step. apply tx_map_err. tx_call get_law. intros r d1 [-> H].
  destruct (H token Hres) as [->|(e & He & ->)]; cbn beta iota delta [result_map_err].
  - apply tx_drawing. intros n. apply tx_lift. split; [done|]. right. by exists n.
  - split; [done|]. left. by exists e.
Qed.

Lemma read_answer_map {A B} (f : A -> B) read o :
  read_answer (fun a => match read a with Ok x => Ok (f x) | Err e => Err e end) o =
  match read_answer read o with Ok x => Ok (f x) | Err e => Err e end.
Proof. unfold read_answer. repeat case_match; congruence. Qed.

Lemma exchange_then {A B} d (m : M World ClientFault A) (f : A -> B) token request read :
  db_wp d m (fun r d' => d' = d /\ exchanged token request read r) ->
  db_wp d (bind m (fun x => ret (f x))) (fun r d' => d' = d /\
    exchanged token request (fun a => match read a with Ok x => Ok (f x) | Err e => Err e end) r).
Proof.
  intros Hm g. tx_step. tx_call Hm. intros r d1 [-> H].
  assert (Hr : exchanged token request (fun a => match read a with Ok x => Ok (f x) | Err e => Err e end)
    match r with Ok x => Ok (f x) | Err e => Err e end).
  { destruct H as [(e & He & ->)|(n & ->)]; [left; by exists e|right; exists n].
    by rewrite read_answer_map. }
  destruct r; [tx_step|]; by split.
Qed.
End Laws.

Lemma truncate_length s n t : truncate s n = Some t -> (String.length t <= n + 3)%nat.
Proof.
  unfold truncate. destruct (Nat.leb_spec (String.length s) n); [intros [= <-]; lia|].
  unfold slice_to. destruct (String.get n s) as [c|] eqn:Eg.
  - destruct (is_continuation c); [done|]. intros [= <-]. clear.
    assert (H : (String.length (String.substring 0 n s) <= n)%nat).
    { revert n. induction s as [|a s IH]; intros [|n]; simpl; try lia. specialize (IH n). lia. }
    assert (Ha : forall u v, String.length (u +++ v) = (String.length u + String.length v)%nat)
      by (induction u as [|a u IH]; intros v; simpl; [done|by rewrite IH]).
    rewrite Ha. simpl. lia.
  - intros [= <-]. exfalso. revert n H Eg. induction s as [|a s IH]; intros [|n] Hn Eg; simpl in *; try lia; [done|].
    apply (IH n); [lia|done].
Qed.

(** * Properties *)

Section Properties.
Context `{En : Env} `{St : !SecretStore} `{HH : HetznerHttp}.

Lemma exchanged_short {A} token request (read : HetznerAnswer -> result ClientFault A) r status body :
  (forall a status body, read a = Err (Failed (HStatus status body)) -> False) ->
  exchanged token request read r -> r = Err (Failed (HStatus status body)) ->
  (String.length body <= 515)%nat.
Proof.
  intros Hread [(e & _ & ->)|(n & ->)]; [done|]. unfold read_answer.
  destruct (hetzner_send _ _) as [a|]; [|done]. destruct (_ && _); [intros H; by apply Hread in H|].
  destruct (truncate _ _) as [t|] eqn:Et; [|done]. intros [= _ <-]. by apply truncate_length in Et.
Qed.

(** The error text of a refusal is cut. *)
Definition cut_short {A} (r : result ClientFault A) : Prop :=
  forall status body, r = Err (Failed (HStatus status body)) -> (String.length body <= 515)%nat.

Definition created (a : HetznerAnswer) : result ClientFault ServerId :=
  match server_of a with Ok s => Ok (sj_id s) | Err e => Err e end.
Definition viewed (a : HetznerAnswer) : result ClientFault HetznerServer :=
  match server_of a with Ok s => Ok (into_view s) | Err e => Err e end.

End Properties.

(** * A concrete client *)

Definition demo_hetzner : HetznerHttp := {|
  hetzner_send _ req := Some
    (if String.eqb (hr_method req) "POST"
     then mkHetznerAnswer 201 None (Some (mkServerJson 42 "initializing" None []))
     else mkHetznerAnswer 404 (Some "server not found") None);
|}%string.


(** An error text that has a character across its 512th byte: cutting it panics, so
    the task of the run ends without a result. *)
Fixpoint repeated (n : nat) (s : string) : string :=
  match n with O => EmptyString | S n' => s +++ repeated n' s end.
Definition long_text : string := repeated 511 "x" +++ repeated 8 (bytes [195; 169]%nat).
Theorem error_text_panics :
  utf8_valid long_text = true /\
  read_answer server_of (Some (mkHetznerAnswer 422 (Some long_text) None)) = Err Panicked.
Proof. vm_compute. auto. Qed.
