(* ===== verification/Safety.v ===== *)
(** What every tenant-scoped operation of the repositories keeps, whatever its
    outcome ([safe]): the rows of the other tenants, the entries already in the
    audit log, and the links of its hash chain.  [keeps] is the judgement, with
    a hint database that proves it for a composition of statements. *)

From stdpp Require Import base gmap strings list.
From S2P Require Import Prelude Errors Integrations Events Schema Database Tables Secrets.

(** * The two-state invariant *)

Section Safe.
Context `{En : Env}.

(** The database without the rows of the tenant [org]. *)
Definition others (org : Uuid) (d : DB) : DB :=
  let keep {A} (tenant : A -> Uuid) (l : list A) :=
    List.filter (fun r => negb (bool_decide (tenant r = org))) l in
  mkDB (keep cl_organization_id (db_clusters d)) (keep sv_organization_id (db_servers d))
    (keep wf_organization_id (db_workflows d)) (keep se_organization_id (db_secrets d))
    (keep hc_organization_id (db_credentials d)) (keep ad_organization_id (db_addons d))
    (keep og_id (db_orgs d)) (db_sub_events d) (db_users d)
    (keep mb_organization_id (db_memberships d)) (keep iv_organization_id (db_invites d))
    (db_sessions d) (db_passkeys d) (db_recovery d)
    (keep ik_organization_id (db_idempotency d))
    (keep ak_organization_id (db_api_keys d)) (keep au_organization_id (db_audit d))
    (db_ceremonies d) (db_auth_states d) (db_identities d).

(** Every entry was appended by the trigger: it carries the hash of the
    tenant's latest entry at that moment, and the hash of its own content. *)
Inductive chained : list AuditEntry -> Prop :=
| chained_nil : chained []
| chained_snoc log e :
    chained log ->
    au_prev_hash e = au_hash <$> audit_tail (au_organization_id e) log ->
    au_hash e = sha256 (audit_hash_input (au_prev_hash e) (au_organization_id e)
                          (au_action e) (au_resource_type e) (au_resource_id e)) ->
    chained (log ++ [e]).

Record safe (org : Uuid) (d d' : DB) : Prop := mkSafe {
  safe_others : others org d' = others org d;
  safe_audit : exists es, db_audit d' = db_audit d ++ es /\
    Forall (fun e => au_organization_id e = org) es;
  safe_chain : chained (db_audit d) -> chained (db_audit d');
}.

#[export] Instance safe_preorder org : PreOrder (safe org).
Proof.
  split.
  - intros d. constructor; [done| |done]. exists []. by rewrite app_nil_r.
  - intros d1 d2 d3 [Ho (es & He & Hf) Hc] [Ho' (es' & He' & Hf') Hc'].
    constructor; [congruence| |auto].
    exists (es ++ es'). rewrite He', He, app_assoc. split; [done|]. by apply Forall_app.
Qed.

(** Writing rows of [org] in a table under the tenant policy. *)
Class TenantRows (R : Type) `{!Table R} `{!TenantTable R} : Prop :=
  others_set_rows org (l : list R) d :
    List.filter (fun r => negb (bool_decide (tenant_of r = org))) l =
    List.filter (fun r => negb (bool_decide (tenant_of r = org))) (rows d) ->
    others org (set_rows l d) = others org d.

Lemma others_audit org d es :
  Forall (fun e => au_organization_id e = org) es ->
  others org (set_audit (db_audit d ++ es) d) = others org d.
Proof.
  intros Hes. unfold others. destruct d. simpl. f_equal.
  rewrite filter_app_list, (filter_false_in _ es), app_nil_r; [done|].
  intros e He. rewrite Forall_forall in Hes. apply list_elem_of_In in He.
  by rewrite bool_decide_true by auto.
Qed.

Section Table.
Context {R : Type} `{!Table R} `{!TableLaws R} `{!PlainTable R} `{!TenantTable R} `{!TenantRows R}.

Lemma audit_entries_org g t op (rs : list R) log org :
  Forall (fun r => tenant_of r = org) rs ->
  Forall (fun e => au_organization_id e = org) (audit_entries g t op rs log).
Proof.
  intros Hrs. revert t log. induction Hrs as [|r rs Hr Hrs IH]; intros t log; simpl; [done|].
  destruct row_audited as [tbl|]; [|done]. constructor; [|apply IH].
  simpl. by rewrite row_tenant_of.
Qed.

Lemma audit_entries_chained g t op (rs : list R) log :
  chained log -> chained (log ++ audit_entries g t op rs log).
Proof.
  revert t log. induction rs as [|r rs IH]; intros t log Hl; simpl; [by rewrite app_nil_r|].
  destruct row_audited as [tbl|]; [|by rewrite app_nil_r].
  rewrite cons_middle, app_assoc. apply IH. by constructor.
Qed.

(** The rows of [org] replaced, the trigger run for rows of [org]. *)
Lemma safe_write org g t op (rs : list R) l d :
  Forall (fun r => tenant_of r = org) rs ->
  List.filter (fun r => negb (bool_decide (tenant_of r = org))) l =
  List.filter (fun r => negb (bool_decide (tenant_of r = org))) (rows d) ->
  safe org d (after_rows g t op rs (set_rows l d)).
Proof.
  intros Hrs Hl. rewrite after_rows_plain, audit_set_rows.
  pose proof (audit_entries_org g t op rs (db_audit d) org Hrs) as He.
  assert (Ha : db_audit (set_audit (db_audit d ++ audit_entries g t op rs (db_audit d))
                           (set_rows l d)) =
               db_audit d ++ audit_entries g t op rs (db_audit d))
    by by destruct (set_rows l d).
  constructor.
  - rewrite <- (audit_set_rows l d). rewrite others_audit by by rewrite audit_set_rows.
    by apply others_set_rows.
  - eauto.
  - rewrite Ha. apply audit_entries_chained.
Qed.

Context (org : Uuid) (g : Guc) (Hg : g_tenant g = org) (Hb : bypass_rls = false).

Lemma visible_tenant (r : R) : visible g r = bool_decide (tenant_of r = org).
Proof. unfold visible. by rewrite row_tenant_of, Hb, Hg. Qed.

Lemma safe_update t (p : Z -> R -> bool) f d :
  (forall now r, tenant_of (f now r) = tenant_of r) ->
  safe org d (update_db t g p f d).
Proof.
  intros Hf. assert (Hnew : forall r, tenant_of (update_new g f r) = tenant_of r).
  { intros r. unfold update_new.
    pose proof (row_touch_tenant (g_now g) r (f (g_now g) r)) as Ht.
    rewrite !row_tenant_of in Ht. injection Ht as Ht. by rewrite Ht. }
  assert (Hhit : forall r, update_hit g p r = true -> tenant_of r = org).
  { intros r. unfold update_hit. rewrite visible_tenant.
    intros [H _]%andb_true_iff. by apply bool_decide_eq_true in H. }
  apply safe_write.
  - unfold update_hits. apply Forall_forall. intros r Hr. apply list_elem_of_In in Hr.
    apply in_map_iff in Hr as (x & <- & Hx). apply filter_In in Hx as [_ Hx].
    rewrite Hnew. by apply Hhit.
  - apply filter_update_rows_other. intros x Hx. rewrite Hnew.
    by rewrite (bool_decide_true _ (Hhit x Hx)).
Qed.

Lemma safe_insert t (r : R) d : insert_error g r d = None -> safe org d (insert_db t g r d).
Proof.
  intros (Hv & _ & _)%insert_error_none. rewrite visible_tenant in Hv.
  apply bool_decide_eq_true in Hv. apply safe_write; [by repeat constructor|].
  rewrite filter_app_list. simpl. rewrite bool_decide_true by done. simpl. by rewrite app_nil_r.
Qed.

Lemma safe_delete t (p : Z -> R -> bool) d : safe org d (delete_db t g p d).
Proof.
  assert (Hhit : forall r, update_hit g p r = true -> tenant_of r = org).
  { intros r. unfold update_hit. rewrite visible_tenant.
    intros [H _]%andb_true_iff. by apply bool_decide_eq_true in H. }
  apply safe_write.
  - unfold delete_hits. apply Forall_forall. intros r Hr. apply list_elem_of_In in Hr.
    apply filter_In in Hr as [_ Hr]. by apply Hhit.
  - induction (rows d) as [|r l IH]; simpl; [done|].
    destruct (update_hit g p r) eqn:E; simpl; [by rewrite bool_decide_true by auto|].
    by rewrite IH.
Qed.
End Table.
End Safe.

Section SafeInstances.
Context `{En : Env}.
Ltac tenant_rows := intros org l d Hl; unfold others; destruct d; simpl in *; by rewrite Hl.
#[export] Instance ClusterTable_rows : TenantRows Cluster.
Proof. tenant_rows. Qed.
#[export] Instance ServerTable_rows : TenantRows ClusterServer.
Proof. tenant_rows. Qed.
#[export] Instance WorkflowTable_rows : TenantRows WorkflowRow.
Proof. tenant_rows. Qed.
#[export] Instance SecretTable_rows : TenantRows SecretRow.
Proof. tenant_rows. Qed.
#[export] Instance AddonTable_rows : TenantRows ClusterAddon.
Proof. tenant_rows. Qed.
End SafeInstances.

(** * Compositions of statements *)

Section Keeps.
Context `{En : Env} (org : Uuid).

Definition tx_keeps {E A} (g : Guc) (m : M World E A) : Prop :=
  forall d, tx_wp g d m (fun _ d' => safe org d d').
Definition keeps {E A} (m : M World E A) : Prop :=
  forall d, db_wp d m (fun _ d' => safe org d d').

Lemma keeps_tx {E A} g (m : M World E A) : keeps m -> tx_keeps g m.
Proof. intros Hm d. apply Hm. Qed.

Lemma tx_keeps_ret {E A} g (a : A) : tx_keeps g (ret a : M World E A).
Proof. intros d. apply tx_ret. reflexivity. Qed.
Lemma tx_keeps_throw {E A} g (e : E) : tx_keeps g (throw e : M World E A).
Proof. intros d. apply tx_throw. reflexivity. Qed.
Lemma tx_keeps_lift {E A} g (r : result E A) : tx_keeps g (lift r).
Proof. intros d. apply tx_lift. reflexivity. Qed.

Lemma tx_keeps_bind {E A B} g (m : M World E A) (k : A -> M World E B) :
  tx_keeps g m -> (forall a, tx_keeps g (k a)) -> tx_keeps g (bind m k).
Proof.
  intros Hm Hk d. apply tx_bind. tx_call Hm. intros [a|e] d1 H1; [|done].
  tx_call (Hk a). intros r d2 H2. by etrans.
Qed.

Lemma tx_keeps_map_err {E F A} g (f : E -> F) (m : M World E A) :
  tx_keeps g m -> tx_keeps g (map_err f m).
Proof. intros Hm d. apply tx_map_err, Hm. Qed.
Lemma tx_keeps_attempt {E F A} g (m : M World E A) :
  tx_keeps g m -> tx_keeps g (attempt m : M World F _).
Proof. intros Hm d. apply tx_attempt, Hm. Qed.
Lemma tx_keeps_ignore {E F A} g (m : M World E A) :
  tx_keeps g m -> tx_keeps g (ignore m : M World F unit).
Proof. intros Hm d. apply tx_ignore. tx_call Hm. auto. Qed.
Lemma tx_keeps_ticked {E A} g (h : nat -> A) :
  tx_keeps g ((fun w => (Ok (h (w_tick w)), tick w)) : M World E A).
Proof. intros d. apply tx_ticked. reflexivity. Qed.

Lemma keeps_all {E A} (m : M World E A) : (forall g, tx_keeps g m) -> keeps m.
Proof. intros Hm d g. apply Hm. Qed.

Lemma keeps_tenant_tx {E A} `{!FromDb E} audit (body : M World E A) :
  (forall g, g_tenant g = org -> tx_keeps g body) -> keeps (tenant_tx org audit body).
Proof.
  intros Hbody d. apply db_tenant_tx; [reflexivity|]. intros now. tx_call Hbody.
  - by destruct audit.
  - intros [a|e] d' Hd'; [done|reflexivity].
Qed.

Section Table.
Context {R : Type} `{!Table R} `{!TableLaws R} `{!PlainTable R} `{!TenantTable R} `{!TenantRows R}.
Context (Hb : bypass_rls = false).

Lemma tx_keeps_select {E} `{!FromDb E} g (p : Z -> R -> bool) : tx_keeps g (sql (select p) : M World E _).
Proof. intros d. apply tx_map_err, tx_select; reflexivity. Qed.
Lemma tx_keeps_select_db g (p : Z -> R -> bool) : tx_keeps g (select p).
Proof. intros d. apply tx_select; reflexivity. Qed.

Lemma tx_keeps_update_chk g chk (p : Z -> R -> bool) f :
  g_tenant g = org -> (forall now r, tenant_of (f now r) = tenant_of r) ->
  tx_keeps g (update_chk chk p f).
Proof.
  intros Hg Hf d. apply tx_update_chk; [reflexivity|reflexivity|].
  intros _ t. by apply safe_update.
Qed.
Lemma tx_keeps_update g (p : Z -> R -> bool) f :
  g_tenant g = org -> (forall now r, tenant_of (f now r) = tenant_of r) ->
  tx_keeps g (update p f).
Proof. apply tx_keeps_update_chk. Qed.
Lemma tx_keeps_insert g (mk : Z -> R) : g_tenant g = org -> tx_keeps g (insert mk).
Proof.
  intros Hg d. apply tx_insert; [reflexivity|reflexivity|]. intros He t. by apply safe_insert.
Qed.
Lemma tx_keeps_insert_or_ignore g on (mk : Z -> R) :
  g_tenant g = org -> tx_keeps g (insert_or_ignore on mk).
Proof.
  intros Hg d. apply tx_insert_or_ignore; try reflexivity. intros He t. by apply safe_insert.
Qed.
Lemma tx_keeps_delete g (p : Z -> R -> bool) : g_tenant g = org -> tx_keeps g (delete p).
Proof.
  intros Hg d. apply tx_delete; [reflexivity|reflexivity|]. intros _ t. by apply safe_delete.
Qed.
End Table.

(** A secret store that meets its contract only touches the tenant's rows. *)
Lemma safe_set_secrets l d :
  List.filter (fun s => negb (bool_decide (se_organization_id s = org))) l =
  List.filter (fun s => negb (bool_decide (se_organization_id s = org))) (db_secrets d) ->
  safe org d (set_secrets l d).
Proof.
  intros Hl. constructor.
  - by apply (others_set_rows (R := SecretRow)).
  - exists []. rewrite app_nil_r. split; [by destruct d|done].
  - by destruct d.
Qed.

Context `{St : !SecretStore} `{HSt : !SecretStoreLaws St}.

Lemma keeps_put plaintext : keeps (put org plaintext).
Proof.
  intros d. eapply db_mono; [apply put_law|]. intros [ref|e] d'; [|by intros ->].
  intros (Hro & _ & row & Hrow & -> & _). apply safe_set_secrets.
  apply andb_true_iff in Hrow as [Ho _]. apply bool_decide_eq_true in Ho.
  rewrite filter_app_list. simpl. rewrite bool_decide_true by congruence. simpl. by rewrite app_nil_r.
Qed.

Lemma keeps_get ref : keeps (get ref).
Proof. intros d. eapply db_mono; [apply get_law|]. by intros r d' [-> _]. Qed.

Lemma keeps_delete_secret ref :
  sr_organization_id ref = org -> keeps (delete_secret ref).
Proof.
  intros Hr d. eapply db_mono; [apply delete_law|]. intros [u|e] d'; intros ->; [|reflexivity].
  apply safe_set_secrets. induction (db_secrets d) as [|s l IH]; simpl; [done|].
  unfold own_secret at 1. rewrite Hr.
  destruct (bool_decide (se_organization_id s = org)) eqn:E; simpl; rewrite ?E; simpl; [|by rewrite IH].
  destruct (bool_decide (se_id s = sr_id ref)); simpl; [done|]. by rewrite E.
Qed.
End Keeps.

Create HintDb keeps discriminated.
#[export] Hint Resolve tx_keeps_ret tx_keeps_throw tx_keeps_lift tx_keeps_bind tx_keeps_map_err
  tx_keeps_attempt tx_keeps_ignore keeps_tx tx_keeps_select tx_keeps_select_db tx_keeps_update_chk
  tx_keeps_update tx_keeps_insert tx_keeps_insert_or_ignore tx_keeps_delete keeps_put keeps_get
  keeps_delete_secret : keeps.
#[export] Hint Extern 1 (keeps _ (tenant_tx _ _ _)) => apply keeps_tenant_tx; intros : keeps.
#[export] Hint Extern 1 (tx_keeps _ _ (sql _)) => apply tx_keeps_map_err : keeps.
#[export] Hint Extern 1 (tx_keeps _ _ now_v7) => apply (tx_keeps_ticked _ _ rand_uuid) : keeps.
#[export] Hint Extern 2 (tx_keeps _ _ (match ?x with _ => _ end)) => destruct x : keeps.
#[export] Hint Extern 1 (@eq _ _ _) => reflexivity : keeps.
#[export] Hint Extern 1 (TableLaws _) => typeclasses eauto : keeps.
#[export] Hint Extern 1 (PlainTable _) => typeclasses eauto : keeps.
#[export] Hint Extern 1 (TenantRows _) => typeclasses eauto : keeps.
#[export] Hint Extern 1 (SecretStoreLaws _) => typeclasses eauto : keeps.
(** Prove [keeps] of an operation, unfolded, made of statements and operations
    already treated. *)
Ltac keeps_op := apply keeps_all; intros; by eauto 30 with keeps.
