(* ===== verification/Cluster.v ===== *)
(** The cluster context ([crates/cluster/src]): the repository over the tables
    [clusters] and [cluster_servers] ([repository.rs]), the use-cases
    ([service.rs]) over any secret store, and the categories a failure is shown
    as ([status.rs]). *)

From stdpp Require Import base gmap strings list pretty.
From S2P Require Import Prelude Errors Integrations Events Schema Database Tables Secrets Safety.

(** [model.rs: NewCluster] *)
Record NewCluster := mkNewCluster {
  nc_name : string;
  nc_region : string;
  nc_server_type : string;
  nc_control_plane_count : Z;
  nc_worker_count : Z;
  nc_credential_id : Uuid;
}.

(** * Status categories ([status.rs]) *)

Inductive ErrorCategory :=
| ProviderError | NetworkError | BootTimeout | InstallationError | UnknownError.
#[export] Instance ErrorCategory_eq_dec : EqDecision ErrorCategory.
Proof. solve_decision. Defined.

(** [ErrorCategory::as_str] *)
Definition category_str (c : ErrorCategory) : string :=
  match c with
  | ProviderError => "provider_error"
  | NetworkError => "network_error"
  | BootTimeout => "boot_timeout"
  | InstallationError => "installation_error"
  | UnknownError => "unknown"
  end.

(** [status.rs: error_category] *)
Definition error_category (status : ClusterStatus) (reason : option string) : option ErrorCategory :=
  if bool_decide (status <> Failed) then None
  else
    let reason := to_ascii_lowercase (default EmptyString reason) in
    if starts_with "hetzner:" reason then
      if contains "401" reason || contains "403" reason
         || contains "quota" reason || contains "forbidden" reason
      then Some ProviderError
      else if contains "429" reason || contains "502" reason || contains "503" reason
              || contains "504" reason || contains "transport" reason || contains "timeout" reason
      then Some NetworkError
      else Some ProviderError
    else if starts_with "ssh:" reason then Some InstallationError
    else if contains "cloud-init" reason || contains "cloudinittimeout" reason
    then Some BootTimeout
    else Some UnknownError.

(** * Repository ([repository.rs]) *)

Definition cluster_not_found `{En : Env} (id : Uuid) : PlatformError :=
  NotFound ("cluster/" +++ uuid_str id).

Definition live_cluster (id : Uuid) (c : Cluster) : bool :=
  bool_decide (cl_id c = id) && is_none (cl_deleted_at c).
Definition live_server (cluster_id : Uuid) (s : ClusterServer) : bool :=
  bool_decide (sv_cluster_id s = cluster_id) && is_none (sv_deleted_at s).

Definition with_status (status : ClusterStatus) (reason : option string) (c : Cluster) : Cluster :=
  mkCluster (cl_id c) (cl_organization_id c) (cl_credential_id c) (cl_name c) (cl_region c)
    (cl_server_type c) (cl_control_plane_count c) (cl_worker_count c) status reason
    (cl_created_at c) (cl_updated_at c) (cl_version c) (cl_agent_last_seen_at c)
    (cl_agent_version c) (cl_kubeconfig_secret_id c) (cl_deleted_at c).
Definition with_worker_count (n : Z) (c : Cluster) : Cluster :=
  mkCluster (cl_id c) (cl_organization_id c) (cl_credential_id c) (cl_name c) (cl_region c)
    (cl_server_type c) (cl_control_plane_count c) n (cl_status c) (cl_status_reason c)
    (cl_created_at c) (cl_updated_at c) (cl_version c) (cl_agent_last_seen_at c)
    (cl_agent_version c) (cl_kubeconfig_secret_id c) (cl_deleted_at c).
Definition with_kubeconfig (secret : Uuid) (c : Cluster) : Cluster :=
  mkCluster (cl_id c) (cl_organization_id c) (cl_credential_id c) (cl_name c) (cl_region c)
    (cl_server_type c) (cl_control_plane_count c) (cl_worker_count c) (cl_status c)
    (cl_status_reason c) (cl_created_at c) (cl_updated_at c) (cl_version c)
    (cl_agent_last_seen_at c) (cl_agent_version c) (Some secret) (cl_deleted_at c).
Definition with_heartbeat (now : Z) (version : string) (c : Cluster) : Cluster :=
  mkCluster (cl_id c) (cl_organization_id c) (cl_credential_id c) (cl_name c) (cl_region c)
    (cl_server_type c) (cl_control_plane_count c) (cl_worker_count c) (cl_status c)
    (cl_status_reason c) (cl_created_at c) (cl_updated_at c) (cl_version c)
    (Some now) version (cl_kubeconfig_secret_id c) (cl_deleted_at c).
Definition with_deleted (now : Z) (c : Cluster) : Cluster :=
  mkCluster (cl_id c) (cl_organization_id c) (cl_credential_id c) (cl_name c) (cl_region c)
    (cl_server_type c) (cl_control_plane_count c) (cl_worker_count c) (cl_status c)
    (cl_status_reason c) (cl_created_at c) (cl_updated_at c) (cl_version c)
    (cl_agent_last_seen_at c) (cl_agent_version c) (cl_kubeconfig_secret_id c) (Some now).
Definition server_deleted (now : Z) (s : ClusterServer) : ClusterServer :=
  mkClusterServer (sv_id s) (sv_organization_id s) (sv_cluster_id s) (sv_hetzner_server_id s)
    (sv_role s) (sv_public_ipv4 s) (sv_private_ipv4 s) (sv_created_at s) (Some now).

(** The row an INSERT of a [NewCluster] writes: the columns given and the
    defaults of the table. *)
Definition new_cluster_row (id org : Uuid) (new : NewCluster) (now : Z) : Cluster :=
  mkCluster id org (nc_credential_id new) (nc_name new) (nc_region new) (nc_server_type new)
    (nc_control_plane_count new) (nc_worker_count new) Pending None now now 1 None EmptyString
    None None.

(** [repository.rs: map_conflict] *)
Definition map_conflict (e : DbError) : PlatformError :=
  if is_unique_violation e then Conflict "a cluster with this name already exists" else Database e.

Definition role_leb (a b : ClusterNodeRole) : bool :=
  match a, b with Worker, ControlPlane => false | _, _ => true end.
(** [ORDER BY role ASC, created_at ASC] *)
Definition server_leb (a b : ClusterServer) : bool :=
  if bool_decide (sv_role a = sv_role b) then sv_created_at a <=? sv_created_at b
  else role_leb (sv_role a) (sv_role b).

Module ClusterRepository.
Section ClusterRepository.
Context `{En : Env}.

Definition require_some_row {A} (e : PlatformError) (hits : list A) : M World PlatformError unit :=
  match hits with [] => throw e | _ => ret tt end.

Definition insert_cluster (organization_id : Uuid) (new : NewCluster) (audit : AuditContext)
  : M World PlatformError Cluster :=
  id <- now_v7 ;;
  tenant_tx organization_id (Some audit)
    (if nc_control_plane_count new <? 1
     then throw (Invalid "control_plane_count must be >= 1")
     else if negb ((1 <=? nc_worker_count new) && (nc_worker_count new <=? 50))
     then throw (Invalid "worker_count must be between 1 and 50")
     else map_err map_conflict (insert (new_cluster_row id organization_id new))).

Definition get_cluster (organization_id id : Uuid) : M World PlatformError Cluster :=
  rows <- tenant_tx organization_id None (sql (select (fun _ => live_cluster id))) ;;
  match rows with
  | c :: _ => ret c
  | [] => throw (cluster_not_found id)
  end.

Definition set_kubeconfig_secret (organization_id cluster_id secret_id : Uuid)
    (audit : AuditContext) : M World PlatformError unit :=
  hits <- tenant_tx organization_id (Some audit)
    (sql (update_chk
      (fun db _ => if secret_exists db secret_id then None else Some DbForeignKey)
      (fun _ c => live_cluster cluster_id c
                  && (is_none (cl_kubeconfig_secret_id c)
                      || bool_decide (cl_kubeconfig_secret_id c = Some secret_id)))
      (fun _ => with_kubeconfig secret_id))) ;;
  require_some_row (Conflict "kubeconfig already set to a different secret") hits.

Definition kubeconfig_secret (organization_id cluster_id : Uuid)
  : M World PlatformError (option Uuid) :=
  rows <- tenant_tx organization_id None (sql (select (fun _ => live_cluster cluster_id))) ;;
  match rows with
  | c :: _ => ret (cl_kubeconfig_secret_id c)
  | [] => throw (cluster_not_found cluster_id)
  end.

Definition update_status (organization_id cluster_id : Uuid) (status : ClusterStatus)
    (reason : option string) (audit : AuditContext) : M World PlatformError unit :=
  hits <- tenant_tx organization_id (Some audit)
    (sql (update (fun _ c => bool_decide (cl_id c = cluster_id))
            (fun _ => with_status status reason))) ;;
  require_some_row (cluster_not_found cluster_id) hits.

(** The table's CHECK on [worker_count] bounds the new value. *)
Definition update_worker_count (organization_id cluster_id : Uuid) (worker_count : Z)
    (audit : AuditContext) : M World PlatformError unit :=
  hits <- tenant_tx organization_id (Some audit)
    (sql (update_chk
      (fun _ c => if (1 <=? cl_worker_count c) && (cl_worker_count c <=? 50)
                  then None else Some DbCheck)
      (fun _ c => bool_decide (cl_id c = cluster_id))
      (fun _ => with_worker_count worker_count))) ;;
  require_some_row (cluster_not_found cluster_id) hits.

(** The SQL function [touch_cluster_agent_heartbeat] runs with the rights of
    its owner, outside the tenant policy; a scalar function that updates no
    row returns NULL, which does not decode as a [Uuid]. *)
Definition touch_agent_heartbeat (cluster_id : Uuid) (agent_version : string)
  : M World PlatformError (option Uuid) :=
  on_pool (stmt (fun w =>
    let g := w_guc w in
    let new c := cluster_touch (g_now g) c (with_heartbeat (g_now g) agent_version c) in
    let hits := map new (List.filter (live_cluster cluster_id) (db_clusters (w_db w))) in
    match hits with
    | [] => (Err DbDecode, w)
    | c :: _ =>
        (Ok (Some (cl_organization_id c)),
         set_tick (w_tick w + length hits)%nat
           (set_db (after_rows g (w_tick w) ".updated" hits
                      (set_rows (update_rows (live_cluster cluster_id) new
                                   (db_clusters (w_db w))) (w_db w))) w))
    end)).

Definition soft_delete (organization_id cluster_id : Uuid) (audit : AuditContext)
  : M World PlatformError unit :=
  tenant_tx organization_id (Some audit)
    (sql (update (fun _ => live_cluster cluster_id) with_deleted)) ;;;
  ret tt.

(** [ORDER BY created_at DESC] *)
Definition list_clusters (organization_id : Uuid) : M World PlatformError (list Cluster) :=
  rows <- tenant_tx organization_id None
    (sql (select (fun _ c => is_none (cl_deleted_at c)))) ;;
  ret (sort_by (fun a b => cl_created_at b <=? cl_created_at a) rows).

(** [$6::inet], NULL included. *)
Definition to_inet (ip : option string) : M World DbError (option string) :=
  match ip with
  | None => ret None
  | Some s => match inet_text s with
              | Some t => ret (Some t)
              | None => throw (DbMessage "invalid input syntax for type inet")
              end
  end.

Definition record_server (organization_id cluster_id : Uuid) (hetzner_server_id : Z)
    (role : ClusterNodeRole) (public_ipv4 private_ipv4 : option string) (audit : AuditContext)
  : M World PlatformError unit :=
  id <- now_v7 ;;
  tenant_tx organization_id (Some audit)
    (sql (pub <- to_inet public_ipv4 ;;
          priv <- to_inet private_ipv4 ;;
          insert_or_ignore
            (fun new s => (sv_hetzner_server_id s =? sv_hetzner_server_id new)
                          && is_none (sv_deleted_at s))
            (fun now => mkClusterServer id organization_id cluster_id hetzner_server_id role
                          pub priv now None))) ;;;
  ret tt.

Definition list_servers (organization_id cluster_id : Uuid)
  : M World PlatformError (list ClusterServer) :=
  rows <- tenant_tx organization_id None (sql (select (fun _ => live_server cluster_id))) ;;
  ret (sort_by server_leb rows).

Definition soft_delete_servers (organization_id cluster_id : Uuid) (audit : AuditContext)
  : M World PlatformError unit :=
  tenant_tx organization_id (Some audit)
    (sql (update (fun _ => live_server cluster_id) server_deleted)) ;;;
  ret tt.
End ClusterRepository.
End ClusterRepository.
Export ClusterRepository.

(** * Use-cases ([service.rs]) *)

Definition ALLOWED_REGIONS : list string := ["nbg1"; "fsn1"; "hel1"; "ash"; "hil"]%string.
Definition ALLOWED_SERVER_TYPES : list string :=
  ["cpx11"; "cpx21"; "cpx31"; "cpx41"; "ccx13"; "ccx23"]%string.

Definition ha_message : string :=
  "control_plane_count must be 1 — HA control-plane delivery is deferred to Phase 4+ (see ADR-0012). Revisit triggers: a data-residency customer that requires multi-region, or Hetzner shipping a managed etcd / Cluster API offering.".

(** [service.rs: validate_allowed] *)
Definition validate_allowed (new : NewCluster) : result PlatformError unit :=
  if String.eqb (trim (nc_name new)) EmptyString then Err (Invalid "name must not be empty")
  else if negb (existsb (String.eqb (nc_region new)) ALLOWED_REGIONS)
  then Err (Invalid ("region '" +++ nc_region new +++ "' is not on the allowlist"))
  else if negb (existsb (String.eqb (nc_server_type new)) ALLOWED_SERVER_TYPES)
  then Err (Invalid ("server_type '" +++ nc_server_type new +++ "' is not on the allowlist"))
  else if negb (nc_control_plane_count new =? 1) then Err (Invalid ha_message)
  else if negb ((1 <=? nc_worker_count new) && (nc_worker_count new <=? 10))
  then Err (Invalid "worker_count must be between 1 and 10")
  else Ok tt.

Module ClusterService.
Section ClusterService.
Context `{En : Env} `{St : !SecretStore}.

Definition create (organization_id : Uuid) (new : NewCluster) (audit : AuditContext)
  : M World PlatformError Cluster :=
  lift (validate_allowed new) ;;;
  insert_cluster organization_id new audit.

Definition store_kubeconfig (organization_id cluster_id : Uuid) (kubeconfig : string)
    (audit : AuditContext) : M World PlatformError unit :=
  secret_ref <- map_err Secret (put organization_id kubeconfig) ;;
  r <- attempt (set_kubeconfig_secret organization_id cluster_id (sr_id secret_ref) audit) ;;
  match r with
  | Ok tt => ret tt
  | Err err => ignore (delete_secret secret_ref) ;;; throw err
  end.

Definition fetch_kubeconfig (organization_id cluster_id : Uuid) : M World PlatformError string :=
  secret_id <- kubeconfig_secret organization_id cluster_id ;;
  match secret_id with
  | None => throw (NotFound ("kubeconfig for cluster/" +++ uuid_str cluster_id
                               +++ " not yet available"))
  | Some id => map_err Secret (get (mkSecretRef id organization_id))
  end.

Definition begin_destroy (organization_id cluster_id : Uuid) (audit : AuditContext)
  : M World PlatformError Cluster :=
  cluster <- get_cluster organization_id cluster_id ;;
  if bool_decide (cl_status cluster = Destroyed)
  then throw (Conflict "cluster is already destroyed")
  else update_status organization_id cluster_id Destroying None audit ;;; ret cluster.

Definition finalize_destroy (organization_id cluster_id : Uuid) (audit : AuditContext)
  : M World PlatformError unit :=
  secret_id <- kubeconfig_secret organization_id cluster_id ;;
  match secret_id with
  | Some id => ignore (delete_secret (mkSecretRef id organization_id))
  | None => ret tt
  end ;;;
  soft_delete organization_id cluster_id audit ;;;
  update_status organization_id cluster_id Destroyed None audit.

Definition mark_destroy_failed (organization_id cluster_id : Uuid) (reason : string)
    (audit : AuditContext) : M World PlatformError unit :=
  update_status organization_id cluster_id Failed (Some reason) audit.
End ClusterService.
End ClusterService.
Export ClusterService.

(** * Tenant safety *)

Section TenantSafety.
Context `{En : Env} `{St : !SecretStore} `{HSt : !SecretStoreLaws St}.
Context (org : Uuid) (Hb : bypass_rls = false).

Lemma require_some_row_keeps {A} g e (l : list A) : tx_keeps org g (require_some_row e l).
Proof. unfold require_some_row. by eauto with keeps. Qed.
#[local] Hint Resolve require_some_row_keeps : keeps.

Lemma insert_cluster_keeps new audit : keeps org (insert_cluster org new audit).
Proof. unfold insert_cluster. keeps_op. Qed.
Lemma get_cluster_keeps id : keeps org (get_cluster org id).
Proof. unfold get_cluster. keeps_op. Qed.
Lemma set_kubeconfig_secret_keeps id secret audit :
  keeps org (set_kubeconfig_secret org id secret audit).
Proof. unfold set_kubeconfig_secret. keeps_op. Qed.
Lemma kubeconfig_secret_keeps id : keeps org (kubeconfig_secret org id).
Proof. unfold kubeconfig_secret. keeps_op. Qed.
Lemma update_status_keeps id st reason audit : keeps org (update_status org id st reason audit).
Proof. unfold update_status. keeps_op. Qed.
Lemma update_worker_count_keeps id n audit : keeps org (update_worker_count org id n audit).
Proof. unfold update_worker_count. keeps_op. Qed.
Lemma soft_delete_keeps id audit : keeps org (soft_delete org id audit).
Proof. unfold soft_delete. keeps_op. Qed.
Lemma list_clusters_keeps : keeps org (list_clusters org).
Proof. unfold list_clusters. keeps_op. Qed.
Lemma to_inet_keeps g ip : tx_keeps org g (to_inet ip).
Proof. unfold to_inet. by eauto with keeps. Qed.
#[local] Hint Resolve to_inet_keeps : keeps.
Lemma record_server_keeps id hid role pub priv audit :
  keeps org (record_server org id hid role pub priv audit).
Proof. unfold record_server. keeps_op. Qed.
Lemma list_servers_keeps id : keeps org (list_servers org id).
Proof. unfold list_servers. keeps_op. Qed.
Lemma soft_delete_servers_keeps id audit : keeps org (soft_delete_servers org id audit).
Proof. unfold soft_delete_servers. keeps_op. Qed.
#[local] Hint Resolve insert_cluster_keeps get_cluster_keeps set_kubeconfig_secret_keeps
  kubeconfig_secret_keeps update_status_keeps soft_delete_keeps : keeps.

Lemma create_keeps new audit : keeps org (create org new audit).
Proof. unfold create. keeps_op. Qed.
Lemma store_kubeconfig_keeps id kc audit : keeps org (store_kubeconfig org id kc audit).
Proof.
  unfold store_kubeconfig. apply keeps_all. intros g d. apply tx_bind, tx_map_err.
  tx_call put_law. intros [ref|e] d1; [|intros ->; simpl; reflexivity]. intros Hput.
  assert (H1 : safe org d d1).
  { destruct Hput as (Ho & _ & row & Hrow & -> & _). apply safe_set_secrets.
    apply andb_true_iff in Hrow as [Hr _]. apply bool_decide_eq_true in Hr.
    rewrite filter_app_list. simpl. rewrite bool_decide_true by congruence.
    simpl. by rewrite app_nil_r. }
  assert (Hk : tx_keeps org g (r <- attempt (set_kubeconfig_secret org id (sr_id ref) audit) ;;
    match r with
    | Ok tt => ret tt
    | Err err => ignore (delete_secret ref) ;;; throw err
    end)).
  { destruct Hput as [Ho _]. by eauto 30 with keeps. }
  simpl. tx_call Hk. intros r d2 H2. by etrans.
Qed.
Lemma fetch_kubeconfig_keeps id : keeps org (fetch_kubeconfig org id).
Proof. unfold fetch_kubeconfig. keeps_op. Qed.
Lemma begin_destroy_keeps id audit : keeps org (begin_destroy org id audit).
Proof. unfold begin_destroy. keeps_op. Qed.
Lemma finalize_destroy_keeps id audit : keeps org (finalize_destroy org id audit).
Proof. unfold finalize_destroy. keeps_op. Qed.
End TenantSafety.
#[export] Hint Resolve insert_cluster_keeps get_cluster_keeps set_kubeconfig_secret_keeps
  kubeconfig_secret_keeps update_status_keeps update_worker_count_keeps soft_delete_keeps
  list_clusters_keeps record_server_keeps list_servers_keeps soft_delete_servers_keeps
  create_keeps store_kubeconfig_keeps fetch_kubeconfig_keeps begin_destroy_keeps
  finalize_destroy_keeps : keeps.

(** * Functional behaviour *)

Section Laws.
Context `{En : Env} (Hb : bypass_rls = false).

(** The row is the tenant's and has the id. *)
Definition own_cluster (org id : Uuid) (c : Cluster) : bool :=
  bool_decide (cl_organization_id c = org) && bool_decide (cl_id c = id).

(** The clusters a statement of the tenant [org] leaves. *)
Lemma clusters_of_update t now org audit p f d :
  db_clusters (update_db t (tenant_guc now org audit) p f d) =
  update_rows (fun c => bool_decide (cl_organization_id c = org) && p now c)
    (fun c => cluster_touch now c (f now c)) (db_clusters d).
Proof.
  rewrite update_db_plain. trans (update_rows (update_hit (tenant_guc now org audit) p)
    (update_new (tenant_guc now org audit) f) (db_clusters d)); [by destruct d|].
  apply update_rows_ext; intros c; unfold update_hit, update_new.
  - rewrite visible_own by done. by destruct audit.
  - intros _. by destruct audit.
Qed.

Lemma update_status_law d org id st reason audit :
  db_wp d (update_status org id st reason audit) (fun r d' =>
    match r with
    | Ok _ => exists now t, existsb (own_cluster org id) (db_clusters d) = true /\
        d' = update_db t (tenant_guc now org (Some audit))
               (fun _ c => bool_decide (cl_id c = id)) (fun _ => with_status st reason) d
    | Err e => d' = d /\
        (e = cluster_not_found id /\ existsb (own_cluster org id) (db_clusters d) = false
         \/ faulty /\ e = Database DbTransport)
    end).
Proof.
  intros g. unfold update_status. apply tx_bind. apply db_tenant_tx; [by split; auto|]. intros now.
  apply tx_map_err, tx_update; [by split; auto|]. intros t. simpl.
  set (g' := tenant_guc now org (Some audit)).
  assert (Hh : existsb (own_cluster org id) (db_clusters d) = true <->
               update_hits (R := Cluster) g' (fun _ c => bool_decide (cl_id c = id))
                 (fun _ => with_status st reason) d <> []).
  { unfold update_hits. rewrite existsb_exists. split.
    - intros (c & Hc & Hown) Hnil%map_eq_nil.
      assert (In c []) as []. rewrite <- Hnil. apply filter_In. split; [done|].
      unfold update_hit, g'. by rewrite visible_own.
    - destruct (List.filter _ _) as [|c l] eqn:E; [done|]. intros _. exists c.
      assert (In c (c :: l)) as Hin by by left. rewrite <- E in Hin.
      apply filter_In in Hin as [Hin Hv]. split; [done|].
      unfold update_hit, g' in Hv. by rewrite visible_own in Hv. }
  destruct (update_hits _ _ _ _) as [|c l] eqn:E; simpl.
  - apply tx_throw. rewrite update_nothing by done. split; [done|]. left. split; [done|].
    destruct (existsb _ _); [|done]. by destruct Hh as [[] _].
  - apply tx_ret. exists now, t. split; [|done]. by apply Hh.
Qed.

Lemma get_cluster_law d org id :
  db_wp d (get_cluster org id) (fun r d' => d' = d /\
    let live := List.filter (fun c => bool_decide (cl_organization_id c = org)
                                      && live_cluster id c) (db_clusters d) in
    match r with
    | Ok c => exists l, live = c :: l
    | Err e => e = cluster_not_found id /\ live = [] \/ faulty /\ e = Database DbTransport
    end).
Proof.
  intros g. unfold get_cluster. apply tx_bind. apply db_tenant_tx; [by split; auto|]. intros now.
  apply tx_map_err, tx_select; [by split; auto|]. cbv beta.
  rewrite (filter_ext_list _ (fun c => bool_decide (cl_organization_id c = org) && live_cluster id c))
    by (intros; by rewrite visible_own).
  simpl. destruct (List.filter _ _) as [|c l] eqn:E; [apply tx_throw|apply tx_ret]; by eauto.
Qed.

Lemma kubeconfig_secret_law d org id :
  db_wp d (kubeconfig_secret org id) (fun r d' => d' = d /\
    let live := List.filter (fun c => bool_decide (cl_organization_id c = org)
                                      && live_cluster id c) (db_clusters d) in
    match r with
    | Ok s => exists c l, live = c :: l /\ s = cl_kubeconfig_secret_id c
    | Err e => e = cluster_not_found id /\ live = [] \/ faulty /\ e = Database DbTransport
    end).
Proof.
  intros g. unfold kubeconfig_secret. apply tx_bind. apply db_tenant_tx; [by split; auto|]. intros now.
  apply tx_map_err, tx_select; [by split; auto|]. cbv beta.
  rewrite (filter_ext_list _ (fun c => bool_decide (cl_organization_id c = org) && live_cluster id c))
    by (intros; by rewrite visible_own).
  simpl. destruct (List.filter _ _) as [|c l] eqn:E; [apply tx_throw|apply tx_ret]; split; eauto.
Qed.

Lemma soft_delete_law d org id audit :
  db_wp d (soft_delete org id audit) (fun r d' =>
    match r with
    | Ok _ => exists now t,
        d' = update_db t (tenant_guc now org (Some audit)) (fun _ => live_cluster id) with_deleted d
    | Err e => d' = d /\ faulty /\ e = Database DbTransport
    end).
Proof.
  intros g. unfold soft_delete. apply tx_bind. apply db_tenant_tx; [by split; auto|]. intros now.
  apply tx_map_err, tx_update; [by split; auto|]. intros t. simpl. apply tx_ret. by exists now, t.
Qed.

Lemma set_kubeconfig_secret_law d org id secret audit :
  db_wp d (set_kubeconfig_secret org id secret audit) (fun r d' =>
    let p (_ : Z) c := live_cluster id c && (is_none (cl_kubeconfig_secret_id c)
                         || bool_decide (cl_kubeconfig_secret_id c = Some secret)) in
    match r with
    | Ok _ => exists now t,
        existsb (fun c => bool_decide (cl_organization_id c = org) && p now c) (db_clusters d) = true /\
        d' = update_db t (tenant_guc now org (Some audit)) p (fun _ => with_kubeconfig secret) d
    | Err e => d' = d
    end).
Proof.
  intros g. unfold set_kubeconfig_secret. apply tx_bind. apply db_tenant_tx; [done|]. intros now.
  apply tx_map_err, tx_update_chk; [done|done|]. intros _ t. cbn [result_map_err].
  destruct (update_hits _ _ _ _) as [|c l] eqn:E.
  - apply tx_throw. by apply update_nothing.
  - apply tx_ret. exists now, t. split; [|done]. apply existsb_exists.
    unfold update_hits in E. destruct (List.filter _ _) as [|x k] eqn:F; [done|].
    exists x. assert (In x (x :: k)) as Hin by by left. rewrite <- F in Hin.
    apply filter_In in Hin as [Hin Hv]. split; [done|].
    unfold update_hit in Hv. by rewrite visible_own in Hv.
Qed.
(** The servers of a tenant's cluster that are not deleted. *)
Definition own_server (org id : Uuid) (s : ClusterServer) : bool :=
  bool_decide (sv_organization_id s = org) && live_server id s.

Lemma list_servers_law d org id :
  db_wp d (list_servers org id) (fun r d' => d' = d /\
    match r with
    | Ok l => l = sort_by server_leb (List.filter (own_server org id) (db_servers d))
    | Err e => faulty /\ e = Database DbTransport
    end).
Proof.
  intros g. unfold list_servers. apply tx_bind. apply db_tenant_tx; [by split; auto|]. intros now.
  apply tx_map_err, tx_select; [by split; auto|]. cbn [result_map_err]. apply tx_ret. split; [done|].
  f_equal. apply filter_ext_list. intros s. by rewrite visible_own.
Qed.

Lemma soft_delete_servers_law d org id audit :
  db_wp d (soft_delete_servers org id audit) (fun r d' =>
    match r with
    | Ok _ => exists now, d' = set_rows
        (update_rows (own_server org id) (server_deleted now) (db_servers d)) d
    | Err e => d' = d /\ faulty /\ e = Database DbTransport
    end).
Proof.
  intros g. unfold soft_delete_servers. apply tx_bind.
  apply db_tenant_tx; [by split; auto|]. intros now.
  apply tx_map_err, tx_update; [by split; auto|]. intros t. cbn [result_map_err]. apply tx_ret.
  exists now. rewrite update_db_plain, audit_entries_none, app_nil_r by done.
  trans (set_rows (update_rows (update_hit (tenant_guc now org (Some audit)) (fun _ => live_server id))
    (update_new (tenant_guc now org (Some audit)) server_deleted) (db_servers d)) d);
    [by destruct d|]. f_equal.
  apply update_rows_ext; intros s; [|intros _; by destruct audit].
  unfold update_hit. by rewrite visible_own.
Qed.

(** A server is on record: it was already, or its row is appended. *)
Lemma record_server_law d org id hid role pub priv audit :
  db_wp d (record_server org id hid role pub priv audit) (fun r d' =>
    match r with
    | Ok _ =>
        (d' = d /\ existsb (fun s => (sv_hetzner_server_id s =? hid) && is_none (sv_deleted_at s))
                     (db_servers d) = true)
        \/ exists row, d' = set_rows (db_servers d ++ [row]) d /\
             sv_hetzner_server_id row = hid /\ sv_role row = role /\ own_server org id row = true
    | Err _ => d' = d
    end).
Proof.
  intros g. unfold record_server. apply tx_bind, tx_now_v7. intros sid. apply tx_bind.
  apply db_tenant_tx; [done|]. intros now. apply tx_map_err.
  assert (Hinet : forall ip (P : result DbError (option string) -> DB -> Prop),
    (forall r, P r d) -> tx_wp (tenant_guc now org (Some audit)) d (to_inet ip) P).
  { intros ip P HP. unfold to_inet. destruct ip as [t|]; [|by apply tx_ret].
    destruct (inet_text t); [by apply tx_ret|by apply tx_throw]. }
  apply tx_bind, Hinet. intros [pub'|e]; [|done]. apply tx_bind, Hinet. intros [priv'|e]; [|done].
  apply tx_insert_or_ignore; [done|done| |done|].
  - intros Hon. cbn [result_map_err]. apply tx_ret. by left.
  - intros _ t. cbn [result_map_err]. apply tx_ret. right. rewrite insert_db_plain.
    rewrite audit_entries_none, app_nil_r by done. eexists. split; [by destruct d|].
    split; [done|]. split; [done|]. unfold own_server, live_server. simpl.
    by rewrite !bool_decide_true.
Qed.
End Laws.

(** * Settled rows *)

Section Settled.
Context `{En : Env} (Hb : bypass_rls = false).

Lemma validate_allowed_spec new :
  (validate_allowed new = Ok tt <->
     trim (nc_name new) <> EmptyString /\ nc_region new ∈ ALLOWED_REGIONS /\
     nc_server_type new ∈ ALLOWED_SERVER_TYPES /\
     nc_control_plane_count new = 1 /\ 1 <= nc_worker_count new <= 10) /\
  (forall e, validate_allowed new = Err e -> exists msg, e = Invalid msg).
Proof.
  assert (Hin : forall s l, existsb (String.eqb s) l = true <-> s ∈ l).
  { intros s l. rewrite existsb_exists, list_elem_of_In. split.
    - intros (x & Hx & ->%String.eqb_eq). done.
    - intros Hs. exists s. by rewrite String.eqb_refl. }
  pose proof (Hin (nc_region new) ALLOWED_REGIONS) as Hr.
  pose proof (Hin (nc_server_type new) ALLOWED_SERVER_TYPES) as Ht.
  unfold validate_allowed.
  destruct (String.eqb_spec (trim (nc_name new)) EmptyString) as [Hn|Hn];
    [split; [split; [done|intros (? & _); done]|intros e [= <-]; eauto]|].
  destruct (existsb _ ALLOWED_REGIONS) eqn:Er; cbn [negb andb];
    [|split; [split; [done|intros (_ & ?%Hr & ?%Ht & ? & _); congruence]|intros e [= <-]; eauto]].
  destruct (existsb _ ALLOWED_SERVER_TYPES) eqn:Et; cbn [negb andb];
    [|split; [split; [done|intros (_ & ?%Hr & ?%Ht & ? & _); congruence]|intros e [= <-]; eauto]].
  destruct (Z.eqb_spec (nc_control_plane_count new) 1); cbn [negb andb];
    [|split; [split; [done|intros (_ & ?%Hr & ?%Ht & ? & _); congruence]|intros e [= <-]; eauto]].
  pose proof (proj1 Hr eq_refl). pose proof (proj1 Ht eq_refl).
  destruct (Z.leb_spec 1 (nc_worker_count new)), (Z.leb_spec (nc_worker_count new) 10); cbn [negb andb];
    [split; [split; [intros _; repeat (split; [done|]); lia|done]|done]|..];
    (split; [split; [done|intros (_ & _ & _ & _ & ?); lia]|intros ? [= <-]; eauto]).
Qed.

(** The primary key of [clusters]. *)
Definition unique_clusters (d : DB) : Prop := NoDup (map cl_id (db_clusters d)).

Lemma secrets_of_update t g p f d : db_secrets (update_db (R := Cluster) t g p f d) = db_secrets d.
Proof. rewrite update_db_plain. by destruct d. Qed.

Lemma clusters_of_set_secrets l d : db_clusters (set_secrets l d) = db_clusters d.
Proof. by destruct d. Qed.

(** What [create] leaves behind. *)
Definition cluster_created (d : DB) (org : Uuid) (new : NewCluster) (audit : AuditContext)
    (r : result PlatformError Cluster) (d' : DB) : Prop :=
  match r with
  | Ok c =>
      validate_allowed new = Ok tt /\
      credential_exists d (nc_credential_id new) = true /\
      (exists id now, c = new_cluster_row id org new now) /\
      existsb (row_conflict c) (db_clusters d) = false /\
      exists e, d' = set_audit (db_audit d ++ [e]) (set_rows (db_clusters d ++ [c]) d) /\
        au_organization_id e = org /\ au_action e = "clusters.created"%string /\
        au_resource_id e = uuid_str (cl_id c) /\
        au_prev_hash e = au_hash <$> audit_tail org (db_audit d) /\
        au_actor_user_id e = ac_actor_user_id audit
  | Err e => d' = d /\
      (validate_allowed new = Err e \/
       (exists id now, let c := new_cluster_row id org new now in
          e = Conflict "a cluster with this name already exists" /\
          existsb (row_conflict c) (db_clusters d) = true \/
          e = Database DbForeignKey /\ row_check d c = Some DbForeignKey) \/
       e = Database DbRowSecurity \/
       faulty /\ e = Database DbTransport)
  end.

Lemma create_law d org new audit :
  db_wp d (create org new audit) (cluster_created d org new audit).
Proof.
  intros g. unfold cluster_created, create. apply tx_bind, tx_lift.
  destruct (validate_allowed new) as [[]|e] eqn:Hv; [|by auto].
  pose proof (proj1 (proj1 (validate_allowed_spec new)) Hv) as (_ & _ & _ & Hcp & Hw).
  unfold insert_cluster. apply tx_bind, tx_now_v7. intros id.
  apply db_tenant_tx; [by split; auto|]. intros now.
  destruct (Z.ltb_spec (nc_control_plane_count new) 1); [lia|].
  destruct (Z.leb_spec 1 (nc_worker_count new)); [|lia].
  destruct (Z.leb_spec (nc_worker_count new) 50); [|lia]. simpl.
  apply tx_map_err, tx_insert; [by split; auto| |].
  - intros e He. split; [done|]. unfold insert_error in He.
    destruct (visible _ _); simpl in He; [|injection He as <-; auto].
    right. destruct (existsb _ _) eqn:Hc; simpl in He.
    + injection He as <-. left. exists id, (g_now (tenant_guc now org (Some audit))). by left.
    + left. exists id, (g_now (tenant_guc now org (Some audit))). right.
      assert (e = DbForeignKey) as ->; [|done].
      revert He. simpl. destruct (Z.leb_spec 1 (nc_control_plane_count new)); [|lia].
      destruct (Z.leb_spec 1 (nc_worker_count new)); [|lia].
      destruct (Z.leb_spec (nc_worker_count new) 50); [|lia]. simpl.
      destruct (org_exists d org); [|congruence].
      destruct (credential_exists d _); congruence.
  - intros He t. apply insert_error_none in He as (_ & Hc & Hk). simpl.
    rewrite insert_db_plain. set (row := new_cluster_row id org new _) in *.
    split; [done|]. split.
    { revert Hk. simpl. destruct (_ && _ && _); [|done].
      destruct (org_exists d org); [|done]. by destruct (credential_exists d _). }
    split; [by eexists _, _|]. split; [done|].
    eexists. split; [reflexivity|]. simpl. by destruct (ac_actor_user_id audit).
Qed.

(** ** What a write of the cluster's row leaves *)

(** The row of the cluster, after [d'], satisfies [Q]; no other row of the
    table changed. *)
Record settled (org id : Uuid) (Q : Cluster -> Prop) (d d' : DB) : Prop := mkSettled {
  settled_row c : In c (db_clusters d') -> own_cluster org id c = true -> Q c;
  settled_exists : existsb (own_cluster org id) (db_clusters d') =
                   existsb (own_cluster org id) (db_clusters d);
  settled_others : List.filter (fun c => negb (own_cluster org id c)) (db_clusters d') =
                   List.filter (fun c => negb (own_cluster org id c)) (db_clusters d);
  settled_ids : map cl_id (db_clusters d') = map cl_id (db_clusters d);
}.

Lemma settled_mono org id (Q Q' : Cluster -> Prop) d d' :
  settled org id Q d d' -> (forall c, Q c -> Q' c) -> settled org id Q' d d'.
Proof. intros [H1 H2 H3 H4] HQ. split; auto. Qed.

Lemma settled_trans org id Q Q' d1 d2 d3 :
  settled org id Q d1 d2 -> settled org id Q' d2 d3 -> settled org id Q' d1 d3.
Proof. intros [H1 H2 H3 H4] [H5 H6 H7 H8]. split; [done|congruence..]. Qed.

Lemma settled_same org id (Q : Cluster -> Prop) d d' :
  db_clusters d' = db_clusters d ->
  (forall c, In c (db_clusters d) -> own_cluster org id c = true -> Q c) -> settled org id Q d d'.
Proof. intros He HQ. split; rewrite ?He; auto. Qed.

Lemma settled_cong org id Q d1 d2 d1' d2' :
  db_clusters d1' = db_clusters d1 -> db_clusters d2' = db_clusters d2 ->
  settled org id Q d1 d2 -> settled org id Q d1' d2'.
Proof. intros H1 H2 [H3 H4 H5 H6]. split; rewrite ?H1, ?H2; auto. Qed.

Lemma settled_unique org id Q d d' : settled org id Q d d' -> unique_clusters d -> unique_clusters d'.
Proof. intros H. unfold unique_clusters. by rewrite (settled_ids _ _ _ _ _ H). Qed.

(** An update of exactly the cluster's row. *)
Lemma settled_update org id f d d' :
  db_clusters d' = update_rows (own_cluster org id) f (db_clusters d) ->
  (forall c, own_cluster org id (f c) = own_cluster org id c /\ cl_id (f c) = cl_id c) ->
  settled org id (fun c => exists c0, In c0 (db_clusters d) /\ own_cluster org id c0 = true /\
                                      c = f c0) d d'.
Proof.
  intros He Hf. split; rewrite He.
  - intros c (c0 & Hin & ->)%in_update_rows. destruct (own_cluster org id c0) eqn:E; [by eauto|].
    congruence.
  - unfold update_rows. clear He. induction (db_clusters d) as [|c l IH]; simpl; [done|].
    rewrite IH. f_equal. destruct (own_cluster org id c) eqn:E; [|done]. by rewrite (proj1 (Hf c)).
  - apply filter_update_rows_other. intros c Hc. by rewrite (proj1 (Hf c)), Hc.
  - unfold update_rows. rewrite map_map. apply map_ext. intros c.
    destruct (own_cluster org id c); [apply Hf|done].
Qed.

(** The tables other than [clusters] and the audit log are the same. *)
Definition only_clusters (d d' : DB) : Prop :=
  exists (l : list Cluster) a, d' = set_audit a (set_rows l d).

Lemma only_clusters_eqs d d' : only_clusters d d' ->
  db_servers d' = db_servers d /\ db_secrets d' = db_secrets d /\ db_workflows d' = db_workflows d.
Proof. intros (l & a & ->). by destruct d. Qed.

Lemma only_clusters_update t g (p : Z -> Cluster -> bool) f d :
  only_clusters d (update_db t g p f d).
Proof. rewrite update_db_plain. by eexists _, _. Qed.

Lemma update_status_settled d org id st reason audit :
  db_wp d (update_status org id st reason audit) (fun r d' =>
    match r with
    | Ok _ => existsb (own_cluster org id) (db_clusters d) = true /\ only_clusters d d' /\
        settled org id (fun c => exists now c0, In c0 (db_clusters d) /\
          own_cluster org id c0 = true /\ c = cluster_touch now c0 (with_status st reason c0)) d d'
    | Err e => d' = d /\
        (e = cluster_not_found id /\ existsb (own_cluster org id) (db_clusters d) = false
         \/ faulty /\ e = Database DbTransport)
    end).
Proof.
  eapply db_mono; [by apply update_status_law|]. intros [[]|e] d'; [|done].
  intros (now & t & Hex & ->). split; [done|]. split; [apply only_clusters_update|].
  eapply settled_mono.
  - apply (settled_update _ _ (fun c => cluster_touch now c (with_status st reason c))); [|done].
    rewrite clusters_of_update by done. by apply update_rows_ext.
  - intros c (c0 & H). by exists now, c0.
Qed.

(** The only live row of a tenant with the id of its cluster. *)
Lemma own_live_iff org id d c :
  unique_clusters d -> In c (db_clusters d) ->
  existsb (fun c => own_cluster org id c && is_none (cl_deleted_at c)) (db_clusters d) = true ->
  own_cluster org id c = (bool_decide (cl_organization_id c = org) && live_cluster id c).
Proof.
  intros Hnd Hc (x & Hx & Hox)%existsb_exists. apply andb_true_iff in Hox as [Ho Hl].
  unfold own_cluster, live_cluster in *.
  destruct (bool_decide (cl_organization_id c = org)); [simpl|done].
  destruct (bool_decide (cl_id c = id)) eqn:E; [simpl|done].
  apply andb_true_iff in Ho as [_ Ho]. apply bool_decide_eq_true in E, Ho.
  rewrite (NoDup_map_inj cl_id (db_clusters d) c x) by (done || congruence). by rewrite Hl.
Qed.

Lemma no_live org id l :
  List.filter (fun c => bool_decide (cl_organization_id c = org) && live_cluster id c) l = [] ->
  existsb (fun c => own_cluster org id c && is_none (cl_deleted_at c)) l = false.
Proof.
  intros Hr. apply existsb_false_iff. intros x Hx.
  destruct (own_cluster org id x && _) eqn:E; [|done]. exfalso.
  assert (Hin : In x []); [|done]. rewrite <- Hr. apply filter_In. split; [done|].
  unfold own_cluster, live_cluster in *. by rewrite andb_assoc.
Qed.

Lemma begin_destroy_settled d org id audit :
  unique_clusters d ->
  db_wp d (begin_destroy org id audit) (fun r d' =>
    match r with
    | Ok c => In c (db_clusters d) /\ own_cluster org id c = true /\ cl_deleted_at c = None /\
        cl_status c <> Destroyed /\ only_clusters d d' /\
        settled org id (fun c => cl_status c = Destroying /\ cl_status_reason c = None /\
                                 cl_deleted_at c = None) d d'
    | Err e => d' = d /\
        (e = cluster_not_found id /\
           existsb (fun c => own_cluster org id c && is_none (cl_deleted_at c)) (db_clusters d) = false
         \/ e = Conflict "cluster is already destroyed" /\
           existsb (fun c => own_cluster org id c && is_none (cl_deleted_at c)
                             && bool_decide (cl_status c = Destroyed)) (db_clusters d) = true
         \/ faulty /\ e = Database DbTransport)
    end).
Proof.
  intros Hnd g. unfold begin_destroy. apply tx_bind. tx_call (get_cluster_law Hb).
  intros [c|e] d1 [-> Hr].
  2: { split; [done|]. destruct Hr as [[-> Hr]|[Hf ->]]; [left|by auto]. split; [done|].
       by apply no_live. }
  destruct Hr as [rest Hlive].
  assert (Hin : In c (c :: rest)) by by left. rewrite <- Hlive in Hin.
  apply filter_In in Hin as [Hin Hc]. unfold live_cluster in Hc. rewrite andb_assoc in Hc.
  pose proof Hc as [Ho Hl]%andb_true_iff. change (own_cluster org id c = true) in Ho.
  destruct (bool_decide (cl_status c = Destroyed)) eqn:Hst;
    [apply bool_decide_eq_true in Hst|apply bool_decide_eq_false in Hst].
  { apply tx_throw. split; [done|]. right; left. split; [done|]. apply existsb_exists. exists c.
    split; [done|]. rewrite Ho, Hl, Hst. done. }
  assert (Hdel : cl_deleted_at c = None) by by destruct (cl_deleted_at c).
  apply tx_bind. tx_call update_status_settled. intros [[]|e] d2.
  - intros (_ & Honly & Hs). apply tx_ret. repeat (split; [done|]).
    eapply settled_mono; [done|]. intros x (now & c0 & Hc0 & Ho0 & ->). simpl.
    rewrite (NoDup_map_inj cl_id (db_clusters d) c0 c); [done|done|done|done|].
    unfold own_cluster in *. apply andb_true_iff in Ho as [_ Ho], Ho0 as [_ Ho0].
    apply bool_decide_eq_true in Ho, Ho0. congruence.
  - intros [-> [[-> Hno]|[Hf ->]]]; split; auto. exfalso.
    rewrite existsb_false_iff in Hno. by rewrite Hno in Ho.
Qed.

Context `{St : !SecretStore} `{HSt : !SecretStoreLaws St}.

Lemma servers_of_update t g p f d : db_servers (update_db (R := Cluster) t g p f d) = db_servers d.
Proof. rewrite update_db_plain. by destruct d. Qed.

Lemma store_kubeconfig_law d org id kubeconfig audit :
  unique_clusters d ->
  db_wp d (store_kubeconfig org id kubeconfig audit) (fun r d1 =>
    match r with
    | Ok _ => exists ref, sr_organization_id ref = org /\ resolves d1 ref kubeconfig /\
        db_servers d1 = db_servers d /\ existsb (own_cluster org id) (db_clusters d) = true /\
        settled org id (fun c => cl_kubeconfig_secret_id c = Some (sr_id ref) /\
                                 cl_deleted_at c = None) d d1
    | Err _ => d1 = d \/ exists row, d1 = set_secrets (db_secrets d ++ [row]) d
    end).
Proof.
  intros Hnd g. unfold store_kubeconfig. apply tx_bind, tx_map_err.
  tx_call put_law. intros [ref|e] d1; [|intros ->; simpl; by left].
  intros (Ho & Hres & row & Hrow & -> & Hfresh). simpl. apply tx_bind, tx_attempt.
  tx_call (set_kubeconfig_secret_law Hb). intros [[]|e] d2.
  - intros (now & t & Hex & ->). apply tx_ret. rewrite clusters_of_set_secrets in Hex.
    apply existsb_exists in Hex as (x & Hx & Hpx).
    assert (Hlx : own_cluster org id x && is_none (cl_deleted_at x) = true).
    { unfold own_cluster, live_cluster in *. destruct (bool_decide _); [|done]. simpl in *.
      by apply andb_true_iff in Hpx as [-> _]. }
    assert (Hlive : existsb (fun c => own_cluster org id c && is_none (cl_deleted_at c))
                      (db_clusters d) = true) by (apply existsb_exists; by eauto).
    pose proof Hlx as [Hox Hdx]%andb_true_iff.
    set (p := fun (_ : Z) c => live_cluster id c && _) in *. set (d2 := update_db t _ p _ _).
    assert (Hcl : db_clusters d2 = update_rows (own_cluster org id)
      (fun c => cluster_touch now c (with_kubeconfig (sr_id ref) c)) (db_clusters d)).
    { unfold d2. rewrite clusters_of_update, clusters_of_set_secrets by done.
      apply update_rows_in. intros y Hy. split; [|done].
      destruct (own_cluster org id y) eqn:Hoy.
      - assert (y = x) as ->; [|done]. apply (NoDup_map_inj cl_id (db_clusters d)); try done.
        unfold own_cluster in Hox, Hoy. apply andb_true_iff in Hox as [_ ?], Hoy as [_ ?].
        rewrite !bool_decide_eq_true in *. congruence.
      - unfold p, own_cluster, live_cluster in *.
        destruct (bool_decide (cl_organization_id y = org)); [simpl in *|done]. by rewrite Hoy. }
    exists ref. split; [done|]. split.
    { eapply resolves_local; [|exact Hres]. unfold d2. by rewrite secrets_of_update. }
    split; [unfold d2; by rewrite servers_of_update; destruct d|].
    split; [apply existsb_exists; by eauto|].
    eapply settled_mono.
    + by apply (settled_update _ _ (fun c => cluster_touch now c (with_kubeconfig (sr_id ref) c))).
    + intros c (c0 & Hc0 & Ho0 & ->). split; [done|]. simpl.
      rewrite (own_live_iff _ _ _ _ Hnd Hc0 Hlive) in Ho0. unfold live_cluster in Ho0.
      apply andb_true_iff in Ho0 as [_ [_ ?]%andb_true_iff]. by destruct (cl_deleted_at c0).
  - intros ->. apply tx_bind, tx_ignore. tx_call delete_law.
    intros [u|e'] d3 ->; apply tx_throw; [left|right; by exists row].
    rewrite secrets_of_set_secrets, filter_app_list. simpl. rewrite Hrow. simpl.
    rewrite app_nil_r. trans (set_secrets (db_secrets d) d); [|by destruct d].
    trans (set_secrets (List.filter (fun s => negb (own_secret ref s)) (db_secrets d)) d);
      [by destruct d|]. f_equal.
    by apply not_own_fresh.
Qed.

Lemma fetch_kubeconfig_reads d org id :
  db_wp d (fetch_kubeconfig org id) (fun _ d' => d' = d).
Proof.
  intros g. unfold fetch_kubeconfig. apply tx_bind. tx_call (kubeconfig_secret_law Hb).
  intros [[s|]|e] d1 [-> _]; [|by apply tx_throw|done].
  apply tx_map_err. tx_call get_law. by intros r d2 [-> _].
Qed.

(** The tenant's cluster is live and refers to a secret that resolves. *)
Definition kubeconfig_available (org id : Uuid) (d : DB) (ref : SecretRef) (kubeconfig : string)
  : Prop :=
  sr_organization_id ref = org /\ resolves d ref kubeconfig /\
  existsb (own_cluster org id) (db_clusters d) = true /\
  forall c, In c (db_clusters d) -> own_cluster org id c = true ->
    cl_kubeconfig_secret_id c = Some (sr_id ref) /\ cl_deleted_at c = None.

Lemma fetch_kubeconfig_law d org id ref kubeconfig :
  kubeconfig_available org id d ref kubeconfig ->
  db_wp d (fetch_kubeconfig org id) (fun r d' => d' = d /\
    (r = Ok kubeconfig \/ faulty /\ r = Err (Database DbTransport) \/
     exists e, store_failure e /\ r = Err (Secret e))).
Proof.
  intros (Ho & Hres & Hex & Hown) g. unfold fetch_kubeconfig. apply tx_bind.
  tx_call (kubeconfig_secret_law Hb). cbv zeta. intros [s|e] d1 [-> Hr].
  - destruct Hr as (c & l & Hfil & ->).
    assert (Hin : In c (c :: l)) by by left. rewrite <- Hfil in Hin.
    apply filter_In in Hin as [Hin Hc].
    destruct (Hown c Hin) as [-> _].
    { unfold own_cluster, live_cluster in *. destruct (bool_decide _); [simpl in *|done].
      by apply andb_true_iff in Hc as [-> _]. }
    apply tx_map_err. assert (mkSecretRef (sr_id ref) org = ref) as -> by (destruct ref; simpl in *; congruence).
    tx_call get_law. intros r d2 [-> Hget]. split; [done|].
    destruct (Hget _ Hres) as [->|(e & Hf & ->)]; eauto.
  - split; [done|]. destruct Hr as [[_ Hnil]|[Hf ->]]; [exfalso|by auto].
    apply existsb_exists in Hex as (x & Hx & Hox).
    assert (Hin : In x []); [|done]. rewrite <- Hnil. apply filter_In. split; [done|].
    destruct (Hown x Hx Hox) as [_ Hd]. unfold own_cluster, live_cluster in *.
    rewrite andb_assoc, Hox, Hd. done.
Qed.

(** What [finalize_destroy] makes of the cluster's row. *)
Definition destroyed_row (now now' : Z) (c : Cluster) : Cluster :=
  cluster_touch now' (cluster_touch now c (with_deleted now c))
    (with_status Destroyed None (cluster_touch now c (with_deleted now c))).

Lemma live_row_rewritten org id l c rest :
  NoDup (map cl_id l) ->
  List.filter (fun c => bool_decide (cl_organization_id c = org) && live_cluster id c) l = c :: rest ->
  forall x, In x l -> own_cluster org id x =
    bool_decide (cl_organization_id x = org) && live_cluster id x.
Proof.
  intros Hnd Hf x Hx. unfold own_cluster, live_cluster.
  destruct (bool_decide (cl_organization_id x = org)) eqn:Ho; [|done]. simpl.
  destruct (bool_decide (cl_id x = id)) eqn:Hi; [|done]. simpl.
  assert (Hin : In c (c :: rest)) by by left. rewrite <- Hf in Hin.
  apply filter_In in Hin as [Hin [_ [Hci Hcl]%andb_true_iff]%andb_true_iff].
  apply bool_decide_eq_true in Hi, Hci.
  by rewrite (NoDup_map_inj cl_id l x c) by congruence.
Qed.

Lemma finalize_destroy_law d org id audit :
  unique_clusters d ->
  db_wp d (finalize_destroy org id audit) (fun r d' =>
    db_servers d' = db_servers d /\
    match r with
    | Ok _ => existsb (fun c => own_cluster org id c && is_none (cl_deleted_at c)) (db_clusters d) = true /\
        exists now now', db_clusters d' =
          update_rows (own_cluster org id) (destroyed_row now now') (db_clusters d)
    | Err e =>
        (e = cluster_not_found id /\ d' = d /\
           existsb (fun c => own_cluster org id c && is_none (cl_deleted_at c)) (db_clusters d)
             = false) \/
        (faulty /\ e = Database DbTransport /\
          (db_clusters d' = db_clusters d \/
           exists now, db_clusters d' = update_rows (own_cluster org id)
              (fun c => cluster_touch now c (with_deleted now c)) (db_clusters d)))
    end).
Proof.
  intros Hnd g. unfold finalize_destroy. apply tx_bind.
  tx_call (kubeconfig_secret_law Hb). cbv zeta. intros [s|e] d1 [-> Hr].
  2: { split; [done|]. destruct Hr as [[-> Hno]|[Hf ->]]; [left|by auto].
       repeat (split; [done|]). by apply no_live. }
  destruct Hr as (c & rest & Hlive & ->).
  pose proof (live_row_rewritten org id _ _ _ Hnd Hlive) as Hown.
  assert (Hsecret : forall g, tx_wp g d
    (match cl_kubeconfig_secret_id c with
     | Some sid => ignore (delete_secret (mkSecretRef sid org))
     | None => ret tt
     end : M World PlatformError unit)
    (fun r d' => r = Ok tt /\ exists l, d' = set_secrets l d)).
  { intros g'. destruct (cl_kubeconfig_secret_id c) as [sid|].
    - apply tx_ignore. tx_call delete_law. intros [u|e] d' ->; (split; [done|]); [eauto|].
      exists (db_secrets d). by destruct d.
    - apply tx_ret. split; [done|]. exists (db_secrets d). by destruct d. }
  apply tx_bind. tx_call Hsecret. intros r d1 (-> & l & ->). apply tx_bind.
  tx_call soft_delete_law.
  intros [u|e] d2; [|intros (-> & Hf & ->)].
  2: { split; [by destruct d|]. right. rewrite clusters_of_set_secrets. auto. }
  intros (now & t & ->). set (d2 := update_db t _ _ _ _).
  assert (Hc2 : db_clusters d2 = update_rows (own_cluster org id)
    (fun c => cluster_touch now c (with_deleted now c)) (db_clusters d)).
  { unfold d2. rewrite clusters_of_update, clusters_of_set_secrets by done.
    apply update_rows_in. intros x Hx. split; [|done]. symmetry. by apply Hown. }
  assert (Hs2 : db_servers d2 = db_servers d).
  { unfold d2. rewrite servers_of_update. by destruct d. }
  tx_call (update_status_law Hb). intros [u'|e] d3.
  - intros (now' & t' & _ & ->). rewrite servers_of_update. split; [done|].
    split.
    { apply existsb_exists. exists c. assert (Hin : In c (c :: rest)) by by left.
      rewrite <- Hlive in Hin. apply filter_In in Hin as [Hin Hc]. split; [done|].
      rewrite Hown by done. rewrite Hc. simpl.
      by apply andb_true_iff in Hc as [_ [_ Hc]%andb_true_iff]. }
    exists now, now'. rewrite clusters_of_update, Hc2 by done.
    apply (update_rows_twice (own_cluster org id) _
      (fun c => cluster_touch now' c (with_status Destroyed None c))). intros x Hx. unfold own_cluster in *. simpl in *. exact Hx.
  - intros [-> Hr]. split; [done|]. destruct Hr as [[-> Hno]|[Hf ->]].
    + exfalso. rewrite existsb_false_iff in Hno.
      assert (Hin : In c (c :: rest)) by by left. rewrite <- Hlive in Hin.
      apply filter_In in Hin as [Hin Hc]. rewrite <- Hown in Hc by done.
      specialize (Hno (cluster_touch now c (with_deleted now c))).
      change (In (cluster_touch now c (with_deleted now c)) (db_clusters d2) ->
              own_cluster org id c = false) in Hno.
      rewrite Hc, Hc2 in Hno. discriminate Hno.
      apply in_update_rows. exists c. by rewrite Hc.
    + right. eauto 6.
Qed.

Lemma finalize_destroy_settled d d' now now' org id :
  db_clusters d' = update_rows (own_cluster org id) (destroyed_row now now') (db_clusters d) ->
  settled org id (fun c => cl_status c = Destroyed /\ cl_deleted_at c = Some now) d d'.
Proof.
  intros He. eapply settled_mono; [by apply (settled_update _ _ (destroyed_row now now'))|].
  by intros c (c0 & _ & _ & ->).
Qed.
End Settled.

(** * Properties *)

Section Properties.
Context `{En : Env}.


(** The request gate accepts exactly a non-blank name, a listed region
    and server type, one control plane and one to ten workers; every refusal
    is an [Invalid]. *)
Theorem validate_allowed_iff new :
  (validate_allowed new = Ok tt <->
     trim (nc_name new) <> EmptyString /\ nc_region new ∈ ALLOWED_REGIONS /\
     nc_server_type new ∈ ALLOWED_SERVER_TYPES /\
     nc_control_plane_count new = 1 /\ 1 <= nc_worker_count new <= 10) /\
  (forall e, validate_allowed new = Err e -> exists msg, e = Invalid msg).
Proof. apply validate_allowed_spec. Qed.

(** Creating a cluster either changes nothing and says why, or appends
    exactly one row, [pending], with the requested shape, to [clusters] and
    one entry, linked to the tenant's latest, to the audit log. *)
Theorem create_correct d org new audit :
  db_wp d (create org new audit) (cluster_created d org new audit).
Proof. apply create_law. Qed.

(** A kubeconfig stored is the kubeconfig fetched: after
    [store_kubeconfig] succeeds, [fetch_kubeconfig] returns the same text
    unless a round trip or the store fails; after it failed, no row of [clusters] changed
    and at most the new ciphertext is left behind. *)
Theorem kubeconfig_roundtrip `{St : !SecretStore} `{!SecretStoreLaws St} d org id kubeconfig audit :
  bypass_rls = false -> unique_clusters d ->
  db_wp d (store_kubeconfig org id kubeconfig audit) (fun r d1 =>
    match r with
    | Ok _ => db_wp d1 (fetch_kubeconfig org id) (fun r' d2 => d2 = d1 /\
        (r' = Ok kubeconfig \/ faulty /\ r' = Err (Database DbTransport) \/
         exists e, store_failure e /\ r' = Err (Secret e)))
    | Err _ => d1 = d \/ exists row, d1 = set_secrets (db_secrets d ++ [row]) d
    end).
Proof.
  intros Hb Hnd. eapply db_mono; [by apply store_kubeconfig_law|].
  intros [[]|e] d1; [|done]. intros (ref & Ho & Hres & _ & Hex & [Hrow Hex' _ _]).
  apply (fetch_kubeconfig_law Hb d1 org id ref). repeat (split; [done|]).
  by rewrite Hex'.
Qed.

(** Finalising a destroy either settles the row (deleted, status
    [destroyed], every other row as it was) or, on an error, has at most
    soft-deleted it: without a failed round trip the only error is a cluster
    that is not live. *)
Theorem finalize_destroy_correct `{St : !SecretStore} `{!SecretStoreLaws St} d org id audit :
  bypass_rls = false -> unique_clusters d ->
  db_wp d (finalize_destroy org id audit) (fun r d' =>
    db_servers d' = db_servers d /\
    match r with
    | Ok _ => existsb (fun c => own_cluster org id c && is_none (cl_deleted_at c)) (db_clusters d) = true /\
        exists now now', db_clusters d' =
          update_rows (own_cluster org id) (destroyed_row now now') (db_clusters d)
    | Err e =>
        (e = cluster_not_found id /\ d' = d /\
           existsb (fun c => own_cluster org id c && is_none (cl_deleted_at c)) (db_clusters d)
             = false) \/
        (faulty /\ e = Database DbTransport /\
          (db_clusters d' = db_clusters d \/
           exists now, db_clusters d' = update_rows (own_cluster org id)
              (fun c => cluster_touch now c (with_deleted now c)) (db_clusters d)))
    end).
Proof. intros Hb Hnd. by apply finalize_destroy_law. Qed.
End Properties.

(** * The hypotheses hold in the concrete environment *)


Lemma demo_unique_clusters : unique_clusters demo_db.
Proof. apply (bool_decide_unpack _). vm_compute. exact I. Qed.

(** Tenant 2 stores a kubeconfig for its cluster 31, which has none yet. *)
Lemma kubeconfig_roundtrip_witness :
  let St := @pgcrypto_store demo_env "kek" in
  let stored := @store_kubeconfig demo_env St 2%N 31%N "apiVersion: v1" demo_audit
                  (demo_world demo_db) in
  stored.1 = Ok tt /\
  (@fetch_kubeconfig demo_env St 2%N 31%N stored.2).1 = Ok "apiVersion: v1"%string.
Proof.
  intros St stored. assert (Hok : stored.1 = Ok tt) by (vm_compute; reflexivity).
  split; [exact Hok|].
  pose proof (db_run _ _ _ (demo_world demo_db) (@kubeconfig_roundtrip demo_env St
    (pgcrypto_laws "kek") demo_db 2%N 31%N "apiVersion: v1" demo_audit eq_refl
    demo_unique_clusters) eq_refl) as Hr.
  fold stored in Hr. rewrite Hok in Hr.
  destruct (db_run _ _ _ stored.2 Hr eq_refl) as [_ [Hf|[[[n Hn] _]|(e & [[n Hn] _] & _)]]];
    [exact Hf|discriminate Hn..].
Defined.

(** Tenant 1 finalises the destruction of its cluster 30. *)
Lemma finalize_destroy_correct_witness :
  let St := @pgcrypto_store demo_env "kek" in
  let run := @finalize_destroy demo_env St 1%N 30%N demo_audit (demo_world demo_db) in
  run.1 = Ok tt /\
  exists now now', db_clusters (w_db run.2) =
    [destroyed_row now now' (demo_cluster 30%N 1%N (Some 21%N)); demo_cluster 31%N 2%N None].
Proof.
  intros St run. assert (Hok : run.1 = Ok tt) by (vm_compute; reflexivity).
  split; [exact Hok|].
  pose proof (@finalize_destroy_correct demo_env St (pgcrypto_laws "kek") demo_db 1%N 30%N
    demo_audit eq_refl demo_unique_clusters) as H.
  pose proof (db_run _ _ _ (demo_world demo_db) H eq_refl) as Hr. clear H.
  cbv beta in Hr. destruct Hr as [_ Hr].
  fold run in Hr. rewrite Hok in Hr. destruct Hr as (_ & now & now' & Hr).
  exists now, now'. rewrite Hr. reflexivity.
Defined.
