(* ===== verification/Addons.v ===== *)
(** The add-on context ([crates/addons/src]): the catalog of installable charts
    ([catalog.rs]), the repository over [cluster_addons] ([repository.rs]) and
    its use-cases ([service.rs]). *)

From Stdlib Require Import Ascii.
From stdpp Require Import base gmap strings list.
From S2P Require Import Prelude Errors Integrations Events Schema Database Tables.

(** * Catalog *)

Record AddonSpec := mkSpec {
  sp_slug : string;
  sp_chart_repo : string;
  sp_chart_name : string;
  sp_release_name : string;
  sp_namespace : string;
  sp_default_values_yaml : string;
}.

Definition nl : string := String "010"%char EmptyString.

Definition CATALOG : list AddonSpec :=
  [ mkSpec "ingress-nginx" "https://kubernetes.github.io/ingress-nginx" "ingress-nginx"
      "ingress-nginx" "ingress-nginx"
      ("controller:" +++ nl +++ "  replicaCount: 1" +++ nl +++ "  service:" +++ nl
         +++ "    type: NodePort" +++ nl);
    mkSpec "cert-manager" "https://charts.jetstack.io" "cert-manager"
      "cert-manager" "cert-manager"
      ("crds:" +++ nl +++ "  enabled: true" +++ nl) ].

(** [catalog.rs: lookup] *)
Definition lookup_addon (slug : string) : result PlatformError AddonSpec :=
  match List.find (fun s => String.eqb (sp_slug s) slug) CATALOG with
  | Some spec => Ok spec
  | None => Err (Invalid ("unknown addon: " +++ slug))
  end.

(** [catalog.rs: slugs] *)
Definition slugs : list string := map sp_slug CATALOG.

(** [model.rs: NewAddon] *)
Record NewAddon := mkNewAddon { na_addon : string; na_version : string }.

(** * Repository *)

Definition with_addon_status (status : AddonStatus) (reason : option string) (a : ClusterAddon)
  : ClusterAddon :=
  mkAddon (ad_id a) (ad_organization_id a) (ad_cluster_id a) (ad_addon a) (ad_version a)
    (ad_helm_release a) status reason (ad_created_at a) (ad_updated_at a) (ad_version_lock a)
    (ad_deleted_at a).

Definition live_addon (cluster_id : Uuid) (addon : string) (a : ClusterAddon) : bool :=
  bool_decide (ad_cluster_id a = cluster_id) && String.eqb (ad_addon a) addon
  && is_none (ad_deleted_at a).

Module AddonRepository.
Section AddonRepository.
Context `{En : Env}.

Definition upsert (organization_id cluster_id : Uuid) (addon version helm_release : string)
    (audit : AuditContext) : M World PlatformError ClusterAddon :=
  tenant_tx organization_id (Some audit)
    (existing <- sql (select (fun _ => live_addon cluster_id addon)) ;;
     match existing with
     | row :: _ => ret row
     | [] =>
         id <- now_v7 ;;
         sql (insert (fun now =>
           mkAddon id organization_id cluster_id addon version helm_release APending None
             now now 1 None))
     end).

Definition list_for_cluster (organization_id cluster_id : Uuid)
  : M World PlatformError (list ClusterAddon) :=
  rows <- tenant_tx organization_id None
    (sql (select (fun _ a => bool_decide (ad_cluster_id a = cluster_id)
                             && is_none (ad_deleted_at a)))) ;;
  ret (sort_by (fun a b => ad_created_at b <=? ad_created_at a) rows).

Definition update_addon_status (organization_id id : Uuid) (status : AddonStatus)
    (reason : option string) (audit : AuditContext) : M World PlatformError unit :=
  tenant_tx organization_id (Some audit)
    (sql (update (fun _ a => bool_decide (ad_id a = id))
            (fun _ => with_addon_status status reason))) ;;;
  ret tt.

Definition get_by_id (organization_id id : Uuid) : M World PlatformError (option ClusterAddon) :=
  rows <- tenant_tx organization_id None
    (sql (select (fun _ a => bool_decide (ad_id a = id) && is_none (ad_deleted_at a)))) ;;
  ret (hd_error rows).

(** * Use-cases *)

Definition request_install (organization_id cluster_id : Uuid) (new : NewAddon)
    (audit : AuditContext) : M World PlatformError ClusterAddon :=
  if String.eqb (trim (na_version new)) EmptyString
  then throw (Invalid "version must not be empty")
  else
    spec <- lift (lookup_addon (na_addon new)) ;;
    upsert organization_id cluster_id (sp_slug spec) (na_version new) (sp_release_name spec) audit.
End AddonRepository.
End AddonRepository.
Export AddonRepository.
