(* ===== verification/Workflows.v ===== *)
(** The provisioning workflows of [crates/workflows/src]: the activities
    ([activities.rs]) and their compositions ([workflows.rs]).  External calls
    go through [Externals] and are logged in [w_calls]; a [ProgressSink] hook
    runs at every step.  The theorems describe the calls a workflow makes, in
    order, for any answers: [traced] is the judgement, closed under the
    monad's operations, that the section [Traces] builds them with. *)

From Stdlib Require Import Ascii.
From stdpp Require Import base gmap strings list pretty.
From S2P Require Import Prelude Errors Integrations Events Schema Database.

(** * Data *)

(** [activities.rs: ActivityError] *)
Inductive ActivityError :=
| AHetzner (e : HetznerError)
| ASsh (e : SshError)
| AHelm (e : HelmError)
| AKubectl (e : KubectlError)
| ACloudInitTimeout (attempts : nat)
| AOther (msg : string).

(** [ActivityError::is_retryable] *)
Definition is_retryable (e : ActivityError) : bool :=
  match e with
  | AHetzner HTransport | ASsh (SshConnect _) | ASsh (SshTransport _) => true
  | AHetzner (HStatus status _) =>
      existsb (Z.eqb status) [408; 425; 429; 500; 502; 503; 504]
  | _ => false
  end.

Definition CLOUD_INIT_MAX_ATTEMPTS : nat := 60.
Definition CLOUD_INIT_POLL_INTERVAL : Z := 5.

Record ProvisionClusterInput := mkProvisionInput {
  pi_cluster_id : Uuid;
  pi_cluster_name : string;
  pi_location : string;
  pi_server_type : string;
  pi_worker_count : nat;
  pi_ssh_key : string;
  pi_user_data : string;
  pi_k3s_version : string;
}.

Record ProvisionClusterOutput := mkProvisionOutput {
  po_control_plane : HetznerServer;
  po_workers : list HetznerServer;
  po_kubeconfig : string;
}.

Record ScaleOutInput := mkScaleOut {
  so_cluster_id : Uuid;
  so_cluster_name : string;
  so_location : string;
  so_server_type : string;
  so_ssh_key : string;
  so_user_data : string;
  so_k3s_version : string;
  so_control_plane_endpoint : string;
  so_join_token : string;
  so_start_index : nat;
  so_count : nat;
}.

Record WorkerToRemove := mkWorkerToRemove {
  wr_server_id : ServerId;
  wr_node_name : string;
}.

(** * Shell quoting *)

(** [activities.rs: shell_escape] *)
Definition shell_escape (value : string) : string :=
  "'" +++ str_replace "'" "'\''" value +++ "'".

Definition install_server_cmd (k3s_version : string) : string :=
  "k3sup install --local --k3s-version " +++ shell_escape k3s_version.

Definition install_agent_cmd (control_plane_ip join_token k3s_version : string) : string :=
  "k3sup join --server-ip " +++ shell_escape control_plane_ip +++
  " --k3s-version " +++ shell_escape k3s_version +++
  " --token " +++ shell_escape join_token.

(** [Debug] of [ServerId] *)
Definition server_id_debug (id : ServerId) : string := "ServerId(" +++ pretty id +++ ")".

(** The progress hook: [ProgressSink::step], which cannot fail and makes no
    call through the four integration traits. *)
Class ProgressSink `{Env} := {
  progress_step : string -> World -> World;
  progress_calls s w : w_calls (progress_step s w) = w_calls w;
}.

(** [workflows.rs: NoopProgress] *)
Definition NoopProgress `{Env} : ProgressSink := {|
  progress_step _ w := w;
  progress_calls _ _ := eq_refl;
|}.

Section Workflows.
Context `{En : Env, Ex : Externals, Sink : !ProgressSink}.

Definition external {E A} (answer : list Call -> result E A) (log : result E A -> Call)
  : M World E A :=
  fun w => let r := answer (w_calls w) in (r, add_call (log r) w).

Definition create_server (p : CreateServerParams) :=
  external (fun h => on_create_server h p) (CCreate p).
Definition get_server (id : ServerId) :=
  external (fun h => on_get_server h id) (CGet id).
Definition delete_server (id : ServerId) :=
  external (fun h => on_delete_server h id) (CDelete id).
Definition ssh_run (target : SshTarget) (command : string) :=
  external (fun h => on_ssh h target command) (CSsh target command).
Definition upgrade_install (path : string) (p : InstallParams) :=
  external (fun h => on_helm_install h path p) (CHelmInstall path p).
Definition uninstall (path release namespace : string) :=
  external (fun h => on_helm_uninstall h path release namespace)
    (CHelmUninstall path release namespace).
Definition drain_node (path node : string) :=
  external (fun h => on_drain h path node) (CDrain path node).
Definition delete_node (path node : string) :=
  external (fun h => on_delete_node h path node) (CDeleteNode path node).
Definition sleep {E} (secs : Z) : M World E unit := modify (add_call (CSleep secs)).
Definition step {E} (s : string) : M World E unit :=
  modify (fun w => progress_step s (add_call (CStep s) w)).

(** * Activities *)

Definition hetzner_delete_server_idempotent (id : ServerId) : M World ActivityError unit :=
  r <- attempt (delete_server id) ;;
  match r with
  | Ok tt => ret tt
  | Err (HStatus status body) =>
      if status =? 404 then ret tt else throw (AHetzner (HStatus status body))
  | Err other => throw (AHetzner other)
  end.

Definition hetzner_create_server (p : CreateServerParams) : M World ActivityError ServerId :=
  map_err AHetzner (create_server p).

(** The [for attempt in 0..CLOUD_INIT_MAX_ATTEMPTS] loop, [n] rounds left. *)
Fixpoint cloud_init_polls (n : nat) (server_id : ServerId) : M World ActivityError HetznerServer :=
  match n with
  | O => throw (ACloudInitTimeout CLOUD_INIT_MAX_ATTEMPTS)
  | S n' =>
      server <- map_err AHetzner (get_server server_id) ;;
      match hs_status server with
      | SReady => ret server
      | SFailed =>
          throw (AOther ("server " +++ server_id_debug server_id
                           +++ " reported Failed status during boot"))
      | SInitializing =>
          sleep CLOUD_INIT_POLL_INTERVAL ;;; cloud_init_polls n' server_id
      end
  end.
Definition wait_for_cloud_init (server_id : ServerId) : M World ActivityError HetznerServer :=
  cloud_init_polls CLOUD_INIT_MAX_ATTEMPTS server_id.

Definition ssh_install_k3s_server (target : SshTarget) (k3s_version : string)
  : M World ActivityError string :=
  _installed <- map_err ASsh (ssh_run target (install_server_cmd k3s_version)) ;;
  token <- map_err ASsh
    (ssh_run target "sudo cat /var/lib/rancher/k3s/server/node-token") ;;
  ret (trim token).

Definition ssh_install_k3s_agent (worker : SshTarget)
    (control_plane_ip join_token k3s_version : string) : M World ActivityError unit :=
  _out <- map_err ASsh
    (ssh_run worker (install_agent_cmd control_plane_ip join_token k3s_version)) ;;
  ret tt.

Definition collect_kubeconfig (control_plane : SshTarget) (public_endpoint : string)
  : M World ActivityError string :=
  raw <- map_err ASsh (ssh_run control_plane "sudo cat /etc/rancher/k3s/k3s.yaml") ;;
  ret (str_replace "https://127.0.0.1:6443" public_endpoint raw).

Definition kubectl_drain_node (path node : string) : M World ActivityError unit :=
  map_err AKubectl (drain_node path node).
Definition kubectl_delete_node (path node : string) : M World ActivityError unit :=
  map_err AKubectl (delete_node path node).
Definition helm_install_chart (path : string) (p : InstallParams) : M World ActivityError unit :=
  map_err AHelm (upgrade_install path p).

Definition control_plane_params (cluster_id : Uuid)
    (cluster_name server_type location ssh_key user_data : string) : CreateServerParams :=
  mkCreate (cluster_name +++ "-cp-01") server_type location ssh_key user_data cluster_id.

Definition worker_key (cluster_id : Uuid) (index : nat) : string :=
  "kubinate.worker:" +++ uuid_str cluster_id +++ ":" +++ pretty index.
Definition worker_params (cluster_id : Uuid) (cluster_name : string) (index : nat)
    (server_type location ssh_key user_data : string) : CreateServerParams :=
  mkCreate (cluster_name +++ "-worker-" +++ pad2 index) server_type location ssh_key user_data
    (uuid_v5 (worker_key cluster_id index)).

(** * Workflows *)

Definition ssh_target (server : HetznerServer) : M World ActivityError SshTarget :=
  match hs_ipv4 server with
  | Some host => ret (mkTarget host "kubinate")
  | None => throw (AOther ("server " +++ server_id_debug (hs_id server)
                             +++ " reported Ready but has no IPv4"))
  end.

Definition join_worker (endpoint join_token k3s_version : string) (worker : HetznerServer)
  : M World ActivityError unit :=
  target <- ssh_target worker ;;
  ssh_install_k3s_agent target endpoint join_token k3s_version.

Definition public_ip (server : HetznerServer) : string := default "0.0.0.0" (hs_ipv4 server).
Definition join_endpoint (server : HetznerServer) : string :=
  match hs_private_ipv4 server with Some ip => ip | None => public_ip server end.

Definition provision_worker (input : ProvisionClusterInput) (index : nat) : CreateServerParams :=
  worker_params (pi_cluster_id input) (pi_cluster_name input) index
    (pi_server_type input) (pi_location input) (pi_ssh_key input) (pi_user_data input).
Definition provision_control_plane (input : ProvisionClusterInput) : CreateServerParams :=
  control_plane_params (pi_cluster_id input) (pi_cluster_name input)
    (pi_server_type input) (pi_location input) (pi_ssh_key input) (pi_user_data input).

Definition provision_cluster (input : ProvisionClusterInput)
  : M World ActivityError ProvisionClusterOutput :=
  step "creating_control_plane" ;;;
  cp_id <- hetzner_create_server (provision_control_plane input) ;;
  step "waiting_cloud_init_cp" ;;;
  cp_server <- wait_for_cloud_init cp_id ;;
  cp_target <- ssh_target cp_server ;;
  step "installing_k3s_server" ;;;
  join_token <- ssh_install_k3s_server cp_target (pi_k3s_version input) ;;
  step "creating_workers" ;;;
  worker_ids <- map_each (fun index => hetzner_create_server (provision_worker input index))
                  (seq 0 (pi_worker_count input)) ;;
  step "waiting_cloud_init_workers" ;;;
  worker_servers <- map_each wait_for_cloud_init worker_ids ;;
  step "installing_k3s_agents" ;;;
  for_each (join_worker (join_endpoint cp_server) join_token (pi_k3s_version input))
    worker_servers ;;;
  step "collecting_kubeconfig" ;;;
  kubeconfig <- collect_kubeconfig cp_target
                  ("https://" +++ public_ip cp_server +++ ":6443") ;;
  step "done" ;;;
  ret (mkProvisionOutput cp_server worker_servers kubeconfig).

Definition destroy_cluster (server_ids : list ServerId) : M World ActivityError unit :=
  step "destroying_servers" ;;;
  for_each hetzner_delete_server_idempotent server_ids ;;;
  step "done".

Definition install_addon (params : InstallParams) (kubeconfig_path : string)
  : M World ActivityError unit :=
  step "installing" ;;;
  helm_install_chart kubeconfig_path params ;;;
  step "done".

Definition scale_out_worker (input : ScaleOutInput) (offset : nat) : CreateServerParams :=
  worker_params (so_cluster_id input) (so_cluster_name input) (so_start_index input + offset)
    (so_server_type input) (so_location input) (so_ssh_key input) (so_user_data input).

Definition scale_out (input : ScaleOutInput) : M World ActivityError (list HetznerServer) :=
  step "creating_workers" ;;;
  ids <- map_each (fun offset => hetzner_create_server (scale_out_worker input offset))
           (seq 0 (so_count input)) ;;
  step "waiting_cloud_init_workers" ;;;
  workers <- map_each wait_for_cloud_init ids ;;
  step "installing_k3s_agents" ;;;
  for_each (join_worker (so_control_plane_endpoint input) (so_join_token input)
              (so_k3s_version input)) workers ;;;
  step "done" ;;;
  ret workers.

Definition scale_in (targets : list WorkerToRemove) (kubeconfig_path : string)
  : M World ActivityError unit :=
  step "draining_nodes" ;;;
  for_each (fun t => kubectl_drain_node kubeconfig_path (wr_node_name t)) targets ;;;
  step "deleting_nodes" ;;;
  for_each (fun t => kubectl_delete_node kubeconfig_path (wr_node_name t)) targets ;;;
  step "destroying_servers" ;;;
  for_each (fun t => hetzner_delete_server_idempotent (wr_server_id t)) targets ;;;
  step "done".
End Workflows.

(** * Traces *)

Section Traces.
Context `{En : Env, Ex : Externals, Sink : !ProgressSink}.

(** From any state, [m] appends calls [tr] to the log that [T] relates to its
    result. *)
Definition traced {E A} (m : M World E A) (T : result E A -> list Call -> Prop) : Prop :=
  forall w, exists tr, w_calls (m w).2 = w_calls w ++ tr /\ T (m w).1 tr.

Lemma traced_ret {E A} (a : A) (T : result E A -> list Call -> Prop) :
  T (Ok a) [] -> traced (ret a) T.
Proof. intros HT w. exists []. by rewrite app_nil_r. Qed.

Lemma traced_throw {E A} (e : E) (T : result E A -> list Call -> Prop) :
  T (Err e) [] -> traced (throw e) T.
Proof. intros HT w. exists []. by rewrite app_nil_r. Qed.

Lemma traced_bind {E A B} (m : M World E A) (k : A -> M World E B) T :
  traced m (fun r tr => match r with
                        | Ok a => traced (k a) (fun r' tr' => T r' (tr ++ tr'))
                        | Err e => T (Err e) tr
                        end) ->
  traced (bind m k) T.
Proof.
  intros Hm w. unfold bind. destruct (Hm w) as (tr & Hc & HT).
  destruct (m w) as [[a|e] w'] eqn:Hmw; simpl in *; [|eauto].
  destruct (HT w') as (tr' & Hc' & HT'). exists (tr ++ tr').
  by rewrite app_assoc, <- Hc.
Qed.

Lemma traced_mono {E A} (m : M World E A) (T T' : result E A -> list Call -> Prop) :
  traced m T -> (forall r tr, T r tr -> T' r tr) -> traced m T'.
Proof. intros Hm HT w. destruct (Hm w) as (tr & ? & ?). eauto. Qed.

Lemma traced_map_err {E F A} (f : E -> F) (m : M World E A) T :
  traced m (fun r tr => T (result_map_err f r) tr) -> traced (map_err f m) T.
Proof.
  intros Hm w. destruct (Hm w) as (tr & ? & ?). exists tr.
  unfold map_err. by destruct (m w).
Qed.

Lemma traced_attempt {E F A} (m : M World E A) (T : result F (result E A) -> list Call -> Prop) :
  traced m (fun r tr => T (Ok r) tr) -> traced (attempt m) T.
Proof.
  intros Hm w. destruct (Hm w) as (tr & ? & ?). exists tr.
  unfold attempt. by destruct (m w).
Qed.

Lemma traced_external {E A} (answer : list Call -> result E A) log T :
  (forall r, T r [log r]) -> traced (external answer log) T.
Proof. intros HT w. exists [log (answer (w_calls w))]. by destruct w. Qed.

Lemma traced_sleep {E} secs (T : result E unit -> list Call -> Prop) :
  T (Ok tt) [CSleep secs] -> traced (sleep secs) T.
Proof. intros HT w. exists [CSleep secs]. by destruct w. Qed.

Lemma traced_step {E} s (T : result E unit -> list Call -> Prop) :
  T (Ok tt) [CStep s] -> traced (step s) T.
Proof.
  intros HT w. exists [CStep s]. simpl. rewrite progress_calls. by destruct w.
Qed.

(** A collecting loop keeps an invariant on the elements handled, the values
    collected and the calls made. *)
Lemma traced_map_each {E X A} (f : X -> M World E A) l
    (I : list X -> list A -> list Call -> Prop) T :
  I [] [] [] ->
  (forall done x todo acc tr, l = done ++ x :: todo -> I done acc tr ->
     traced (f x) (fun r t => match r with
                              | Ok a => I (done ++ [x]) (acc ++ [a]) (tr ++ t)
                              | Err e => T (Err e) (tr ++ t)
                              end)) ->
  (forall acc tr, I l acc tr -> T (Ok acc) tr) ->
  traced (map_each f l) T.
Proof.
  intros Hinit Hstep Hend w.
  cut (wp (map_each f l) (fun r w' =>
         exists tr, w_calls w' = w_calls w ++ tr /\ T r tr) w); [done|].
  apply (wp_map_each _ _ (fun dn acc w' =>
    exists tr, w_calls w' = w_calls w ++ tr /\ I dn acc tr)).
  - exists []. by rewrite app_nil_r.
  - intros dn x todo acc w' Hl (tr & Hc & HI).
    destruct (Hstep _ _ _ _ _ Hl HI w') as (t & Hc' & HT). unfold wp.
    destruct (f x w') as [[a|e] w2]; simpl in *;
      (exists (tr ++ t); split; [by rewrite Hc', Hc, app_assoc|done]).
  - intros acc w' (tr & ? & ?). eauto.
Qed.

Lemma traced_for_each {E X} (f : X -> M World E unit) l
    (I : list X -> list Call -> Prop) T :
  I [] [] ->
  (forall done x todo tr, l = done ++ x :: todo -> I done tr ->
     traced (f x) (fun r t => match r with
                              | Ok _ => I (done ++ [x]) (tr ++ t)
                              | Err e => T (Err e) (tr ++ t)
                              end)) ->
  (forall tr, I l tr -> T (Ok tt) tr) ->
  traced (for_each f l) T.
Proof.
  intros Hinit Hstep Hend w.
  cut (wp (for_each f l) (fun r w' =>
         exists tr, w_calls w' = w_calls w ++ tr /\ T r tr) w); [done|].
  apply (wp_for_each _ _ (fun dn w' =>
    exists tr, w_calls w' = w_calls w ++ tr /\ I dn tr)).
  - exists []. by rewrite app_nil_r.
  - intros dn x todo w' Hl (tr & Hc & HI).
    destruct (Hstep _ _ _ _ Hl HI w') as (t & Hc' & HT). unfold wp.
    destruct (f x w') as [[[]|e] w2]; simpl in *;
      (exists (tr ++ t); split; [by rewrite Hc', Hc, app_assoc|done]).
  - intros w' (tr & ? & ?). eauto.
Qed.
End Traces.

(** One structural step of the trace calculus. *)
Ltac tr_step :=
  lazymatch goal with
  | |- traced (ret _) _ => apply traced_ret
  | |- traced (throw _) _ => apply traced_throw
  | |- traced (bind _ _) _ => apply traced_bind
  | |- traced (map_err _ _) _ => apply traced_map_err
  | |- traced (attempt _) _ => apply traced_attempt
  | |- traced (sleep _) _ => apply traced_sleep
  | |- traced (step _) _ => apply traced_step
  | |- traced (external _ _) _ => apply traced_external; intros [?|?]; simpl
  | |- traced (match ?x with _ => _ end) _ => destruct x eqn:?
  end.
Ltac tr_steps := repeat (tr_step; cbn beta iota).
Tactic Notation "tr_call" uconstr(H) := eapply traced_mono; [eapply H|]; cbn beta.

Section Provisioning.
Context `{En : Env, Ex : Externals, Sink : !ProgressSink}.

(** ** Failures *)

(** The error a call surfaces as, if it failed ([404] on a delete is not a
    failure). *)
Definition call_error (c : Call) : option ActivityError :=
  match c with
  | CCreate _ (Err e) | CGet _ (Err e) => Some (AHetzner e)
  | CDelete _ (Err (HStatus s b)) => if s =? 404 then None else Some (AHetzner (HStatus s b))
  | CDelete _ (Err e) => Some (AHetzner e)
  | CSsh _ _ (Err e) => Some (ASsh e)
  | CHelmInstall _ _ (Err e) | CHelmUninstall _ _ _ (Err e) => Some (AHelm e)
  | CDrain _ _ (Err e) | CDeleteNode _ _ (Err e) => Some (AKubectl e)
  | _ => None
  end.
Definition clean (tr : list Call) : Prop := Forall (fun c => call_error c = None) tr.

Definition local_error (e : ActivityError) : Prop :=
  match e with ACloudInitTimeout _ | AOther _ => True | _ => False end.

(** No call follows a failed one, and the error reported is the one the last
    call failed with (or the workflow's own: a boot that timed out or failed,
    a server without an address). *)
Definition fail_fast {A} (r : result ActivityError A) (tr : list Call) : Prop :=
  match r with
  | Ok _ => clean tr
  | Err e =>
      (clean tr /\ local_error e) \/
      exists pre c, tr = pre ++ [c] /\ clean pre /\ call_error c = Some e
  end.

Lemma fail_fast_app {A} (r : result ActivityError A) t1 t2 :
  clean t1 -> fail_fast r t2 -> fail_fast r (t1 ++ t2).
Proof.
  intros H1 H2. destruct r as [a|e]; simpl in *; [by apply Forall_app|].
  destruct H2 as [[H2 H3]|(pre & c & -> & H2 & H3)].
  - left. split; [by apply Forall_app|done].
  - right. exists (t1 ++ pre), c. rewrite app_assoc. split; [done|].
    split; [by apply Forall_app|done].
Qed.

Lemma fail_fast_bind {A B} (m : M World ActivityError A) (k : A -> M World ActivityError B) :
  traced m fail_fast -> (forall a, traced (k a) fail_fast) -> traced (bind m k) fail_fast.
Proof.
  intros Hm Hk. apply traced_bind. tr_call Hm. intros [a|e] tr Htr; [|done].
  tr_call (Hk a). intros r tr'. by apply fail_fast_app.
Qed.

Lemma fail_fast_map_each {X A} (f : X -> M World ActivityError A) l :
  (forall x, traced (f x) fail_fast) -> traced (map_each f l) fail_fast.
Proof.
  intros Hf. apply (traced_map_each _ _ (fun _ _ => clean)); [constructor| |done].
  intros dn x todo acc tr _ Htr. tr_call (Hf x).
  intros [a|e] t Ht; simpl in Ht; [by apply Forall_app|].
  by apply (fail_fast_app (Err e)).
Qed.

Lemma fail_fast_for_each {X} (f : X -> M World ActivityError unit) l :
  (forall x, traced (f x) fail_fast) -> traced (for_each f l) fail_fast.
Proof.
  intros Hf. apply (traced_for_each _ _ (fun _ => clean)); [constructor| |done].
  intros dn x todo tr _ Htr. tr_call (Hf x).
  intros [a|e] t Ht; simpl in Ht; [by apply Forall_app|].
  by apply (fail_fast_app (Err e)).
Qed.

(** A single call, its error wrapped. *)
Lemma fail_fast_external {E A} (wrap : E -> ActivityError) (answer : list Call -> result E A) log :
  (forall a, call_error (log (Ok a)) = None) ->
  (forall e, call_error (log (Err e)) = Some (wrap e)) ->
  traced (map_err wrap (external answer log)) fail_fast.
Proof.
  intros Hok Herr. apply traced_map_err, traced_external. intros [a|e]; simpl.
  - by repeat constructor.
  - right. exists [], (log (Err e)). by repeat constructor.
Qed.
End Provisioning.

Create HintDb fail_fast discriminated.
#[export] Hint Resolve fail_fast_bind fail_fast_map_each fail_fast_for_each : fail_fast.
#[export] Hint Extern 1 (traced (map_err _ _) fail_fast) =>
  (apply fail_fast_external; done) : fail_fast.
#[export] Hint Extern 1 (traced (step _) fail_fast) =>
  (apply traced_step; by repeat constructor) : fail_fast.
#[export] Hint Extern 1 (traced (ret _) fail_fast) =>
  (apply traced_ret; by constructor) : fail_fast.
#[export] Hint Extern 1 (traced (throw _) fail_fast) =>
  (apply traced_throw; left; by repeat constructor) : fail_fast.

Section Contracts.
Context `{En : Env, Ex : Externals, Sink : !ProgressSink}.

Lemma delete_idempotent_fail_fast id :
  traced (hetzner_delete_server_idempotent id) fail_fast.
Proof.
  unfold hetzner_delete_server_idempotent, delete_server.
  apply traced_bind, traced_attempt, traced_external. intros [[]|[e| |s b]]; simpl.
  - apply traced_ret. by repeat constructor.
  - apply traced_throw. right. exists [], (CDelete id (Err (HCredential e))). by repeat constructor.
  - apply traced_throw. right. exists [], (CDelete id (Err HTransport)). by repeat constructor.
  - destruct (s =? 404) eqn:Hs.
    + apply traced_ret. constructor; [|constructor]. simpl. by rewrite Hs.
    + apply traced_throw. right. exists [], (CDelete id (Err (HStatus s b))).
      simpl. rewrite Hs. by repeat constructor.
Qed.

Lemma cloud_init_polls_fail_fast n id : traced (cloud_init_polls n id) fail_fast.
Proof.
  induction n as [|n IH]; simpl; [by auto with fail_fast|].
  apply fail_fast_bind; [unfold get_server; by auto with fail_fast|].
  intros server. destruct (hs_status server); [by auto with fail_fast| |by auto with fail_fast].
  apply fail_fast_bind; [|by intros _].
  apply traced_sleep. by repeat constructor.
Qed.
End Contracts.
#[export] Hint Resolve delete_idempotent_fail_fast cloud_init_polls_fail_fast : fail_fast.

Section FailFast.
Context `{En : Env, Ex : Externals, Sink : !ProgressSink}.

Lemma ssh_target_fail_fast server : traced (ssh_target server) fail_fast.
Proof. unfold ssh_target. destruct (hs_ipv4 server); by auto with fail_fast. Qed.
#[local] Hint Resolve ssh_target_fail_fast : fail_fast.

Lemma create_server_fail_fast p : traced (hetzner_create_server p) fail_fast.
Proof. unfold hetzner_create_server, create_server. by auto with fail_fast. Qed.
#[local] Hint Resolve create_server_fail_fast : fail_fast.

Lemma boot_fail_fast id : traced (wait_for_cloud_init id) fail_fast.
Proof. apply cloud_init_polls_fail_fast. Qed.
#[local] Hint Resolve boot_fail_fast : fail_fast.

Lemma install_server_fail_fast t v : traced (ssh_install_k3s_server t v) fail_fast.
Proof. unfold ssh_install_k3s_server, ssh_run. by auto 8 with fail_fast. Qed.
#[local] Hint Resolve install_server_fail_fast : fail_fast.

Lemma join_worker_fail_fast ip tok v s : traced (join_worker ip tok v s) fail_fast.
Proof. unfold join_worker, ssh_install_k3s_agent, ssh_run. by auto 8 with fail_fast. Qed.
#[local] Hint Resolve join_worker_fail_fast : fail_fast.

Lemma collect_kubeconfig_fail_fast t e : traced (collect_kubeconfig t e) fail_fast.
Proof. unfold collect_kubeconfig, ssh_run. by auto 8 with fail_fast. Qed.
#[local] Hint Resolve collect_kubeconfig_fail_fast : fail_fast.

Lemma provision_fail_fast input : traced (provision_cluster input) fail_fast.
Proof. unfold provision_cluster. by auto 60 with fail_fast. Qed.

Lemma scale_out_fail_fast input : traced (scale_out input) fail_fast.
Proof. unfold scale_out. by auto 30 with fail_fast. Qed.

Lemma install_addon_fail_fast p path : traced (install_addon p path) fail_fast.
Proof. unfold install_addon, helm_install_chart, upgrade_install. by auto 30 with fail_fast. Qed.

Lemma destroy_fail_fast ids : traced (destroy_cluster ids) fail_fast.
Proof. unfold destroy_cluster. by auto 30 with fail_fast. Qed.

Lemma scale_in_fail_fast targets path : traced (scale_in targets path) fail_fast.
Proof.
  unfold scale_in, kubectl_drain_node, kubectl_delete_node, drain_node, delete_node.
  by auto 30 with fail_fast.
Qed.
End FailFast.

(** ** The calls of a successful run *)

Section Success.
Context `{En : Env, Ex : Externals, Sink : !ProgressSink}.

(** The polls of a boot that ended ready: [waits] answers while it was still
    initializing, each followed by a pause. *)
Definition wait_calls (id : ServerId) (waits : list HetznerServer) : list Call :=
  concat (map (fun s => [CGet id (Ok s); CSleep CLOUD_INIT_POLL_INTERVAL]) waits).
Definition booted (id : ServerId) (server : HetznerServer) (tr : list Call) : Prop :=
  hs_status server = SReady /\
  exists waits, (length waits < CLOUD_INIT_MAX_ATTEMPTS)%nat /\
    Forall (fun s => hs_status s = SInitializing) waits /\
    tr = wait_calls id waits ++ [CGet id (Ok server)].

(** The agents joined: every worker has an address, and got the join command. *)
Definition joined (endpoint token version : string) (workers : list HetznerServer)
    (tr : list Call) : Prop :=
  Forall2 (fun w c => exists host out, hs_ipv4 w = Some host /\
    c = CSsh (mkTarget host "kubinate") (install_agent_cmd endpoint token version) (Ok out))
    workers tr.

Definition created (mk : nat -> CreateServerParams) (indices : list nat) (ids : list ServerId)
    (tr : list Call) : Prop :=
  length ids = length indices /\
  tr = zip_with (fun index id => CCreate (mk index) (Ok id)) indices ids.

Definition workers_booted (ids : list ServerId) (workers : list HetznerServer)
    (tr : list Call) : Prop :=
  exists boots, tr = concat boots /\ length workers = length ids /\
    Forall2 (fun p t => booted p.1 p.2 t) (zip ids workers) boots.

Definition provisioned (input : ProvisionClusterInput) (out : ProvisionClusterOutput)
    (tr : list Call) : Prop :=
  let cp := po_control_plane out in
  let version := pi_k3s_version input in
  exists cp_id cp_boot host o1 token raw worker_ids t_create t_boot t_join,
    hs_ipv4 cp = Some host /\
    booted cp_id cp cp_boot /\
    created (provision_worker input) (seq 0 (pi_worker_count input)) worker_ids t_create /\
    workers_booted worker_ids (po_workers out) t_boot /\
    joined (join_endpoint cp) (trim token) version (po_workers out) t_join /\
    po_kubeconfig out = str_replace "https://127.0.0.1:6443"
                          ("https://" +++ host +++ ":6443") raw /\
    let cp_target := mkTarget host "kubinate" in
    tr = [CStep "creating_control_plane";
          CCreate (provision_control_plane input) (Ok cp_id);
          CStep "waiting_cloud_init_cp"] ++ cp_boot ++
         [CStep "installing_k3s_server";
          CSsh cp_target (install_server_cmd version) (Ok o1);
          CSsh cp_target "sudo cat /var/lib/rancher/k3s/server/node-token" (Ok token);
          CStep "creating_workers"] ++ t_create ++
         [CStep "waiting_cloud_init_workers"] ++ t_boot ++
         [CStep "installing_k3s_agents"] ++ t_join ++
         [CStep "collecting_kubeconfig";
          CSsh cp_target "sudo cat /etc/rancher/k3s/k3s.yaml" (Ok raw);
          CStep "done"].

Definition on_ok {E A} (T : A -> list Call -> Prop) (r : result E A) (tr : list Call) : Prop :=
  match r with Ok a => T a tr | Err _ => True end.

Lemma boot_ok id : traced (wait_for_cloud_init id) (on_ok (booted id)).
Proof.
  cut (forall n, traced (cloud_init_polls n id) (on_ok (fun server tr =>
         hs_status server = SReady /\
         exists waits, (length waits < n)%nat /\
           Forall (fun s => hs_status s = SInitializing) waits /\
           tr = wait_calls id waits ++ [CGet id (Ok server)]))).
  { intros Hn. apply Hn. }
  induction n as [|n IH]; simpl; [by tr_steps|].
  apply traced_bind, traced_map_err, traced_external. intros [server|e]; simpl; [|done].
  destruct (hs_status server) eqn:Hs.
  - apply traced_ret. split; [done|]. exists []. split; [simpl; lia|]. by repeat constructor.
  - apply traced_bind, traced_sleep. tr_call IH. intros [r|e] tr; [|done].
    intros (Hr & waits & Hlen & Hw & ->). split; [done|]. exists (server :: waits).
    split; [simpl; lia|]. split; [by constructor|done].
  - by apply traced_throw.
Qed.

Lemma create_each_ok (mk : nat -> CreateServerParams) indices :
  traced (map_each (fun index => hetzner_create_server (mk index)) indices)
    (on_ok (created mk indices)).
Proof.
  apply (traced_map_each _ _ (created mk)); [done| |done].
  intros dn x todo acc tr _ [Hlen ->].
  apply traced_map_err, traced_external. intros [id|e]; simpl; [|done].
  split; [by rewrite !length_app, Hlen|]. by rewrite zip_with_app.
Qed.

Lemma boot_each_ok ids :
  traced (map_each wait_for_cloud_init ids) (on_ok (workers_booted ids)).
Proof.
  apply (traced_map_each _ _ workers_booted); [by exists []| |done].
  intros dn x todo acc tr _ (boots & -> & Hlen & Hb).
  tr_call boot_ok. intros [server|e] t; [|done]. intros Ht.
  exists (boots ++ [t]). split; [by rewrite concat_app; simpl; rewrite app_nil_r|].
  split; [by rewrite !length_app, Hlen|].
  rewrite zip_with_app by done. apply Forall2_app; [done|]. simpl. constructor; [exact Ht|constructor].
Qed.

Lemma join_each_ok endpoint token version workers :
  traced (for_each (join_worker endpoint token version) workers)
    (on_ok (fun _ => joined endpoint token version workers)).
Proof.
  apply (traced_for_each _ _ (joined endpoint token version)); [constructor| |done].
  intros dn x todo tr _ Hj. unfold join_worker, ssh_target.
  apply traced_bind. destruct (hs_ipv4 x) as [host|] eqn:Hx; [|by apply traced_throw].
  apply traced_ret. apply traced_bind, traced_map_err, traced_external.
  intros [out|e]; simpl; [|done]. apply traced_ret. simpl.
  apply Forall2_app; [done|]. constructor; [|constructor]. by exists host, out.
Qed.

Lemma provision_ok input : traced (provision_cluster input) (on_ok (provisioned input)).
Proof.
  unfold provision_cluster.
  apply traced_bind, traced_step. apply traced_bind, traced_map_err, traced_external.
  intros [cp_id|e]; simpl; [|done]. apply traced_bind, traced_step.
  apply traced_bind. tr_call boot_ok. intros [cp|e] cp_boot; [|done]. intros Hboot.
  apply traced_bind. unfold ssh_target.
  destruct (hs_ipv4 cp) as [host|] eqn:Hhost; [|by apply traced_throw]. apply traced_ret.
  apply traced_bind, traced_step. apply traced_bind.
  apply traced_bind, traced_map_err, traced_external. intros [o1|e]; simpl; [|done].
  apply traced_bind, traced_map_err, traced_external. intros [token|e]; simpl; [|done].
  apply traced_ret. apply traced_bind, traced_step. apply traced_bind.
  tr_call create_each_ok. intros [ids|e] t_create; [|done]. intros Hcreate.
  apply traced_bind, traced_step. apply traced_bind.
  tr_call boot_each_ok. intros [workers|e] t_boot; [|done]. intros Hboots.
  apply traced_bind, traced_step. apply traced_bind.
  tr_call join_each_ok. intros [[]|e] t_join; [|done]. intros Hjoin.
  apply traced_bind, traced_step. apply traced_bind.
  apply traced_bind, traced_map_err, traced_external. intros [raw|e]; simpl; [|done].
  apply traced_ret. apply traced_bind, traced_step. apply traced_ret.
  exists cp_id, cp_boot, host, o1, token, raw, ids, t_create, t_boot, t_join. simpl.
  unfold public_ip. rewrite Hhost. repeat (split; [done|]).
  by do 3 (rewrite <- ?app_assoc; simpl).
Qed.

(** The calls of a successful scale-out. *)
Definition scaled_out (input : ScaleOutInput) (workers : list HetznerServer)
    (tr : list Call) : Prop :=
  exists ids t_create t_boot t_join,
    created (scale_out_worker input) (seq 0 (so_count input)) ids t_create /\
    workers_booted ids workers t_boot /\
    joined (so_control_plane_endpoint input) (so_join_token input) (so_k3s_version input)
      workers t_join /\
    tr = [CStep "creating_workers"] ++ t_create ++
         [CStep "waiting_cloud_init_workers"] ++ t_boot ++
         [CStep "installing_k3s_agents"] ++ t_join ++ [CStep "done"].

Lemma scale_out_ok input : traced (scale_out input) (on_ok (scaled_out input)).
Proof.
  unfold scale_out. apply traced_bind, traced_step. apply traced_bind.
  tr_call create_each_ok. intros [ids|e] t_create; [|done]. intros Hcreate.
  apply traced_bind, traced_step. apply traced_bind.
  tr_call boot_each_ok. intros [workers|e] t_boot; [|done]. intros Hboots.
  apply traced_bind, traced_step. apply traced_bind.
  tr_call join_each_ok. intros [[]|e] t_join; [|done]. intros Hjoin.
  apply traced_bind, traced_step. apply traced_ret.
  exists ids, t_create, t_boot, t_join. repeat (split; [done|]).
  by do 3 (rewrite <- ?app_assoc; simpl).
Qed.
End Success.

(** ** Deletion *)

Section Deletion.
Context `{En : Env, Ex : Externals, Sink : !ProgressSink}.

(** A loop of single calls: every answer acceptable, or the first one that is
    not ends the loop. *)
Definition each_call {X E} (call : X -> result E unit -> Call) (fine : result E unit -> Prop)
    (wrap : E -> ActivityError) (l : list X) (r : result ActivityError unit)
    (tr : list Call) : Prop :=
  match r with
  | Ok _ => exists rs, length rs = length l /\ Forall fine rs /\ tr = zip_with call l rs
  | Err e => exists done x todo rs e',
      l = done ++ x :: todo /\ length rs = length done /\ Forall fine rs /\
      tr = zip_with call done rs ++ [call x (Err e')] /\ e = wrap e' /\ ~ fine (Err e')
  end.

Lemma each_call_loop {X E} (call : X -> result E unit -> Call) fine wrap
    (f : X -> M World ActivityError unit) l :
  (forall x, traced (f x) (fun r tr => exists r', tr = [call x r'] /\
     match r with
     | Ok _ => fine r'
     | Err e => exists e', r' = Err e' /\ e = wrap e' /\ ~ fine r'
     end)) ->
  traced (for_each f l) (each_call call fine wrap l).
Proof.
  intros Hf. apply (traced_for_each _ _ (fun dn tr =>
    exists rs, length rs = length dn /\ Forall fine rs /\ tr = zip_with call dn rs));
    [by exists []| |done].
  intros dn x todo tr -> (rs & Hlen & Hrs & ->). tr_call (Hf x).
  intros [[]|e] t (r' & -> & Hr).
  - exists (rs ++ [r']). split; [by rewrite !length_app, Hlen|].
    split; [by apply Forall_app; repeat constructor|]. by rewrite zip_with_app.
  - destruct Hr as (e' & -> & -> & Hr). exists dn, x, todo, rs, e'. done.
Qed.

(** Deleted, or already gone. *)
Definition gone (r : result HetznerError unit) : Prop :=
  r = Ok tt \/ exists body, r = Err (HStatus 404 body).
Definition succeeded {E} (r : result E unit) : Prop := r = Ok tt.

Lemma delete_one id :
  traced (hetzner_delete_server_idempotent id) (fun r tr => exists r', tr = [CDelete id r'] /\
    match r with
    | Ok _ => gone r'
    | Err e => exists e', r' = Err e' /\ e = AHetzner e' /\ ~ gone r'
    end).
Proof.
  unfold hetzner_delete_server_idempotent, delete_server.
  apply traced_bind, traced_attempt, traced_external. intros [[]|e].
  - apply traced_ret. eexists. split; [done|]. by left.
  - destruct e as [e| |s b]; [| |destruct (s =? 404) eqn:Hs].
    + apply traced_throw. eexists. split; [done|]. eexists. repeat split. by intros [|[]].
    + apply traced_throw. eexists. split; [done|]. eexists. repeat split. by intros [|[]].
    + apply Z.eqb_eq in Hs as ->. apply traced_ret.
      eexists. split; [done|]. right. eauto.
    + apply traced_throw. eexists. split; [done|]. eexists. repeat split.
      intros [|[b' Hb]]; [done|]. injection Hb as -> _. by apply Z.eqb_neq in Hs.
Qed.

Lemma delete_each {X} (id : X -> ServerId) l :
  traced (for_each (fun x => hetzner_delete_server_idempotent (id x)) l)
    (each_call (fun x => CDelete (id x)) gone AHetzner l).
Proof. apply each_call_loop. intros x. apply delete_one. Qed.

Lemma drain_each path targets :
  traced (for_each (fun t => kubectl_drain_node path (wr_node_name t)) targets)
    (each_call (fun t => CDrain path (wr_node_name t)) succeeded AKubectl targets).
Proof.
  apply each_call_loop. intros t. apply traced_map_err, traced_external.
  intros [[]|e]; simpl; eexists; (split; [done|]); [done|]. by exists e.
Qed.

Lemma delete_nodes_each path targets :
  traced (for_each (fun t => kubectl_delete_node path (wr_node_name t)) targets)
    (each_call (fun t => CDeleteNode path (wr_node_name t)) succeeded AKubectl targets).
Proof.
  apply each_call_loop. intros t. apply traced_map_err, traced_external.
  intros [[]|e]; simpl; eexists; (split; [done|]); [done|]. by exists e.
Qed.

(** A named step whose loop either fails, ending the workflow, or is
    followed by the rest. *)
Definition phase (name : string) (T next : result ActivityError unit -> list Call -> Prop)
    (r : result ActivityError unit) (tr : list Call) : Prop :=
  exists r1 t1, T r1 t1 /\
    match r1 with
    | Err e => r = Err e /\ tr = CStep name :: t1
    | Ok _ => exists t2, next r t2 /\ tr = CStep name :: t1 ++ t2
    end.
Definition finished (r : result ActivityError unit) (tr : list Call) : Prop :=
  r = Ok tt /\ tr = [CStep "done"].

Lemma traced_phase name (m k : M World ActivityError unit) T next :
  traced m T -> traced k next -> traced (step name ;;; m ;;; k) (phase name T next).
Proof.
  intros Hm Hk. apply traced_bind, traced_step. apply traced_bind. tr_call Hm.
  intros [[]|e] t1 H1; [|by exists (Err e), t1]. tr_call Hk. intros r t2 H2.
  exists (Ok tt), t1. split; [done|]. by exists t2.
Qed.

Lemma traced_done : traced (step "done") finished.
Proof. by apply traced_step. Qed.

Lemma destroy_phases ids :
  traced (destroy_cluster ids)
    (phase "destroying_servers" (each_call CDelete gone AHetzner ids) finished).
Proof. apply traced_phase, traced_done. apply (delete_each (fun id => id)). Qed.

Lemma scale_in_phases targets path :
  traced (scale_in targets path)
    (phase "draining_nodes"
       (each_call (fun t => CDrain path (wr_node_name t)) succeeded AKubectl targets)
    (phase "deleting_nodes"
       (each_call (fun t => CDeleteNode path (wr_node_name t)) succeeded AKubectl targets)
    (phase "destroying_servers"
       (each_call (fun t => CDelete (wr_server_id t)) gone AHetzner targets) finished))).
Proof.
  apply traced_phase; [apply drain_each|].
  apply traced_phase; [apply delete_nodes_each|].
  apply traced_phase, traced_done. apply (delete_each wr_server_id).
Qed.
End Deletion.

(** ** Server creation requests *)

Section Creates.
Context `{En : Env, Ex : Externals, Sink : !ProgressSink}.

(** The creation requests of a trace, in order. *)
Definition creates (tr : list Call) : list CreateServerParams :=
  omap (fun c => match c with CCreate p _ => Some p | _ => None end) tr.

Lemma creates_app t1 t2 : creates (t1 ++ t2) = creates t1 ++ creates t2.
Proof. apply omap_app. Qed.

(** Whatever happens, the creations requested are the first of the planned
    ones [l]; after a success they are all of them. *)
Definition plans {E A} (l : list CreateServerParams) (r : result E A) (tr : list Call) : Prop :=
  match r with
  | Ok _ => creates tr = l
  | Err _ => creates tr `prefix_of` l
  end.

Lemma plans_bind {E A B} l1 l2 (m : M World E A) (k : A -> M World E B) :
  traced m (plans l1) -> (forall a, traced (k a) (plans l2)) ->
  traced (bind m k) (plans (l1 ++ l2)).
Proof.
  intros Hm Hk. apply traced_bind. tr_call Hm. intros [a|e] tr Htr; simpl in Htr.
  - tr_call (Hk a). intros [b|e] tr' Htr'; simpl in *; rewrite creates_app, Htr.
    + by rewrite Htr'.
    + by apply prefix_app.
  - simpl. by apply prefix_app_r.
Qed.

Lemma plans_skip {E A B} l (m : M World E A) (k : A -> M World E B) :
  traced m (plans []) -> (forall a, traced (k a) (plans l)) -> traced (bind m k) (plans l).
Proof. apply (plans_bind []). Qed.

Lemma plans_last {E A B} l (m : M World E A) (k : A -> M World E B) :
  traced m (plans l) -> (forall a, traced (k a) (plans [])) -> traced (bind m k) (plans l).
Proof. rewrite <- (app_nil_r l) at 2. apply plans_bind. Qed.

Lemma plans_ret {E A} (a : A) : traced (ret a : M World E A) (plans []).
Proof. by apply traced_ret. Qed.
Lemma plans_throw {E A} l (e : E) : traced (throw e : M World E A) (plans l).
Proof. apply traced_throw. apply prefix_nil. Qed.
Lemma plans_step {E} s : traced (step s : M World E unit) (plans []).
Proof. by apply traced_step. Qed.

Lemma plans_external {E F A} (wrap : E -> F) (answer : list Call -> result E A) log :
  (forall r, creates [log r] = []) ->
  traced (map_err wrap (external answer log)) (plans []).
Proof.
  intros Hlog. apply traced_map_err, traced_external.
  intros [a|e]; unfold result_map_err, plans; by rewrite Hlog.
Qed.

Lemma plans_boot id : traced (wait_for_cloud_init id) (plans []).
Proof.
  unfold wait_for_cloud_init. generalize CLOUD_INIT_MAX_ATTEMPTS as n.
  induction n as [|n IH]; simpl; [apply plans_throw|].
  apply plans_skip; [by apply plans_external|]. intros server.
  destruct (hs_status server); [apply plans_ret| |apply plans_throw].
  apply plans_skip; [by apply traced_sleep|]. by intros _.
Qed.

Lemma plans_for_each {E X} (f : X -> M World E unit) l :
  (forall x, traced (f x) (plans [])) -> traced (for_each f l) (plans []).
Proof.
  intros Hf. induction l as [|x l IH]; [apply plans_ret|]. by apply plans_skip.
Qed.

Lemma plans_map_each {E X A} (f : X -> M World E A) (mk : X -> list CreateServerParams) l :
  (forall x, traced (f x) (plans (mk x))) -> traced (map_each f l) (plans (concat (map mk l))).
Proof.
  intros Hf. induction l as [|x l IH]; [apply plans_ret|].
  simpl. apply plans_bind; [done|]. intros a. apply plans_last; [done|].
  intros r. apply plans_ret.
Qed.

Lemma plans_create p : traced (hetzner_create_server p) (plans [p]).
Proof. apply traced_map_err, traced_external. intros [id|e]; [done|]. by exists []. Qed.

Lemma plans_create_each (mk : nat -> CreateServerParams) indices :
  traced (map_each (fun index => hetzner_create_server (mk index)) indices)
    (plans (map mk indices)).
Proof.
  replace (map mk indices) with (concat (map (fun i => [mk i]) indices));
    [apply plans_map_each; intros; apply plans_create|].
  induction indices as [|i l IH]; [done|]. simpl. by rewrite IH.
Qed.

Lemma plans_boot_each ids : traced (map_each wait_for_cloud_init ids) (plans []).
Proof.
  replace [] with (concat (map (fun _ : ServerId => [] : list CreateServerParams) ids)).
  - apply plans_map_each. apply plans_boot.
  - by induction ids.
Qed.

Lemma plans_target server : traced (ssh_target server) (plans []).
Proof. unfold ssh_target. destruct (hs_ipv4 server); [apply plans_ret|apply plans_throw]. Qed.

Lemma plans_join endpoint token version workers :
  traced (for_each (join_worker endpoint token version) workers) (plans []).
Proof.
  apply plans_for_each. intros w. apply plans_skip; [apply plans_target|]. intros t.
  apply plans_skip; [by apply plans_external|]. intros o. apply plans_ret.
Qed.

Definition planned_creates (input : ProvisionClusterInput) : list CreateServerParams :=
  provision_control_plane input
    :: map (provision_worker input) (seq 0 (pi_worker_count input)).

Lemma plans_provision input :
  traced (provision_cluster input) (plans (planned_creates input)).
Proof.
  apply plans_skip; [apply plans_step|]. intros _.
  apply (plans_bind [_]); [apply plans_create|]. intros cp_id.
  apply plans_skip; [apply plans_step|]. intros _.
  apply plans_skip; [apply plans_boot|]. intros cp.
  apply plans_skip; [apply plans_target|]. intros target.
  apply plans_skip; [apply plans_step|]. intros _.
  apply plans_skip.
  { apply plans_skip; [by apply plans_external|]. intros o.
    apply plans_skip; [by apply plans_external|]. intros token. apply plans_ret. }
  intros token. apply plans_skip; [apply plans_step|]. intros _.
  apply plans_last; [apply plans_create_each|]. intros ids.
  apply plans_skip; [apply plans_step|]. intros _.
  apply plans_skip; [apply plans_boot_each|]. intros servers.
  apply plans_skip; [apply plans_step|]. intros _.
  apply plans_skip; [apply plans_join|]. intros _.
  apply plans_skip; [apply plans_step|]. intros _.
  apply plans_skip.
  { apply plans_skip; [by apply plans_external|]. intros raw. apply plans_ret. }
  intros kubeconfig. apply plans_skip; [apply plans_step|]. intros _. apply plans_ret.
Qed.

(** The deduplication keys of the plan differ when the v5 hash has no
    collision on the names and never gives the cluster's own id. *)
Lemma planned_keys_nodup input :
  (forall a b, uuid_v5 a = uuid_v5 b -> a = b) ->
  (forall a, uuid_v5 a <> pi_cluster_id input) ->
  NoDup (map cp_idempotency_key (planned_creates input)).
Proof.
  intros Hinj Hne. simpl. constructor.
  - rewrite map_map. intros Hin. apply list_elem_of_In, in_map_iff in Hin as (i & Hi & _).
    by apply (Hne (worker_key (pi_cluster_id input) i)).
  - rewrite map_map. apply NoDup_fmap_2_strong; [|apply NoDup_seq].
    intros i j _ _ Hij. simpl in Hij. apply Hinj in Hij. unfold worker_key in Hij.
    apply append_inj_r, append_inj_r, append_inj_r in Hij. by apply (inj pretty) in Hij.
Qed.
End Creates.

(** ** Shell quoting *)

(** The field splitting of a POSIX shell on a command without expansions:
    single quotes, backslash and blanks are interpreted, the characters of
    [plain] stand for themselves, anything else (an operator, an expansion, a
    glob, a newline) is refused. [cur] is the word being read, if any. *)
Definition plain (c : Ascii.ascii) : bool :=
  let n := Ascii.nat_of_ascii c in
  ((48 <=? n) && (n <=? 57) || (65 <=? n) && (n <=? 90) || (97 <=? n) && (n <=? 122)
   || (n =? 45) || (n =? 46) || (n =? 47) || (n =? 58) || (n =? 95))%nat.
Definition snoc (w : option string) (c : Ascii.ascii) : string :=
  default EmptyString w +++ String c EmptyString.

Fixpoint sh_lex (quoted : bool) (cur : option string) (s : string) : option (list string) :=
  match s with
  | EmptyString =>
      if quoted then None else Some (match cur with Some w => [w] | None => [] end)
  | String c s' =>
      if quoted then
        if Ascii.eqb c "'"%char then sh_lex false cur s' else sh_lex true (Some (snoc cur c)) s'
      else if Ascii.eqb c "'"%char then sh_lex true (Some (default EmptyString cur)) s'
      else if Ascii.eqb c "\"%char then
        match s' with
        | String d s'' => sh_lex false (Some (snoc cur d)) s''
        | EmptyString => None
        end
      else if Ascii.eqb c " "%char then
        match cur with
        | Some w => match sh_lex false None s' with Some l => Some (w :: l) | None => None end
        | None => sh_lex false None s'
        end
      else if plain c then sh_lex false (Some (snoc cur c)) s'
      else None
  end.
Definition sh_words (s : string) : option (list string) := sh_lex false None s.

Section Shell.
Lemma sh_lex_quoted v rest w :
  sh_lex true (Some w) (str_replace "'" "'\''" v +++ "'" +++ rest)
  = sh_lex false (Some (w +++ v)) rest.
Proof.
  revert w. induction v as [|c v IH]; intros w; [by rewrite append_nil_r|].
  rewrite str_replace_char. destruct (Ascii.eqb "'"%char c) eqn:Hc.
  - apply Ascii.eqb_eq in Hc as <-. rewrite append_assoc. simpl.
    change (sh_lex true (Some (snoc (Some w) "'"))
              (str_replace "'" "'\''" v +++ "'" +++ rest)
            = sh_lex false (Some (w +++ String "'" v)) rest).
    rewrite IH. unfold snoc. simpl. by rewrite append_assoc.
  - rewrite append_cons. cbn [sh_lex]. rewrite Ascii.eqb_sym, Hc, IH. unfold snoc. simpl.
    by rewrite append_assoc.
Qed.

Lemma sh_lex_escape v rest cur :
  sh_lex false cur (shell_escape v +++ rest)
  = sh_lex false (Some (default EmptyString cur +++ v)) rest.
Proof. unfold shell_escape. rewrite !append_assoc. apply sh_lex_quoted. Qed.
End Shell.

(** ** What the workflows promise *)

Section Promises.
Context `{En : Env, Ex : Externals, Sink : !ProgressSink}.

Lemma traced_and {E A} (m : M World E A) (T T' : result E A -> list Call -> Prop) :
  traced m T -> traced m T' -> traced m (fun r tr => T r tr /\ T' r tr).
Proof.
  intros Hm Hm' w. destruct (Hm w) as (tr & Hc & HT), (Hm' w) as (tr' & Hc' & HT').
  exists tr. split; [done|]. rewrite Hc in Hc'. apply app_inv_head in Hc' as ->. done.
Qed.

Lemma split_after {A} (l1 l2 pre post : list A) c :
  l1 ++ l2 = pre ++ c :: post -> c ∉ l1 -> exists pre', pre = l1 ++ pre' /\ l2 = pre' ++ c :: post.
Proof.
  intros Heq Hc. apply app_eq_inv in Heq as [(k & Hl & Hr)|(k & -> & ->)]; [|by exists k].
  destruct k as [|x k]; simpl in Hr.
  - exists []. rewrite app_nil_r in Hl. by rewrite app_nil_r, Hl.
  - injection Hr as -> _. destruct Hc. rewrite Hl. set_solver.
Qed.

Lemma each_call_in {X E} (call : X -> result E unit -> Call) fine wrap l r tr c :
  each_call call fine wrap l r tr -> c ∈ tr -> exists x a, x ∈ l /\ c = call x a.
Proof.
  assert (Hzip : forall l rs, c ∈ zip_with call l rs -> exists x a, x ∈ l /\ c = call x a).
  { intros l' rs Hin. apply elem_of_lookup_zip_with in Hin as (i & x & a & -> & Hx & _).
    exists x, a. split; [by eapply list_elem_of_lookup_2|done]. }
  destruct r as [a|e]; simpl.
  - intros (rs & _ & _ & ->). apply Hzip.
  - intros (dn & x & todo & rs & e' & -> & _ & _ & -> & _).
    rewrite elem_of_app, list_elem_of_singleton. intros [Hin| ->].
    + destruct (Hzip _ _ Hin) as (y & b & ? & ?). exists y, b. set_solver.
    + exists x, (Err e'). set_solver.
Qed.

Lemma each_call_all {X E} (call : X -> result E unit -> Call) fine wrap l a tr x :
  each_call call fine wrap l (Ok a) tr -> x ∈ l -> exists r, fine r /\ call x r ∈ tr.
Proof.
  intros (rs & Hlen & Hrs & ->) Hx. apply list_elem_of_lookup in Hx as [i Hi].
  destruct (lookup_lt_is_Some_2 rs i) as [r Hr].
  { rewrite Hlen. by eapply lookup_lt_Some. }
  exists r. split; [by eapply Forall_lookup_1|].
  apply (list_elem_of_lookup_2 _ i). by rewrite lookup_zip_with, Hi; simpl; rewrite Hr.
Qed.

(** A call that a phase itself does not make comes after the phase is
    complete. *)
Lemma phase_order {X E} name (call : X -> result E unit -> Call) fine wrap l next r tr pre c post :
  phase name (each_call call fine wrap l) next r tr ->
  tr = pre ++ c :: post -> c <> CStep name -> (forall x a, c <> call x a) ->
  exists t1 t2 pre', each_call call fine wrap l (Ok tt) t1 /\ next r t2 /\
    pre = CStep name :: t1 ++ pre' /\ t2 = pre' ++ c :: post.
Proof.
  intros (r1 & t1 & H1 & Hr) Htr Hc Hcall.
  assert (Hout : c ∉ CStep name :: t1).
  { intros [Heq|Hin]%elem_of_cons; [done|].
    destruct (each_call_in _ _ _ _ _ _ _ H1 Hin) as (x & a & _ & ?). by eapply Hcall. }
  destruct r1 as [[]|e].
  - destruct Hr as (t2 & Hnext & ->).
    destruct (split_after (CStep name :: t1) t2 pre post c) as (pre' & -> & ->); [done|done|].
    by exists t1, (pre' ++ c :: post), pre'.
  - destruct Hr as [_ ->]. destruct Hout. rewrite Htr. set_solver.
Qed.

(** C3: Provisioning makes its calls in one order, whatever the clouds
    answer: a run that succeeds is control plane, boot, k3s server, token,
    [worker_count] creations, their boots, one join per worker with that
    token, kubeconfig; a run that fails made no call after the failed one and
    reports its error. *)
Theorem provision_cluster_correct input :
  traced (provision_cluster input)
    (fun r tr => on_ok (provisioned input) r tr /\ fail_fast r tr).
Proof. apply traced_and; [apply provision_ok | apply provision_fail_fast]. Qed.

(** Provisioning, whatever its outcome, requests an initial part of
    the planned servers (all of them when it succeeds), so no server is
    requested twice, and the deduplication labels are pairwise different. *)
Theorem provision_requests_each_server_once input :
  (forall a b, uuid_v5 a = uuid_v5 b -> a = b) ->
  (forall a, uuid_v5 a <> pi_cluster_id input) ->
  traced (provision_cluster input) (fun r tr =>
    plans (planned_creates input) r tr /\ NoDup (map cp_idempotency_key (creates tr))).
Proof.
  intros Hinj Hne. tr_call plans_provision. intros r tr Htr. split; [done|].
  pose proof (planned_keys_nodup input Hinj Hne) as Hnd.
  destruct r as [out|e]; simpl in Htr; [by rewrite Htr|].
  destruct Htr as [k Hk]. rewrite Hk, map_app in Hnd. by apply NoDup_app in Hnd as [? _].
Qed.

(** Waiting for a boot asks for the server at most
    [CLOUD_INIT_MAX_ATTEMPTS] times and ends: ready with fewer waits than
    that, with the timeout after exactly that many waits, or with the failure
    the last answer shows. *)
Theorem wait_for_cloud_init_bounded id :
  traced (wait_for_cloud_init id) (fun r tr =>
    exists waits, (length waits <= CLOUD_INIT_MAX_ATTEMPTS)%nat /\
      Forall (fun s => hs_status s = SInitializing) waits /\
      match r with
      | Ok server => hs_status server = SReady /\ length waits <> CLOUD_INIT_MAX_ATTEMPTS /\
          tr = wait_calls id waits ++ [CGet id (Ok server)]
      | Err (ACloudInitTimeout n) => n = CLOUD_INIT_MAX_ATTEMPTS /\ length waits = n /\
          tr = wait_calls id waits
      | Err e => length waits <> CLOUD_INIT_MAX_ATTEMPTS /\
          exists a, tr = wait_calls id waits ++ [CGet id a] /\
            match a with
            | Ok server => hs_status server = SFailed /\ local_error e
            | Err e' => e = AHetzner e'
            end
      end).
Proof.
  unfold wait_for_cloud_init. remember CLOUD_INIT_MAX_ATTEMPTS as top eqn:Htop.
  cut (forall n, traced (cloud_init_polls n id) (fun r tr =>
    exists waits, (length waits <= n)%nat /\
      Forall (fun s => hs_status s = SInitializing) waits /\
      match r with
      | Ok server => hs_status server = SReady /\ length waits <> n /\
          tr = wait_calls id waits ++ [CGet id (Ok server)]
      | Err (ACloudInitTimeout k) => k = top /\ length waits = n /\ tr = wait_calls id waits
      | Err e => length waits <> n /\
          exists a, tr = wait_calls id waits ++ [CGet id a] /\
            match a with
            | Ok server => hs_status server = SFailed /\ local_error e
            | Err e' => e = AHetzner e'
            end
      end)).
  { intros Hn. tr_call (Hn top). intros r tr (waits & Hlen & Hw & Hr).
    exists waits. split; [done|]. split; [done|].
    destruct r as [server|[]]; try done. destruct Hr as (-> & Hl & ->). done. }
  induction n as [|n IH]; simpl.
  { apply traced_throw. exists []. by rewrite <- Htop. }
  apply traced_bind, traced_map_err, traced_external. intros [server|e]; simpl.
  2: { exists []. simpl. repeat split; [lia|constructor|lia|]. by exists (Err e). }
  destruct (hs_status server) eqn:Hs.
  - apply traced_ret. exists []. repeat split; [simpl; lia|constructor|done|done].
  - apply traced_bind, traced_sleep. tr_call IH. intros r tr (waits & Hlen & Hw & Hr).
    exists (server :: waits). split; [simpl; lia|]. split; [by constructor|].
    destruct r as [srv|[]]; simpl.
    1: destruct Hr as (? & ? & ->); repeat split; (done || lia).
    5: destruct Hr as (-> & <- & ->); repeat split; done.
    all: destruct Hr as (? & a & -> & Ha); split; [lia|]; by exists a.
  - apply traced_throw. exists []. repeat split; [simpl; lia|constructor|done|].
    exists (Ok server). by rewrite Hs.
Qed.

(** Destroying deletes the servers one by one, in order: it succeeds
    exactly when every deletion succeeded or found the server gone, and stops
    at the first other answer, reporting it. *)
Theorem destroy_cluster_correct ids :
  traced (destroy_cluster ids) (fun r tr =>
    match r with
    | Ok _ => exists answers, length answers = length ids /\ Forall gone answers /\
        tr = CStep "destroying_servers" :: zip_with CDelete ids answers ++ [CStep "done"]
    | Err e => exists done id rest answers e',
        ids = done ++ id :: rest /\ length answers = length done /\ Forall gone answers /\
        e = AHetzner e' /\ ~ gone (Err e') /\
        tr = CStep "destroying_servers" ::
               zip_with CDelete done answers ++ [CDelete id (Err e')]
    end).
Proof.
  tr_call destroy_phases. intros r tr (r1 & t1 & H1 & H2). destruct r1 as [u|e].
  - destruct H2 as (t2 & [-> ->] & ->). destruct H1 as (rs & ? & ? & ->). by exists rs.
  - destruct H2 as [-> ->]. destruct H1 as (dn & x & todo & rs & e' & -> & ? & ? & -> & -> & ?).
    by exists dn, x, todo, rs, e'.
Qed.

(** Scaling in never deletes a server before every target node was
    drained and removed from Kubernetes, nor removes a node before every
    target was drained; a success deleted (or found gone) every target. *)
Theorem scale_in_order targets path :
  traced (scale_in targets path) (fun r tr =>
    (forall pre id a post, tr = pre ++ CDelete id a :: post -> forall t, t ∈ targets ->
       CDrain path (wr_node_name t) (Ok tt) ∈ pre /\
       CDeleteNode path (wr_node_name t) (Ok tt) ∈ pre) /\
    (forall pre p n a post, tr = pre ++ CDeleteNode p n a :: post -> forall t, t ∈ targets ->
       CDrain path (wr_node_name t) (Ok tt) ∈ pre) /\
    (r = Ok tt -> forall t, t ∈ targets -> exists a, gone a /\ CDelete (wr_server_id t) a ∈ tr)).
Proof.
  tr_call scale_in_phases. intros r tr Hphases. repeat split.
  - destruct (phase_order _ _ _ _ _ _ _ _ _ _ _ Hphases H) as (t1 & t2 & pre' & H1 & Hp & -> & ->);
      [done|done|].
    destruct (each_call_all _ _ _ _ _ _ t H1) as (a' & -> & Hin); [done|]. set_solver.
  - destruct (phase_order _ _ _ _ _ _ _ _ _ _ _ Hphases H) as (t1 & t2 & pre' & _ & Hp & -> & ->);
      [done|done|].
    destruct (phase_order _ _ _ _ _ _ _ _ _ _ _ Hp eq_refl) as (t3 & t4 & pre2 & H1 & _ & -> & _);
      [done|done|].
    destruct (each_call_all _ _ _ _ _ _ t H1) as (a' & -> & Hin); [done|]. set_solver.
  - intros pre p n a post Htr t Ht.
    destruct (phase_order _ _ _ _ _ _ _ _ _ _ _ Hphases Htr) as (t1 & t2 & pre' & H1 & Hp & -> & ->);
      [done|done|].
    destruct (each_call_all _ _ _ _ _ _ t H1) as (a' & -> & Hin); [done|]. set_solver.
  - intros -> t Ht. destruct Hphases as ([u1|e1] & t1 & _ & Hr); [|by destruct Hr].
    destruct Hr as (t2 & ([u2|e2] & t3 & _ & Hr) & ->); [|by destruct Hr].
    destruct Hr as (t4 & ([u3|e3] & t5 & H5 & Hr) & ->); [|by destruct Hr].
    destruct Hr as (t6 & _ & ->).
    destruct (each_call_all _ _ _ _ _ _ t H5) as (a & Ha & Hin); [done|].
    exists a. split; [done|]. set_solver.
Qed.

(** Scaling out creates [so_count] servers under consecutive indices
    from [so_start_index], boots each and joins each with the given token; a
    failed run stops at the failed call. *)
Theorem scale_out_correct input :
  traced (scale_out input) (fun r tr => on_ok (scaled_out input) r tr /\ fail_fast r tr).
Proof. apply traced_and; [apply scale_out_ok | apply scale_out_fail_fast]. Qed.

(** C36: The commands sent over SSH are split by a shell into exactly the
    intended words, whatever the version, address and token contain: none of
    them can end its quotes or inject a word. *)
Theorem ssh_commands_quote_safely version ip token :
  sh_words (install_server_cmd version) =
    Some ["k3sup"; "install"; "--local"; "--k3s-version"; version]%string /\
  sh_words (install_agent_cmd ip token version) =
    Some ["k3sup"; "join"; "--server-ip"; ip; "--k3s-version"; version; "--token"; token]%string.
Proof.
  assert (Hesc : forall v rest cur, sh_lex false cur (shell_escape v +++ rest)
                   = sh_lex false (Some (default EmptyString cur +++ v)) rest)
    by exact sh_lex_escape.
  assert (Hend : forall v cur, sh_lex false cur (shell_escape v)
                   = Some [default EmptyString cur +++ v]).
  { intros v cur. rewrite <- (append_nil_r (shell_escape v)). by rewrite Hesc. }
  unfold sh_words, install_server_cmd, install_agent_cmd.
  split; rewrite !append_cons, !append_nil_l; cbn -[shell_escape String.append].
  - by rewrite Hend.
  - rewrite Hesc. cbn -[shell_escape String.append].
    rewrite Hesc. cbn -[shell_escape String.append]. by rewrite Hend.
Qed.
End Promises.

(** The hypotheses of [provision_requests_each_server_once] hold in the
    concrete environment. *)
Lemma provision_requests_each_server_once_witness :
  let input := mkProvisionInput 7%N "web" "nbg1" "cpx21" 3 "key" "#cloud-config" "v1.30.2+k3s1" in
  exists tr, w_calls (@provision_cluster demo_env calm_externals (@NoopProgress demo_env) input
                        (demo_world empty_db)).2 = tr /\
    length (creates tr) = 4%nat /\ NoDup (map cp_idempotency_key (creates tr)).
Proof.
  pose (input := mkProvisionInput 7%N "web" "nbg1" "cpx21" 3 "key" "#cloud-config" "v1.30.2+k3s1").
  destruct (@provision_requests_each_server_once demo_env calm_externals
              (@NoopProgress demo_env) input) with (w := demo_world empty_db)
    as (tr & Hc & Hp & Hnd).
  - intros a b Hab. apply N.add_cancel_l in Hab. injection Hab as Hab. by apply (inj encode) in Hab.
  - intros a Ha. simpl in Ha. lia.
  - exists tr. split; [exact Hc|]. split; [|exact Hnd].
    assert (Htr : tr = w_calls (@provision_cluster demo_env calm_externals
                                  (@NoopProgress demo_env) input (demo_world empty_db)).2)
      by (symmetry; exact Hc).
    rewrite Htr. vm_compute. reflexivity.
Defined.
