(* ===== verification/Runner.v ===== *)
(** The in-process runner ([crates/workflows/src/runner.rs]): it drives the
    workflows for one cluster, mirrors their progress into
    [provisioning_workflows] and the event hub, and settles the cluster row when
    they end. *)

From Stdlib Require Import Ascii.
From stdpp Require Import base gmap strings list pretty.
From S2P Require Import Prelude Errors Integrations Events Schema Database Tables Secrets.
From S2P Require Import Cluster Addons Workflows.

(** [anyhow::Error], by what it was made from. *)
Inductive AnyhowError :=
| APlatform (e : PlatformError)
| ASqlx (e : DbError)
| AMsg (msg : string).
#[export] Instance AnyhowError_from_db : FromDb AnyhowError := ASqlx.

(** [runner.rs: format_activity_reason] *)
Definition format_activity_reason (err : ActivityError) : string :=
  match err with
  | AHetzner (HStatus status _) => "hetzner: " +++ pretty status
  | AHetzner HTransport => "hetzner: transport"
  | AHetzner (HCredential _) => "hetzner: credential"
  | ASsh (SshNonZeroExit code _) => "ssh: NonZeroExit code=" +++ pretty code
  | ASsh (SshConnect _) => "ssh: connect"
  | ASsh (SshTransport _) => "ssh: transport"
  | ACloudInitTimeout attempts => "cloud-init timed out after " +++ pretty attempts +++ " polls"
  | AHelm (HelmNonZeroExit code _) => "helm: NonZeroExit code=" +++ pretty code
  | AHelm (HelmTimeout _) => "helm: timeout"
  | AHelm (HelmTransport _) => "helm: transport"
  | AKubectl (KubectlNonZeroExit code _) => "kubectl: NonZeroExit code=" +++ pretty code
  | AKubectl (KubectlTimeout _) => "kubectl: timeout"
  | AKubectl (KubectlTransport _) => "kubectl: transport"
  | AOther _ => "other"
  end.

(** [Display] of [HelmError] ([helm.rs]); the timeout is a whole number of
    seconds. *)
Definition helm_display (e : HelmError) : string :=
  match e with
  | HelmNonZeroExit code stderr => "helm command failed (exit " +++ pretty code +++ "): " +++ stderr
  | HelmTransport msg => "spawn helm: " +++ msg
  | HelmTimeout secs => "helm timed out after " +++ pretty secs +++ "s"
  end.

(** [Display] of [SshError] ([ssh.rs]). *)
Definition ssh_display (e : SshError) : string :=
  match e with
  | SshNonZeroExit code stderr => "remote command failed with exit code " +++ pretty code +++ ": " +++ stderr
  | SshConnect msg => "ssh connect: " +++ msg
  | SshTransport msg => msg
  end.

(** The labels of the SQL enum [provisioning_step]. *)
Definition provisioning_steps : list string :=
  ["queued"; "creating_control_plane"; "waiting_cloud_init_cp"; "installing_k3s_server";
   "creating_workers"; "waiting_cloud_init_workers"; "installing_k3s_agents";
   "collecting_kubeconfig"; "done"; "failed"]%string.
Definition valid_step (s : string) : bool := existsb (String.eqb s) provisioning_steps.

Definition with_step (s : string) (r : WorkflowRow) : WorkflowRow :=
  mkWorkflowRow (wf_id r) (wf_cluster_id r) (wf_organization_id r) s (wf_error_reason r)
    (wf_started_at r) (wf_finished_at r) (wf_version r).
Definition with_final (s : string) (reason : option string) (now : Z) (r : WorkflowRow) : WorkflowRow :=
  mkWorkflowRow (wf_id r) (wf_cluster_id r) (wf_organization_id r) s reason
    (wf_started_at r) (Some now) (wf_version r).

Module LocalRunner.
Section LocalRunner.
Context `{En : Env, Ex : Externals} `{St : !SecretStore}.

Definition anyhow {A} (m : M World PlatformError A) : M World AnyhowError A := map_err APlatform m.

(** ** Progress *)

(** A statement that casts [$2::provisioning_step]. *)
Definition cast_step (s : string) : M World DbError unit :=
  if valid_step s then ret tt else throw DbInvalidEnum.

Definition insert_workflow_row (workflow_id organization_id cluster_id : Uuid)
  : M World AnyhowError unit :=
  tenant_tx organization_id None
    (sql (insert (fun now =>
       mkWorkflowRow workflow_id cluster_id organization_id "queued" None now None 1))) ;;;
  ret tt.

(** On the pool: no tenant is set for this statement. *)
Definition finalize_workflow_row (workflow_id : Uuid) (final_step : string)
    (error_reason : option string) : M World AnyhowError unit :=
  on_pool (cast_step final_step ;;;
           update (fun _ r => bool_decide (wf_id r = workflow_id))
             (with_final final_step error_reason)) ;;;
  ret tt.

Definition update_step (organization_id workflow_id : Uuid) (s : string) : M World DbError unit :=
  tenant_tx organization_id None
    (cast_step s ;;;
     update (fun _ r => bool_decide (wf_id r = workflow_id)) (fun _ => with_step s)) ;;;
  ret tt.

Definition publish {E} (cluster_id : Uuid) (event : ClusterEvent) : M World E unit :=
  modify (fun w => set_hub (hub_publish cluster_id event (w_hub w)).2 w).

(** [ProgressSink for WorkflowProgress] *)
Definition workflow_step (organization_id workflow_id cluster_id : Uuid) (s : string)
  : M World AnyhowError unit :=
  ignore (update_step organization_id workflow_id s) ;;;
  publish cluster_id (Step s).

(** [ProgressSink for HubOnlyProgress] *)
Definition hub_step (cluster_id : Uuid) (s : string) : M World AnyhowError unit :=
  publish cluster_id (Step s).

(** The hooks leave the call log alone, as [ProgressSink] asks. *)
Lemma update_step_calls org wf s w : w_calls (update_step org wf s w).2 = w_calls w.
Proof.
  assert (H : db_wp (w_db w) (update_step org wf s) (fun _ _ => True)).
  { intros g. unfold update_step. apply tx_bind. apply db_tenant_tx; [done|]. intros now.
    apply tx_bind. unfold cast_step. destruct (valid_step s).
    - apply tx_ret. by apply tx_update.
    - by apply tx_throw. }
  destruct (H (w_guc w) w eq_refl eq_refl) as [[_ Hc _ _ _] _]. exact Hc.
Qed.

Lemma publish_calls {E} c e w : w_calls (publish (E := E) c e w).2 = w_calls w.
Proof. by destruct w. Qed.

Definition WorkflowProgress (organization_id workflow_id cluster_id : Uuid) : ProgressSink.
Proof.
  refine {| progress_step s w := (workflow_step organization_id workflow_id cluster_id s w).2 |}.
  abstract (intros s w; unfold workflow_step, bind, ignore;
    pose proof (update_step_calls organization_id workflow_id s w) as Hu;
    destruct (update_step organization_id workflow_id s w) as [r w1]; simpl in *;
    by destruct w1).
Defined.

Definition HubOnlyProgress (cluster_id : Uuid) : ProgressSink := {|
  progress_step s w := (hub_step cluster_id s w).2;
  progress_calls s w := publish_calls cluster_id (Step s) w;
|}.

(** [publish_terminal] *)
Definition publish_terminal {E} (cluster_id : Uuid) (status : ClusterStatus)
    (reason : option string) : M World E unit :=
  let category :=
    if bool_decide (status = Failed)
    then option_map category_str (error_category status reason) else None in
  match status with
  | Ready => publish cluster_id (Terminal "ready" category)
  | Failed => publish cluster_id (Terminal "failed" category)
  | Destroyed => publish cluster_id (Terminal "destroyed" category)
  | _ => ret tt
  end.

(** The audit context of a background run. *)
Definition runner_audit (request_id : Uuid) (user_agent : string) : AuditContext :=
  mkAuditContext None (Some (uuid_str request_id)) (Some user_agent).

(** The end of a failed cluster run. *)
Definition settle_failed {A} (organization_id cluster_id : Uuid) (what reason : string)
    (audit : AuditContext) : M World AnyhowError A :=
  ignore (update_status organization_id cluster_id Failed (Some reason) audit) ;;;
  publish_terminal cluster_id Failed (Some reason) ;;;
  throw (AMsg (what +++ " failed: " +++ reason)).

Definition record (organization_id cluster_id : Uuid) (role : ClusterNodeRole)
    (audit : AuditContext) (s : HetznerServer) : M World AnyhowError unit :=
  anyhow (record_server organization_id cluster_id (u64_to_i64_sat (hs_id s)) role
            (hs_ipv4 s) (hs_private_ipv4 s) audit).

(** ** Provisioning *)

Definition run_provision (organization_id : Uuid) (input : ProvisionClusterInput)
  : M World AnyhowError unit :=
  workflow_row <- now_v7 ;;
  let audit := runner_audit workflow_row "runner/provision" in
  let cluster_id := pi_cluster_id input in
  anyhow (update_status organization_id cluster_id Provisioning None audit) ;;;
  insert_workflow_row workflow_row organization_id cluster_id ;;;
  r <- attempt (provision_cluster (Sink := WorkflowProgress organization_id workflow_row cluster_id)
                  input) ;;
  match r with
  | Ok output =>
      record organization_id cluster_id ControlPlane audit (po_control_plane output) ;;;
      for_each (record organization_id cluster_id Worker audit) (po_workers output) ;;;
      anyhow (store_kubeconfig organization_id cluster_id (po_kubeconfig output) audit) ;;;
      anyhow (update_status organization_id cluster_id Ready None audit) ;;;
      finalize_workflow_row workflow_row "done" None ;;;
      publish_terminal cluster_id Ready None
  | Err err =>
      let reason := format_activity_reason err in
      ignore (update_status organization_id cluster_id Failed (Some reason) audit) ;;;
      ignore (finalize_workflow_row workflow_row "failed" (Some reason)) ;;;
      publish_terminal cluster_id Failed (Some reason) ;;;
      throw (AMsg ("provisioning failed: " +++ reason))
  end.

(** ** Destruction *)

Definition server_id_of (s : ClusterServer) : ServerId :=
  i64_to_u64_or_zero (sv_hetzner_server_id s).

Definition run_destroy (organization_id cluster_id : Uuid) : M World AnyhowError unit :=
  workflow_row <- now_v7 ;;
  let audit := runner_audit workflow_row "runner/destroy" in
  _cluster <- anyhow (begin_destroy organization_id cluster_id audit) ;;
  servers <- anyhow (list_servers organization_id cluster_id) ;;
  r <- attempt (destroy_cluster (Sink := HubOnlyProgress cluster_id) (map server_id_of servers)) ;;
  match r with
  | Err err =>
      let reason := format_activity_reason err in
      ignore (mark_destroy_failed organization_id cluster_id reason audit) ;;;
      publish_terminal cluster_id Failed (Some reason) ;;;
      throw (AMsg ("destroy failed: " +++ reason))
  | Ok tt =>
      anyhow (soft_delete_servers organization_id cluster_id audit) ;;;
      anyhow (finalize_destroy organization_id cluster_id audit) ;;;
      publish_terminal cluster_id Destroyed None
  end.

(** ** Add-ons *)

(** [tokio::fs::remove_file], its error dropped. *)
Definition remove_file {E} (path : string) : M World E unit :=
  modify (fun w => set_files (List.filter (fun p => negb (String.eqb p path)) (w_files w)) w).
(** [tokio::fs::write]; the file is known by its path only. *)
Definition write_file (path : string) : M World AnyhowError unit :=
  fun w => match fs_write_error (w_tick w) with
           | Some e => (Err (AMsg ("stage kubeconfig: " +++ e)), tick w)
           | None => (Ok tt, set_files (w_files w ++ [path]) (tick w))
           end.

Definition run_install_addon (organization_id cluster_addon_id : Uuid) (params : InstallParams)
    (kubeconfig_path : string) : M World AnyhowError unit :=
  request <- now_v7 ;;
  let audit := runner_audit request "runner/install-addon" in
  anyhow (update_addon_status organization_id cluster_addon_id AInstalling None audit) ;;;
  r <- attempt (install_addon (Sink := NoopProgress) params kubeconfig_path) ;;
  remove_file kubeconfig_path ;;;
  match r with
  | Ok tt => anyhow (update_addon_status organization_id cluster_addon_id AReady None audit)
  | Err err =>
      let reason := format_activity_reason err in
      ignore (update_addon_status organization_id cluster_addon_id AFailed (Some reason) audit) ;;;
      throw (AMsg ("addon install failed: " +++ reason))
  end.

Definition run_uninstall_addon (organization_id cluster_addon_id : Uuid)
    (helm_release namespace kubeconfig_path : string) : M World AnyhowError unit :=
  request <- now_v7 ;;
  let audit := runner_audit request "runner/uninstall-addon" in
  r <- attempt (uninstall kubeconfig_path helm_release namespace) ;;
  remove_file kubeconfig_path ;;;
  match r with
  | Ok tt => anyhow (update_addon_status organization_id cluster_addon_id AUninstalled None audit)
  | Err err =>
      let reason := helm_display err in
      ignore (update_addon_status organization_id cluster_addon_id AFailed (Some reason) audit) ;;;
      throw (AMsg ("addon uninstall failed: " +++ reason))
  end.

(** ** Scaling *)

Definition is_worker (s : ClusterServer) : bool := bool_decide (sv_role s = Worker).
Definition is_control_plane (s : ClusterServer) : bool := bool_decide (sv_role s = ControlPlane).

Definition run_scale_out (organization_id cluster_id : Uuid) (count : nat)
    (cluster_name location server_type ssh_key user_data k3s_version : string)
  : M World AnyhowError unit :=
  workflow_row <- now_v7 ;;
  let audit := runner_audit workflow_row "runner/scale-out" in
  anyhow (update_status organization_id cluster_id Scaling None audit) ;;;
  servers <- anyhow (list_servers organization_id cluster_id) ;;
  cp_ipv4 <- match List.find is_control_plane servers with
             | None => throw (AMsg "cluster has no control-plane server recorded")
             | Some cp => match sv_public_ipv4 cp with
                          | Some ip => ret ip
                          | None => throw (AMsg "control-plane row has no public IPv4")
                          end
             end ;;
  raw_token <- map_err (fun e => AMsg ("read join token: " +++ ssh_display e))
    (ssh_run (mkTarget cp_ipv4 "kubinate") "sudo cat /var/lib/rancher/k3s/server/node-token") ;;
  r <- attempt (scale_out (Sink := HubOnlyProgress cluster_id)
         (mkScaleOut cluster_id cluster_name location server_type ssh_key user_data k3s_version
            cp_ipv4 (trim raw_token) (length (List.filter is_worker servers)) count)) ;;
  match r with
  | Ok workers =>
      for_each (record organization_id cluster_id Worker audit) workers ;;;
      anyhow (update_status organization_id cluster_id Ready None audit) ;;;
      publish_terminal cluster_id Ready None
  | Err err =>
      settle_failed organization_id cluster_id "scale-out" (format_activity_reason err) audit
  end.

(** The workers a scale-in removes: the [count] with the highest Hetzner ids;
    their node names are rebuilt from their rank by id. *)
Definition by_server_id_desc (a b : ClusterServer) : bool :=
  sv_hetzner_server_id b <=? sv_hetzner_server_id a.
Definition by_server_id (a b : ClusterServer) : bool :=
  sv_hetzner_server_id a <=? sv_hetzner_server_id b.
Definition scale_in_removed (servers : list ClusterServer) (count : nat) : list ClusterServer :=
  firstn count (sort_by by_server_id_desc (List.filter is_worker servers)).
(** [HashMap] from id to rank: the last rank wins. *)
Fixpoint rank_of (id : Z) (i : nat) (l : list ClusterServer) : option nat :=
  match l with
  | [] => None
  | s :: l' => match rank_of id (S i) l' with
               | Some k => Some k
               | None => if sv_hetzner_server_id s =? id then Some i else None
               end
  end.
Definition scale_in_targets (cluster_name : string) (servers : list ClusterServer) (count : nat)
  : list WorkerToRemove :=
  let all_workers := sort_by by_server_id (List.filter is_worker servers) in
  map (fun s =>
         let idx := default O (rank_of (sv_hetzner_server_id s) O all_workers) in
         mkWorkerToRemove (server_id_of s) (cluster_name +++ "-worker-" +++ pad2 idx))
    (scale_in_removed servers count).

(** The statement runs on the pool, without a tenant. *)
Definition soft_delete_removed {E} (s : ClusterServer) : M World E unit :=
  ignore (on_pool (E := DbError)
    (update (fun _ r => bool_decide (sv_id r = sv_id s) && is_none (sv_deleted_at r))
       server_deleted)).

Definition run_scale_in (organization_id cluster_id : Uuid) (cluster_name : string) (count : nat)
  : M World AnyhowError unit :=
  workflow_row <- now_v7 ;;
  let audit := runner_audit workflow_row "runner/scale-in" in
  anyhow (update_status organization_id cluster_id Scaling None audit) ;;;
  servers <- anyhow (list_servers organization_id cluster_id) ;;
  let to_remove := scale_in_removed servers count in
  let targets := scale_in_targets cluster_name servers count in
  _kubeconfig <- anyhow (fetch_kubeconfig organization_id cluster_id) ;;
  file_id <- now_v7 ;;
  let kubeconfig_path := temp_dir +++ "/kubinate-scale-in-" +++ uuid_str file_id +++ ".yaml" in
  write_file kubeconfig_path ;;;
  r <- attempt (scale_in (Sink := HubOnlyProgress cluster_id) targets kubeconfig_path) ;;
  remove_file kubeconfig_path ;;;
  match r with
  | Ok tt =>
      for_each soft_delete_removed to_remove ;;;
      anyhow (update_status organization_id cluster_id Ready None audit) ;;;
      publish_terminal cluster_id Ready None
  | Err err =>
      settle_failed organization_id cluster_id "scale-in" (format_activity_reason err) audit
  end.
End LocalRunner.
End LocalRunner.
Export LocalRunner.

(** * Failure categories *)

(** What the dashboard should show for the error of an activity. *)
Definition activity_category (e : ActivityError) : ErrorCategory :=
  match e with
  | AHetzner (HStatus s _) =>
      if existsb (Z.eqb s) [429; 502; 503; 504] then NetworkError else ProviderError
  | AHetzner HTransport => NetworkError
  | AHetzner (HCredential _) => ProviderError
  | ASsh _ => InstallationError
  | ACloudInitTimeout _ => BootTimeout
  | AHelm _ | AKubectl _ | AOther _ => UnknownError
  end.

(** HTTP status codes have three digits. *)
Definition http_status (e : ActivityError) : Prop :=
  match e with AHetzner (HStatus s _) => 100 <= s <= 999 | _ => True end.

Lemma hetzner_status_category :
  forallb (fun n =>
    let s := Z.of_nat n + 100 in
    bool_decide (error_category Failed (Some (format_activity_reason (AHetzner (HStatus s EmptyString))))
      = Some (activity_category (AHetzner (HStatus s EmptyString))))) (seq 0 900) = true.
Proof. vm_compute. reflexivity. Qed.

Lemma decimal_no_c p (z : Z) : contains (String "c"%char p) (to_ascii_lowercase (pretty z)) = false.
Proof.
  apply contains_first. unfold to_ascii_lowercase. rewrite all_chars_map.
  eapply all_chars_mono, pretty_Z_decimal.
  intros [b0 b1 b2 b3 b4 b5 b6 b7].
  destruct b0, b1, b2, b3, b4, b5, b6, b7; vm_compute; congruence.
Qed.

Section Categories.
(** Every failure of an activity is shown under its category, through
    the reason string the runner stores and the classifier reads back: the
    transient Hetzner errors as network, the other ones as provider, SSH as
    installation, the boot timeout as such, the rest as unknown; no status
    other than [failed] has a category. *)
Theorem error_category_of_reason e status :
  http_status e ->
  error_category status (Some (format_activity_reason e)) =
    if bool_decide (status = Failed) then Some (activity_category e) else None.
Proof.
  intros Hs. destruct (decide (status = Failed)) as [->|Hne].
  2: { unfold error_category. by rewrite bool_decide_true, bool_decide_false. }
  rewrite (bool_decide_true (Failed = Failed)) by done.
  destruct e as [[e| |s b]|[]|[code err|m|secs]|[code err|m|secs]|n|m]; try reflexivity.
  - simpl in Hs. pose proof hetzner_status_category as H. rewrite forallb_forall in H.
    specialize (H (Z.to_nat (s - 100))). rewrite Z2Nat.id in H by lia.
    replace (s - 100 + 100) with s in H by lia.
    specialize (H ltac:(apply in_seq; lia)). by apply bool_decide_eq_true in H.
  - trans (if contains "cloud-init" (to_ascii_lowercase (pretty code))
              || contains "cloudinittimeout" (to_ascii_lowercase (pretty code))
           then Some BootTimeout else Some UnknownError); [reflexivity|].
    by rewrite !decimal_no_c.
  - trans (if contains "cloud-init" (to_ascii_lowercase (pretty code))
              || contains "cloudinittimeout" (to_ascii_lowercase (pretty code))
           then Some BootTimeout else Some UnknownError); [reflexivity|].
    by rewrite !decimal_no_c.
Qed.

Lemma error_category_of_reason_witness :
  http_status (AHetzner (HStatus 429 "rate limited")) /\
  error_category Failed (Some (format_activity_reason (AHetzner (HStatus 429 "rate limited"))))
    = Some NetworkError.
Proof.
  split; [vm_compute; split; discriminate|].
  rewrite (error_category_of_reason (AHetzner (HStatus 429 "rate limited")) Failed); [reflexivity|].
  vm_compute. split; discriminate.
Defined.
End Categories.
