(* ===== verification/Runs.v ===== *)
(** What a run of the runner leaves behind: the rows of the cluster and of its
    servers, the calls made and the events published, on every branch.  A
    workflow keeps in step with its progress sink ([mirrors]); the database
    part of a run is reasoned about with the laws of the repositories. *)

From Stdlib Require Import Ascii.
From stdpp Require Import base gmap strings list pretty.
From S2P Require Import Prelude Errors Integrations Events Schema Database Tables Secrets.
From S2P Require Import Cluster Addons Workflows Runner.

(** * Workflows and their sinks *)

(** A relation between worlds that every call and every progress step of a
    workflow respects. *)
Definition is_step (c : Call) : bool := match c with CStep _ => true | _ => false end.

Section Respects.
Context `{En : Env, Ex : Externals, Sink : !ProgressSink}.
Context (R : World -> World -> Prop) `{!PreOrder R}.

Class Respected : Prop := {
  respected_call c w : is_step c = false -> R w (add_call c w);
  respected_step s w : R w (progress_step s (add_call (CStep s) w));
}.

Definition respects {E A} (m : M World E A) : Prop := forall w, wp m (fun _ w' => R w w') w.

Context `{!Respected}.

Lemma respects_ret {E A} (a : A) : respects (ret a : M World E A).
Proof. intros w. apply wp_ret. reflexivity. Qed.
Lemma respects_throw {E A} (e : E) : respects (throw e : M World E A).
Proof. intros w. apply wp_throw. reflexivity. Qed.
Lemma respects_bind {E A B} (m : M World E A) (k : A -> M World E B) :
  respects m -> (forall a, respects (k a)) -> respects (bind m k).
Proof. intros Hm Hk w. apply bind_preserves; [done|apply Hm|]. intros. apply Hk. Qed.
Lemma respects_map_err {E F A} (f : E -> F) (m : M World E A) :
  respects m -> respects (map_err f m).
Proof. intros Hm w. apply wp_map_err, Hm. Qed.
Lemma respects_attempt {E F A} (m : M World E A) :
  respects m -> respects (attempt m : M World F (result E A)).
Proof. intros Hm w. apply wp_attempt, Hm. Qed.
Lemma respects_for_each {E X} (f : X -> M World E unit) l :
  (forall x, respects (f x)) -> respects (for_each f l).
Proof. intros Hf w. by apply for_each_preserves. Qed.
Lemma respects_map_each {E X A} (f : X -> M World E A) l :
  (forall x, respects (f x)) -> respects (map_each f l).
Proof. intros Hf w. by apply map_each_preserves. Qed.
Lemma respects_external {E A} (answer : list Call -> result E A) log :
  (forall r, is_step (log r) = false) -> respects (external answer log).
Proof. intros Hl w. by apply respected_call. Qed.
Lemma respects_sleep {E} secs : respects (sleep secs : M World E unit).
Proof. intros w. by apply respected_call. Qed.
Lemma respects_step {E} s : respects (step s : M World E unit).
Proof. intros w. apply respected_step. Qed.
End Respects.

(** Prove [respects] of a composition, the calls left to [respects_external]. *)
Ltac resp :=
  lazymatch goal with
  | |- forall _, respects _ _ => intros ?; resp
  | |- respects _ (ret _) => by apply respects_ret
  | |- respects _ (throw _) => by apply respects_throw
  | |- respects _ (bind _ _) => apply respects_bind; [typeclasses eauto|resp|intros ?; resp]
  | |- respects _ (map_err _ _) => apply respects_map_err; resp
  | |- respects _ (attempt _) => apply respects_attempt; resp
  | |- respects _ (for_each _ _) => apply respects_for_each; [typeclasses eauto|intros ?; resp]
  | |- respects _ (map_each _ _) => apply respects_map_each; [typeclasses eauto|intros ?; resp]
  | |- respects _ (sleep _) => by apply respects_sleep
  | |- respects _ (step _) => by apply respects_step
  | |- respects _ (match ?x with _ => _ end) => destruct x; resp
  | |- _ => first [done | by apply respects_external | idtac]
  end.

Section Respectful.
Context `{En : Env, Ex : Externals, Sink : !ProgressSink}.
Context (R : World -> World -> Prop) `{!PreOrder R} `{!Respected R}.

Lemma cloud_init_respects n id : respects R (cloud_init_polls n id).
Proof. induction n as [|n IH]; simpl; resp. Qed.
Lemma delete_respects id : respects R (hetzner_delete_server_idempotent id).
Proof. unfold hetzner_delete_server_idempotent. resp. Qed.
Lemma join_respects e t v s : respects R (join_worker e t v s).
Proof. unfold join_worker, ssh_target, ssh_install_k3s_agent. resp. Qed.

Lemma provision_respects input : respects R (provision_cluster input).
Proof.
  unfold provision_cluster, hetzner_create_server, wait_for_cloud_init, ssh_target,
    ssh_install_k3s_server, collect_kubeconfig.
  resp; apply cloud_init_respects || apply join_respects.
Qed.
Lemma destroy_respects ids : respects R (destroy_cluster ids).
Proof. unfold destroy_cluster. resp. apply delete_respects. Qed.
Lemma install_respects p path : respects R (install_addon p path).
Proof. unfold install_addon, helm_install_chart. resp. Qed.
Lemma scale_out_respects input : respects R (scale_out input).
Proof.
  unfold scale_out, hetzner_create_server, wait_for_cloud_init.
  resp; apply cloud_init_respects || apply join_respects.
Qed.
Lemma scale_in_respects targets path : respects R (scale_in targets path).
Proof.
  unfold scale_in, kubectl_drain_node, kubectl_delete_node. resp. apply delete_respects.
Qed.
End Respectful.

(** ** Events and calls in step *)

Section Mirrors.
Context `{En : Env}.

Definition published (cluster_id : Uuid) (evs : list ClusterEvent) (h : Hub) : Hub :=
  fold_left (fun h e => (hub_publish cluster_id e h).2) evs h.
Definition step_events (tr : list Call) : list ClusterEvent :=
  omap (fun c => match c with CStep s => Some (Step s) | _ => None end) tr.

Lemma published_app id e1 e2 h : published id (e1 ++ e2) h = published id e2 (published id e1 h).
Proof. apply fold_left_app. Qed.
Lemma step_events_app t1 t2 : step_events (t1 ++ t2) = step_events t1 ++ step_events t2.
Proof. apply omap_app. Qed.

(** [tr] was called and [evs] published on the cluster's channel, the tables
    related by [D]; no new file is left, and the session is as before. *)
Record ran (id : Uuid) (D : DB -> DB -> Prop) (tr : list Call) (evs : list ClusterEvent)
    (w w' : World) : Prop := mkRan {
  ran_calls : w_calls w' = w_calls w ++ tr;
  ran_hub : w_hub w' = published id evs (w_hub w);
  ran_db : D (w_db w) (w_db w');
  ran_files : incl (w_files w') (w_files w);
  ran_guc : w_guc w' = w_guc w;
}.

(** Whatever was called, its progress steps were published. *)
Definition mirrors (id : Uuid) (D : DB -> DB -> Prop) (w w' : World) : Prop :=
  exists tr, ran id D tr (step_events tr) w w'.

#[export] Instance mirrors_preorder id D `{!PreOrder D} : PreOrder (mirrors id D).
Proof.
  split.
  - intros w. exists []. split; rewrite ?app_nil_r; done || apply incl_refl.
  - intros w1 w2 w3 (t1 & [C1 H1 D1 F1 G1]) (t2 & [C2 H2 D2 F2 G2]). exists (t1 ++ t2).
    split; [|rewrite step_events_app, published_app|by etrans|by eapply incl_tran|congruence].
    + by rewrite C2, C1, app_assoc.
    + congruence.
Qed.

Lemma mirrors_call id D `{!PreOrder D} c w : is_step c = false -> mirrors id D w (add_call c w).
Proof.
  intros Hc. exists [c]. destruct w. split; simpl; try done; [|apply incl_refl].
  unfold step_events. simpl. by destruct c.
Qed.

Context `{Ex : Externals}.

#[export] Instance hub_only_respected id :
  Respected (Sink := HubOnlyProgress id) (mirrors id eq).
Proof.
  split; [intros c w; by apply mirrors_call; try apply _|].
  intros s w. exists [CStep s]. destruct w. split; try done. apply incl_refl.
Qed.

(** Calls without progress: nothing is published. *)
Definition quietly (id : Uuid) (w w' : World) : Prop := exists tr, ran id eq tr [] w w'.
#[export] Instance quietly_preorder id : PreOrder (quietly id).
Proof.
  split.
  - intros w. exists []. split; rewrite ?app_nil_r; done || apply incl_refl.
  - intros w1 w2 w3 (t1 & [C1 H1 D1 F1 G1]) (t2 & [C2 H2 D2 F2 G2]). exists (t1 ++ t2).
    split; [|simpl in *|by etrans|by eapply incl_tran|congruence].
    + by rewrite C2, C1, app_assoc.
    + congruence.
Qed.
#[export] Instance noop_respected id : Respected (Sink := NoopProgress) (quietly id).
Proof.
  split; [intros c w _; exists [c]|intros s w; exists [CStep s]];
    destruct w; (split; try done; apply incl_refl).
Qed.

(** The tables other than [provisioning_workflows] are the same. *)
Definition only_workflows (d d' : DB) : Prop := exists l : list WorkflowRow, d' = set_rows l d.
#[export] Instance only_workflows_preorder : PreOrder only_workflows.
Proof.
  split; [intros d; exists (db_workflows d); by destruct d|].
  intros d1 d2 d3 [l ->] [k ->]. exists k. by destruct d1.
Qed.

Lemma only_workflows_update t g (p : Z -> WorkflowRow -> bool) f d :
  only_workflows d (update_db t g p f d).
Proof.
  rewrite update_db_plain, audit_entries_none, app_nil_r by done. eexists. by destruct d.
Qed.

Lemma update_step_law d org wf s :
  db_wp d (update_step org wf s) (fun _ d' => only_workflows d d').
Proof.
  intros g. unfold update_step, cast_step. apply tx_bind.
  apply db_tenant_tx; [reflexivity|]. intros now. apply tx_bind.
  destruct (valid_step s); [apply tx_ret|apply tx_throw; reflexivity].
  apply tx_update; [reflexivity|]. intros t. apply tx_ret, only_workflows_update.
Qed.

Lemma update_step_ignored {E} org wf s w :
  wp (ignore (update_step org wf s) : M World E unit) (fun r w' => r = Ok tt /\
    frame w w' /\ only_workflows (w_db w) (w_db w')) w.
Proof.
  apply wp_ignore. destruct (update_step_law (w_db w) org wf s (w_guc w) w eq_refl eq_refl)
    as [Hf Hd]. split; [done|]. exact (conj Hf Hd).
Qed.

#[export] Instance workflow_respected org wf id :
  Respected (Sink := WorkflowProgress org wf id) (mirrors id only_workflows).
Proof.
  split; [intros c w; by apply mirrors_call; try apply _|].
  intros s w. exists [CStep s]. simpl progress_step.
  assert (H : wp (workflow_step org wf id s) (fun _ w' =>
    ran id only_workflows [CStep s] [Step s] w w') (add_call (CStep s) w)); [|exact H].
  apply wp_bind. eapply wp_mono; [apply update_step_ignored|].
  intros r w1 (-> & [Hg Hc Hh Hf _] & Hd). apply wp_modify.
  destruct w, w1. simpl in *. split; simpl; subst; done || apply incl_refl.
Qed.

(** A database call within a run. *)
Lemma wp_db {E A} (m : M World E A) P (Q : result E A -> World -> Prop) w :
  db_wp (w_db w) m P -> (forall r w', frame w w' -> P r (w_db w') -> Q r w') -> wp m Q w.
Proof. intros Hm HQ. destruct (Hm (w_guc w) w eq_refl eq_refl) as [Hf HP]. by apply HQ. Qed.

(** A workflow within a run. *)
Lemma wp_mirrored `{Sink : !ProgressSink} {E A} id D `{!PreOrder D} (m : M World E A) T
    (Q : result E A -> World -> Prop) w :
  traced m T -> respects (mirrors id D) m ->
  (forall r w' tr, T r tr -> ran id D tr (step_events tr) w w' -> Q r w') -> wp m Q w.
Proof.
  intros Ht Hm HQ. destruct (Ht w) as (tr & Hc & HT). destruct (Hm w) as (tr' & Hr).
  pose proof (ran_calls _ _ _ _ _ _ Hr) as Hc'.
  rewrite Hc in Hc'. apply app_inv_head in Hc' as <-. by eapply HQ.
Qed.

(** A workflow that reports no progress. *)
Lemma wp_quiet `{Sink : !ProgressSink} {E A} id (m : M World E A) T
    (Q : result E A -> World -> Prop) w :
  traced m T -> respects (quietly id) m ->
  (forall r w' tr, T r tr -> ran id eq tr [] w w' -> Q r w') -> wp m Q w.
Proof.
  intros Ht Hm HQ. destruct (Ht w) as (tr & Hc & HT). destruct (Hm w) as (tr' & Hr).
  pose proof (ran_calls _ _ _ _ _ _ Hr) as Hc'.
  rewrite Hc in Hc'. apply app_inv_head in Hc' as <-. by eapply HQ.
Qed.

Lemma frame_ran id w w' : frame w w' -> ran id (fun _ _ => True) [] [] w w'.
Proof.
  intros [? ? ? Hf _]. split; rewrite ?app_nil_r; try done. rewrite Hf. apply incl_refl.
Qed.

Lemma ran_trans id D1 D2 t1 t2 e1 e2 w1 w2 w3 :
  ran id D1 t1 e1 w1 w2 -> ran id D2 t2 e2 w2 w3 ->
  ran id (fun _ _ => True) (t1 ++ t2) (e1 ++ e2) w1 w3.
Proof.
  intros [C1 H1 _ F1 G1] [C2 H2 _ F2 G2]. split; [|rewrite published_app|done|by eapply incl_tran|congruence].
  - by rewrite C2, C1, app_assoc.
  - congruence.
Qed.

(** A step that calls and publishes nothing. *)
Lemma ran_quiet id D1 D2 tr evs w1 w2 w3 :
  ran id D1 tr evs w1 w2 -> ran id D2 [] [] w2 w3 -> ran id (fun _ _ => True) tr evs w1 w3.
Proof. intros R1 R2. pose proof (ran_trans _ _ _ _ _ _ _ _ _ _ R1 R2) as R. by rewrite !app_nil_r in R. Qed.
Lemma ran_after id D1 D2 tr evs w1 w2 w3 :
  ran id D1 [] [] w1 w2 -> ran id D2 tr evs w2 w3 -> ran id (fun _ _ => True) tr evs w1 w3.
Proof. apply ran_trans. Qed.
Lemma ran_weaken id (D1 D2 : DB -> DB -> Prop) tr evs w w' :
  ran id D1 tr evs w w' -> D2 (w_db w) (w_db w') -> ran id D2 tr evs w w'.
Proof. by intros [C H _ F G] HD. Qed.
End Mirrors.

(** * The runs *)

Section Runs.
Context `{En : Env, Ex : Externals} `{St : !SecretStore}.

(** The terminal event of a status, as published. *)
Definition terminal_events (status : ClusterStatus) (reason : option string) : list ClusterEvent :=
  match status with
  | Ready => [Terminal "ready" None]
  | Failed => [Terminal "failed" (option_map category_str (error_category Failed reason))]
  | Destroyed => [Terminal "destroyed" None]
  | _ => []
  end.

Lemma publish_terminal_ran {E} id status reason w :
  wp (publish_terminal id status reason : M World E unit)
    (fun r w' => r = Ok tt /\ ran id eq [] (terminal_events status reason) w w') w.
Proof.
  unfold publish_terminal, publish. destruct w.
  destruct status; simpl;
    (apply wp_ret || apply wp_modify);
    (split; [reflexivity|split; simpl; rewrite ?app_nil_r; reflexivity || apply incl_refl]).
Qed.

(** Every server deleted or found gone; or the first other answer. *)
Definition deleted_all (ids : list ServerId) (tr : list Call) : Prop :=
  exists answers, length answers = length ids /\ Forall gone answers /\
    tr = CStep "destroying_servers" :: zip_with CDelete ids answers ++ [CStep "done"].
Definition deletion_failed (ids : list ServerId) (e : HetznerError) (tr : list Call) : Prop :=
  exists done id rest answers, ids = done ++ id :: rest /\ length answers = length done /\
    Forall gone answers /\ ~ gone (Err e) /\
    tr = CStep "destroying_servers" :: zip_with CDelete done answers ++ [CDelete id (Err e)].

Lemma no_step_events {X E} (call : X -> result E unit -> Call) l rs :
  (forall x r, is_step (call x r) = false) -> step_events (zip_with call l rs) = [].
Proof.
  intros Hc. revert rs. induction l as [|x l IH]; intros [|r rs]; try done.
  cbn [zip_with]. unfold step_events. simpl. specialize (Hc x r).
  destruct (call x r); (apply IH || discriminate Hc).
Qed.

Lemma deleted_all_events ids tr :
  deleted_all ids tr -> step_events tr = [Step "destroying_servers"; Step "done"].
Proof.
  intros (rs & _ & _ & ->). rewrite app_comm_cons, step_events_app.
  change (step_events (CStep "destroying_servers" :: zip_with CDelete ids rs))
    with (Step "destroying_servers" :: step_events (zip_with CDelete ids rs)).
  by rewrite no_step_events.
Qed.

Lemma deletion_failed_events ids e tr :
  deletion_failed ids e tr -> step_events tr = [Step "destroying_servers"].
Proof.
  intros (dn & id & rest & rs & _ & _ & _ & _ & ->). rewrite app_comm_cons, step_events_app.
  change (step_events (CStep "destroying_servers" :: zip_with CDelete dn rs))
    with (Step "destroying_servers" :: step_events (zip_with CDelete dn rs)).
  by rewrite no_step_events.
Qed.

Lemma destroy_outcome `{Sink : !ProgressSink} ids :
  traced (destroy_cluster ids) (fun r tr =>
    match r with
    | Ok _ => deleted_all ids tr
    | Err e => exists e', e = AHetzner e' /\ deletion_failed ids e' tr
    end).
Proof.
  tr_call destroy_phases. intros r tr (r1 & t1 & H1 & H2). destruct r1 as [u|e].
  - destruct H2 as (t2 & [-> ->] & ->). destruct H1 as (rs & ? & ? & ->). by exists rs.
  - destruct H2 as [-> ->]. destruct H1 as (dn & x & todo & rs & e' & -> & ? & ? & -> & -> & ?).
    exists e'. split; [done|]. by exists dn, x, todo, rs.
Qed.

Context (Hb : bypass_rls = false) `{HSt : !SecretStoreLaws St}.

(** The end of a failed run: the status is written, or the write failed. *)
Lemma failed_status_ignored {E} d org id reason audit g :
  tx_wp g d (ignore (update_status org id Failed (Some reason) audit) : M World E unit)
    (fun r d' => r = Ok tt /\ only_clusters d d' /\
       (settled org id (fun c => cl_status c = Failed /\ cl_status_reason c = Some reason) d d'
        \/ faulty)).
Proof.
  apply tx_ignore. eapply tx_mono; [by apply update_status_settled|].
  intros [[]|e] d'; simpl.
  - intros (_ & Hd & Hs). repeat (split; [done|]). left. eapply settled_mono; [done|].
    by intros c (now & c0 & _ & _ & ->).
  - intros [-> Hr]. split; [done|]. split; [exists (db_clusters d), (db_audit d); by destruct d|].
    destruct Hr as [[_ Hno]|[Hf _]]; [left|by right]. apply settled_same; [done|].
    intros c Hc Ho. rewrite existsb_false_iff in Hno. by rewrite Hno in Ho.
Qed.

Definition servers_of (org id : Uuid) (d : DB) : list ClusterServer :=
  sort_by server_leb (List.filter (own_server org id) (db_servers d)).

(** The outcome of a destruction, in terms of the tables before and after. *)
Definition destroy_outcomes (org id : Uuid) (r : result AnyhowError unit) (tr : list Call)
    (evs : list ClusterEvent) (d d' : DB) : Prop :=
  let ids := map server_id_of (servers_of org id d) in
  let destroying := [Step "destroying_servers"; Step "done"] in
  match r with
  | Ok _ =>
      deleted_all ids tr /\ evs = destroying ++ [Terminal "destroyed" None] /\
      settled org id (fun c => cl_status c = Destroyed /\ cl_deleted_at c <> None) d d' /\
      exists now, db_servers d' = update_rows (own_server org id) (server_deleted now) (db_servers d)
  | Err e =>
      (tr = [] /\ evs = [] /\ db_servers d' = db_servers d /\ (d' = d \/ faulty))
      \/ (exists e', let reason := format_activity_reason (AHetzner e') in
           deletion_failed ids e' tr /\ e = AMsg ("destroy failed: " +++ reason) /\
           evs = Step "destroying_servers" :: terminal_events Failed (Some reason) /\
           db_servers d' = db_servers d /\
           (settled org id (fun c => cl_status c = Failed /\ cl_status_reason c = Some reason) d d'
            \/ faulty))
      \/ (deleted_all ids tr /\ evs = destroying /\ faulty)
  end.

Lemma servers_of_same org id d d' :
  db_servers d' = db_servers d -> servers_of org id d' = servers_of org id d.
Proof. unfold servers_of. by intros ->. Qed.

Lemma wp_now_v7 {E} id (Q : result E Uuid -> World -> Prop) w :
  (forall u w', ran id eq [] [] w w' -> Q (Ok u) w') -> wp now_v7 Q w.
Proof.
  intros HQ. apply HQ. destruct w. split; simpl; rewrite ?app_nil_r; done || apply incl_refl.
Qed.

(** A database call of the platform within a run. *)
Lemma wp_anyhow {A} id (m : M World PlatformError A) P (Q : result AnyhowError A -> World -> Prop) w :
  db_wp (w_db w) m P ->
  (forall r w', ran id (fun _ d' => P r d') [] [] w w' -> Q (result_map_err APlatform r) w') ->
  wp (anyhow m) Q w.
Proof.
  intros Hm HQ. apply wp_map_err. eapply wp_db; [exact Hm|].
  intros r w' Hf HP. apply HQ. eapply ran_weaken; [by apply frame_ran|done].
Qed.

Lemma wp_publish_terminal {E} id status reason (Q : result E unit -> World -> Prop) w :
  (forall w', ran id eq [] (terminal_events status reason) w w' -> Q (Ok tt) w') ->
  wp (publish_terminal id status reason) Q w.
Proof. intros HQ. eapply wp_mono; [apply publish_terminal_ran|]. intros r w' [-> R]. auto. Qed.

(** The failed end of a run: the row says why, the servers stay on record. *)
Lemma settle_failed_law org id what reason audit (Q : result AnyhowError unit -> World -> Prop) w :
  (forall w' D, ran id D [] (terminal_events Failed (Some reason)) w w' ->
     only_clusters (w_db w) (w_db w') ->
     settled org id (fun c => cl_status c = Failed /\ cl_status_reason c = Some reason)
       (w_db w) (w_db w') \/ faulty ->
     Q (Err (AMsg (what +++ " failed: " +++ reason))) w') ->
  wp (settle_failed org id what reason audit) Q w.
Proof.
  intros HQ. unfold settle_failed. apply wp_bind.
  eapply wp_db; [intros g; by apply failed_status_ignored|].
  intros r w1 F1 (-> & Honly & Hs). apply wp_bind, wp_publish_terminal. intros w2 R2. apply wp_throw.
  pose proof (ran_db _ _ _ _ _ _ R2) as Hd. rewrite Hd in Honly, Hs.
  eapply HQ; [|done|done]. exact (ran_after _ _ _ _ _ _ _ _ (frame_ran id _ _ F1) R2).
Qed.

(** The settlement of a confirmed destruction. *)
Lemma settle_destroyed org id audit (Q : result AnyhowError unit -> World -> Prop) w :
  unique_clusters (w_db w) ->
  existsb (fun c => own_cluster org id c && is_none (cl_deleted_at c)) (db_clusters (w_db w)) = true ->
  (forall r w' evs, ran id (fun d d' => match r with
     | Ok _ => evs = [Terminal "destroyed" None] /\
         settled org id (fun c => cl_status c = Destroyed /\ cl_deleted_at c <> None) d d' /\
         exists now, db_servers d' =
           update_rows (own_server org id) (server_deleted now) (db_servers d)
     | Err _ => evs = [] /\ faulty
     end) [] evs w w' -> Q r w') ->
  wp (anyhow (soft_delete_servers org id audit) ;;;
      anyhow (finalize_destroy org id audit) ;;;
      publish_terminal id Destroyed None) Q w.
Proof.
  intros Hnd Hlive HQ. apply wp_bind. eapply (wp_anyhow id); [by apply soft_delete_servers_law|].
  intros [[]|e] w1 R1; pose proof (ran_db _ _ _ _ _ _ R1) as Hd1; simpl in Hd1; cbn beta iota delta [result_map_err].
  2: { eapply HQ. eapply ran_weaken; [exact R1|]. by destruct Hd1 as (_ & Hf & _). }
  destruct Hd1 as [now Hd1].
  assert (Hcl : db_clusters (w_db w1) = db_clusters (w_db w)) by (rewrite Hd1; by destruct (w_db w)).
  apply wp_bind. eapply (wp_anyhow id);
    [apply (finalize_destroy_law Hb); unfold unique_clusters; by rewrite Hcl|].
  intros [[]|e] w2 R2; pose proof (ran_db _ _ _ _ _ _ R2) as Hd2; simpl in Hd2; cbn beta iota delta [result_map_err].
  - destruct Hd2 as (Hsv2 & _ & n1 & n2 & Hcl2). apply wp_publish_terminal. intros w3 R3.
    pose proof (ran_db _ _ _ _ _ _ R3) as Hd3. eapply HQ. eapply ran_weaken.
    + exact (ran_after _ _ _ _ _ _ _ _ (ran_quiet _ _ _ _ _ _ _ _ R1 R2) R3).
    + split; [done|]. rewrite <- Hd3. split.
      * eapply settled_cong; [symmetry; exact Hcl|reflexivity|].
        eapply settled_mono; [by eapply finalize_destroy_settled|]. by intros c [-> ->].
      * exists now. rewrite Hsv2, Hd1. by destruct (w_db w).
  - destruct Hd2 as (_ & He). eapply HQ. eapply ran_weaken; [exact (ran_quiet _ _ _ _ _ _ _ _ R1 R2)|].
    split; [done|]. destruct He as [(_ & _ & Hno)|[Hf _]]; [|done]. by rewrite Hcl, Hlive in Hno.
Qed.

Lemma settled_live org id Q d d' :
  settled org id Q d d' -> (forall c, Q c -> cl_deleted_at c = None) ->
  existsb (own_cluster org id) (db_clusters d) = true ->
  existsb (fun c => own_cluster org id c && is_none (cl_deleted_at c)) (db_clusters d') = true.
Proof.
  intros [Hrow Hex _ _] HQ Ho. rewrite <- Hex in Ho. apply existsb_exists in Ho as (c & Hc & Ho).
  apply existsb_exists. exists c. split; [done|]. by rewrite Ho, (HQ _ (Hrow _ Hc Ho)).
Qed.

Lemma run_destroy_outcomes org id w :
  unique_clusters (w_db w) ->
  wp (run_destroy org id) (fun r w' => exists tr evs,
    ran id (destroy_outcomes org id r tr evs) tr evs w w') w.
Proof.
  intros Hnd. unfold run_destroy. apply wp_bind, (wp_now_v7 id). intros row w0 R0.
  pose proof (ran_db _ _ _ _ _ _ R0) as Hd0. apply wp_bind.
  eapply (wp_anyhow id); [apply begin_destroy_settled; [done|by rewrite <- Hd0]|].
  intros [c|e] w1 R1; rewrite <- Hd0 in R1; pose proof (ran_db _ _ _ _ _ _ R1) as Hd1; simpl in Hd1;
    pose proof (ran_quiet _ _ _ _ _ _ _ _ R0 R1) as R01; cbn beta iota delta [result_map_err].
  2: { exists [], []. eapply ran_weaken; [exact R01|]. destruct Hd1 as [-> _]. left. auto. }
  destruct Hd1 as (Hc & Ho & Hdel & _ & Honly & Hs). apply only_clusters_eqs in Honly as (Hsv1 & _ & _).
  apply wp_bind. eapply (wp_anyhow id); [by apply list_servers_law|].
  intros [l|e] w2 R2; pose proof (ran_db _ _ _ _ _ _ R2) as Hd2; simpl in Hd2;
    pose proof (ran_quiet _ _ _ _ _ _ _ _ R01 R2) as R02; cbn beta iota delta [result_map_err].
  2: { destruct Hd2 as (Hd2 & Hf & ->). exists [], []. eapply ran_weaken; [exact R02|].
       left. rewrite Hd2. auto. }
  destruct Hd2 as [Hd2 ->]. change (sort_by server_leb _) with (servers_of org id (w_db w1)).
  rewrite (servers_of_same _ _ _ _ Hsv1). apply wp_bind, wp_attempt.
  eapply (wp_mirrored (Sink := HubOnlyProgress id) id eq);
    [by apply (destroy_outcome (Sink := HubOnlyProgress id))|by apply destroy_respects; apply _|].
  intros [[]|e] w3 tr Hdel3 R3; pose proof (ran_db _ _ _ _ _ _ R3) as Hd3; rewrite Hd2 in Hd3; cbn beta iota.
  - rewrite (deleted_all_events _ _ Hdel3) in R3.
    pose proof (ran_after _ _ _ _ _ _ _ _ R02 R3) as R03. apply settle_destroyed.
    { rewrite <- Hd3. by eapply settled_unique. }
    { rewrite <- Hd3. eapply settled_live; [exact Hs|by intros ? (_ & _ & ?)|].
      apply existsb_exists. by exists c. }
    intros r w4 evs R4. pose proof (ran_db _ _ _ _ _ _ R4) as Hd4. simpl in Hd4. rewrite <- Hd3 in Hd4.
    pose proof (ran_trans _ _ _ _ _ _ _ _ _ _ R03 R4) as R04. rewrite app_nil_r in R04.
    eexists _, _. eapply ran_weaken; [exact R04|]. destruct r as [[]|e]; simpl.
    + destruct Hd4 as (-> & Hs4 & Hsv4). rewrite Hsv1 in Hsv4. repeat (split; [done|]). split; [|done].
      by eapply settled_trans.
    + destruct Hd4 as [-> Hf]. auto.
  - destruct Hdel3 as (e' & -> & Hfail). rewrite (deletion_failed_events _ _ _ Hfail) in R3.
    pose proof (ran_after _ _ _ _ _ _ _ _ R02 R3) as R03.
    apply (settle_failed_law org id "destroy"). intros w4 D R4 Honly4 Hs4. rewrite <- Hd3 in Honly4, Hs4.
    apply only_clusters_eqs in Honly4 as (Hsv4 & _ & _).
    pose proof (ran_trans _ _ _ _ _ _ _ _ _ _ R03 R4) as R04. rewrite app_nil_r in R04.
    eexists _, _. eapply ran_weaken; [exact R04|]. right; left. exists e'. repeat (split; [done|]).
    split; [congruence|]. destruct Hs4 as [Hs4|Hf]; [left|by right]. by eapply settled_trans.
Qed.

(** ** Provisioning *)

Lemma only_workflows_insert t g (r : WorkflowRow) d : only_workflows d (insert_db t g r d).
Proof. rewrite (insert_db_plain (R := WorkflowRow)). rewrite audit_entries_none, app_nil_r by done. eexists. by destruct d. Qed.

Lemma insert_workflow_row_law d wf org id :
  db_wp d (insert_workflow_row wf org id) (fun _ d' => only_workflows d d').
Proof.
  intros g. unfold insert_workflow_row. apply tx_bind.
  apply db_tenant_tx; [reflexivity|]. intros now. apply tx_map_err.
  apply tx_insert; [simpl; reflexivity|intros e _; simpl; reflexivity|].
  intros _ t. cbn [result_map_err]. apply tx_ret, only_workflows_insert.
Qed.

Lemma finalize_workflow_row_law d wf s reason :
  db_wp d (finalize_workflow_row wf s reason) (fun _ d' => only_workflows d d').
Proof.
  intros g. unfold finalize_workflow_row, cast_step. apply tx_bind.
  apply db_on_pool. intros now. apply tx_bind.
  destruct (valid_step s); [apply tx_ret|apply tx_throw; simpl; reflexivity].
  apply tx_update; [simpl; reflexivity|]. intros t. simpl. apply tx_ret, only_workflows_update.
Qed.

(** The server is on record, and not deleted. *)
Definition on_record (d : DB) (s : HetznerServer) : Prop :=
  existsb (fun row => (sv_hetzner_server_id row =? u64_to_i64_sat (hs_id s))
                      && is_none (sv_deleted_at row)) (db_servers d) = true.

(** At most [n] rows of the cluster were appended to [cluster_servers]. *)
Definition servers_added (org id : Uuid) (n : nat) (d d' : DB) : Prop :=
  exists new, d' = set_rows (db_servers d ++ new) d /\ (length new <= n)%nat /\
    Forall (fun s => own_server org id s = true) new.

Lemma servers_added_refl org id n d : servers_added org id n d d.
Proof. exists []. rewrite app_nil_r. split; [by destruct d|]. split; [simpl; lia|constructor]. Qed.

Lemma servers_added_trans org id n m d1 d2 d3 :
  servers_added org id n d1 d2 -> servers_added org id m d2 d3 ->
  servers_added org id (n + m) d1 d3.
Proof.
  intros (l1 & -> & H1 & F1) (l2 & -> & H2 & F2). exists (l1 ++ l2). split.
  - destruct d1. simpl. by rewrite app_assoc.
  - rewrite length_app. split; [lia|by apply Forall_app].
Qed.

Lemma on_record_added org id n d d' s :
  servers_added org id n d d' -> on_record d s -> on_record d' s.
Proof.
  intros (l & -> & _ & _). unfold on_record. intros H.
  trans (existsb (fun row => (sv_hetzner_server_id row =? u64_to_i64_sat (hs_id s))
                      && is_none (sv_deleted_at row)) (db_servers d ++ l)); [by destruct d|].
  by rewrite existsb_app, H.
Qed.

Lemma record_one org id role audit s (Q : result AnyhowError unit -> World -> Prop) w :
  (forall r w', ran id (fun d d' => servers_added org id 1 d d' /\
     (r = Ok tt -> on_record d' s)) [] [] w w' -> Q r w') ->
  wp (record org id role audit s) Q w.
Proof.
  intros HQ. eapply (wp_anyhow id); [by apply record_server_law|].
  intros [[]|e] w' R; apply HQ; (eapply ran_weaken; [exact R|]); apply ran_db in R; cbn beta in R.
  - destruct R as [[-> Hon]|(row & -> & Hid & _ & Hown)].
    + split; [apply servers_added_refl|]. by intros _.
    + split; [exists [row]; split; [done|]; split; [done|by constructor]|]. intros _.
      unfold on_record.
      trans (existsb (fun r => (sv_hetzner_server_id r =? u64_to_i64_sat (hs_id s))
                      && is_none (sv_deleted_at r)) (db_servers (w_db w) ++ [row]));
        [by destruct (w_db w)|].
      rewrite existsb_app. simpl. rewrite Hid, Z.eqb_refl. unfold own_server, live_server in Hown.
      apply andb_true_iff in Hown as [_ [_ ->]%andb_true_iff]. apply orb_true_r.
  - rewrite R. split; [apply servers_added_refl|done].
Qed.

Lemma record_all org id role audit l (Q : result AnyhowError unit -> World -> Prop) w :
  (forall r w', ran id (fun d d' => servers_added org id (length l) d d' /\
     (r = Ok tt -> Forall (on_record d') l)) [] [] w w' -> Q r w') ->
  wp (for_each (record org id role audit) l) Q w.
Proof.
  intros HQ. apply (wp_for_each _ _ (fun dn w' =>
    ran id (fun d d' => servers_added org id (length dn) d d' /\ Forall (on_record d') dn) [] [] w w')).
  - split; rewrite ?app_nil_r; try done; [|apply incl_refl].
    split; [apply servers_added_refl|constructor].
  - intros dn x todo w1 -> R1. apply record_one. intros r w2 R2.
    pose proof (ran_db _ _ _ _ _ _ R1) as [A1 F1]. pose proof (ran_db _ _ _ _ _ _ R2) as [A2 F2].
    pose proof (servers_added_trans _ _ _ _ _ _ _ A1 A2) as A.
    assert (Hmono : forall n, (length dn + 1 <= n)%nat ->
              servers_added org id n (w_db w) (w_db w2)).
    { intros n Hn. destruct A as (new & H1 & H2 & H3). exists new. split; [done|]. split; [lia|done]. }
    destruct r as [[]|e].
    + eapply ran_weaken; [exact (ran_quiet _ _ _ _ _ _ _ _ R1 R2)|].
      split; [apply Hmono; rewrite length_app; simpl; lia|].
      apply Forall_app. split; [|by constructor; auto].
      eapply Forall_impl; [exact F1|]. intros s. by eapply on_record_added.
    + apply HQ. eapply ran_weaken; [exact (ran_quiet _ _ _ _ _ _ _ _ R1 R2)|].
      split; [apply Hmono; rewrite length_app; simpl; lia|done].
  - intros w' R. apply HQ. eapply ran_weaken; [exact R|]. apply ran_db in R as [? ?]. by split.
Qed.

Lemma only_workflows_eqs d d' : only_workflows d d' ->
  db_servers d' = db_servers d /\ db_secrets d' = db_secrets d /\ db_clusters d' = db_clusters d.
Proof. intros [l ->]. by destruct d. Qed.

(** The cluster is ready: status, servers on record, kubeconfig readable. *)
Definition cluster_ready (org id : Uuid) (out : ProvisionClusterOutput) (d d' : DB) : Prop :=
  settled org id (fun c => cl_status c = Ready /\ cl_status_reason c = None) d d' /\
  Forall (on_record d') (po_control_plane out :: po_workers out) /\
  (exists new, db_servers d' = db_servers d ++ new /\
     (length new <= S (length (po_workers out)))%nat /\
     Forall (fun s => own_server org id s = true) new) /\
  exists ref, kubeconfig_available org id d' ref (po_kubeconfig out).

(** The records of a provisioned cluster, and its kubeconfig. *)
Lemma record_provisioned org id out audit (k : M World AnyhowError unit) Q w :
  unique_clusters (w_db w) ->
  (forall w', ran id (cluster_ready org id out) [] [] w w' -> wp k Q w') ->
  (forall e w', ran id (fun _ _ => True) [] [] w w' -> Q (Err e) w') ->
  wp (record org id ControlPlane audit (po_control_plane out) ;;;
      for_each (record org id Worker audit) (po_workers out) ;;;
      anyhow (store_kubeconfig org id (po_kubeconfig out) audit) ;;;
      anyhow (update_status org id Ready None audit) ;;; k) Q w.
Proof.
  intros Hnd HQ Herr. apply wp_bind, record_one. intros [[]|e] w1 R1; [|apply Herr; by eapply ran_weaken].
  pose proof (ran_db _ _ _ _ _ _ R1) as [A1 O1]. apply wp_bind, record_all.
  intros [[]|e] w2 R2; pose proof (ran_quiet _ _ _ _ _ _ _ _ R1 R2) as R02;
    [|apply Herr; by eapply ran_weaken].
  pose proof (ran_db _ _ _ _ _ _ R2) as [A2 O2].
  pose proof (servers_added_trans _ _ _ _ _ _ _ A1 A2) as (new & Hd2 & Hlen & Hnew).
  assert (Hcl2 : db_clusters (w_db w2) = db_clusters (w_db w)) by (rewrite Hd2; by destruct (w_db w)).
  assert (Hsv2 : db_servers (w_db w2) = db_servers (w_db w) ++ new) by (rewrite Hd2; by destruct (w_db w)).
  apply wp_bind. eapply (wp_anyhow id);
    [by apply (store_kubeconfig_law Hb); unfold unique_clusters; rewrite Hcl2|].
  intros [[]|e] w3 R3; pose proof (ran_quiet _ _ _ _ _ _ _ _ R02 R3) as R03;
    [|apply Herr; by eapply ran_weaken].
  pose proof (ran_db _ _ _ _ _ _ R3) as (ref & Href & Hres & Hsv3 & Hex & Hs3).
  apply wp_bind. eapply (wp_anyhow id); [by apply update_status_settled|].
  intros [[]|e] w4 R4; pose proof (ran_quiet _ _ _ _ _ _ _ _ R03 R4) as R04;
    [|apply Herr; by eapply ran_weaken].
  pose proof (ran_db _ _ _ _ _ _ R4) as (Hex3 & Honly & Hs4).
  apply only_clusters_eqs in Honly as (Hsv4 & Hse4 & _).
  apply HQ. eapply ran_weaken; [exact R04|]. split; [|split; [|split]].
  - eapply settled_trans; [|eapply settled_mono; [exact Hs4|]; by intros c (now & c0 & _ & _ & ->)].
    eapply settled_cong; [symmetry; exact Hcl2|reflexivity|exact Hs3].
  - assert (Hon : forall s, on_record (w_db w2) s -> on_record (w_db w4) s)
      by (unfold on_record; by rewrite Hsv4, Hsv3).
    constructor; [|by eapply Forall_impl; [exact (O2 eq_refl)|]].
    apply Hon. eapply on_record_added; [exact A2|]. by apply O1.
  - exists new. rewrite Hsv4, Hsv3, Hsv2. split; [done|]. split; [simpl in *; lia|done].
  - exists ref. split; [done|]. split; [by eapply resolves_local|].
    rewrite (settled_exists _ _ _ _ _ Hs4). split; [done|]. intros c Hc Ho.
    destruct (settled_row _ _ _ _ _ Hs4 c Hc Ho) as (now & c0 & Hc0 & Ho0 & ->).
    simpl. by destruct (settled_row _ _ _ _ _ Hs3 c0 Hc0 Ho0).
Qed.

Lemma provision_outcome `{Sink : !ProgressSink} input :
  traced (provision_cluster input)
    (fun r tr => on_ok (provisioned input) r tr /\ fail_fast r tr).
Proof. apply traced_and; [apply provision_ok | apply provision_fail_fast]. Qed.

Definition provision_outcomes (org : Uuid) (input : ProvisionClusterInput)
    (r : result AnyhowError unit) (tr : list Call) (evs : list ClusterEvent) (d d' : DB) : Prop :=
  let id := pi_cluster_id input in
  match r with
  | Ok _ => exists out, provisioned input out tr /\
      evs = step_events tr ++ [Terminal "ready" None] /\ cluster_ready org id out d d'
  | Err e =>
      (tr = [] /\ evs = [] /\ db_servers d' = db_servers d)
      \/ (exists e', let reason := format_activity_reason e' in
           fail_fast (Err e' : result _ ProvisionClusterOutput) tr /\
           e = AMsg ("provisioning failed: " +++ reason) /\
           evs = step_events tr ++ terminal_events Failed (Some reason) /\
           db_servers d' = db_servers d /\
           (settled org id (fun c => cl_status c = Failed /\ cl_status_reason c = Some reason) d d'
            \/ faulty))
      \/ (exists out, provisioned input out tr /\ evs = step_events tr)
  end.

(** The failed end of a provisioning. *)
Lemma provision_failed org id row reason audit (Q : result AnyhowError unit -> World -> Prop) w :
  (forall w', ran id (fun d d' => db_servers d' = db_servers d /\
     (settled org id (fun c => cl_status c = Failed /\ cl_status_reason c = Some reason) d d'
      \/ faulty)) [] (terminal_events Failed (Some reason)) w w' ->
     Q (Err (AMsg ("provisioning failed: " +++ reason))) w') ->
  wp (ignore (update_status org id Failed (Some reason) audit) ;;;
      ignore (finalize_workflow_row row "failed" (Some reason)) ;;;
      publish_terminal id Failed (Some reason) ;;;
      throw (AMsg ("provisioning failed: " +++ reason))) Q w.
Proof.
  intros HQ. apply wp_bind. eapply wp_db; [intros g; by apply failed_status_ignored|].
  intros r w1 F1 (-> & Honly & Hs). apply only_clusters_eqs in Honly as (Hsv1 & _ & _).
  apply wp_bind. eapply (wp_db _ (fun r d' => r = Ok tt /\ only_workflows (w_db w1) d'));
    [intros g; apply tx_ignore; eapply tx_mono; [apply finalize_workflow_row_law|by intros; split]|].
  intros r w2 F2 (-> & Hwf). apply only_workflows_eqs in Hwf as (Hsv2 & _ & Hcl2).
  apply wp_bind, wp_publish_terminal. intros w3 R3. apply wp_throw, HQ.
  pose proof (ran_db _ _ _ _ _ _ R3) as Hd3. eapply ran_weaken.
  - exact (ran_after _ _ _ _ _ _ _ _ (ran_quiet _ _ _ _ _ _ _ _
             (frame_ran id _ _ F1) (frame_ran id _ _ F2)) R3).
  - rewrite <- Hd3, Hsv2, Hsv1. split; [done|]. destruct Hs as [Hs|Hf]; [left|by right].
    by eapply settled_cong; [reflexivity|exact Hcl2|].
Qed.

Lemma run_provision_outcomes org input w :
  unique_clusters (w_db w) ->
  wp (run_provision org input) (fun r w' => exists tr evs,
    ran (pi_cluster_id input) (provision_outcomes org input r tr evs) tr evs w w') w.
Proof.
  set (id := pi_cluster_id input). intros Hnd. unfold run_provision.
  apply wp_bind, (wp_now_v7 id). intros row w0 R0. fold id.
  pose proof (ran_db _ _ _ _ _ _ R0) as Hd0. apply wp_bind.
  eapply (wp_anyhow id); [by apply update_status_settled|]. intros r w1 R1. rewrite <- Hd0 in R1.
  pose proof (ran_db _ _ _ _ _ _ R1) as Hd1. simpl in Hd1.
  pose proof (ran_quiet _ _ _ _ _ _ _ _ R0 R1) as R01.
  destruct r as [[]|e]; cbn beta iota delta [result_map_err].
  2: { exists [], []. eapply ran_weaken; [exact R01|]. left. by destruct Hd1 as [-> _]. }
  destruct Hd1 as (_ & Honly & Hs1). apply only_clusters_eqs in Honly as (Hsv1 & _ & _).
  apply wp_bind. eapply wp_db; [apply insert_workflow_row_law|]. intros r w2 F2 Hwf2.
  pose proof (ran_quiet _ _ _ _ _ _ _ _ R01 (frame_ran id _ _ F2)) as R02.
  apply only_workflows_eqs in Hwf2 as (Hsv2 & _ & Hcl2).
  destruct r as [[]|e]; cbn beta iota.
  2: { exists [], []. eapply ran_weaken; [exact R02|]. left. repeat split; congruence. }
  apply wp_bind, wp_attempt.
  eapply (wp_mirrored (Sink := WorkflowProgress org row id) id only_workflows);
    [apply provision_outcome|apply provision_respects; apply _|].
  intros r w3 tr [Hok Hff] R3. pose proof (ran_db _ _ _ _ _ _ R3) as Hwf3.
  apply only_workflows_eqs in Hwf3 as (Hsv3 & _ & Hcl3).
  pose proof (ran_after _ _ _ _ _ _ _ _ R02 R3) as R03.
  destruct r as [out|e]; cbn beta iota; simpl in Hok.
  - apply record_provisioned; [unfold unique_clusters; rewrite Hcl3, Hcl2; by eapply settled_unique| |].
    + intros w4 R4. pose proof (ran_db _ _ _ _ _ _ R4) as Hrdy.
      pose proof (ran_quiet _ _ _ _ _ _ _ _ R03 R4) as R04. apply wp_bind.
      eapply wp_db; [apply finalize_workflow_row_law|]. intros r w5 F5 Hwf5.
      pose proof (ran_quiet _ _ _ _ _ _ _ _ R04 (frame_ran id _ _ F5)) as R05.
      destruct r as [[]|e]; cbn beta iota.
      2: { eexists _, _. eapply ran_weaken; [exact R05|]. right; right. by exists out. }
      apply wp_publish_terminal. intros w6 R6. pose proof (ran_db _ _ _ _ _ _ R6) as Hd6.
      pose proof (ran_trans _ _ _ _ _ _ _ _ _ _ R05 R6) as R06. rewrite app_nil_r in R06.
      eexists _, _. eapply ran_weaken; [exact R06|]. exists out. split; [done|]. split; [done|].
      rewrite <- Hd6. apply only_workflows_eqs in Hwf5 as (Hsv5 & Hse5 & Hcl5).
      destruct Hrdy as (Hs4 & Hon & Hadd & ref & Hk1 & Hk2 & Hk3 & Hk4).
      split; [|split; [|split]].
      * eapply settled_trans; [exact Hs1|]. eapply settled_cong; [|exact Hcl5|exact Hs4]. congruence.
      * unfold on_record in *. by rewrite Hsv5.
      * destruct Hadd as (new & Hnew). exists new. rewrite Hsv5. by rewrite <- Hsv1, <- Hsv2, <- Hsv3.
      * exists ref. split; [done|]. split; [by eapply resolves_local|]. by rewrite Hcl5.
    + intros e w4 R4. eexists _, _.
      eapply ran_weaken; [exact (ran_quiet _ _ _ _ _ _ _ _ R03 R4)|]. right; right. by exists out.
  - apply provision_failed. intros w4 R4. pose proof (ran_db _ _ _ _ _ _ R4) as [Hsv4 Hs4].
    pose proof (ran_trans _ _ _ _ _ _ _ _ _ _ R03 R4) as R04. rewrite app_nil_r in R04.
    eexists _, _. eapply ran_weaken; [exact R04|]. right; left. exists e.
    repeat (split; [done|]). split; [congruence|]. destruct Hs4 as [Hs4|Hf]; [left|by right].
    eapply settled_trans; [exact Hs1|]. eapply settled_cong; [|reflexivity|exact Hs4]. congruence.
Qed.

(** ** Scaling *)

(** A call of one of the integration traits outside a workflow. *)
Lemma wp_external {E A} id (answer : list Call -> result E A) log (Q : result E A -> World -> Prop) w :
  (forall r w', ran id eq [log r] [] w w' -> Q r w') -> wp (external answer log) Q w.
Proof. intros HQ. apply HQ. destruct w. split; try done. apply incl_refl. Qed.

Definition scale_out_outcomes (org id : Uuid) (count : nat)
    (name location server_type ssh_key user_data version : string)
    (r : result AnyhowError unit) (tr : list Call) (evs : list ClusterEvent) (d d' : DB) : Prop :=
  let servers := servers_of org id d in
  let input ip token := mkScaleOut id name location server_type ssh_key user_data version ip
                          (trim token) (length (List.filter is_worker servers)) count in
  let read_token ip r := CSsh (mkTarget ip "kubinate")
                           "sudo cat /var/lib/rancher/k3s/server/node-token" r in
  let started ip token t := exists cp, List.find is_control_plane servers = Some cp /\
    sv_public_ipv4 cp = Some ip /\ tr = read_token ip (Ok token) :: t in
  match r with
  | Ok _ => exists ip token t workers, started ip token t /\
      scaled_out (input ip token) workers t /\
      evs = step_events t ++ [Terminal "ready" None] /\
      settled org id (fun c => cl_status c = Ready /\ cl_status_reason c = None) d d' /\
      Forall (on_record d') workers /\
      exists new, db_servers d' = db_servers d ++ new /\ (length new <= count)%nat /\
        Forall (fun s => own_server org id s = true) new
  | Err e =>
      (evs = [] /\ db_servers d' = db_servers d /\
         (tr = [] \/ exists ip err, tr = [read_token ip (Err err)]))
      \/ (exists ip token t e', let reason := format_activity_reason e' in
           started ip token t /\ fail_fast (Err e' : result _ (list HetznerServer)) t /\
           e = AMsg ("scale-out failed: " +++ reason) /\
           evs = step_events t ++ terminal_events Failed (Some reason) /\
           db_servers d' = db_servers d /\
           (settled org id (fun c => cl_status c = Failed /\ cl_status_reason c = Some reason) d d'
            \/ faulty))
      \/ (exists ip token t workers, started ip token t /\
           scaled_out (input ip token) workers t /\ evs = step_events t)
  end.

Lemma scaled_out_length input workers tr :
  scaled_out input workers tr -> length workers = so_count input.
Proof.
  intros (ids & t1 & t2 & t3 & [Hids _] & (boots & _ & Hw & _) & _).
  by rewrite Hw, Hids, length_seq.
Qed.

Lemma scale_out_outcome `{Sink : !ProgressSink} input :
  traced (scale_out input) (fun r tr => on_ok (scaled_out input) r tr /\ fail_fast r tr).
Proof. apply traced_and; [apply scale_out_ok | apply scale_out_fail_fast]. Qed.

(** The records of a scale-out, and the status. *)
Lemma record_scaled org id workers audit (k : M World AnyhowError unit) Q w :
  (forall w', ran id (fun d d' =>
     settled org id (fun c => cl_status c = Ready /\ cl_status_reason c = None) d d' /\
     Forall (on_record d') workers /\
     exists new, db_servers d' = db_servers d ++ new /\ (length new <= length workers)%nat /\
       Forall (fun s => own_server org id s = true) new) [] [] w w' -> wp k Q w') ->
  (forall e w', ran id (fun _ _ => True) [] [] w w' -> Q (Err e) w') ->
  wp (for_each (record org id Worker audit) workers ;;;
      anyhow (update_status org id Ready None audit) ;;; k) Q w.
Proof.
  intros HQ Herr. apply wp_bind, record_all. intros [[]|e] w1 R1; [|apply Herr; by eapply ran_weaken].
  pose proof (ran_db _ _ _ _ _ _ R1) as [(new & Hd1 & Hlen & Hnew) O1].
  assert (Hcl1 : db_clusters (w_db w1) = db_clusters (w_db w)) by (rewrite Hd1; by destruct (w_db w)).
  assert (Hsv1 : db_servers (w_db w1) = db_servers (w_db w) ++ new) by (rewrite Hd1; by destruct (w_db w)).
  apply wp_bind. eapply (wp_anyhow id); [by apply update_status_settled|].
  intros [[]|e] w2 R2; pose proof (ran_quiet _ _ _ _ _ _ _ _ R1 R2) as R02;
    [|apply Herr; by eapply ran_weaken].
  pose proof (ran_db _ _ _ _ _ _ R2) as (_ & Honly & Hs2).
  apply only_clusters_eqs in Honly as (Hsv2 & _ & _).
  apply HQ. eapply ran_weaken; [exact R02|]. split; [|split].
  - eapply settled_cong; [symmetry; exact Hcl1|reflexivity|].
    eapply settled_mono; [exact Hs2|]. by intros c (now & c0 & _ & _ & ->).
  - eapply Forall_impl; [exact (O1 eq_refl)|]. intros s. unfold on_record. by rewrite Hsv2.
  - exists new. by rewrite Hsv2.
Qed.

Lemma run_scale_out_outcomes org id count name location server_type ssh_key user_data version w :
  wp (run_scale_out org id count name location server_type ssh_key user_data version)
    (fun r w' => exists tr evs, ran id (scale_out_outcomes org id count name location server_type
       ssh_key user_data version r tr evs) tr evs w w') w.
Proof.
  unfold run_scale_out. apply wp_bind, (wp_now_v7 id). intros row w0 R0.
  pose proof (ran_db _ _ _ _ _ _ R0) as Hd0. apply wp_bind.
  eapply (wp_anyhow id); [by apply update_status_settled|]. intros r w1 R1. rewrite <- Hd0 in R1.
  pose proof (ran_db _ _ _ _ _ _ R1) as Hd1. simpl in Hd1.
  pose proof (ran_quiet _ _ _ _ _ _ _ _ R0 R1) as R01.
  destruct r as [[]|e]; cbn beta iota delta [result_map_err].
  2: { exists [], []. eapply ran_weaken; [exact R01|]. left. destruct Hd1 as [-> _]. split_and!; auto. }
  destruct Hd1 as (_ & Honly & Hs1). apply only_clusters_eqs in Honly as (Hsv1 & _ & _).
  apply wp_bind. eapply (wp_anyhow id); [by apply list_servers_law|]. intros r w2 R2.
  pose proof (ran_db _ _ _ _ _ _ R2) as [Hd2 Hl]. pose proof (ran_quiet _ _ _ _ _ _ _ _ R01 R2) as R02.
  assert (Hstop : forall e, exists tr evs, ran id (scale_out_outcomes org id count name location
    server_type ssh_key user_data version (Err e) tr evs) tr evs w w2).
  { intros e. exists [], []. eapply ran_weaken; [exact R02|]. left. rewrite Hd2. split_and!; auto. }
  destruct r as [l|e]; cbn beta iota delta [result_map_err]; [|by apply Hstop].
  change (l = servers_of org id (w_db w1)) in Hl. subst l. rewrite (servers_of_same _ _ _ _ Hsv1).
  apply wp_bind.
  destruct (List.find is_control_plane (servers_of org id (w_db w))) as [cp|] eqn:Hcp;
    [|apply wp_throw, Hstop].
  destruct (sv_public_ipv4 cp) as [ip|] eqn:Hip; [apply wp_ret|apply wp_throw, Hstop].
  apply wp_bind, wp_map_err, (wp_external id). intros rt w3 R3.
  pose proof (ran_db _ _ _ _ _ _ R3) as Hd3. rewrite Hd2 in Hd3.
  pose proof (ran_after _ _ _ _ _ _ _ _ R02 R3) as R03.
  destruct rt as [token|err]; cbn beta iota delta [result_map_err].
  2: { eexists _, _. eapply ran_weaken; [exact R03|]. left. rewrite <- Hd3. split_and!; eauto. }
  apply wp_bind, wp_attempt.
  eapply (wp_mirrored (Sink := HubOnlyProgress id) id eq);
    [apply scale_out_outcome|apply scale_out_respects; apply _|].
  intros r w4 t [Hok Hff] R4. pose proof (ran_db _ _ _ _ _ _ R4) as Hd4. rewrite <- Hd3 in Hd4.
  pose proof (ran_trans _ _ _ _ _ _ _ _ _ _ R03 R4) as R04.
  destruct r as [workers|e]; cbn beta iota; simpl in Hok.
  - apply record_scaled.
    + intros w5 R5. pose proof (ran_db _ _ _ _ _ _ R5) as (Hs5 & O5 & new & Hsv5 & Hlen & Hnew).
      pose proof (ran_quiet _ _ _ _ _ _ _ _ R04 R5) as R05. apply wp_publish_terminal. intros w6 R6.
      pose proof (ran_db _ _ _ _ _ _ R6) as Hd6.
      pose proof (ran_trans _ _ _ _ _ _ _ _ _ _ R05 R6) as R06. rewrite app_nil_r in R06.
      eexists _, _. eapply ran_weaken; [exact R06|]. exists ip, token, t, workers.
      split; [by exists cp|]. split; [done|]. split; [done|]. rewrite <- Hd6. rewrite <- Hd4 in *.
      split; [by eapply settled_trans|]. split; [done|].
      exists new. rewrite Hsv5, Hsv1. split; [done|]. split; [|done].
      apply scaled_out_length in Hok. simpl in Hok. lia.
    + intros e w5 R5. eexists _, _.
      eapply ran_weaken; [exact (ran_quiet _ _ _ _ _ _ _ _ R04 R5)|]. right; right.
      exists ip, token, t, workers. split; [by exists cp|done].
  - apply (settle_failed_law org id "scale-out"). intros w5 D R5 Honly5 Hs5. rewrite <- Hd4 in Honly5, Hs5.
    apply only_clusters_eqs in Honly5 as (Hsv5 & _ & _).
    pose proof (ran_trans _ _ _ _ _ _ _ _ _ _ R04 R5) as R05. rewrite app_nil_r in R05.
    eexists _, _. eapply ran_weaken; [exact R05|]. right; left.
    exists ip, token, t, e. split; [by exists cp|]. repeat (split; [done|]). split; [congruence|].
    destruct Hs5 as [Hs5|Hf]; [left|by right]. by eapply settled_trans.
Qed.

(** Rows of real tenants. *)
Definition servers_of_tenants (d : DB) : Prop :=
  Forall (fun s => sv_organization_id s <> Uuid_nil) (db_servers d).

(** Outside a tenant transaction no row passes the policy: the statement
    changes nothing. *)
Lemma soft_delete_removed_law {E} d s :
  servers_of_tenants d ->
  db_wp d (soft_delete_removed s : M World E unit) (fun r d' => r = Ok tt /\ d' = d).
Proof.
  intros Ht g. apply tx_ignore. apply db_on_pool. intros now.
  apply tx_update; [by split|]. intros t. split; [done|]. apply update_nothing.
  unfold update_hits. rewrite filter_false_in; [done|]. intros x Hx. unfold update_hit.
  rewrite visible_idle; [done|done|]. unfold servers_of_tenants in Ht. rewrite Forall_forall in Ht.
  apply Ht. by apply list_elem_of_In.
Qed.

Lemma soft_delete_each id l (Q : result AnyhowError unit -> World -> Prop) w :
  servers_of_tenants (w_db w) ->
  (forall w', ran id eq [] [] w w' -> Q (Ok tt) w') -> wp (for_each soft_delete_removed l) Q w.
Proof.
  intros Ht HQ. apply (wp_for_each _ _ (fun _ w' => ran id eq [] [] w w')).
  - split; rewrite ?app_nil_r; done || apply incl_refl.
  - intros dn x todo w1 _ R1. pose proof (ran_db _ _ _ _ _ _ R1) as Hd1.
    eapply wp_db; [by apply soft_delete_removed_law; rewrite <- Hd1|]. intros r w2 F2 [-> Hd2].
    eapply ran_weaken; [exact (ran_quiet _ _ _ _ _ _ _ _ R1 (frame_ran id _ _ F2))|]. congruence.
  - exact HQ.
Qed.

(** Every phase of a scale-in complete. *)
Definition scaled_in (targets : list WorkerToRemove) (path : string) (tr : list Call) : Prop :=
  exists drains deletes answers,
    length drains = length targets /\ Forall succeeded drains /\
    length deletes = length targets /\ Forall succeeded deletes /\
    length answers = length targets /\ Forall gone answers /\
    tr = [CStep "draining_nodes"] ++
         zip_with (fun t => CDrain path (wr_node_name t)) targets drains ++
         [CStep "deleting_nodes"] ++
         zip_with (fun t => CDeleteNode path (wr_node_name t)) targets deletes ++
         [CStep "destroying_servers"] ++
         zip_with (fun t => CDelete (wr_server_id t)) targets answers ++ [CStep "done"].

Lemma scale_in_outcome `{Sink : !ProgressSink} targets path :
  traced (scale_in targets path)
    (fun r tr => on_ok (fun _ => scaled_in targets path) r tr /\ fail_fast r tr).
Proof.
  apply traced_and; [|apply scale_in_fail_fast].
  tr_call scale_in_phases. intros [[]|e] tr H; [|done].
  destruct H as ([[]|] & t1 & H1 & Hr); [|by destruct Hr].
  destruct H1 as (drains & ? & ? & ->), Hr as (t2 & ([[]|] & t3 & H3 & Hr) & ->); [|by destruct Hr].
  destruct H3 as (deletes & ? & ? & ->), Hr as (t4 & ([[]|] & t5 & H5 & Hr) & ->); [|by destruct Hr].
  destruct H5 as (answers & ? & ? & ->), Hr as (t6 & [_ ->] & ->).
  exists drains, deletes, answers.
  do 6 (split; [done|]). by rewrite <- !app_comm_cons.
Qed.

Definition scale_in_outcomes (org id : Uuid) (name : string) (count : nat)
    (r : result AnyhowError unit) (tr : list Call) (evs : list ClusterEvent) (d d' : DB) : Prop :=
  let targets := scale_in_targets name (servers_of org id d) count in
  db_servers d' = db_servers d /\
  match r with
  | Ok _ => exists path, scaled_in targets path tr /\
      evs = step_events tr ++ [Terminal "ready" None] /\
      settled org id (fun c => cl_status c = Ready /\ cl_status_reason c = None) d d'
  | Err e =>
      (tr = [] /\ evs = [] /\
         (d' = d \/ settled org id (fun c => cl_status c = Scaling) d d'))
      \/ (exists e', let reason := format_activity_reason e' in
           fail_fast (Err e' : result _ unit) tr /\
           e = AMsg ("scale-in failed: " +++ reason) /\
           evs = step_events tr ++ terminal_events Failed (Some reason) /\
           (settled org id (fun c => cl_status c = Failed /\ cl_status_reason c = Some reason) d d'
            \/ faulty))
      \/ (exists path, scaled_in targets path tr /\ evs = step_events tr /\ faulty)
  end.

(** A file staged for a workflow is gone after it. *)
Lemma wp_staged {A} `{Sink : !ProgressSink} id path (m : M World ActivityError A) T
    (k : result ActivityError A -> M World AnyhowError unit) Q w :
  traced m T -> respects (mirrors id eq) m ->
  (forall e w', ran id eq [] [] w w' -> Q (Err e) w') ->
  (forall r tr w', T r tr -> ran id eq tr (step_events tr) w w' ->
     ~ In path (w_files w') -> wp (k r) Q w') ->
  wp (write_file path ;;; r <- attempt m ;; remove_file path ;;; k r) Q w.
Proof.
  intros Ht Hm Herr Hk. apply wp_bind. unfold write_file at 1, wp at 1.
  destruct (fs_write_error (w_tick w)) as [e|]; simpl.
  { apply Herr. destruct w. split; simpl; rewrite ?app_nil_r; done || apply incl_refl. }
  set (w1 := set_files _ _). apply wp_bind, wp_attempt.
  eapply (wp_mirrored id eq); [exact Ht|exact Hm|]. intros r w2 tr HT R2. apply wp_bind, wp_modify.
  apply (Hk r tr); [done| |].
  - destruct R2 as [C H D F G]. destruct w as [d t g c h f], w2 as [d2 t2 g2 c2 h2 f2].
    simpl in *. split; simpl; try done. intros x [Hx Hp]%filter_In. apply F in Hx.
    apply in_app_iff in Hx as [Hx|[<-|[]]]; [done|]. by rewrite String.eqb_refl in Hp.
  - destruct w2. simpl. intros [_ Hp]%filter_In. by rewrite String.eqb_refl in Hp.
Qed.

Lemma run_scale_in_outcomes org id name count w :
  servers_of_tenants (w_db w) ->
  wp (run_scale_in org id name count) (fun r w' => exists tr evs,
    ran id (scale_in_outcomes org id name count r tr evs) tr evs w w') w.
Proof.
  intros Ht. unfold run_scale_in. apply wp_bind, (wp_now_v7 id). intros row w0 R0.
  pose proof (ran_db _ _ _ _ _ _ R0) as Hd0. apply wp_bind.
  eapply (wp_anyhow id); [by apply update_status_settled|]. intros r w1 R1. rewrite <- Hd0 in R1.
  pose proof (ran_db _ _ _ _ _ _ R1) as Hd1. simpl in Hd1.
  pose proof (ran_quiet _ _ _ _ _ _ _ _ R0 R1) as R01.
  destruct r as [[]|e]; cbn beta iota delta [result_map_err].
  2: { exists [], []. eapply ran_weaken; [exact R01|]. destruct Hd1 as [-> _]. split; [done|]. left. auto. }
  destruct Hd1 as (Hex1 & Honly & Hs1). apply only_clusters_eqs in Honly as (Hsv1 & _ & _).
  assert (Hscaling : settled org id (fun c => cl_status c = Scaling) (w_db w) (w_db w1)).
  { eapply settled_mono; [exact Hs1|]. by intros c (now & c0 & _ & _ & ->). }
  assert (Hstop : forall e w', ran id eq [] [] w1 w' -> exists tr evs,
    ran id (scale_in_outcomes org id name count (Err e) tr evs) tr evs w w').
  { intros e w' R'. exists [], [].
    eapply ran_weaken; [exact (ran_quiet _ _ _ _ _ _ _ _ R01 R')|].
    pose proof (ran_db _ _ _ _ _ _ R') as <-. split; [done|]. left. auto. }
  apply wp_bind. eapply (wp_anyhow id); [by apply (list_servers_law Hb)|]. intros r w2 R2.
  pose proof (ran_db _ _ _ _ _ _ R2) as [Hd2 Hl]. simpl in Hd2.
  apply (ran_weaken _ _ eq) in R2; [|done].
  destruct r as [l|e]; cbn beta iota delta [result_map_err]; [|by apply Hstop].
  change (l = servers_of org id (w_db w1)) in Hl. subst l. rewrite (servers_of_same _ _ _ _ Hsv1).
  cbv zeta. apply wp_bind. eapply (wp_anyhow id); [by apply (fetch_kubeconfig_reads Hb)|].
  intros r w3 R3. pose proof (ran_db _ _ _ _ _ _ R3) as Hd3.
  apply (ran_weaken _ _ eq) in R3; [|done].
  assert (R13 : ran id eq [] [] w1 w3)
    by (eapply ran_weaken; [exact (ran_quiet _ _ _ _ _ _ _ _ R2 R3)|congruence]).
  destruct r as [kc|e]; cbn beta iota delta [result_map_err]; [|by apply Hstop].
  apply wp_bind, (wp_now_v7 id). intros file w4 R4.
  pose proof (ran_db _ _ _ _ _ _ R4) as Hd4.
  assert (R14 : ran id eq [] [] w1 w4)
    by (eapply ran_weaken; [exact (ran_quiet _ _ _ _ _ _ _ _ R13 R4)|congruence]).
  eapply (wp_staged (Sink := HubOnlyProgress id) id);
    [apply scale_in_outcome|apply scale_in_respects; apply _| |].
  { intros e w5 R5. apply Hstop.
    eapply ran_weaken; [exact (ran_quiet _ _ _ _ _ _ _ _ R14 R5)|].
    pose proof (ran_db _ _ _ _ _ _ R5). congruence. }
  intros r tr w5 [Hok Hff] R5 _. pose proof (ran_db _ _ _ _ _ _ R5) as Hd5.
  pose proof (ran_after _ _ _ _ _ _ _ _ (ran_quiet _ _ _ _ _ _ _ _ R01 R14) R5) as R05.
  assert (Hd15 : w_db w5 = w_db w1) by congruence.
  destruct r as [[]|e]; cbn beta iota.
  - apply wp_bind, (soft_delete_each id).
    { unfold servers_of_tenants. by rewrite Hd15, Hsv1. }
    intros w6 R6. pose proof (ran_db _ _ _ _ _ _ R6) as Hd6. apply wp_bind.
    pose proof (ran_quiet _ _ _ _ _ _ _ _ R05 R6) as R06.
    eapply (wp_anyhow id); [by apply update_status_settled|]. intros r w7 R7. rewrite <- Hd6, Hd15 in R7.
    pose proof (ran_db _ _ _ _ _ _ R7) as Hd7. simpl in Hd7.
    pose proof (ran_quiet _ _ _ _ _ _ _ _ R06 R7) as R07.
    destruct r as [[]|e]; cbn beta iota delta [result_map_err].
    + destruct Hd7 as (_ & Honly & Hs7). apply only_clusters_eqs in Honly as (Hsv7 & _ & _).
      apply wp_publish_terminal. intros w8 R8. pose proof (ran_db _ _ _ _ _ _ R8) as Hd8.
      pose proof (ran_trans _ _ _ _ _ _ _ _ _ _ R07 R8) as R08. rewrite app_nil_r in R08.
      eexists _, _. eapply ran_weaken; [exact R08|]. rewrite <- Hd8. split; [congruence|].
      eexists. split; [exact Hok|]. split; [done|]. eapply settled_trans; [exact Hs1|].
      eapply settled_mono; [exact Hs7|]. by intros c (now & c0 & _ & _ & ->).
    + eexists _, _. eapply ran_weaken; [exact R07|]. destruct Hd7 as [-> Hd7]. split; [done|].
      right; right. eexists. split; [exact Hok|]. split; [done|].
      destruct Hd7 as [[_ Hno]|[Hf _]]; [|done]. by rewrite (settled_exists _ _ _ _ _ Hs1), Hex1 in Hno.
  - apply (settle_failed_law org id "scale-in"). intros w6 D R6 Honly6 Hs6. rewrite Hd15 in Honly6, Hs6.
    apply only_clusters_eqs in Honly6 as (Hsv6 & _ & _).
    pose proof (ran_trans _ _ _ _ _ _ _ _ _ _ R05 R6) as R06. rewrite app_nil_r in R06.
    eexists _, _. eapply ran_weaken; [exact R06|]. split; [congruence|]. right; left. exists e.
    repeat (split; [done|]). destruct Hs6 as [Hs6|Hf]; [left|by right]. by eapply settled_trans.
Qed.

(** ** Add-ons *)

Definition own_addon (org id : Uuid) (a : ClusterAddon) : bool :=
  bool_decide (ad_organization_id a = org) && bool_decide (ad_id a = id).

(** The add-on row has the status; no other row of the table changed. *)
Definition addon_settled (org id : Uuid) (status : AddonStatus) (reason : option string)
    (d d' : DB) : Prop :=
  exists f, db_addons d' = update_rows (own_addon org id) f (db_addons d) /\
    forall a, own_addon org id (f a) = own_addon org id a /\ ad_status (f a) = status /\
      ad_status_reason (f a) = reason /\ ad_version (f a) = ad_version a /\
      ad_helm_release (f a) = ad_helm_release a /\ ad_deleted_at (f a) = ad_deleted_at a.

Lemma addon_settled_trans org id s1 r1 s2 r2 d1 d2 d3 :
  addon_settled org id s1 r1 d1 d2 -> addon_settled org id s2 r2 d2 d3 ->
  addon_settled org id s2 r2 d1 d3.
Proof.
  intros (f & Hf & Hf') (g & Hg & Hg'). exists (fun a => g (f a)). split.
  - rewrite Hg, Hf. apply update_rows_twice. intros a Ha. by rewrite (proj1 (Hf' a)).
  - intros a. destruct (Hf' a) as (? & ? & ? & ? & ? & ?), (Hg' (f a)) as (? & ? & ? & ? & ? & ?).
    repeat split; congruence.
Qed.

Lemma update_addon_status_law d org id status reason audit :
  db_wp d (update_addon_status org id status reason audit) (fun r d' =>
    match r with
    | Ok _ => addon_settled org id status reason d d'
    | Err e => d' = d /\ faulty
    end).
Proof.
  intros g. unfold update_addon_status. apply tx_bind. apply db_tenant_tx; [by split; auto|].
  intros now. apply tx_map_err, tx_update; [by split; auto|]. intros t. cbn [result_map_err].
  apply tx_ret. exists (fun a => addon_touch now a (with_addon_status status reason a)). split.
  - rewrite update_db_plain.
    trans (update_rows (update_hit (tenant_guc now org (Some audit)) (fun _ a => bool_decide (ad_id a = id)))
      (update_new (tenant_guc now org (Some audit)) (fun _ => with_addon_status status reason))
      (db_addons d)); [by destruct d|].
    apply update_rows_ext; intros a; [|intros _; by destruct audit].
    unfold update_hit. by rewrite visible_own.
  - done.
Qed.

Lemma addon_failed_ignored {E} org id reason audit (Q : result E unit -> World -> Prop) w :
  (forall w', ran id (fun d d' => addon_settled org id AFailed (Some reason) d d' \/ faulty)
     [] [] w w' -> Q (Ok tt) w') ->
  wp (ignore (update_addon_status org id AFailed (Some reason) audit)) Q w.
Proof.
  intros HQ. apply wp_ignore.
  eapply wp_db; [by apply (update_addon_status_law _ org id AFailed (Some reason) audit)|].
  intros r w' F Hr. apply HQ. eapply ran_weaken; [by apply frame_ran|].
  destruct r as [[]|e]; [by left|right; by destruct Hr].
Qed.

Lemma wp_remove_file {E} id path (Q : result E unit -> World -> Prop) w :
  (forall w', ran id eq [] [] w w' -> ~ In path (w_files w') -> Q (Ok tt) w') ->
  wp (remove_file path) Q w.
Proof.
  intros HQ. apply HQ.
  - destruct w. split; simpl; rewrite ?app_nil_r; try done. by intros x [Hx _]%filter_In.
  - destruct w. simpl. intros [_ Hp]%filter_In. by rewrite String.eqb_refl in Hp.
Qed.

(** The outcome of an installation or removal whose Helm call is [call],
    between the calls [pre] and [post]; [staged] says whether the file with
    the kubeconfig is still there. *)
Definition addon_outcomes (org id : Uuid) (what : string) (target : AddonStatus)
    (reason_of : HelmError -> string) (pre : list Call) (call : result HelmError unit -> Call)
    (post : list Call) (r : result AnyhowError unit) (tr : list Call) (staged : Prop)
    (d d' : DB) : Prop :=
  match r with
  | Ok _ => tr = pre ++ [call (Ok tt)] ++ post /\ ~ staged /\ addon_settled org id target None d d'
  | Err e =>
      (tr = [] /\ d' = d /\ faulty)
      \/ (exists e', tr = pre ++ [call (Err e')] /\ ~ staged /\
           e = AMsg (what +++ " failed: " +++ reason_of e') /\
           (addon_settled org id AFailed (Some (reason_of e')) d d' \/ faulty))
      \/ (tr = pre ++ [call (Ok tt)] ++ post /\ ~ staged /\ faulty)
  end.

Lemma install_outcome `{Sink : !ProgressSink} params path :
  traced (install_addon params path) (fun r tr =>
    match r with
    | Ok _ => tr = [CStep "installing"; CHelmInstall path params (Ok tt); CStep "done"]
    | Err e => exists e', e = AHelm e' /\
        tr = [CStep "installing"; CHelmInstall path params (Err e')]
    end).
Proof.
  unfold install_addon, helm_install_chart. apply traced_bind, traced_step, traced_bind.
  apply traced_map_err, traced_external. intros [[]|e]; simpl; [|by exists e].
  by apply traced_step.
Qed.

(** The end of both runs. *)
Lemma settle_addon {E} org id what target reason_of pre call post (wrap : HelmError -> E)
    (reason : E -> string) path audit (r : result E unit) tr d Q w :
  (forall e, reason (wrap e) = reason_of e) ->
  match r with
  | Ok _ => tr = pre ++ [call (Ok tt)] ++ post
  | Err e => exists e', e = wrap e' /\ tr = pre ++ [call (Err e')]
  end ->
  (w_db w = d \/ exists s rs, addon_settled org id s rs d (w_db w)) ->
  (forall r' w', ran id (fun _ _ => True) [] [] w w' ->
     addon_outcomes org id what target reason_of pre call post r' tr (In path (w_files w'))
       d (w_db w') -> Q r' w') ->
  wp (remove_file path ;;;
      match r with
      | Ok tt => anyhow (update_addon_status org id target None audit)
      | Err e =>
          ignore (update_addon_status org id AFailed (Some (reason e)) audit) ;;;
          throw (AMsg (what +++ " failed: " +++ reason e))
      end) Q w.
Proof.
  intros Hwrap Htr Hbefore HQ. apply wp_bind, (wp_remove_file id). intros w1 R1 Hfile.
  pose proof (ran_db _ _ _ _ _ _ R1) as Hd1.
  assert (Hfile' : forall D w', ran id D [] [] w1 w' -> ~ In path (w_files w')).
  { intros D w' R' Hin. apply Hfile. by apply (ran_files _ _ _ _ _ _ R'). }
  assert (Hafter : forall s rs d', addon_settled org id s rs (w_db w1) d' -> addon_settled org id s rs d d').
  { intros s rs d' Hs. rewrite <- Hd1 in Hs. destruct Hbefore as [<-|(s0 & r0 & H0)]; [done|].
    by eapply addon_settled_trans. }
  destruct r as [[]|e].
  - eapply (wp_anyhow id); [by apply update_addon_status_law|]. intros r w2 R2.
    pose proof (ran_db _ _ _ _ _ _ R2) as Hd2.
    apply HQ; [exact (ran_quiet _ _ _ _ _ _ _ _ R1 R2)|]. destruct r as [[]|e]; simpl.
    + split; [done|]. split; [by eapply Hfile'|by apply Hafter].
    + right; right. split; [done|]. split; [by eapply Hfile'|by destruct Hd2].
  - destruct Htr as (e' & -> & ->). apply wp_bind, (addon_failed_ignored org id). intros w2 R2.
    pose proof (ran_db _ _ _ _ _ _ R2) as Hd2. apply wp_throw.
    apply HQ; [exact (ran_quiet _ _ _ _ _ _ _ _ R1 R2)|].
    right; left. exists e'. split; [done|]. split; [by eapply Hfile'|]. rewrite <- Hwrap.
    split; [done|]. destruct Hd2 as [Hd2|Hf]; [left; by apply Hafter|by right].
Qed.

Lemma run_install_addon_outcomes org id params path w :
  wp (run_install_addon org id params path) (fun r w' => exists tr,
    ran id (addon_outcomes org id "addon install" AReady
       (fun e => format_activity_reason (AHelm e))
       [CStep "installing"] (CHelmInstall path params) [CStep "done"]
       r tr (In path (w_files w'))) tr [] w w') w.
Proof.
  unfold run_install_addon. apply wp_bind, (wp_now_v7 id). intros row w0 R0.
  pose proof (ran_db _ _ _ _ _ _ R0) as Hd0. apply wp_bind.
  eapply (wp_anyhow id); [by apply update_addon_status_law|]. intros r w1 R1. rewrite <- Hd0 in R1.
  pose proof (ran_db _ _ _ _ _ _ R1) as Hd1. simpl in Hd1.
  pose proof (ran_quiet _ _ _ _ _ _ _ _ R0 R1) as R01.
  destruct r as [[]|e]; cbn beta iota delta [result_map_err].
  2: { exists []. eapply ran_weaken; [exact R01|]. left. by destruct Hd1. }
  apply wp_bind, wp_attempt.
  eapply (wp_quiet (Sink := NoopProgress) id); [apply install_outcome|apply install_respects; apply _|].
  intros r w2 tr HT R2. pose proof (ran_db _ _ _ _ _ _ R2) as Hd2.
  pose proof (ran_after _ _ _ _ _ _ _ _ R01 R2) as R02.
  eapply (settle_addon org id "addon install" AReady (fun e => format_activity_reason (AHelm e)) [CStep "installing"]
            (CHelmInstall path params) [CStep "done"] AHelm format_activity_reason path _ r tr (w_db w));
    [done|exact HT|right; rewrite <- Hd2; by eexists _, _|].
  intros r' w3 R3 Hout. exists tr.
  eapply ran_weaken; [exact (ran_quiet _ _ _ _ _ _ _ _ R02 R3)|exact Hout].
Qed.

Lemma run_uninstall_addon_outcomes org id release namespace path w :
  wp (run_uninstall_addon org id release namespace path) (fun r w' => exists tr,
    ran id (addon_outcomes org id "addon uninstall" AUninstalled helm_display
       [] (CHelmUninstall path release namespace) []
       r tr (In path (w_files w'))) tr [] w w') w.
Proof.
  unfold run_uninstall_addon. apply wp_bind, (wp_now_v7 id). intros row w0 R0.
  pose proof (ran_db _ _ _ _ _ _ R0) as Hd0. apply wp_bind, wp_attempt, (wp_external id).
  intros r w1 R1. pose proof (ran_db _ _ _ _ _ _ R1) as Hd1.
  pose proof (ran_after _ _ _ _ _ _ _ _ R0 R1) as R01.
  eapply (settle_addon org id "addon uninstall" AUninstalled helm_display [] (CHelmUninstall path release namespace) []
            (fun e => e) helm_display path _ r [CHelmUninstall path release namespace r] (w_db w));
    [done|destruct r as [[]|e]; eauto|left; congruence|].
  intros r' w2 R2 Hout. eexists.
  eapply ran_weaken; [exact (ran_quiet _ _ _ _ _ _ _ _ R01 R2)|exact Hout].
Qed.
End Runs.

(** * Properties *)

Section Properties.
Context `{En : Env, Ex : Externals} `{St : !SecretStore}.

(** C1: A provisioning run, for any answers of the clouds: when it
    succeeds, the trace is the complete one, the cluster is [ready], every
    server is on record and the kubeconfig can be read back; when an activity
    failed, the row says why, the event stream ends with [failed], and no
    server is on record, the created ones included; every step is published in
    order. *)
Theorem run_provision_correct org input w :
  bypass_rls = false -> SecretStoreLaws St -> unique_clusters (w_db w) ->
  wp (run_provision org input) (fun r w' => exists tr evs,
    ran (pi_cluster_id input) (provision_outcomes org input r tr evs) tr evs w w') w.
Proof. intros Hb HSt. by apply run_provision_outcomes. Qed.

(** C2: A destruction run settles the rows only after the cloud confirmed
    every deletion: success means each server on record was deleted (or gone),
    and the cluster and its servers are marked deleted; a failed deletion
    leaves the servers on record and the reason on the cluster, whatever was
    deleted before. *)
Theorem run_destroy_correct org id w :
  bypass_rls = false -> SecretStoreLaws St -> unique_clusters (w_db w) ->
  wp (run_destroy org id) (fun r w' => exists tr evs,
    ran id (destroy_outcomes org id r tr evs) tr evs w w') w.
Proof. intros Hb HSt. by apply run_destroy_outcomes. Qed.

(** C13: A scale-out run joins the new workers to the control plane on
    record, under the indices after the workers on record, and records each of
    them before the cluster is [ready] again; a failed activity records
    none. *)
Theorem run_scale_out_correct org id count name location server_type ssh_key user_data version w :
  bypass_rls = false ->
  wp (run_scale_out org id count name location server_type ssh_key user_data version)
    (fun r w' => exists tr evs, ran id (scale_out_outcomes org id count name location server_type
       ssh_key user_data version r tr evs) tr evs w w') w.
Proof. intros Hb. by apply run_scale_out_outcomes. Qed.


(** C14: Installing and removing an add-on settle its row by the answer of
    Helm, which is called once; the staged kubeconfig is gone unless the run
    stopped before Helm. *)
Theorem run_addon_correct org id params release namespace path w :
  bypass_rls = false ->
  wp (run_install_addon org id params path) (fun r w' => exists tr,
    ran id (addon_outcomes org id "addon install" AReady
       (fun e => format_activity_reason (AHelm e))
       [CStep "installing"] (CHelmInstall path params) [CStep "done"]
       r tr (In path (w_files w'))) tr [] w w') w /\
  wp (run_uninstall_addon org id release namespace path) (fun r w' => exists tr,
    ran id (addon_outcomes org id "addon uninstall" AUninstalled helm_display
       [] (CHelmUninstall path release namespace) []
       r tr (In path (w_files w'))) tr [] w w') w.
Proof.
  intros Hb. split; [by apply run_install_addon_outcomes|by apply run_uninstall_addon_outcomes].
Qed.

(** The statements the runner issues on the pool, outside a tenant
    transaction, change nothing under the production role: a workflow row is
    never marked finished, a removed worker never marked deleted. *)
Theorem pool_statements_change_nothing d wf s reason sv :
  bypass_rls = false -> Forall (fun r => wf_organization_id r <> Uuid_nil) (db_workflows d) ->
  servers_of_tenants d ->
  db_wp d (finalize_workflow_row wf s reason) (fun _ d' => d' = d) /\
  db_wp d (soft_delete_removed sv : M World AnyhowError unit) (fun _ d' => d' = d).
Proof.
  intros Hb Hwf Hsv. split.
  - intros g. unfold finalize_workflow_row, cast_step. apply tx_bind, db_on_pool. intros now.
    apply tx_bind. destruct (valid_step s); [apply tx_ret|by apply tx_throw].
    apply tx_update; [done|]. intros t. simpl. apply tx_ret, update_nothing.
    unfold update_hits. rewrite filter_false_in; [done|]. intros x Hx. unfold update_hit.
    rewrite visible_idle; [done|done|]. rewrite Forall_forall in Hwf. by apply Hwf, list_elem_of_In.
  - eapply db_mono; [by apply soft_delete_removed_law|]. by intros r d' [_ ->].
Qed.
End Properties.

(** * The hypotheses hold in the concrete environment *)

Definition demo_store : @SecretStore demo_env := @pgcrypto_store demo_env "kek".
Definition demo_input : ProvisionClusterInput :=
  mkProvisionInput 31%N "web" "nbg1" "cpx21" 2 "key" "#cloud-config" "v1.30.2+k3s1".

(** Tenant 2 provisions its cluster 31. *)
Lemma run_provision_correct_witness :
  let run := @run_provision demo_env calm_externals demo_store 2%N demo_input
               (demo_world demo_db) in
  run.1 = Ok tt /\
  exists out, @provisioned demo_env demo_input out (w_calls run.2) /\
    @cluster_ready demo_env demo_store 2%N 31%N out demo_db (w_db run.2).
Proof.
  intros run. assert (Hok : run.1 = Ok tt) by (vm_compute; reflexivity). split; [exact Hok|].
  pose proof (@run_provision_correct demo_env calm_externals demo_store 2%N demo_input
    (demo_world demo_db) eq_refl (pgcrypto_laws "kek") demo_unique_clusters) as H.
  unfold wp in H. fold run in H. destruct H as (tr & evs & R).
  pose proof (ran_db _ _ _ _ _ _ R) as Hout. rewrite Hok in Hout.
  destruct Hout as (out & Hp & _ & Hr). exists out. split; [|exact Hr].
  rewrite (ran_calls _ _ _ _ _ _ R). exact Hp.
Defined.

(** Tenant 1 destroys its cluster 30, of two servers. *)
Lemma run_destroy_correct_witness :
  let run := @run_destroy demo_env calm_externals demo_store 1%N 30%N (demo_world demo_db) in
  run.1 = Ok tt /\ deleted_all [700; 701] (w_calls run.2) /\
  @servers_of 1%N 30%N (w_db run.2) = [].
Proof.
  intros run. assert (Hok : run.1 = Ok tt) by (vm_compute; reflexivity). split; [exact Hok|].
  pose proof (@run_destroy_correct demo_env calm_externals demo_store 1%N 30%N
    (demo_world demo_db) eq_refl (pgcrypto_laws "kek") demo_unique_clusters) as H.
  unfold wp in H. fold run in H. destruct H as (tr & evs & R).
  pose proof (ran_db _ _ _ _ _ _ R) as Hout. rewrite Hok in Hout.
  destruct Hout as (Hdel & _ & _ & now & Hsv). split.
  - rewrite (ran_calls _ _ _ _ _ _ R). exact Hdel.
  - unfold servers_of. rewrite Hsv. reflexivity.
Defined.

(** Tenant 1 adds a worker to its cluster 30. *)
Lemma run_scale_out_correct_witness :
  let run := @run_scale_out demo_env calm_externals 1%N 30%N 1 "web" "nbg1" "cpx21" "key"
               "#cloud-config" "v1.30.2+k3s1" (demo_world demo_db) in
  run.1 = Ok tt /\
  exists new, db_servers (w_db run.2) = db_servers demo_db ++ new /\ (length new <= 1)%nat.
Proof.
  intros run. assert (Hok : run.1 = Ok tt) by (vm_compute; reflexivity). split; [exact Hok|].
  pose proof (@run_scale_out_correct demo_env calm_externals 1%N 30%N 1 "web" "nbg1" "cpx21"
    "key" "#cloud-config" "v1.30.2+k3s1" (demo_world demo_db) eq_refl) as H.
  unfold wp in H. fold run in H. destruct H as (tr & evs & R).
  pose proof (ran_db _ _ _ _ _ _ R) as Hout. rewrite Hok in Hout.
  destruct Hout as (ip & token & t & workers & _ & _ & _ & _ & _ & new & Hnew & Hlen & _).
  exists new. split; [exact Hnew|exact Hlen].
Defined.


(** The installation of an add-on that is not on record: Helm is called, no row
    changes, and the kubeconfig is removed. *)
Lemma run_addon_correct_witness :
  let params := mkInstall "cert-manager" "cert-manager" "https://charts.jetstack.io" "v1.15"
                  "cert-manager" "crds: {}" in
  let run := @run_install_addon demo_env calm_externals 1%N 50%N params "/tmp/k.yaml"
               (demo_world demo_db) in
  run.1 = Ok tt /\
  w_calls run.2 = [CStep "installing"; CHelmInstall "/tmp/k.yaml" params (Ok tt); CStep "done"].
Proof.
  intros params run. assert (Hok : run.1 = Ok tt) by (vm_compute; reflexivity). split; [exact Hok|].
  destruct (@run_addon_correct demo_env calm_externals 1%N 50%N params "cert-manager" "cert-manager"
    "/tmp/k.yaml" (demo_world demo_db) eq_refl) as [H _].
  unfold wp in H. fold run in H. destruct H as (tr & R).
  pose proof (ran_db _ _ _ _ _ _ R) as Hout. rewrite Hok in Hout. destruct Hout as [Htr _].
  rewrite (ran_calls _ _ _ _ _ _ R), Htr. reflexivity.
Defined.

Lemma pool_statements_change_nothing_witness :
  w_db (@soft_delete_removed demo_env AnyhowError
          (mkClusterServer 41%N 1%N 30%N 701 Worker None None 101 None) (demo_world demo_db)).2
  = demo_db.
Proof.
  destruct (@pool_statements_change_nothing demo_env demo_db 7%N "done" None
    (mkClusterServer 41%N 1%N 30%N 701 Worker None None 101 None) eq_refl
    ltac:(repeat constructor) ltac:(repeat constructor; discriminate)) as [_ H].
  exact (db_run _ _ _ (demo_world demo_db) H eq_refl).
Defined.
