(* ===== verification/Lifecycle.v ===== *)
(** The life of a cluster, from its provisioning to its destruction
    ([crates/workflows/src/runner.rs: run_provision, run_destroy]): the two runs
    composed over the records they share. *)

From stdpp Require Import base gmap strings list.
From S2P Require Import Prelude Errors Integrations Events Schema Database Tables Secrets Cluster.
From S2P Require Import Workflows Runner Runs.

(** * What a trace says *)

Section Traces.
Context `{En : Env}.

(** Hetzner answered about the servers it was asked about. *)
Definition truthful (tr : list Call) : Prop := forall id s, In (CGet id (Ok s)) tr -> hs_id s = id.

Lemma in_zip_with {A B C} (f : A -> B -> C) l k x :
  In x (zip_with f l k) -> exists a b, In a l /\ In b k /\ x = f a b.
Proof.
  revert k. induction l as [|a l IH]; intros [|b k] H; try done. destruct H as [<-|H].
  - exists a, b. split; [by left|]. split; [by left|done].
  - destruct (IH k H) as (a' & b' & ? & ? & ->). exists a', b'. split; [by right|]. split; [by right|done].
Qed.

Lemma in_zip_l {A B} (l : list A) (k : list B) a :
  In a l -> length k = length l -> exists b, In b k /\ In (a, b) (zip l k).
Proof.
  revert k. induction l as [|x l IH]; intros [|y k] H Hlen; try done. injection Hlen as Hlen.
  destruct H as [<-|H]; [exists y; split; by left|].
  destruct (IH k H Hlen) as (b & ? & ?). exists b. split; by right.
Qed.

Lemma booted_in id s tr : booted id s tr -> In (CGet id (Ok s)) tr.
Proof. intros (_ & waits & _ & _ & ->). apply in_or_app. right. by left. Qed.
Lemma booted_no_create id s tr p r : booted id s tr -> ~ In (CCreate p r) tr.
Proof.
  intros (_ & waits & _ & _ & ->) [H|[H|[]]]%in_app_or; [|done].
  unfold wait_calls in H. apply in_concat in H as (l & (x & <- & _)%in_map_iff & [H|[H|[]]]); done.
Qed.

Lemma boots_no_create pairs boots p r :
  Forall2 (fun q t => booted (fst q) (snd q) t) pairs boots -> ~ In (CCreate p r) (concat boots).
Proof.
  induction 1 as [|q t pairs boots Hq _ IH]; [by intros []|].
  intros [H|H]%in_app_or; [by eapply booted_no_create|by apply IH].
Qed.
Lemma boots_in pairs boots id s :
  Forall2 (fun q t => booted (fst q) (snd q) t) pairs boots -> In (id, s) pairs ->
  In (CGet id (Ok s)) (concat boots).
Proof.
  induction 1 as [|q t pairs boots Hq _ IH]; [by intros []|].
  intros [->|H]; apply in_or_app; [left; by apply booted_in|right; by apply IH].
Qed.
Lemma joined_no_create endpoint token version workers tr p r :
  joined endpoint token version workers tr -> ~ In (CCreate p r) tr.
Proof.
  induction 1 as [|w c workers tr (host & out & _ & ->) _ IH]; [by intros []|]. by intros [|].
Qed.

(** A server that was created is one of the output. *)
Lemma created_output input out tr p id :
  provisioned input out tr -> truthful tr -> In (CCreate p (Ok id)) tr ->
  exists s, In s (po_control_plane out :: po_workers out) /\ hs_id s = id.
Proof.
  intros (cp_id & cp_boot & host & o1 & token & raw & ids & t_create & t_boot & t_join &
          _ & Hcp & [Hlen Hcreate] & (boots & Hboot & Hn & Hboots) & Hjoin & _ & Htr) Htrue Hin.
  assert (Hcase : (id = cp_id) \/ In id ids).
  { rewrite Htr in Hin.
    apply in_app_or in Hin as [[H|[H|[H|[]]]]|Hin]; [done|left; by injection H|done|].
    apply in_app_or in Hin as [H|Hin]; [by eapply booted_no_create in H|].
    apply in_app_or in Hin as [[H|[H|[H|[H|[]]]]]|Hin]; [done..|].
    apply in_app_or in Hin as [H|Hin].
    { right. rewrite Hcreate in H. by apply in_zip_with in H as (i & id' & _ & Hi & [= _ <-]). }
    apply in_app_or in Hin as [[H|[]]|Hin]; [done|].
    apply in_app_or in Hin as [H|Hin]; [rewrite Hboot in H; by eapply boots_no_create in H|].
    apply in_app_or in Hin as [[H|[]]|Hin]; [done|].
    apply in_app_or in Hin as [H|[H|[H|[H|[]]]]]; [by eapply joined_no_create in H|done..]. }
  destruct Hcase as [->|Hid].
  - exists (po_control_plane out). split; [by left|]. apply Htrue. rewrite Htr.
    apply in_or_app. right. apply in_or_app. left. by apply booted_in.
  - destruct (in_zip_l ids (po_workers out) id Hid Hn) as (s & Hs & Hz). exists s. split; [by right|].
    apply Htrue. rewrite Htr. do 5 (apply in_or_app; right). apply in_or_app. left. rewrite Hboot.
    by eapply boots_in.
Qed.

Lemma deleted_one ids tr id : deleted_all ids tr -> In id ids -> exists a, gone a /\ In (CDelete id a) tr.
Proof.
  intros (answers & Hlen & Hgone & ->) Hid.
  destruct (in_zip_l ids answers id Hid Hlen) as (a & Ha & Hz). exists a. split.
  - rewrite Forall_forall in Hgone. by apply Hgone, list_elem_of_In.
  - right. apply in_or_app. left. rewrite zip_with_zip. by apply (in_map (uncurry CDelete) _ (id, a)).
Qed.

(** No row names the server, deleted or not. *)
Definition unrecorded (d : DB) (id : ServerId) : Prop :=
  Forall (fun row => sv_hetzner_server_id row <> u64_to_i64_sat id) (db_servers d).

Lemma recorded_own org id d d' new s :
  db_servers d' = db_servers d ++ new -> Forall (fun r => own_server org id r = true) new ->
  unrecorded d (hs_id s) -> on_record d' s -> 0 <= hs_id s <= i64_max ->
  exists row, In row (servers_of org id d') /\ server_id_of row = hs_id s.
Proof.
  intros Hd' Hnew Hold Hon Hid. unfold on_record in Hon. rewrite Hd' in Hon.
  apply existsb_exists in Hon as (row & Hrow & [He _]%andb_true_iff). apply Z.eqb_eq in He.
  assert (Hin : In row new).
  { apply in_app_or in Hrow as [H|H]; [|done]. unfold unrecorded in Hold. rewrite Forall_forall in Hold.
    apply list_elem_of_In, Hold in H. done. }
  exists row. split.
  - apply in_sort_by, filter_In. split; [rewrite Hd'; apply in_or_app; by right|].
    rewrite Forall_forall in Hnew. by apply Hnew, list_elem_of_In.
  - unfold server_id_of. rewrite He. by apply u64_i64_roundtrip.
Qed.
End Traces.

(** * From creation to deletion *)

Section Lifecycle.
Context `{En : Env, Ex : Externals} `{St : !SecretStore}.

(** C6: No server outlives its cluster: every server that a successful provisioning
    had Hetzner create is deleted, or found gone, by a later successful destruction of
    that cluster, whatever happened in between that kept its records; for identifiers
    that fit the database's 64-bit column and that no row had before, from a cloud
    that answers about the server it is asked about. *)
Theorem provisioned_servers_destroyed org input w w1 w2 w3 tr tr' p id :
  let cluster := pi_cluster_id input in
  bypass_rls = false -> SecretStoreLaws St -> unique_clusters (w_db w) -> unique_clusters (w_db w2) ->
  run_provision org input w = (Ok tt, w1) -> w_calls w1 = w_calls w ++ tr ->
  truthful tr -> In (CCreate p (Ok id)) tr -> 0 <= id <= i64_max -> unrecorded (w_db w) id ->
  incl (servers_of org cluster (w_db w1)) (servers_of org cluster (w_db w2)) ->
  run_destroy org cluster w2 = (Ok tt, w3) -> w_calls w3 = w_calls w2 ++ tr' ->
  exists answer, gone answer /\ In (CDelete id answer) tr'.
Proof.
  intros cluster Hb HSt Hu Hu2 Hp Htr Htrue Hin Hid Hfresh Hkept Hd Htr'.
  pose proof (run_provision_outcomes Hb org input w Hu) as H. apply (wp_run _ _ _ _ _ H) in Hp as (t & evs & R).
  clear H. pose proof (ran_calls _ _ _ _ _ _ R) as Ht. rewrite Htr in Ht. apply app_inv_head in Ht as <-.
  apply ran_db in R as (out & Hout & _ & (_ & Hon & (new & Hnew & _ & Hown) & _)).
  destruct (created_output input out tr p id Hout Htrue Hin) as (s & Hs & <-).
  rewrite Forall_forall in Hon. apply list_elem_of_In, Hon in Hs.
  destruct (recorded_own org cluster _ _ _ _ Hnew Hown Hfresh Hs Hid) as (row & Hrow & <-).
  pose proof (run_destroy_outcomes Hb org cluster w2 Hu2) as H. apply (wp_run _ _ _ _ _ H) in Hd as (t & evs' & R).
  pose proof (ran_calls _ _ _ _ _ _ R) as Ht. rewrite Htr' in Ht. apply app_inv_head in Ht as <-.
  apply ran_db in R as (Hdel & _). eapply deleted_one; [exact Hdel|]. by apply in_map, Hkept.
Qed.
End Lifecycle.

(** Tenant 2 provisions cluster 31 and destroys it: the first worker is deleted. *)
Definition demo_provisioned : @World demo_env :=
  (@run_provision demo_env calm_externals demo_store 2%N demo_input (demo_world demo_db)).2.
Definition demo_destroyed : @World demo_env :=
  (@run_destroy demo_env calm_externals demo_store 2%N 31%N demo_provisioned).2.
Definition calls_since (before after : list Call) : list Call := drop (length before) after.

Lemma ran_ok {E} (x : result E unit * @World demo_env) : x.1 = Ok tt -> x = (Ok tt, x.2).
Proof. destruct x. by intros [= ->]. Qed.

Lemma demo_provision_ok :
  (@run_provision demo_env calm_externals demo_store 2%N demo_input (demo_world demo_db)).1 = Ok tt.
Proof. vm_compute. reflexivity. Qed.
Lemma demo_destroy_ok :
  (@run_destroy demo_env calm_externals demo_store 2%N 31%N demo_provisioned).1 = Ok tt.
Proof. vm_compute. reflexivity. Qed.

Lemma provisioned_servers_destroyed_witness :
  exists answer, gone answer /\
    In (CDelete 101 answer) (calls_since (w_calls demo_provisioned) (w_calls demo_destroyed)).
Proof.
  refine (@provisioned_servers_destroyed demo_env calm_externals demo_store 2%N demo_input (demo_world demo_db)
    demo_provisioned demo_provisioned demo_destroyed (w_calls demo_provisioned) _
    (@provision_worker demo_env demo_input 0) 101 eq_refl (pgcrypto_laws "kek") demo_unique_clusters _ _ _ _ _ _ _ _ _ _).
  - unfold unique_clusters. vm_compute. repeat constructor; set_solver.
  - exact (ran_ok _ demo_provision_ok).
  - vm_compute. reflexivity.
  - intros id s H. revert H. vm_compute. intros H. 
    repeat (destruct H as [H|H]; [first [discriminate H | by injection H as <- <-]|]). destruct H.
  - vm_compute. tauto.
  - unfold i64_max. lia.
  - vm_compute. repeat constructor; discriminate.
  - apply incl_refl.
  - exact (ran_ok _ demo_destroy_ok).
  - vm_compute. reflexivity.
Defined.
