(* ===== verification/Credentials.v ===== *)
(** The Hetzner credentials of a tenant ([crates/identity/src]): the repository
    over [hetzner_credentials] ([repository.rs]) and [HetznerCredentialService]
    ([service.rs]), which couples a row to the secret that holds the token. *)

From stdpp Require Import base gmap strings list pretty.
From S2P Require Import Prelude Errors Integrations Events Schema Database Tables Secrets Safety.

Section Table.
Context `{En : Env}.

(** [hetzner_credentials] ([20260424120200], [20260424120300]) *)
#[export] Instance CredentialTable : Table HetznerCredential := {|
  rows := db_credentials;
  set_rows l db :=
    let 'mkDB a b c d _ f g h i j k m n o p r q t u v := db in mkDB a b c d l f g h i j k m n o p r q t u v;
  row_id := hc_id;
  row_tenant r := Some (hc_organization_id r);
  row_audited := Some "hetzner_credentials"%string;
  row_touch _ _ new := new;
  row_conflict a b :=
    bool_decide (hc_id a = hc_id b)
    || bool_decide (hc_organization_id a = hc_organization_id b)
       && String.eqb (hc_alias a) (hc_alias b)
       && is_none (hc_deleted_at a) && is_none (hc_deleted_at b);
  row_check db r := constraints
    [ (org_exists db (hc_organization_id r), DbForeignKey);
      (secret_exists db (hc_secret_id r), DbForeignKey) ];
  row_referenced _ _ := false;
  row_after _ _ db := db;
|}.
#[export] Instance CredentialTable_laws : TableLaws HetznerCredential.
Proof. table_laws. Qed.
#[export] Instance CredentialTable_plain : PlainTable HetznerCredential := fun _ _ _ => eq_refl.
#[export] Instance CredentialTable_tenant : TenantTable HetznerCredential :=
  {| tenant_of := hc_organization_id; row_tenant_of _ := eq_refl |}.
#[export] Instance CredentialTable_rows : TenantRows HetznerCredential.
Proof. intros org l d Hl. unfold others. destruct d; simpl in *. by rewrite Hl. Qed.
End Table.

(** [row_to_credential]: the handle pairs the secret with the row's tenant. *)
Definition secret_ref (c : HetznerCredential) : SecretRef :=
  mkSecretRef (hc_secret_id c) (hc_organization_id c).

Definition live_credential (id : Uuid) (c : HetznerCredential) : bool :=
  bool_decide (hc_id c = id) && is_none (hc_deleted_at c).

(** [SET deleted_at = now(), updated_at = now(), version = version + 1] *)
Definition credential_deleted (now : Z) (c : HetznerCredential) : HetznerCredential :=
  mkCredential (hc_id c) (hc_organization_id c) (hc_alias c) (hc_secret_id c) (hc_created_at c)
    now (Some now) (hc_version c + 1).

Definition map_credential_conflict (e : DbError) : PlatformError :=
  if is_unique_violation e then Conflict "a Hetzner credential with this alias already exists"
  else Database e.

Definition credential_not_found `{En : Env} (id : Uuid) : PlatformError :=
  NotFound ("hetzner_credential/" +++ uuid_str id).

Module CredentialRepository.
Section CredentialRepository.
Context `{En : Env}.

Definition insert_credential (organization_id : Uuid) (alias : string) (ref : SecretRef)
    (audit : AuditContext) : M World PlatformError HetznerCredential :=
  if bool_decide (sr_organization_id ref <> organization_id)
  then throw (Invalid "secret_ref organization does not match credential organization")
  else
    id <- now_v7 ;;
    tenant_tx organization_id (Some audit)
      (map_err map_credential_conflict (insert (fun now =>
         mkCredential id organization_id alias (sr_id ref) now now None 1))).

(** [ORDER BY created_at DESC] *)
Definition list_credentials (organization_id : Uuid)
  : M World PlatformError (list HetznerCredential) :=
  rows <- tenant_tx organization_id None (sql (select (fun _ c => is_none (hc_deleted_at c)))) ;;
  ret (sort_by (fun a b => hc_created_at b <=? hc_created_at a) rows).

Definition get_credential (organization_id id : Uuid)
  : M World PlatformError HetznerCredential :=
  rows <- tenant_tx organization_id None (sql (select (fun _ => live_credential id))) ;;
  match rows with
  | c :: _ => ret c
  | [] => throw (credential_not_found id)
  end.

Definition soft_delete_credential (organization_id id : Uuid) (audit : AuditContext)
  : M World PlatformError unit :=
  hits <- tenant_tx organization_id (Some audit)
    (sql (update (fun _ => live_credential id) credential_deleted)) ;;
  match hits with
  | [] => throw (credential_not_found id)
  | _ => ret tt
  end.
End CredentialRepository.
End CredentialRepository.
Export CredentialRepository.

Module HetznerCredentialService.
Section HetznerCredentialService.
Context `{En : Env} `{St : !SecretStore}.

Definition create_credential (organization_id : Uuid) (alias token : string)
    (audit : AuditContext) : M World PlatformError HetznerCredential :=
  ref <- map_err Secret (put organization_id token) ;;
  r <- attempt (insert_credential organization_id alias ref audit) ;;
  match r with
  | Ok credential => ret credential
  | Err err => ignore (delete_secret ref) ;;; throw err
  end.

Definition delete_credential (organization_id id : Uuid) (audit : AuditContext)
  : M World PlatformError unit :=
  credential <- get_credential organization_id id ;;
  soft_delete_credential organization_id id audit ;;;
  ignore (delete_secret (secret_ref credential)).
End HetznerCredentialService.
End HetznerCredentialService.
Export HetznerCredentialService.

(** * What the operations leave *)

Section Laws.
Context `{En : Env} `{St : !SecretStore} `{HSt : !SecretStoreLaws St}.
Context (org : Uuid) (Hb : bypass_rls = false).

Definition own_credential (id : Uuid) (c : HetznerCredential) : bool :=
  bool_decide (hc_organization_id c = org) && live_credential id c.

(** The credential a look-up of the tenant finds. *)
Definition credential_of (id : Uuid) (d : DB) : option HetznerCredential :=
  head (List.filter (own_credential id) (db_credentials d)).

Lemma get_credential_law d id :
  db_wp d (get_credential org id) (fun r d' => d' = d /\
    match r with
    | Ok c => credential_of id d = Some c
    | Err e => (e = credential_not_found id /\ credential_of id d = None) \/
               (faulty /\ e = Database DbTransport)
    end).
Proof.
  intros g. unfold get_credential. apply tx_bind. apply db_tenant_tx; [by split; auto|]. intros now.
  apply tx_map_err, tx_select; [by split; auto|]. cbn [result_map_err].
  rewrite (filter_ext_list _ (own_credential id)).
  - unfold credential_of. change (rows d) with (db_credentials d).
    destruct (List.filter _ _) as [|c l]; [apply tx_throw|apply tx_ret]; split; auto.
  - intros c. by rewrite (visible_own now org None c Hb).
Qed.

Lemma credentials_of_update t now audit id d :
  let g := tenant_guc now org audit in
  exists es, update_db t g (fun _ => live_credential id) credential_deleted d =
    set_audit (db_audit d ++ es) (set_rows (update_rows (own_credential id)
      (credential_deleted now) (db_credentials d)) d).
Proof.
  intros g. eexists. rewrite update_db_plain. f_equal. f_equal.
  assert (Hnow : g_now g = now) by by destruct audit.
  apply update_rows_ext; intros c; unfold update_hit, update_new; rewrite ?Hnow; [|done].
  by rewrite (visible_own now org audit c Hb).
Qed.

Lemma soft_delete_credential_law d id audit :
  db_wp d (soft_delete_credential org id audit) (fun r d' =>
    match r with
    | Ok _ => exists now es, d' = set_audit (db_audit d ++ es) (set_rows (update_rows
        (own_credential id) (credential_deleted now) (db_credentials d)) d)
    | Err _ => d' = d
    end).
Proof.
  intros g. unfold soft_delete_credential. apply tx_bind, db_tenant_tx; [done|]. intros now.
  apply tx_map_err, tx_update; [done|]. intros t. cbn [result_map_err].
  destruct (update_hits _ _ _ _) as [|c l] eqn:E.
  - apply tx_throw. by apply update_nothing.
  - apply tx_ret. exists now. apply credentials_of_update.
Qed.

(** A row soft-deleted by the tenant is not found again. *)
Lemma deleted_not_found id now d d' es :
  d' = set_audit (db_audit d ++ es) (set_rows (update_rows (own_credential id)
         (credential_deleted now) (db_credentials d)) d) -> credential_of id d' = None.
Proof.
  intros ->. unfold credential_of.
  assert (Hr : forall l, db_credentials (set_audit (db_audit d ++ es) (set_rows l d)) = l)
    by by destruct d.
  rewrite Hr, filter_false_in; [done|]. intros c (c0 & _ & ->)%in_update_rows.
  destruct (own_credential id c0) eqn:E; [|done]. unfold own_credential, live_credential. simpl.
  by rewrite !andb_false_r.
Qed.

Lemma delete_credential_law d id audit :
  db_wp d (delete_credential org id audit) (fun r d' =>
    match r with
    | Ok _ => credential_of id d' = None /\ db_clusters d' = db_clusters d
    | Err _ => d' = d
    end).
Proof.
  intros g. unfold delete_credential. apply tx_bind. tx_call get_credential_law.
  intros [c|e] d1 [-> _]; [|done].
  apply tx_bind. tx_call soft_delete_credential_law. intros [[]|e] d2; [|done].
  intros (now & es & Hd2). apply tx_ignore. tx_call delete_law. intros r d3 Hd3.
  pose proof (deleted_not_found _ _ _ _ _ Hd2) as Hnone.
  assert (Hcl : db_clusters d2 = db_clusters d) by (subst d2; by destruct d).
  destruct r as [u|e]; subst d3; [|by split]. by split; destruct d2.
Qed.

(** The row and its secret exist together, or neither does unless the clean-up
    of the secret failed. *)
Definition credential_created (alias token : string) (d : DB)
    (r : result PlatformError HetznerCredential) (d' : DB) : Prop :=
  match r with
  | Ok c => hc_organization_id c = org /\ hc_alias c = alias /\ hc_deleted_at c = None /\
      resolves d' (secret_ref c) token /\ db_credentials d' = db_credentials d ++ [c] /\
      ~ In (hc_id c) (map hc_id (db_credentials d)) /\
      (forall c', In c' (db_credentials d) -> hc_organization_id c' = org ->
         hc_alias c' = alias -> hc_deleted_at c' <> None)
  | Err _ => d' = d \/ exists row, d' = set_secrets (db_secrets d ++ [row]) d
  end.

Lemma create_credential_law d alias token audit :
  db_wp d (create_credential org alias token audit) (credential_created alias token d).
Proof.
  intros g. unfold create_credential. apply tx_bind, tx_map_err. tx_call put_law.
  intros [ref|e] d1; [|intros ->; simpl; by left].
  intros (Ho & Hres & row & Hrow & Hd1 & Hfresh). simpl. apply tx_bind, tx_attempt.
  assert (Hfail : forall e, tx_wp g d1 (bind (ignore (delete_secret ref)) (fun _ => throw e))
    (credential_created alias token d)).
  { intros e. apply tx_bind, tx_ignore. tx_call delete_law. intros [u|e'] d3 ->; apply tx_throw.
    - left. rewrite Hd1.
      assert (Hs : forall l, db_secrets (set_secrets l d) = l) by by destruct d.
      rewrite Hs, filter_app_list. simpl. rewrite Hrow. simpl. rewrite app_nil_r.
      rewrite not_own_fresh by done. by destruct d.
    - right. by exists row. }
  unfold insert_credential. rewrite bool_decide_false by congruence.
  apply tx_bind, tx_now_v7. intros id. apply db_tenant_tx; [intros _; apply Hfail|].
  intros now. apply tx_map_err, tx_insert; [intros _; apply Hfail|intros e _; apply Hfail|].
  intros Hok t. cbn [result_map_err]. apply tx_ret. set (c := mkCredential _ _ _ _ _ _ _ _) in *.
  rewrite insert_db_plain.
  set (es := audit_entries _ _ _ _ _).
  assert (Hcr : db_credentials (set_audit (db_audit d1 ++ es) (set_rows (rows d1 ++ [c]) d1))
    = db_credentials d ++ [c]) by (subst d1; by destruct d).
  apply insert_error_none in Hok as (_ & Hconf & _).
  assert (Hrows : rows d1 = db_credentials d) by (subst d1; by destruct d).
  rewrite Hrows, existsb_false_iff in Hconf.
  split; [done|]. split; [done|]. split; [done|]. split; [|split; [done|split]].
  - assert (Hsr : secret_ref c = ref) by (destruct ref; simpl in *; by subst). rewrite Hsr.
    eapply resolves_local; [|exact Hres]. by destruct d1.
  - intros (c' & Hid & Hin)%in_map_iff. specialize (Hconf c' Hin). cbn [row_conflict CredentialTable] in Hconf.
    apply orb_false_iff in Hconf as [Hne _]. apply bool_decide_eq_false in Hne. congruence.
  - intros c' Hin Hco Hca Hcd. specialize (Hconf c' Hin). cbn [row_conflict CredentialTable] in Hconf.
    apply orb_false_iff in Hconf as [_ Hne]. simpl in Hne. rewrite Hco, Hca, Hcd in Hne.
    by rewrite bool_decide_true, String.eqb_refl in Hne by done.
Qed.

(** The client built from a credential reads the token back. *)
Definition token_of (id : Uuid) : M World PlatformError string :=
  c <- get_credential org id ;;
  map_err Secret (get (secret_ref c)).

Lemma token_of_law d c token :
  credential_of (hc_id c) d = Some c -> resolves d (secret_ref c) token ->
  db_wp d (token_of (hc_id c)) (fun r d' => d' = d /\
    (r = Ok token \/ faulty /\ r = Err (Database DbTransport) \/
      exists e, store_failure e /\ r = Err (Secret e))).
Proof.
  intros Hc Hres g. unfold token_of. apply tx_bind. tx_call get_credential_law.
  intros [c'|e] d1 [-> H].
  - assert (c' = c) as -> by congruence. apply tx_map_err. tx_call get_law.
    intros r d2 [-> Hget]. split; [done|]. destruct (Hget token Hres) as [->|(e & ? & ->)]; simpl; eauto.
  - split; [done|]. destruct H as [[_ H]|[? ->]]; [congruence|auto].
Qed.

Lemma created_found alias token d c d1 :
  credential_created alias token d (Ok c) d1 -> credential_of (hc_id c) d1 = Some c.
Proof.
  intros (Ho & _ & Hd & _ & Hcr & Hnew & _). unfold credential_of. rewrite Hcr, filter_app_list.
  rewrite filter_false_in; simpl.
  - unfold own_credential, live_credential. rewrite Ho, Hd, !bool_decide_true by done. done.
  - intros c' Hin. unfold own_credential, live_credential.
    rewrite (bool_decide_false (hc_id c' = hc_id c)); [apply andb_false_r|].
    intros Heq. apply Hnew. rewrite <- Heq. by apply in_map.
Qed.
End Laws.

(** * Properties *)

Section Properties.
Context `{En : Env} `{St : !SecretStore} `{HSt : !SecretStoreLaws St}.

(** A credential that was created is unique under its alias, and the client
    built from it reads back the token; a refused one leaves at most the secret
    whose clean-up failed. *)
Theorem credential_roundtrip d org alias token audit :
  bypass_rls = false ->
  db_wp d (create_credential org alias token audit) (fun r d1 =>
    credential_created org alias token d r d1 /\
    match r with
    | Ok c => db_wp d1 (token_of org (hc_id c)) (fun r' d2 => d2 = d1 /\
        (r' = Ok token \/ faulty /\ r' = Err (Database DbTransport) \/
          exists e, store_failure e /\ r' = Err (Secret e)))
    | Err _ => True
    end).
Proof.
  intros Hb. eapply db_mono; [by apply create_credential_law|]. intros [c|e] d1 H; [|done].
  split; [done|]. pose proof (created_found _ _ _ _ _ _ H) as Hc.
  destruct H as (_ & _ & _ & Hres & _). by apply token_of_law.
Qed.
End Properties.

Lemma credential_roundtrip_witness :
  let St := @pgcrypto_store demo_env "kek" in
  let made := @create_credential demo_env St 1%N "spare" "token-2" demo_audit (demo_world demo_db) in
  exists c, made.1 = Ok c /\ (@token_of demo_env St 1%N (hc_id c) made.2).1 = Ok "token-2"%string.
Proof.
  intros St made. assert (Hok : is_ok made.1 = true) by (vm_compute; reflexivity).
  pose proof (@credential_roundtrip demo_env St (pgcrypto_laws "kek") demo_db 1%N "spare" "token-2"
    demo_audit eq_refl) as H.
  pose proof (db_run _ _ _ (demo_world demo_db) H eq_refl) as Hr. clear H. fold made in Hr.
  destruct made.1 as [c|e]; [|discriminate Hok]. exists c. split; [reflexivity|].
  destruct Hr as [_ Hr].
  destruct (db_run _ _ _ made.2 Hr eq_refl) as [_ [Hf|[[[n Hn] _]|(e & [[n Hn] _] & _)]]];
    [exact Hf|discriminate Hn..].
Defined.
