(* ===== verification/Membership.v ===== *)
(** Memberships and invitations ([crates/identity/src]): the tables
    [memberships] and [invites] with the trigger that keeps
    [users.requires_mfa] ([model.rs], [repository.rs]) and the use-cases of
    [MembershipService] ([service.rs]). *)

From Stdlib Require Import Ascii.
From stdpp Require Import base gmap strings list pretty.
From S2P Require Import Prelude Errors Integrations Events Schema Database Tables.

(** * Roles ([model.rs]) *)

Definition can_manage_members (r : MembershipRole) : bool :=
  match r with Owner | Admin => true | _ => false end.

(** [model.rs: MembershipView] *)
Record MembershipView := mkMemberView {
  mv_id : Uuid;
  mv_user_id : Uuid;
  mv_email : string;
  mv_display_name : string;
  mv_role : MembershipRole;
  mv_joined_at : Z;
  mv_last_active_at : option Z;
}.

(** [Invite::is_live] *)
Definition is_live (i : Invite) (now : Z) : bool :=
  is_none (iv_accepted_at i) && is_none (iv_revoked_at i) && (now <? iv_expires_at i).

(** [service.rs: InviteError], with its conversion to [PlatformError]. *)
Inductive InviteError :=
| InviteForbidden (msg : string)
| InvitePlatform (e : PlatformError).
Definition invite_to_platform (e : InviteError) : PlatformError :=
  match e with InviteForbidden msg => Forbidden msg | InvitePlatform p => p end.

(** * Tables *)

Definition set_users (l : list UserRow) (d : DB) : DB :=
  let 'mkDB a b c e f g h i _ k m n o p r q s t u v := d in mkDB a b c e f g h i l k m n o p r q s t u v.
Definition with_requires_mfa (b : bool) (u : UserRow) : UserRow :=
  mkUser (us_id u) (us_email u) (us_display_name u) b (us_mfa_enrolled u).

(** A live membership of the user that mandates MFA. *)
Definition privileged (user : Uuid) (m : Membership) : bool :=
  bool_decide (mb_user_id m = user) && is_none (mb_deleted_at m) && can_manage_members (mb_role m).

Section Tables.
Context `{En : Env}.

(** [sync_user_requires_mfa], with the rights and the tenant of the caller. *)
Definition sync_user_requires_mfa (g : Guc) (user : Uuid) (d : DB) : DB :=
  let computed := existsb (fun m =>
      (bypass_rls || bool_decide (mb_organization_id m = g_tenant g)) && privileged user m)
    (db_memberships d) in
  set_users (update_rows (fun u => bool_decide (us_id u = user)) (with_requires_mfa computed)
               (db_users d)) d.

Definition membership_touch (old new : Membership) : Membership :=
  mkMembership (mb_id new) (mb_organization_id new) (mb_user_id new) (mb_role new)
    (mb_created_at new) (mb_deleted_at new) (mb_version old + 1).

(** [memberships] ([initial], [20260426120000], [20260508174335]) *)
#[export] Instance MembershipTable : Table Membership := {|
  rows := db_memberships;
  set_rows l db :=
    let 'mkDB a b c d e f g h i _ k m n o p r q t u v := db in mkDB a b c d e f g h i l k m n o p r q t u v;
  row_id := mb_id;
  row_tenant r := Some (mb_organization_id r);
  row_audited := Some "memberships"%string;
  row_touch _ := membership_touch;
  row_conflict a b :=
    bool_decide (mb_id a = mb_id b)
    || bool_decide (mb_organization_id a = mb_organization_id b)
       && bool_decide (mb_user_id a = mb_user_id b);
  row_check db r := constraints
    [ (org_exists db (mb_organization_id r), DbForeignKey);
      (user_exists db (mb_user_id r), DbForeignKey) ];
  row_referenced _ _ := false;
  row_after g r db := sync_user_requires_mfa g (mb_user_id r) db;
|}.

(** [invites] ([20260426120000]) *)
#[export] Instance InviteTable : Table Invite := {|
  rows := db_invites;
  set_rows l db :=
    let 'mkDB a b c d e f g h i j _ m n o p r q t u v := db in mkDB a b c d e f g h i j l m n o p r q t u v;
  row_id := iv_id;
  row_tenant r := Some (iv_organization_id r);
  row_audited := Some "invites"%string;
  row_touch _ _ new := new;
  row_conflict a b :=
    bool_decide (iv_id a = iv_id b)
    || String.eqb (iv_token_hash a) (iv_token_hash b)
    || bool_decide (iv_organization_id a = iv_organization_id b)
       && String.eqb (citext_fold (iv_email a)) (citext_fold (iv_email b))
       && is_none (iv_accepted_at a) && is_none (iv_revoked_at a)
       && is_none (iv_accepted_at b) && is_none (iv_revoked_at b);
  row_check db r := constraints
    [ (org_exists db (iv_organization_id r), DbForeignKey);
      (user_exists db (iv_invited_by r), DbForeignKey) ];
  row_referenced _ _ := false;
  row_after _ _ db := db;
|}.

#[export] Instance MembershipTable_laws : TableLaws Membership.
Proof. table_laws. Qed.
#[export] Instance InviteTable_laws : TableLaws Invite.
Proof. table_laws. Qed.
#[export] Instance InviteTable_plain : PlainTable Invite := fun _ _ _ => eq_refl.
#[export] Instance MembershipTable_tenant : TenantTable Membership :=
  {| tenant_of := mb_organization_id; row_tenant_of _ := eq_refl |}.
#[export] Instance InviteTable_tenant : TenantTable Invite :=
  {| tenant_of := iv_organization_id; row_tenant_of _ := eq_refl |}.
End Tables.

(** * Repositories ([repository.rs]) *)

Definition own_membership (org user : Uuid) (m : Membership) : bool :=
  bool_decide (mb_organization_id m = org) && bool_decide (mb_user_id m = user)
  && is_none (mb_deleted_at m).
Definition with_role (role : MembershipRole) (m : Membership) : Membership :=
  mkMembership (mb_id m) (mb_organization_id m) (mb_user_id m) role (mb_created_at m)
    (mb_deleted_at m) (mb_version m).
Definition membership_deleted (now : Z) (m : Membership) : Membership :=
  mkMembership (mb_id m) (mb_organization_id m) (mb_user_id m) (mb_role m) (mb_created_at m)
    (Some now) (mb_version m).
(** [SET role = EXCLUDED.role, deleted_at = NULL, version = memberships.version + 1] *)
Definition membership_revived (new old : Membership) : Membership :=
  mkMembership (mb_id old) (mb_organization_id old) (mb_user_id old) (mb_role new)
    (mb_created_at old) None (mb_version old + 1).
Definition accepted (now : Z) (by_user : Uuid) (i : Invite) : Invite :=
  mkInvite (iv_id i) (iv_organization_id i) (iv_email i) (iv_role i) (iv_token_hash i)
    (iv_token_prefix i) (iv_invited_by i) (iv_expires_at i) (Some now) (Some by_user)
    (iv_revoked_at i) (iv_created_at i).
Definition revoked (now : Z) (i : Invite) : Invite :=
  mkInvite (iv_id i) (iv_organization_id i) (iv_email i) (iv_role i) (iv_token_hash i)
    (iv_token_prefix i) (iv_invited_by i) (iv_expires_at i) (iv_accepted_at i) (iv_accepted_by i)
    (Some now) (iv_created_at i).

Definition map_invite_conflict (e : DbError) : PlatformError :=
  if is_unique_violation e then Conflict "an invite for this email is already pending"
  else Database e.

Module MembershipRepository.
Section MembershipRepository.
Context `{En : Env}.

(** [(SELECT MAX(s.last_used_at) FROM sessions s ..)] *)
Definition last_active (user : Uuid) (d : DB) : option Z :=
  fold_left (fun acc s =>
      if bool_decide (ss_user_id s = user) && is_none (ss_revoked_at s)
      then Some (match acc with Some t => Z.max t (ss_last_used_at s) | None => ss_last_used_at s end)
      else acc)
    (db_sessions d) None.

(** [JOIN users u ON u.id = m.user_id] *)
Definition member_view (d : DB) (m : Membership) : option MembershipView :=
  match List.find (fun u => bool_decide (us_id u = mb_user_id m)) (db_users d) with
  | Some u => Some (mkMemberView (mb_id m) (mb_user_id m) (us_email u) (us_display_name u)
                      (mb_role m) (mb_created_at m) (last_active (mb_user_id m) d))
  | None => None
  end.

Definition list_memberships (organization_id : Uuid) : M World PlatformError (list MembershipView) :=
  tenant_tx organization_id None (sql (stmt (fun w =>
    let live := List.filter (fun m => visible (w_guc w) m
                  && (bool_decide (mb_organization_id m = organization_id) && is_none (mb_deleted_at m)))
                  (db_memberships (w_db w)) in
    (Ok (sort_by (fun a b => mv_joined_at a <=? mv_joined_at b) (omap (member_view (w_db w)) live)),
     w)))).

Definition role_of (organization_id user_id : Uuid)
  : M World PlatformError (option MembershipRole) :=
  rows <- tenant_tx organization_id None
    (sql (select (fun _ => own_membership organization_id user_id))) ;;
  ret (mb_role <$> head rows).

Definition insert_membership (organization_id user_id : Uuid) (role : MembershipRole)
    (audit : AuditContext) : M World PlatformError unit :=
  id <- now_v7 ;;
  tenant_tx organization_id (Some audit)
    (sql (upsert_row
      (fun new m => bool_decide (mb_organization_id m = mb_organization_id new)
                    && bool_decide (mb_user_id m = mb_user_id new))
      (fun now => mkMembership id organization_id user_id role now None 1)
      (fun _ => membership_revived))).

Definition update_membership_role (organization_id user_id : Uuid) (role : MembershipRole)
    (audit : AuditContext) : M World PlatformError unit :=
  hits <- tenant_tx organization_id (Some audit)
    (sql (update (fun _ => own_membership organization_id user_id) (fun _ => with_role role))) ;;
  match hits with
  | [] => throw (NotFound ("membership user/" +++ uuid_str user_id
                             +++ " in org/" +++ uuid_str organization_id))
  | _ => ret tt
  end.

Definition soft_delete_membership (organization_id user_id : Uuid) (audit : AuditContext)
  : M World PlatformError unit :=
  tenant_tx organization_id (Some audit)
    (sql (update (fun _ => own_membership organization_id user_id) membership_deleted)) ;;;
  ret tt.

Definition insert_invite (organization_id : Uuid) (email : string) (role : MembershipRole)
    (token_hash token_prefix : string) (invited_by : Uuid) (expires_at : Z) (audit : AuditContext)
  : M World PlatformError Invite :=
  id <- now_v7 ;;
  tenant_tx organization_id (Some audit)
    (map_err map_invite_conflict (insert (fun now =>
       mkInvite id organization_id email role token_hash token_prefix invited_by expires_at
         None None None now))).

Definition list_invites (organization_id : Uuid) : M World PlatformError (list Invite) :=
  rows <- tenant_tx organization_id None
    (sql (select (fun _ i => bool_decide (iv_organization_id i = organization_id)))) ;;
  ret (firstn 200 (sort_by (fun a b => iv_created_at b <=? iv_created_at a) rows)).

(** On the pool: the invitee has no tenant yet. *)
Definition get_by_hash (token_hash : string) : M World PlatformError (option Invite) :=
  rows <- on_pool (select (fun _ i => String.eqb (iv_token_hash i) token_hash)) ;;
  ret (head rows).

Definition mark_accepted (id accepted_by : Uuid) (audit : AuditContext)
  : M World PlatformError unit :=
  org <- on_pool (select (fun _ i => bool_decide (iv_id i = id))) ;;
  match org with
  | [] => throw (NotFound ("invite/" +++ uuid_str id))
  | i :: _ =>
      hits <- tenant_tx (iv_organization_id i) (Some audit)
        (sql (update (fun now i => bool_decide (iv_id i = id) && is_live i now)
                (fun now => accepted now accepted_by))) ;;
      match hits with
      | [] => throw (Forbidden "invite is expired, revoked, or already accepted")
      | _ => ret tt
      end
  end.

Definition revoke (organization_id id : Uuid) (audit : AuditContext) : M World PlatformError unit :=
  tenant_tx organization_id (Some audit)
    (sql (update (fun _ i => bool_decide (iv_id i = id) && is_none (iv_revoked_at i)
                             && is_none (iv_accepted_at i))
            revoked)) ;;;
  ret tt.
End MembershipRepository.
End MembershipRepository.
Export MembershipRepository.

(** * Use-cases ([service.rs]) *)

(** [Duration::days(7)], in microseconds. *)
Definition INVITE_TTL : Z := 7 * 24 * 60 * 60 * 1000000.
Definition INVITE_TOKEN_PREFIX : string := "kinv_".

(** [service.rs: token_prefix] *)
Definition token_prefix (token : string) : string :=
  take_chars (Nat.min (String.length INVITE_TOKEN_PREFIX + 4) (String.length token)) token.

Module MembershipService.
Section MembershipService.
Context `{En : Env}.

Definition platform {A} (m : M World PlatformError A) : M World InviteError A :=
  map_err InvitePlatform m.

Definition require_member_management (organization_id actor_user_id : Uuid)
  : M World InviteError MembershipRole :=
  role <- platform (role_of organization_id actor_user_id) ;;
  match role with
  | None => throw (InviteForbidden "not a member of this organization")
  | Some role =>
      if can_manage_members role then ret role
      else throw (InviteForbidden "only owners and admins can manage members")
  end.

Definition generate_token {E} : M World E string :=
  fun w => (Ok (INVITE_TOKEN_PREFIX +++ base64url (os_random (w_tick w))), tick w).

Definition create_invite (organization_id actor_user_id : Uuid) (email : string)
    (role : MembershipRole) (audit : AuditContext) : M World InviteError (Invite * string) :=
  require_member_management organization_id actor_user_id ;;;
  token <- generate_token ;;
  now <- now_utc ;;
  invite <- platform (insert_invite organization_id (trim email) role (sha256 token)
                        (token_prefix token) actor_user_id (now + INVITE_TTL) audit) ;;
  ret (invite, token).

Definition list_pending_invites (organization_id actor_user_id : Uuid)
  : M World InviteError (list Invite) :=
  require_member_management organization_id actor_user_id ;;;
  platform (list_invites organization_id).

Definition revoke_invite (organization_id invite_id actor_user_id : Uuid) (audit : AuditContext)
  : M World InviteError unit :=
  require_member_management organization_id actor_user_id ;;;
  platform (revoke organization_id invite_id audit).

Definition accept_invite (token : string) (user_id : Uuid) (user_email : string)
    (audit : AuditContext) : M World InviteError Invite :=
  found <- platform (get_by_hash (sha256 token)) ;;
  match found with
  | None => throw (InviteForbidden "invite not found")
  | Some invite =>
      now <- now_utc ;;
      if negb (is_live invite now)
      then throw (InviteForbidden "invite is expired, revoked, or already accepted")
      else if negb (eq_ignore_ascii_case (iv_email invite) user_email)
      then throw (InviteForbidden "invite email does not match the logged-in user")
      else
        platform (mark_accepted (iv_id invite) user_id audit) ;;;
        platform (insert_membership (iv_organization_id invite) user_id (iv_role invite) audit) ;;;
        ret invite
  end.

Definition list_members (organization_id actor_user_id : Uuid)
  : M World InviteError (list MembershipView) :=
  role <- platform (role_of organization_id actor_user_id) ;;
  match role with
  | None => throw (InviteForbidden "not a member of this organization")
  | Some _ => platform (list_memberships organization_id)
  end.

Definition is_owner (r : MembershipRole) : bool := match r with Owner => true | _ => false end.

Definition update_role (organization_id target_user_id : Uuid) (new_role : MembershipRole)
    (actor_user_id : Uuid) (audit : AuditContext) : M World InviteError unit :=
  require_member_management organization_id actor_user_id ;;;
  (if is_owner new_role then ret tt
   else
     current <- platform (role_of organization_id target_user_id) ;;
     match current with
     | Some Owner =>
         members <- platform (list_memberships organization_id) ;;
         if (length (List.filter (fun m => is_owner (mv_role m)) members) <=? 1)%nat
         then throw (InviteForbidden "cannot demote the last owner of the organization")
         else ret tt
     | _ => ret tt
     end) ;;;
  platform (update_membership_role organization_id target_user_id new_role audit).

Definition remove_member (organization_id target_user_id actor_user_id : Uuid)
    (audit : AuditContext) : M World InviteError unit :=
  require_member_management organization_id actor_user_id ;;;
  if bool_decide (target_user_id = actor_user_id)
  then throw (InviteForbidden "use the leave-org flow to remove yourself")
  else platform (soft_delete_membership organization_id target_user_id audit).
End MembershipService.
End MembershipService.
Export MembershipService.

(** * What the statements leave *)

Section Laws.
Context `{En : Env}.

Lemma visible_same {R} `{!Table R} `{!TenantTable R} now org audit (r : R) :
  tenant_of r = org -> visible (tenant_guc now org audit) r = true.
Proof.
  intros Hr. unfold visible. rewrite row_tenant_of, Hr.
  assert (g_tenant (tenant_guc now org audit) = org) as -> by by destruct audit.
  rewrite bool_decide_true by done. apply orb_true_r.
Qed.

Lemma own_visible now org user audit m :
  visible (tenant_guc now org audit) m && own_membership org user m = own_membership org user m.
Proof.
  destruct (own_membership org user m) eqn:E; [|apply andb_false_r].
  unfold own_membership in E. rewrite !andb_true_iff, !bool_decide_eq_true in E.
  by rewrite (visible_same now org audit m) by tauto.
Qed.

Definition memberships_of (org user : Uuid) (d : DB) : list Membership :=
  List.filter (own_membership org user) (db_memberships d).

Lemma role_of_law d org user :
  db_wp d (role_of org user) (fun r d' => d' = d /\
    match r with
    | Ok role => role = mb_role <$> head (memberships_of org user d)
    | Err e => faulty /\ e = Database DbTransport
    end).
Proof.
  intros g. unfold role_of. apply tx_bind. apply db_tenant_tx; [by split; auto|]. intros now.
  apply tx_map_err, tx_select; [by split; auto|]. cbn [result_map_err]. apply tx_ret.
  split; [done|]. do 2 f_equal. apply filter_ext_list. intros m. apply own_visible.
Qed.

(** The actor may manage the members of the organisation. *)
Definition manages (org actor : Uuid) (d : DB) : bool :=
  match head (memberships_of org actor d) with
  | Some m => can_manage_members (mb_role m)
  | None => false
  end.

Lemma require_law d org actor :
  db_wp d (require_member_management org actor) (fun r d' => d' = d /\
    match r with
    | Ok _ => manages org actor d = true
    | Err (InviteForbidden _) => manages org actor d = false
    | Err (InvitePlatform e) => faulty /\ e = Database DbTransport
    end).
Proof.
  intros g. unfold require_member_management, platform. apply tx_bind, tx_map_err.
  tx_call role_of_law. intros [role|e] d' [-> Hr]; simpl; [|done]. subst role.
  unfold manages. destruct (head (memberships_of org actor d)) as [m|]; simpl; [|by apply tx_throw].
  destruct (can_manage_members (mb_role m)) eqn:E; [apply tx_ret|apply tx_throw]; done.
Qed.

(** The AFTER triggers on [memberships] write [users] and the audit log only. *)
Lemma sync_others g u d :
  db_memberships (sync_user_requires_mfa g u d) = db_memberships d /\
  db_invites (sync_user_requires_mfa g u d) = db_invites d.
Proof. unfold sync_user_requires_mfa. by destruct d. Qed.

Lemma after_memberships g t op (rs : list Membership) d :
  db_memberships (after_rows g t op rs d) = db_memberships d /\
  db_invites (after_rows g t op rs d) = db_invites d /\
  db_users (after_rows g t op rs d) =
    db_users (fold_left (fun d m => sync_user_requires_mfa g (mb_user_id m) d) rs d).
Proof.
  set (sync := fun d m => sync_user_requires_mfa g (mb_user_id m) d).
  assert (H : forall l d0, db_memberships (fold_left sync l d0) = db_memberships d0 /\
                           db_invites (fold_left sync l d0) = db_invites d0).
  { induction l as [|m l IH]; intros d0; [done|]. cbn [fold_left].
    destruct (IH (sync d0 m)) as [-> ->]. apply sync_others. }
  destruct (H rs d) as [H1 H2]. rewrite <- H1, <- H2.
  unfold after_rows. change (fold_left (fun d (r : Membership) => row_after g r d) rs d)
    with (fold_left sync rs d).
  by destruct (fold_left sync rs d).
Qed.

Lemma memberships_of_update t now org audit p f d :
  (forall now m, p now m = true -> mb_organization_id m = org) ->
  let g := tenant_guc now org audit in
  db_memberships (update_db t g p f d) =
    update_rows (p now) (fun m => membership_touch m (f now m)) (db_memberships d) /\
  db_invites (update_db t g p f d) = db_invites d.
Proof.
  intros Hp g. unfold update_db. rewrite (proj1 (after_memberships _ _ _ _ _)).
  rewrite (proj1 (proj2 (after_memberships _ _ _ _ _))). split; [|by destruct d].
  trans (update_rows (update_hit g p) (update_new g f) (db_memberships d)); [by destruct d|].
  assert (Hnow : g_now g = now) by by destruct audit.
  apply update_rows_ext; intros m; unfold update_hit, update_new; rewrite Hnow; [|done].
  destruct (p now m) eqn:E; [|apply andb_false_r].
  by rewrite (visible_same now org audit m) by by eapply Hp.
Qed.

Lemma own_membership_org org user m : own_membership org user m = true -> mb_organization_id m = org.
Proof. unfold own_membership. rewrite !andb_true_iff, !bool_decide_eq_true. tauto. Qed.

Lemma update_membership_role_law d org user role audit :
  db_wp d (update_membership_role org user role audit) (fun r d' =>
    match r with
    | Ok _ => db_memberships d' = update_rows (own_membership org user)
                (fun m => membership_touch m (with_role role m)) (db_memberships d)
    | Err e => db_memberships d' = db_memberships d
    end).
Proof.
  intros g. unfold update_membership_role. apply tx_bind. apply db_tenant_tx; [done|]. intros now.
  apply tx_map_err, tx_update; [done|]. intros t. cbn [result_map_err].
  destruct (memberships_of_update t now org (Some audit) (fun _ => own_membership org user)
    (fun _ => with_role role) d) as [Hm _]; [by intros _ m; apply own_membership_org|].
  destruct (update_hits _ _ _ _) as [|m l] eqn:E; [apply tx_throw|by apply tx_ret].
  rewrite Hm. apply update_rows_none. unfold update_hits in E. apply map_eq_nil in E.
  rewrite <- E. apply filter_ext_list. intros m. symmetry. apply own_visible.
Qed.

Lemma soft_delete_membership_law d org user audit :
  db_wp d (soft_delete_membership org user audit) (fun r d' =>
    match r with
    | Ok _ => exists now, db_memberships d' = update_rows (own_membership org user)
                (fun m => membership_touch m (membership_deleted now m)) (db_memberships d)
    | Err e => d' = d /\ faulty
    end).
Proof.
  intros g. unfold soft_delete_membership. apply tx_bind.
  apply db_tenant_tx; [by split; auto|]. intros now.
  apply tx_map_err, tx_update; [by split; auto|]. intros t. cbn [result_map_err]. apply tx_ret.
  exists now. by apply memberships_of_update; intros _ m; apply own_membership_org.
Qed.

Lemma list_memberships_law d org :
  db_wp d (list_memberships org) (fun r d' => d' = d /\
    match r with
    | Ok l => l = sort_by (fun a b => mv_joined_at a <=? mv_joined_at b)
        (omap (member_view d) (List.filter (fun m => bool_decide (mb_organization_id m = org)
                                             && is_none (mb_deleted_at m)) (db_memberships d)))
    | Err e => faulty /\ e = Database DbTransport
    end).
Proof.
  intros g. unfold list_memberships. apply db_tenant_tx; [by split; auto|]. intros now.
  apply tx_map_err, tx_stmt; [by split; auto|]. intros w Hw Hg. split; [reflexivity|].
  cbn [fst snd result_map_err]. rewrite Hw, Hg. split; [done|]. do 2 f_equal.
  apply filter_ext_list. intros m.
  destruct (bool_decide (mb_organization_id m = org)) eqn:E; [|apply andb_false_r].
  apply bool_decide_eq_true in E. by rewrite (visible_same now org None m).
Qed.
End Laws.

(** * Owners *)

Section Owners.
Context `{En : Env}.

(** [UNIQUE (organization_id, user_id)] *)
Definition member_key (m : Membership) : Uuid * Uuid := (mb_organization_id m, mb_user_id m).
Definition unique_memberships (d : DB) : Prop := NoDup (map member_key (db_memberships d)).

Definition owner_row (org : Uuid) (m : Membership) : bool :=
  bool_decide (mb_organization_id m = org) && is_none (mb_deleted_at m) && is_owner (mb_role m).
Definition owners (org : Uuid) (d : DB) : list Membership :=
  List.filter (owner_row org) (db_memberships d).

Lemma own_unique org user d m m' :
  unique_memberships d -> In m (db_memberships d) -> In m' (db_memberships d) ->
  own_membership org user m = true -> own_membership org user m' = true -> m = m'.
Proof.
  intros Hu Hm Hm' H H'. apply (NoDup_map_inj member_key (db_memberships d)); try done.
  unfold own_membership in *. rewrite !andb_true_iff, !bool_decide_eq_true in *.
  unfold member_key. destruct H as [[-> ->] _], H' as [[-> ->] _]. done.
Qed.

(** The owners the member list shows are owners on record. *)
Lemma listed_owners d l :
  (length (List.filter (fun m => is_owner (mv_role m)) (omap (member_view d) l))
   <= length (List.filter (fun m => is_owner (mb_role m)) l))%nat.
Proof.
  induction l as [|m l IH]; [done|].
  change (omap (member_view d) (m :: l)) with
    (match member_view d m with
     | Some v => v :: omap (member_view d) l
     | None => omap (member_view d) l
     end).
  assert (Hrole : forall v, member_view d m = Some v -> mv_role v = mb_role m).
  { unfold member_view. intros v. by destruct (List.find _ (db_users d)); intros [= <-]. }
  destruct (member_view d m) as [v|]; simpl.
  - rewrite (Hrole v) by done. destruct (is_owner (mb_role m)); simpl; lia.
  - destruct (is_owner (mb_role m)); simpl; lia.
Qed.

Lemma filter_perm_length {A} (p : A -> bool) l k :
  l ≡ₚ k -> length (List.filter p l) = length (List.filter p k).
Proof.
  induction 1 as [|x l k _ IH|x y l|l1 l2 l3 _ IH1 _ IH2]; simpl; [done| | |congruence].
  - destruct (p x); simpl; congruence.
  - by destruct (p x), (p y).
Qed.

Lemma filter_filter {A} (p q : A -> bool) l :
  List.filter q (List.filter p l) = List.filter (fun x => p x && q x) l.
Proof. induction l as [|x l IH]; simpl; [done|]. destruct (p x); simpl; by rewrite IH. Qed.

(** An owner other than the target survives the change of the target's role. *)
Lemma owner_survives org user role d d' m :
  db_memberships d' = update_rows (own_membership org user)
    (fun m => membership_touch m (with_role role m)) (db_memberships d) ->
  In m (db_memberships d) -> owner_row org m = true ->
  own_membership org user m = false \/ role = Owner -> owners org d' <> [].
Proof.
  intros He Hm Ho Hother Hnil.
  assert (Hin : In (if own_membership org user m then membership_touch m (with_role role m) else m)
                  (owners org d')).
  { apply filter_In. rewrite He. split; [apply in_update_rows; by exists m|].
    destruct (own_membership org user m) eqn:E; [|done]. destruct Hother as [?| ->]; [done|].
    unfold owner_row in *. simpl. rewrite !andb_true_iff in *. tauto. }
  by rewrite Hnil in Hin.
Qed.

(** With two owners on record, one is not the target. *)
Lemma another_owner org user d :
  unique_memberships d -> (2 <= length (owners org d))%nat ->
  exists m, In m (db_memberships d) /\ owner_row org m = true /\ own_membership org user m = false.
Proof.
  intros Hu Hlen. unfold owners in Hlen.
  assert (Hnd : NoDup (map member_key (List.filter (owner_row org) (db_memberships d)))).
  { by apply NoDup_map_filter. }
  destruct (List.filter (owner_row org) (db_memberships d)) as [|a [|b l]] eqn:E;
    [exfalso; clear -Hlen; simpl in Hlen; lia|exfalso; clear -Hlen; simpl in Hlen; lia|].
  assert (Hin : forall x, In x (a :: b :: l) -> In x (db_memberships d) /\ owner_row org x = true)
    by (intros x Hx; rewrite <- E in Hx; by apply filter_In).
  destruct (Hin a) as [Ha Hoa]; [by left|]. destruct (Hin b) as [Hb Hob]; [right; by left|].
  destruct (own_membership org user a) eqn:Ea; [|by exists a].
  destruct (own_membership org user b) eqn:Eb; [|by exists b]. exfalso.
  rewrite (own_unique org user d a b) in Hnd by done. simpl in Hnd.
  apply NoDup_cons in Hnd as [Hnd _]. apply Hnd. by left.
Qed.

Lemma update_role_owner org target role actor audit d :
  unique_memberships d -> owners org d <> [] ->
  db_wp d (update_role org target role actor audit) (fun _ d' => owners org d' <> []).
Proof.
  intros Hu Hown g. unfold update_role, platform. apply tx_bind. tx_call require_law.
  intros [r|e] d1 [-> _]; [|done].
  assert (Hupd : forall m, In m (db_memberships d) -> owner_row org m = true ->
    own_membership org target m = false \/ role = Owner ->
    tx_wp g d (map_err InvitePlatform (update_membership_role org target role audit))
      (fun _ d' => owners org d' <> [])).
  { intros m Hm Ho Hother. apply tx_map_err. tx_call update_membership_role_law.
    intros [[]|e] d2 Hd2; [by eapply owner_survives|]. unfold owners. by rewrite Hd2. }
  assert (Hany : exists m, In m (db_memberships d) /\ owner_row org m = true).
  { unfold owners in Hown. destruct (List.filter _ _) as [|m l] eqn:E; [done|].
    exists m. apply filter_In. rewrite E. by left. }
  apply tx_bind. destruct (is_owner role) eqn:Hrole.
  { apply tx_ret. destruct Hany as (m & Hm & Ho). apply (Hupd m); try done. right. by destruct role. }
  apply tx_bind, tx_map_err. tx_call role_of_law. intros [cur|e] d2 [-> Hcur]; simpl; [|done].
  subst cur. destruct (head (memberships_of org target d)) as [t|] eqn:Ht; simpl.
  2: { apply tx_ret. destruct Hany as (m & Hm & Ho). apply (Hupd m); try done. left.
       destruct (own_membership org target m) eqn:E; [|done]. exfalso.
       assert (Hin : In m (memberships_of org target d)) by by apply filter_In.
       by destruct (memberships_of org target d). }
  assert (Htin : In t (db_memberships d) /\ own_membership org target t = true).
  { apply filter_In. change (List.filter _ _) with (memberships_of org target d).
    destruct (memberships_of org target d) as [|x l]; [done|]. injection Ht as ->. by left. }
  destruct Htin as [Htin Htown].
  assert (Hdemote : mb_role t <> Owner -> exists m, In m (db_memberships d) /\
            owner_row org m = true /\ own_membership org target m = false).
  { intros Hnot. destruct Hany as (m & Hm & Ho). exists m. repeat (split; [done|]).
    destruct (own_membership org target m) eqn:E; [|done]. exfalso.
    rewrite (own_unique org target d m t) in Ho by done. unfold owner_row in Ho.
    apply andb_true_iff in Ho as [_ Ho]. by destruct (mb_role t). }
  destruct (mb_role t) eqn:Hrt;
    try (apply tx_ret; destruct Hdemote as (m & Hm & Ho & Hn); [done|]; apply (Hupd m); auto).
  apply tx_bind, tx_map_err. tx_call list_memberships_law. intros [l|e] d2 [-> Hl]; simpl; [|done].
  destruct (Nat.leb_spec (length (List.filter (fun m => is_owner (mv_role m)) l)) 1) as [Hle|Hgt].
  { by apply tx_throw. }
  apply tx_ret. destruct (another_owner org target d) as (m & Hm & Ho & Hn); [done| |].
  - rewrite Hl, (filter_perm_length _ _ _ (sort_by_perm _ _)) in Hgt.
    pose proof (listed_owners d (List.filter (fun m => bool_decide (mb_organization_id m = org)
      && is_none (mb_deleted_at m)) (db_memberships d))) as Hlen.
    rewrite filter_filter in Hlen. unfold owners, owner_row. lia.
  - apply (Hupd m); auto.
Qed.
End Owners.

(** * The policy bit of the users *)

Section MfaSync.
Context `{En : Env} (Hb : bypass_rls = true).

(** Every user's bit says whether one of its live memberships mandates MFA. *)
Definition mfa_synced (d : DB) : Prop :=
  forall u, In u (db_users d) ->
    us_requires_mfa u = existsb (privileged (us_id u)) (db_memberships d).

Lemma if_same {A} (b : bool) (x : A) : (if b then x else x) = x.
Proof. by destruct b. Qed.

Lemma synced_users g rs d u :
  In u (db_users (fold_left (fun d m => sync_user_requires_mfa g (mb_user_id m) d) rs d)) ->
  exists u0, In u0 (db_users d) /\ us_id u = us_id u0 /\
    us_requires_mfa u =
      if existsb (fun m => bool_decide (mb_user_id m = us_id u)) rs
      then existsb (privileged (us_id u)) (db_memberships d) else us_requires_mfa u0.
Proof.
  revert d. induction rs as [|m rs IH]; intros d; simpl; [by exists u|].
  intros (u1 & Hu1 & Hid & Hreq)%IH. rewrite (proj1 (sync_others _ _ _)) in Hreq.
  assert (Hu1' : In u1 (update_rows (fun u => bool_decide (us_id u = mb_user_id m))
            (with_requires_mfa (existsb (privileged (mb_user_id m)) (db_memberships d))) (db_users d))).
  { unfold sync_user_requires_mfa in Hu1. rewrite Hb in Hu1. simpl in Hu1. by destruct d. }
  apply in_update_rows in Hu1' as (u0 & Hu0 & ->). exists u0. split; [done|].
  destruct (bool_decide (us_id u0 = mb_user_id m)) eqn:E; simpl in *.
  - apply bool_decide_eq_true in E. split; [done|]. rewrite Hreq, bool_decide_true by congruence.
    simpl. rewrite Hid, E. apply if_same.
  - split; [done|]. rewrite Hreq, bool_decide_false; [done|].
    intros Heq. apply bool_decide_eq_false in E. congruence.
Qed.

(** A write whose triggers ran for every row it changed keeps the bits. *)
Lemma synced_write g t op rs l d :
  (forall user, existsb (fun m => bool_decide (mb_user_id m = user)) rs = false ->
     existsb (privileged user) l = existsb (privileged user) (db_memberships d)) ->
  mfa_synced d -> mfa_synced (after_rows g t op rs (set_rows (l : list Membership) d)).
Proof.
  intros Hl Hs u Hu. destruct (after_memberships g t op rs (set_rows l d)) as (Hm & _ & Husers).
  rewrite Husers in Hu. apply synced_users in Hu as (u0 & Hu0 & Hid & ->). rewrite Hm.
  assert (Hrows : db_memberships (set_rows l d) = l) by by destruct d.
  rewrite Hrows. destruct (existsb (fun m => _) rs) eqn:E; [done|].
  rewrite Hid in *. rewrite (Hs u0) by by destruct d. by rewrite <- Hl.
Qed.

Lemma synced_update t g p f d :
  (forall now m, mb_user_id (f now m) = mb_user_id m) ->
  mfa_synced d -> mfa_synced (update_db (R := Membership) t g p f d).
Proof.
  intros Hf. apply synced_write. intros user Hno. unfold update_hits in Hno.
  change (rows d) with (db_memberships d) in *.
  induction (db_memberships d) as [|m l IH]; simpl in *; [done|].
  destruct (update_hit g p m); simpl in *; [|by rewrite IH].
  apply orb_false_iff in Hno as [Hm Hno]. rewrite IH by done. f_equal.
  unfold update_new, privileged in *. simpl in *. rewrite Hf in *. by rewrite Hm.
Qed.

Lemma synced_insert t g r d : mfa_synced d -> mfa_synced (insert_db (R := Membership) t g r d).
Proof.
  apply synced_write. intros user Hno. simpl in Hno. rewrite orb_false_r in Hno.
  rewrite existsb_app. simpl. unfold privileged at 2. rewrite Hno. simpl. by rewrite orb_false_r.
Qed.

Lemma mfa_bit_synced d org user role audit :
  mfa_synced d ->
  db_wp d (insert_membership org user role audit) (fun _ d' => mfa_synced d') /\
  db_wp d (update_membership_role org user role audit) (fun _ d' => mfa_synced d') /\
  db_wp d (soft_delete_membership org user audit) (fun _ d' => mfa_synced d').
Proof.
  intros Hs. split; [|split]; intros g.
  - unfold insert_membership. apply tx_bind, tx_now_v7. intros id. apply db_tenant_tx; [done|].
    intros now. apply tx_map_err. apply tx_upsert_row; try done.
    + intros old _ _ t. by apply synced_update.
    + intros _ _ t. by apply synced_insert.
  - unfold update_membership_role. apply tx_bind. apply db_tenant_tx; [done|]. intros now.
    apply tx_map_err, tx_update; [done|]. intros t. cbn [result_map_err].
    destruct (update_hits _ _ _ _); [apply tx_throw|apply tx_ret]; by apply synced_update.
  - unfold soft_delete_membership. apply tx_bind. apply db_tenant_tx; [done|]. intros now.
    apply tx_map_err, tx_update; [done|]. intros t. cbn [result_map_err]. apply tx_ret.
    by apply synced_update.
Qed.
End MfaSync.

(** * Invitations *)

Section Invites.
Context `{En : Env}.

Lemma insert_membership_law d org user role audit :
  db_wp d (insert_membership org user role audit) (fun r d' =>
    match r with
    | Ok _ => db_invites d' = db_invites d /\
        exists m, In m (db_memberships d') /\ own_membership org user m = true /\ mb_role m = role
    | Err e => d' = d
    end).
Proof.
  intros g. unfold insert_membership. apply tx_bind, tx_now_v7. intros id.
  apply db_tenant_tx; [done|]. intros now. apply tx_map_err.
  set (g1 := tenant_guc now org (Some audit)).
  set (r := mkMembership id org user role (g_now g1) None 1).
  set (on := fun new m : Membership => _ && _).
  assert (Hon : forall m, on r m = true -> mb_organization_id m = org /\ mb_user_id m = user).
  { unfold on. simpl. intros m. rewrite andb_true_iff, !bool_decide_eq_true. tauto. }
  apply tx_upsert_row; try done.
  - intros old Hfind _ t. apply find_some in Hfind as [Hin Hold]. change (on r old = true) in Hold.
    destruct (memberships_of_update t now org (Some audit) (fun _ => on r)
      (fun now => membership_revived r) d) as [Hm Hi]; [by intros _ m Hm; apply Hon|].
    cbn [result_map_err]. fold g1 in Hm, Hi. fold r. rewrite Hm, Hi. split; [done|]. exists (membership_touch old (membership_revived r old)).
    split; [apply in_update_rows; exists old; by rewrite Hold|].
    destruct (Hon old Hold) as [Ho Hu]. unfold own_membership. simpl.
    by rewrite !bool_decide_true.
  - intros _ _ t. cbn [result_map_err]. unfold insert_db.
    destruct (after_memberships g1 t ".created" [r] (set_rows (rows d ++ [r]) d)) as (Hm & Hi & _).
    fold r. rewrite Hm, Hi. split; [by destruct d|]. exists r. split.
    + destruct d. apply in_app_iff. right. by left.
    + unfold own_membership. simpl. by rewrite !bool_decide_true.
Qed.

(** ** As a role that bypasses row security, which acceptance needs *)

Context (Hb : bypass_rls = true).

Definition invite_by_hash (hash : string) (d : DB) : option Invite :=
  head (List.filter (fun i => String.eqb (iv_token_hash i) hash) (db_invites d)).

Lemma get_by_hash_law d hash :
  db_wp d (get_by_hash hash) (fun r d' => d' = d /\
    match r with Ok x => x = invite_by_hash hash d | Err e => faulty /\ e = Database DbTransport end).
Proof.
  intros g. unfold get_by_hash. apply tx_bind, db_on_pool. intros now.
  apply tx_select; [by split|]. cbn [result_map_err]. apply tx_ret. split; [done|].
  unfold invite_by_hash. f_equal. apply filter_ext_list. intros i. by rewrite (visible_bypass Hb).
Qed.

Lemma mark_accepted_law d id user audit :
  db_wp d (mark_accepted id user audit) (fun r d' =>
    match r with
    | Ok _ => db_memberships d' = db_memberships d /\ exists now,
        let p i := bool_decide (iv_id i = id) && is_live i now in
        existsb p (db_invites d) = true /\
        db_invites d' = update_rows p (accepted now user) (db_invites d)
    | Err _ => d' = d
    end).
Proof.
  intros g. unfold mark_accepted. apply tx_bind, db_on_pool. intros now0.
  apply tx_select; [done|]. cbn [result_map_err].
  destruct (List.filter _ _) as [|i0 rest]; [by apply tx_throw|]. apply tx_bind.
  apply db_tenant_tx; [done|]. intros now. apply tx_map_err, tx_update; [done|]. intros t.
  cbn [result_map_err]. set (g1 := tenant_guc now _ (Some audit)).
  set (p := fun (now : Z) (i : Invite) => bool_decide (iv_id i = id) && is_live i now).
  set (f := fun now : Z => accepted now user).
  assert (Hhit : forall i : Invite, update_hit (R := Invite) g1 p i = p now i).
  { intros i. unfold update_hit. by rewrite (visible_bypass Hb). }
  destruct (update_hits (R := Invite) g1 p f d) as [|h l] eqn:E.
  - apply tx_throw. by apply update_nothing.
  - apply tx_ret. split; [rewrite update_db_plain; by destruct d|]. exists now. cbv zeta. split.
    + unfold update_hits in E. destruct (List.filter _ _) as [|x k] eqn:F; [done|].
      apply existsb_exists. exists x. change (In x (db_invites d) /\ p now x = true).
      rewrite <- Hhit. apply filter_In. change (db_invites d) with (rows (R := Invite) d). rewrite F. by left.
    + rewrite update_db_plain.
      trans (update_rows (update_hit (R := Invite) g1 p) (update_new (R := Invite) g1 f) (db_invites d)); [by destruct d|].
      by apply update_rows_ext.
Qed.

(** Acceptance, branch by branch. *)
Lemma accept_law d token user email audit :
  db_wp d (accept_invite token user email audit) (fun r d' =>
    match r with
    | Ok inv =>
        invite_by_hash (sha256 token) d = Some inv /\
        eq_ignore_ascii_case (iv_email inv) email = true /\
        (exists m, In m (db_memberships d') /\
           own_membership (iv_organization_id inv) user m = true /\ mb_role m = iv_role inv) /\
        exists now, let p i := bool_decide (iv_id i = iv_id inv) && is_live i now in
          existsb p (db_invites d) = true /\
          db_invites d' = update_rows p (accepted now user) (db_invites d)
    | Err (InviteForbidden _) => d' = d
    | Err (InvitePlatform _) => db_memberships d' = db_memberships d
    end).
Proof.
  intros g. unfold accept_invite, platform. apply tx_bind, tx_map_err.
  tx_call get_by_hash_law. intros [found|e] d1 [-> Hr]; cbn [result_map_err]; [|done].
  subst found. destruct (invite_by_hash (sha256 token) d) as [inv|] eqn:Hinv; [|by apply tx_throw].
  apply tx_bind, tx_now_utc. intros now.
  destruct (is_live inv now); simpl; [|by apply tx_throw].
  destruct (eq_ignore_ascii_case (iv_email inv) email) eqn:He; simpl; [|by apply tx_throw].
  apply tx_bind, tx_map_err. tx_call mark_accepted_law. intros [[]|e] d2; cbn [result_map_err];
    [|by intros ->]. intros (Hm2 & now' & Hex & Hi2).
  apply tx_bind, tx_map_err. tx_call insert_membership_law.
  intros [[]|e] d3; cbn [result_map_err]; [|by intros ->]. intros (Hi3 & Hm3). apply tx_ret.
  repeat (split; [done|]). exists now'. rewrite Hi3. done.
Qed.

(** [UNIQUE (token_hash)] *)
Definition unique_invites (d : DB) : Prop :=
  NoDup (map iv_token_hash (db_invites d)) /\ NoDup (map iv_id (db_invites d)).

Lemma invite_by_hash_in hash d i :
  invite_by_hash hash d = Some i -> In i (db_invites d) /\ iv_token_hash i = hash.
Proof.
  unfold invite_by_hash. destruct (List.filter _ _) as [|x l] eqn:E; [done|]. intros [= ->].
  assert (Hin : In i (i :: l)) by by left. rewrite <- E in Hin.
  by apply filter_In in Hin as [Hin ->%String.eqb_eq].
Qed.

(** Once accepted, the row its token finds is not live, at any time. *)
Lemma accepted_not_live hash d d' inv now user i :
  unique_invites d -> invite_by_hash hash d = Some inv ->
  existsb (fun i => bool_decide (iv_id i = iv_id inv) && is_live i now) (db_invites d) = true ->
  db_invites d' = update_rows (fun i => bool_decide (iv_id i = iv_id inv) && is_live i now)
                    (accepted now user) (db_invites d) ->
  invite_by_hash hash d' = Some i -> forall t, is_live i t = false.
Proof.
  intros [Hh Hid] Hinv Hex Hd' Hi t.
  apply invite_by_hash_in in Hinv as [Hin Hhash]. apply invite_by_hash_in in Hi as [Hi Hihash].
  rewrite Hd' in Hi. apply in_update_rows in Hi as (x & Hx & ->).
  assert (Hxinv : x = inv).
  { apply (NoDup_map_inj iv_token_hash (db_invites d)); try done.
    destruct (bool_decide _ && is_live x now); simpl in Hihash; congruence. }
  subst x. apply existsb_exists in Hex as (y & Hy & Hpy). apply andb_true_iff in Hpy as [Hyid Hlive].
  apply bool_decide_eq_true in Hyid.
  assert (y = inv) as -> by by apply (NoDup_map_inj iv_id (db_invites d)).
  by rewrite bool_decide_true, Hlive.
Qed.

Lemma accepted_was_live hash d inv now :
  unique_invites d -> invite_by_hash hash d = Some inv ->
  existsb (fun i => bool_decide (iv_id i = iv_id inv) && is_live i now) (db_invites d) = true ->
  is_live inv now = true.
Proof.
  intros [_ Hid] [Hin _]%invite_by_hash_in (y & Hy & [Hyid Hl]%andb_true_iff)%existsb_exists.
  apply bool_decide_eq_true in Hyid.
  by assert (y = inv) as -> by by apply (NoDup_map_inj iv_id (db_invites d)).
Qed.
End Invites.

(** * The remaining use-cases *)

Section UseCases.
Context `{En : Env}.

(** A use-case behind [require_member_management] that an actor without the
    authority calls. *)
Definition refused {A} (d : DB) (r : result InviteError A) (d' : DB) : Prop :=
  d' = d /\ ((exists msg, r = Err (InviteForbidden msg)) \/
             (faulty /\ r = Err (InvitePlatform (Database DbTransport)))).

Lemma guarded_refused {A} d org actor (k : MembershipRole -> M World InviteError A) :
  manages org actor d = false ->
  db_wp d (bind (require_member_management org actor) k) (refused d).
Proof.
  intros Hno g. apply tx_bind. tx_call require_law. intros [r|[msg|e]] d' [-> Hr].
  - congruence.
  - split; [done|]. left. by exists msg.
  - destruct Hr as [? ->]. split; [done|]. by right.
Qed.

Lemma db_both {E A} d (m : M World E A) (P Q : result E A -> DB -> Prop) :
  db_wp d m P -> db_wp d m Q -> db_wp d m (fun r d' => P r d' /\ Q r d').
Proof.
  intros HP HQ g w Hd Hg. destruct (HP g w Hd Hg) as [? ?], (HQ g w Hd Hg) as [? ?].
  unfold wp. destruct (m w). done.
Qed.

Lemma update_role_law d org target role actor audit :
  db_wp d (update_role org target role actor audit) (fun r d' =>
    match r with
    | Ok _ => manages org actor d = true /\
        db_memberships d' = update_rows (own_membership org target)
          (fun m => membership_touch m (with_role role m)) (db_memberships d)
    | Err _ => db_memberships d' = db_memberships d
    end).
Proof.
  intros g. unfold update_role, platform. apply tx_bind. tx_call require_law.
  intros [r|e] d1 [-> Hm]; [|done].
  assert (Hupd : tx_wp g d (map_err InvitePlatform (update_membership_role org target role audit))
    (fun r d' => match r with
     | Ok _ => manages org actor d = true /\
         db_memberships d' = update_rows (own_membership org target)
           (fun m => membership_touch m (with_role role m)) (db_memberships d)
     | Err _ => db_memberships d' = db_memberships d
     end)).
  { apply tx_map_err. tx_call update_membership_role_law. by intros [[]|e] d2 Hd2. }
  apply tx_bind. destruct (is_owner role); [by apply tx_ret|].
  apply tx_bind, tx_map_err. tx_call role_of_law. intros [[[]|]|e] d2 [-> _]; simpl;
    try (by apply tx_ret); [|done].
  apply tx_bind, tx_map_err. tx_call list_memberships_law. intros [l|e] d2 [-> _]; simpl; [|done].
  destruct (_ <=? 1)%nat; [by apply tx_throw|by apply tx_ret].
Qed.

Lemma remove_member_law d org target actor audit :
  db_wp d (remove_member org target actor audit) (fun r d' =>
    match r with
    | Ok _ => manages org actor d = true /\ target <> actor /\
        exists now, db_memberships d' = update_rows (own_membership org target)
          (fun m => membership_touch m (membership_deleted now m)) (db_memberships d)
    | Err _ => d' = d
    end).
Proof.
  intros g. unfold remove_member, platform. apply tx_bind. tx_call require_law.
  intros [r|e] d1 [-> Hm]; [|done]. destruct (bool_decide_reflect (target = actor)).
  { by apply tx_throw. }
  apply tx_map_err. tx_call soft_delete_membership_law. intros [[]|e] d2 Hd2; simpl; [done|tauto].
Qed.

Lemma insert_invite_law d org email role hash prefix by_user expires audit :
  db_wp d (insert_invite org email role hash prefix by_user expires audit) (fun r d' =>
    match r with
    | Ok i => db_invites d' = db_invites d ++ [i] /\ exists id now,
        i = mkInvite id org email role hash prefix by_user expires None None None now
    | Err e => d' = d
    end).
Proof.
  intros g. unfold insert_invite. apply tx_bind, tx_now_v7. intros id.
  apply db_tenant_tx; [done|]. intros now. apply tx_map_err, tx_insert; try done.
  intros _ t. cbn [result_map_err]. split; [|by eexists _, _].
  rewrite insert_db_plain. by destruct d.
Qed.

Lemma create_invite_law d org actor email role audit :
  db_wp d (create_invite org actor email role audit) (fun r d' =>
    match r with
    | Ok (i, token) => manages org actor d = true /\ db_invites d' = db_invites d ++ [i] /\
        (exists n, token = INVITE_TOKEN_PREFIX +++ base64url (os_random n)) /\
        exists id now now', i = mkInvite id org (trim email) role (sha256 token)
          (token_prefix token) actor (now + INVITE_TTL) None None None now'
    | Err _ => d' = d
    end).
Proof.
  intros g. unfold create_invite, platform. apply tx_bind. tx_call require_law.
  intros [r|e] d1 [-> Hm]; [|done].
  apply tx_bind, (tx_ticked _ _ (fun n => INVITE_TOKEN_PREFIX +++ base64url (os_random n))).
  intros n. apply tx_bind, tx_now_utc. intros now.
  apply tx_bind, tx_map_err. tx_call insert_invite_law. intros [i|e] d2; cbn [result_map_err]; [|done].
  intros (Hd2 & id & now' & ->). apply tx_ret. repeat (split; [done|]).
  split; [by exists n|]. by exists id, now, now'.
Qed.

(** Under the production role no invitation is found. *)
Lemma accept_production d token user email audit :
  bypass_rls = false -> Forall (fun i => iv_organization_id i <> Uuid_nil) (db_invites d) ->
  db_wp d (accept_invite token user email audit) (refused d).
Proof.
  intros Hb Hnil g. unfold accept_invite, platform, get_by_hash.
  apply tx_bind, tx_map_err, tx_bind, db_on_pool. intros now.
  apply tx_select; cbn [result_map_err].
  { intros Hf. split; [done|]. by right. }
  rewrite filter_false_in.
  - apply tx_ret, tx_throw. split; [done|]. left. by eexists.
  - intros i Hi. rewrite visible_idle; [done|done|]. rewrite Forall_forall in Hnil.
    by apply Hnil, list_elem_of_In.
Qed.
End UseCases.

(** * What the use-cases promise *)

Section Properties.
Context `{En : Env}.

(** C37: Managing an organisation's members is refused to everyone but its
    owners and admins: the tables do not change. *)
Theorem members_need_authority d org actor target invite email role audit :
  manages org actor d = false ->
  db_wp d (create_invite org actor email role audit) (refused d) /\
  db_wp d (list_pending_invites org actor) (refused d) /\
  db_wp d (revoke_invite org invite actor audit) (refused d) /\
  db_wp d (update_role org target role actor audit) (refused d) /\
  db_wp d (remove_member org target actor audit) (refused d).
Proof. intros Hno. do 4 (split; [by apply guarded_refused|]). by apply guarded_refused. Qed.

(** C38: A role change by a manager rewrites exactly the target's live
    membership, a refused one changes no membership, and an organisation that
    has an owner keeps one. *)
Theorem update_role_correct d org target role actor audit :
  unique_memberships d -> owners org d <> [] ->
  db_wp d (update_role org target role actor audit) (fun r d' =>
    owners org d' <> [] /\
    match r with
    | Ok _ => manages org actor d = true /\
        db_memberships d' = update_rows (own_membership org target)
          (fun m => membership_touch m (with_role role m)) (db_memberships d)
    | Err _ => db_memberships d' = db_memberships d
    end).
Proof. intros Hu Ho. apply db_both; [by apply update_role_owner|apply update_role_law]. Qed.

(** A removal by a manager, of anyone but itself, ends exactly the
    target's live membership; a refused one changes nothing. *)
Theorem remove_member_correct d org target actor audit :
  db_wp d (remove_member org target actor audit) (fun r d' =>
    match r with
    | Ok _ => manages org actor d = true /\ target <> actor /\
        exists now, db_memberships d' = update_rows (own_membership org target)
          (fun m => membership_touch m (membership_deleted now m)) (db_memberships d)
    | Err _ => d' = d
    end).
Proof. apply remove_member_law. Qed.

(** A created invitation is the one row appended; it keeps the hash of the
    token and the first characters, ends seven days later, and the token itself
    is only returned. *)
Theorem create_invite_correct d org actor email role audit :
  db_wp d (create_invite org actor email role audit) (fun r d' =>
    match r with
    | Ok (i, token) => manages org actor d = true /\ db_invites d' = db_invites d ++ [i] /\
        (exists n, token = INVITE_TOKEN_PREFIX +++ base64url (os_random n)) /\
        exists id now now', i = mkInvite id org (trim email) role (sha256 token)
          (token_prefix token) actor (now + INVITE_TTL) None None None now'
    | Err _ => d' = d
    end).
Proof. apply create_invite_law. Qed.

(** For a role that bypasses row security, an accepted token is that of
    an invitation issued to the caller's address, which was live; the caller
    becomes a member with the invited role, and the token never finds a live
    invitation again.  A refusal leaves the memberships as they were. *)
Theorem accept_invite_correct d token user email audit :
  bypass_rls = true -> unique_invites d ->
  db_wp d (accept_invite token user email audit) (fun r d' =>
    match r with
    | Ok inv =>
        invite_by_hash (sha256 token) d = Some inv /\
        eq_ignore_ascii_case (iv_email inv) email = true /\
        (exists now, is_live inv now = true) /\
        (exists m, In m (db_memberships d') /\
           own_membership (iv_organization_id inv) user m = true /\ mb_role m = iv_role inv) /\
        (forall i t, invite_by_hash (sha256 token) d' = Some i -> is_live i t = false)
    | Err (InviteForbidden _) => d' = d
    | Err (InvitePlatform _) => db_memberships d' = db_memberships d
    end).
Proof.
  intros Hb Hu. eapply db_mono; [by apply accept_law|]. intros [inv|[msg|e]] d'; [|done|done].
  intros (Hinv & He & Hm & now & Hex & Hd'). repeat (split; [done|]). split; [|split; [done|]].
  - exists now. by eapply accepted_was_live.
  - intros i t Hi. by apply (accepted_not_live (sha256 token) d d' inv now user i).
Qed.

(** Under the production role, where the look-up by hash runs without a
    tenant, every acceptance is refused and changes nothing. *)
Theorem accept_invite_production d token user email audit :
  bypass_rls = false -> Forall (fun i => iv_organization_id i <> Uuid_nil) (db_invites d) ->
  db_wp d (accept_invite token user email audit) (refused d).
Proof. apply accept_production. Qed.

(** C39: For a role that bypasses row security, every write of a membership
    keeps each user's [requires_mfa] equal to whether one of its live
    memberships is an owner's or an admin's. *)
Theorem requires_mfa_invariant d org user role audit :
  bypass_rls = true -> mfa_synced d ->
  db_wp d (insert_membership org user role audit) (fun _ d' => mfa_synced d') /\
  db_wp d (update_membership_role org user role audit) (fun _ d' => mfa_synced d') /\
  db_wp d (soft_delete_membership org user audit) (fun _ d' => mfa_synced d').
Proof. intros Hb. by apply mfa_bit_synced. Qed.
End Properties.

(** * Two concrete organisations *)

(** Ada (5) owns organisation 1, where Bob (6) is an admin and Cy (7) is
    invited; Bob owns organisation 2. *)
Definition demo_members : DB :=
  mkDB [] [] [] [] [] [] demo_orgs []
    [mkUser 5%N "ada@x.org" "Ada" true false; mkUser 6%N "bob@x.org" "Bob" true false;
     mkUser 7%N "cy@x.org" "Cy" false false]
    [mkMembership 60%N 1%N 5%N Owner 10 None 1; mkMembership 61%N 1%N 6%N Admin 11 None 1;
     mkMembership 62%N 2%N 6%N Owner 12 None 1]
    [mkInvite 70%N 1%N "cy@x.org" Developer "#kinv_cy" "kinv_cy" 5%N 5000 None None None 20]
    [] [] [] [] [] [] [] [] [].

(** An admin can remove the last owner of an organisation: only the demotion
    is guarded. *)
Theorem remove_member_orphans :
  let run := @remove_member demo_env 1%N 5%N 6%N demo_audit (demo_world demo_members) in
  run.1 = Ok tt /\ owners 1%N demo_members <> [] /\ owners 1%N (w_db run.2) = [].
Proof. by vm_compute. Qed.

(** Under the production role the trigger sees the memberships of the
    current tenant only: Bob, an owner of organisation 2, no longer has to
    present a second factor once organisation 1 makes him a developer. *)
Theorem requires_mfa_lost :
  let run := @update_role demo_env 1%N 6%N Developer 5%N demo_audit (demo_world demo_members) in
  run.1 = Ok tt /\ mfa_synced demo_members /\
  exists u, In u (db_users (w_db run.2)) /\ us_id u = 6%N /\ us_requires_mfa u = false /\
    existsb (privileged 6%N) (db_memberships (w_db run.2)) = true.
Proof.
  split; [vm_compute; reflexivity|]. split.
  - intros u Hu. repeat destruct Hu as [<-|Hu]; done.
  - exists (mkUser 6%N "bob@x.org" "Bob" false false).
    split; [right; left; vm_compute; reflexivity|]. vm_compute. tauto.
Qed.

(** * The hypotheses hold there *)

Lemma demo_unique_members : unique_memberships demo_members.
Proof. apply (bool_decide_unpack _). vm_compute. exact I. Qed.
Lemma demo_unique_invites : unique_invites demo_members.
Proof. split; apply (bool_decide_unpack _); vm_compute; exact I. Qed.
Lemma demo_synced : mfa_synced demo_members.
Proof. intros u Hu. repeat destruct Hu as [<-|Hu]; done. Qed.

(** Cy is no member yet. *)
Lemma members_need_authority_witness :
  exists msg, @create_invite demo_env 1%N 7%N "d@x.org" Owner demo_audit (demo_world demo_members)
  = (Err (InviteForbidden msg),
     (@create_invite demo_env 1%N 7%N "d@x.org" Owner demo_audit (demo_world demo_members)).2).
Proof.
  destruct (@members_need_authority demo_env demo_members 1%N 7%N 5%N 70%N "d@x.org" Owner
    demo_audit eq_refl) as [H _].
  pose proof (db_run _ _ _ (demo_world demo_members) H eq_refl) as Hr. clear H.
  destruct Hr as [_ [[msg Hr]|[[n Hn] _]]]; [|discriminate Hn].
  exists msg. rewrite <- Hr. by destruct (create_invite _ _ _ _ _ _).
Defined.

(** Bob takes the ownership from Ada only after a second owner exists. *)
Lemma update_role_correct_witness :
  let run := @update_role demo_env 1%N 5%N Viewer 6%N demo_audit (demo_world demo_members) in
  owners 1%N (w_db run.2) <> [] /\
  run.1 = Err (InviteForbidden "cannot demote the last owner of the organization").
Proof.
  intros run. split; [|vm_compute; reflexivity].
  pose proof (@update_role_correct demo_env demo_members 1%N 5%N Viewer 6%N demo_audit
    demo_unique_members ltac:(discriminate)) as H.
  pose proof (db_run _ _ _ (demo_world demo_members) H eq_refl) as Hr. clear H.
  exact (proj1 Hr).
Defined.

(** Cy accepts, as a superuser connection. *)
Lemma accept_invite_correct_witness :
  let run := @accept_invite (demo_env_as true) "kinv_cy" 7%N "Cy@X.org" demo_audit
               (demo_world_as true demo_members) in
  exists inv, run.1 = Ok inv /\
  (forall i t, invite_by_hash "#kinv_cy" (w_db run.2) = Some i -> is_live i t = false).
Proof.
  intros run.
  pose proof (@accept_invite_correct (demo_env_as true) demo_members "kinv_cy" 7%N "Cy@X.org"
    demo_audit eq_refl demo_unique_invites) as H.
  pose proof (db_run _ _ _ (demo_world_as true demo_members) H eq_refl) as Hr. clear H.
  fold run in Hr. assert (Hok : run.1 = Ok (nth 0 (db_invites demo_members)
    (mkInvite 0%N 0%N EmptyString Viewer EmptyString EmptyString 0%N 0 None None None 0)))
    by (vm_compute; reflexivity).
  rewrite Hok in *. eexists. split; [reflexivity|]. by destruct Hr as (_ & _ & _ & _ & Hr).
Defined.

Lemma accept_invite_production_witness :
  (@accept_invite demo_env "kinv_cy" 7%N "cy@x.org" demo_audit (demo_world demo_members)).1
  = Err (InviteForbidden "invite not found").
Proof.
  pose proof (@accept_invite_production demo_env demo_members "kinv_cy" 7%N "cy@x.org" demo_audit
    eq_refl ltac:(repeat constructor; discriminate)) as H.
  pose proof (db_run _ _ _ (demo_world demo_members) H eq_refl) as Hr. clear H.
  destruct Hr as [_ [[msg Hr]|[[n Hn] _]]]; [|discriminate Hn].
  vm_compute. reflexivity.
Defined.

Lemma requires_mfa_invariant_witness :
  mfa_synced (w_db (@update_membership_role (demo_env_as true) 1%N 6%N Developer demo_audit
                      (demo_world_as true demo_members)).2).
Proof.
  destruct (@requires_mfa_invariant (demo_env_as true) demo_members 1%N 6%N Developer demo_audit
    eq_refl demo_synced) as (_ & H & _).
  exact (db_run _ _ _ (demo_world_as true demo_members) H eq_refl).
Defined.
