(* ===== verification/Sessions.v ===== *)
(** Browser sessions and the second factor ([crates/identity/src/session.rs]):
    the tables [sessions] and [users], which belong to no tenant, and the
    operations the authentication of a request is made of. *)

From stdpp Require Import base gmap strings list pretty.
From S2P Require Import Prelude Errors Integrations Events Schema Database Tables.

(** * Tables *)

Section Tables.
Context `{En : Env}.

(** [sessions] ([20260424120000], [20260505120000]) *)
#[export] Instance SessionTable : Table Session := {|
  rows := db_sessions;
  set_rows l db :=
    let 'mkDB a b c d e f g h i j k _ n o p r q t u v := db in mkDB a b c d e f g h i j k l n o p r q t u v;
  row_id := ss_id;
  row_tenant _ := None;
  row_audited := None;
  row_touch _ _ new := new;
  row_conflict a b := bool_decide (ss_id a = ss_id b);
  row_check db r := constraints [ (user_exists db (ss_user_id r), DbForeignKey) ];
  row_referenced _ _ := false;
  row_after _ _ db := db;
|}.

(** [users] ([20260424120000], [20260508174335]) *)
#[export] Instance UserTable : Table UserRow := {|
  rows := db_users;
  set_rows l db :=
    let 'mkDB a b c d e f g h _ j k m n o p r q t u v := db in mkDB a b c d e f g h l j k m n o p r q t u v;
  row_id := us_id;
  row_tenant _ := None;
  row_audited := None;
  row_touch _ _ new := new;
  row_conflict a b :=
    bool_decide (us_id a = us_id b)
    || String.eqb (citext_fold (us_email a)) (citext_fold (us_email b));
  row_check _ _ := None;
  row_referenced _ _ := false;
  row_after _ _ db := db;
|}.

#[export] Instance SessionTable_laws : TableLaws Session.
Proof. table_laws. Qed.
#[export] Instance UserTable_laws : TableLaws UserRow.
Proof. table_laws. Qed.
#[export] Instance SessionTable_plain : PlainTable Session := fun _ _ _ => eq_refl.
#[export] Instance UserTable_plain : PlainTable UserRow := fun _ _ _ => eq_refl.
End Tables.

(** * Operations *)

(** [Duration::days(30)], in microseconds. *)
Definition SESSION_TTL : Z := 30 * 24 * 60 * 60 * 1000000.

(** [revoked_at IS NULL AND expires_at > now()] *)
Definition session_live (t : Z) (s : Session) : bool :=
  is_none (ss_revoked_at s) && (t <? ss_expires_at s).

Definition session_revoked (now : Z) (s : Session) : Session :=
  mkSession (ss_id s) (ss_user_id s) (ss_created_at s) (ss_last_used_at s) (ss_expires_at s)
    (Some now) (ss_mfa_satisfied s).
Definition session_satisfied (s : Session) : Session :=
  mkSession (ss_id s) (ss_user_id s) (ss_created_at s) (ss_last_used_at s) (ss_expires_at s)
    (ss_revoked_at s) true.
Definition session_used (now : Z) (s : Session) : Session :=
  mkSession (ss_id s) (ss_user_id s) (ss_created_at s) now (ss_expires_at s)
    (ss_revoked_at s) (ss_mfa_satisfied s).

(** [session.rs: MfaState] *)
Inductive MfaState := NotRequired | MustEnrol | MustAssert | Enrolled.

Module SessionStore.
Section SessionStore.
Context `{En : Env}.

(** The two variants of issuing differ in the flag they write. *)
Definition issue_with (mfa_satisfied : bool) (user_id : Uuid) : M World PlatformError Session :=
  id <- now_v7 ;;
  now <- now_utc ;;
  sql (insert (fun _ => mkSession id user_id now now (now + SESSION_TTL) None mfa_satisfied)).
Definition issue := issue_with true.
Definition issue_partial_mfa := issue_with false.

Definition user_requires_partial_session (user_id : Uuid) : M World PlatformError bool :=
  rows <- on_pool (select (fun _ u => bool_decide (us_id u = user_id))) ;;
  ret match head rows with
      | Some u => us_requires_mfa u && us_mfa_enrolled u
      | None => false
      end.

Definition live_rows (session_id : Uuid) : M World PlatformError (option Session) :=
  rows <- on_pool (select (fun now s => bool_decide (ss_id s = session_id) && session_live now s)) ;;
  ret (head rows).

Definition mfa_state (user_id session_id : Uuid) : M World PlatformError MfaState :=
  users <- on_pool (select (fun _ u => bool_decide (us_id u = user_id))) ;;
  let '(requires_mfa, mfa_enrolled) :=
    match head users with
    | Some u => (us_requires_mfa u, us_mfa_enrolled u)
    | None => (false, false)
    end in
  if negb requires_mfa then ret NotRequired
  else if negb mfa_enrolled then ret MustEnrol
  else if bool_decide (session_id = Uuid_nil) then ret MustAssert
  else
    session_row <- live_rows session_id ;;
    let satisfied := match session_row with Some s => ss_mfa_satisfied s | None => false end in
    ret (if satisfied then Enrolled else MustAssert).

Definition mark_mfa_satisfied (id : Uuid) : M World PlatformError unit :=
  on_pool (update (fun _ s => bool_decide (ss_id s = id) && is_none (ss_revoked_at s))
             (fun _ => session_satisfied)) ;;;
  ret tt.

Definition revoke_session (id : Uuid) : M World PlatformError unit :=
  on_pool (update (fun _ s => bool_decide (ss_id s = id) && is_none (ss_revoked_at s))
             session_revoked) ;;;
  ret tt.

(** [now() - interval '5 minutes'] *)
Definition bump_activity (id : Uuid) : M World PlatformError unit :=
  on_pool (update (fun now s => bool_decide (ss_id s = id) && is_none (ss_revoked_at s)
                                && (ss_last_used_at s <? now - 5 * 60 * 1000000))
             session_used) ;;;
  ret tt.

Definition resolve (id : Uuid) : M World PlatformError (option Session) := live_rows id.

(** [auth.rs: callback], from the resolved user on; the check runs on the pool,
    and what the transaction wrote before leaves its answer alone. *)
Definition issue_session (user_id : Uuid) : M World PlatformError Session :=
  needs_partial <- user_requires_partial_session user_id ;;
  if needs_partial then issue_partial_mfa user_id else issue user_id.
Definition issue_for_login (user_id : Uuid) : M World PlatformError Session :=
  in_tx (issue_session user_id).
End SessionStore.
End SessionStore.
Export SessionStore.

(** * What the operations leave *)

(** A table that is not scoped to a tenant, not audited, and without triggers. *)
Class FreeTable `{En : Env} (R : Type) `{!Table R} : Prop := {
  free_tenant (r : R) : row_tenant r = None;
  free_audit : row_audited (R := R) = None;
  free_touch now (old new : R) : row_touch now old new = new;
}.

Section Free.
Context `{En : Env} {R : Type} `{!Table R} `{!TableLaws R} `{!PlainTable R} `{!FreeTable R}.

Lemma visible_free g (r : R) : visible g r = true.
Proof. unfold visible. by rewrite free_tenant. Qed.

Lemma update_hit_free g p (r : R) : update_hit g p r = p (g_now g) r.
Proof. unfold update_hit. by rewrite visible_free. Qed.

Lemma update_db_free t g (p : Z -> R -> bool) f d :
  update_db t g p f d = set_rows (update_rows (p (g_now g)) (f (g_now g)) (rows d)) d.
Proof.
  rewrite update_db_plain, audit_entries_none, app_nil_r by apply free_audit.
  rewrite <- (audit_set_rows (update_rows (p (g_now g)) (f (g_now g)) (rows d)) d).
  rewrite (update_rows_ext (update_hit g p) (p (g_now g)) (update_new g f) (f (g_now g))).
  - apply set_audit_self.
  - intros r. apply update_hit_free.
  - intros r _. apply free_touch.
Qed.

Lemma insert_db_free t g (r : R) d : insert_db t g r d = set_rows (rows d ++ [r]) d.
Proof.
  rewrite insert_db_plain, audit_entries_none, app_nil_r by apply free_audit.
  rewrite <- (audit_set_rows (rows d ++ [r]) d). apply set_audit_self.
Qed.

(** A statement on the pool. *)
Lemma select_free_law d (p : Z -> R -> bool) :
  db_wp d (on_pool (select p) : M World PlatformError (list R)) (fun r d' => d' = d /\
    match r with
    | Ok l => exists now, l = List.filter (p now) (rows d)
    | Err e => faulty /\ e = Database DbTransport
    end).
Proof.
  intros g. apply db_on_pool. intros now. apply tx_select; [done|]. split; [done|].
  exists now. apply filter_ext_list. intros r. by rewrite visible_free.
Qed.

Lemma update_free_law d (p : Z -> R -> bool) f :
  db_wp d (on_pool (update p f) : M World PlatformError (list R)) (fun r d' =>
    match r with
    | Ok _ => exists now, d' = set_rows (update_rows (p now) (f now) (rows d)) d
    | Err e => d' = d /\ faulty /\ e = Database DbTransport
    end).
Proof.
  intros g. apply db_on_pool. intros now. apply tx_update; [done|]. intros t.
  exists now. by rewrite update_db_free.
Qed.

Lemma update_hits_free g p f d :
  update_hits g p f d = map (f (g_now g)) (List.filter (p (g_now g)) (rows (R := R) d)).
Proof.
  unfold update_hits. rewrite (filter_ext_list (update_hit g p) (p (g_now g)))
    by (intros r; apply update_hit_free).
  apply map_ext. intros r. apply free_touch.
Qed.

(** The same statements inside a transaction, with the rows they answer. *)
Lemma tx_update_free g d (p : Z -> R -> bool) f P :
  (faulty -> P (Err DbTransport) d) ->
  P (Ok (map (f (g_now g)) (List.filter (p (g_now g)) (rows d))))
    (set_rows (update_rows (p (g_now g)) (f (g_now g)) (rows d)) d) ->
  tx_wp g d (update p f) P.
Proof. intros Hf HP. apply tx_update; [done|]. intros t. by rewrite update_hits_free, update_db_free. Qed.

Lemma tx_select_free g d (p : Z -> R -> bool) P :
  (faulty -> P (Err DbTransport) d) -> P (Ok (List.filter (p (g_now g)) (rows d))) d ->
  tx_wp g d (select p) P.
Proof.
  intros Hf HP. apply tx_select; [done|].
  rewrite (filter_ext_list _ (p (g_now g))); [done|]. intros r. by rewrite visible_free.
Qed.

Lemma tx_insert_free g d (mk : Z -> R) P :
  (forall e, P (Err e) d) ->
  (existsb (row_conflict (mk (g_now g))) (rows d) = false -> row_check d (mk (g_now g)) = None ->
   P (Ok (mk (g_now g))) (set_rows (rows d ++ [mk (g_now g)]) d)) ->
  tx_wp g d (insert mk) P.
Proof.
  intros Hf HP. apply tx_insert; [by intros _|by intros e _|]. intros He t.
  rewrite insert_db_free. unfold insert_error in He. rewrite visible_free in He. simpl in He.
  apply HP; by destruct (existsb _ _).
Qed.

Lemma tx_delete_free g d (p : Z -> R -> bool) P :
  (forall r : R, row_referenced d r = false) ->
  (faulty -> P (Err DbTransport) d) ->
  P (Ok (List.filter (p (g_now g)) (rows d)))
    (set_rows (List.filter (fun r => negb (p (g_now g) r)) (rows d)) d) ->
  tx_wp g d (delete p) P.
Proof.
  intros Href Hf HP.
  assert (Hhits : delete_hits g p d = List.filter (p (g_now g)) (rows d)).
  { apply filter_ext_list. intros r. apply update_hit_free. }
  apply tx_delete; [done| |intros _ t].
  - rewrite existsb_exists. intros (r & _ & H). by rewrite Href in H.
  - unfold delete_db. rewrite after_rows_plain, audit_entries_none, app_nil_r by apply free_audit.
    rewrite set_audit_self, Hhits.
    rewrite (filter_ext_list (fun r => negb (update_hit g p r)) (fun r => negb (p (g_now g) r))).
    + exact HP.
    + intros r. by rewrite update_hit_free.
Qed.
End Free.

Section Laws.
Context `{En : Env}.

#[export] Instance SessionTable_free : FreeTable Session.
Proof. by split. Qed.
#[export] Instance UserTable_free : FreeTable UserRow.
Proof. by split. Qed.

(** The session a cookie stands for at the time [t]. *)
Definition session_at (t : Z) (id : Uuid) (d : DB) : option Session :=
  head (List.filter (fun s => bool_decide (ss_id s = id) && session_live t s) (db_sessions d)).

Lemma live_rows_law d id :
  db_wp d (live_rows id) (fun r d' => d' = d /\
    match r with
    | Ok s => exists now, s = session_at now id d
    | Err e => faulty /\ e = Database DbTransport
    end).
Proof.
  intros g. unfold live_rows. apply tx_bind. tx_call (select_free_law (R := Session)).
  intros [l|e] d' [-> H]; [|done]. destruct H as [now ->]. apply tx_ret.
  split; [done|]. by exists now.
Qed.

Lemma user_lookup_law d user :
  db_wp d (on_pool (select (fun _ u => bool_decide (us_id u = user))) : M World PlatformError _)
    (fun r d' => d' = d /\
    match r with
    | Ok l => l = List.filter (fun u => bool_decide (us_id u = user)) (db_users d)
    | Err e => faulty /\ e = Database DbTransport
    end).
Proof.
  eapply db_mono; [apply (select_free_law (R := UserRow))|]. intros [l|e] d' [-> H]; [|done].
  split; [done|]. by destruct H as [now ->].
Qed.

Definition user_row (user : Uuid) (d : DB) : option UserRow :=
  head (List.filter (fun u => bool_decide (us_id u = user)) (db_users d)).

(** The matrix documented at [MfaState]. *)
Definition mfa_matrix (requires_mfa mfa_enrolled satisfied : bool) : MfaState :=
  if requires_mfa then
    if mfa_enrolled then if satisfied then Enrolled else MustAssert else MustEnrol
  else NotRequired.

Lemma mfa_state_law d user id :
  db_wp d (mfa_state user id) (fun r d' => d' = d /\
    match r with
    | Ok st => exists now, st =
        match user_row user d with
        | Some u => mfa_matrix (us_requires_mfa u) (us_mfa_enrolled u)
            (negb (bool_decide (id = Uuid_nil)) &&
             match session_at now id d with Some s => ss_mfa_satisfied s | None => false end)
        | None => NotRequired
        end
    | Err e => faulty /\ e = Database DbTransport
    end).
Proof.
  intros g. unfold mfa_state. apply tx_bind. tx_call user_lookup_law.
  intros [l|e] d' [-> H]; [|done]. subst l. fold (user_row user d).
  destruct (user_row user d) as [u|]; [|apply tx_ret; split; [done|by exists 0]].
  unfold mfa_matrix. destruct (us_requires_mfa u); simpl; [|apply tx_ret; split; [done|by exists 0]].
  destruct (us_mfa_enrolled u); simpl; [|apply tx_ret; split; [done|by exists 0]].
  destruct (bool_decide (id = Uuid_nil)); simpl; [apply tx_ret; split; [done|by exists 0]|].
  apply tx_bind. tx_call live_rows_law. intros [s|e] d' [-> H]; [|done]. destruct H as [now ->].
  apply tx_ret. split; [done|]. by exists now.
Qed.
End Laws.

Section Lifecycle.
Context `{En : Env}.

Lemma head_update_rows {A} (p : A -> bool) f l :
  head (update_rows p f l) = (fun x => if p x then f x else x) <$> head l.
Proof. by destruct l. Qed.

(** An update that keeps identifiers and liveness shows through the look-up. *)
Lemma session_at_update t id p f d d' :
  d' = set_rows (update_rows p f (rows (R := Session) d)) d ->
  (forall s, p s = true -> ss_id (f s) = ss_id s /\ session_live t (f s) = session_live t s) ->
  session_at t id d' = (fun s => if p s then f s else s) <$> session_at t id d.
Proof.
  intros -> Hf. unfold session_at. change (db_sessions (set_rows ?l d)) with
    (rows (R := Session) (set_rows l d)). rewrite rows_set_rows.
  rewrite filter_update_rows; [apply head_update_rows|].
  intros s Hs. destruct (Hf s Hs) as [-> ->]. done.
Qed.

Lemma session_at_id t id d s :
  session_at t id d = Some s -> ss_id s = id /\ session_live t s = true.
Proof.
  unfold session_at. intros H.
  assert (Hin : In s (List.filter (fun s => bool_decide (ss_id s = id) && session_live t s)
    (db_sessions d))) by (destruct (List.filter _ _); [done|by left; injection H]).
  apply filter_In in Hin as [_ Hp]. by rewrite andb_true_iff, bool_decide_eq_true in Hp.
Qed.

(** Only the table of sessions was written. *)
Definition sessions_only (d d' : DB) : Prop := exists l, d' = set_rows (l : list Session) d.

(** What a time sees of the session [id] once [id] was revoked. *)
Lemma revoke_law d id :
  db_wp d (revoke_session id) (fun r d' =>
    match r with
    | Ok _ => sessions_only d d' /\ map ss_id (db_sessions d') = map ss_id (db_sessions d) /\
        forall t id', session_at t id' d' =
          if bool_decide (id' = id) then None else session_at t id' d
    | Err _ => d' = d /\ faulty
    end).
Proof.
  intros g. unfold revoke_session. apply tx_bind. tx_call (update_free_law (R := Session)).
  intros [l|e] d'; [|by intros (-> & Hf & _)]. intros [now ->]. apply tx_ret. split; [by eexists|].
  split.
  { change (db_sessions (set_rows ?l d)) with (rows (R := Session) (set_rows l d)).
    rewrite rows_set_rows. unfold update_rows. rewrite map_map. apply map_ext. intros s.
    by destruct (_ && _). }
  intros t id'.
  unfold session_at. change (db_sessions (set_rows ?l d)) with
    (rows (R := Session) (set_rows l d)). rewrite rows_set_rows.
  destruct (bool_decide_reflect (id' = id)) as [->|Hne].
  - apply (f_equal head (y := [])), filter_false_in. intros s (s0 & _ & ->)%in_update_rows.
    destruct (bool_decide (ss_id s0 = id) && is_none (ss_revoked_at s0)) eqn:E.
    + simpl. apply andb_false_r.
    + unfold session_live. rewrite andb_assoc, E. done.
  - f_equal. apply filter_update_rows_other. intros s Hs.
    apply andb_true_iff in Hs as [Hid _]. apply bool_decide_eq_true in Hid.
    simpl. rewrite Hid, bool_decide_false by done. done.
Qed.

Lemma mark_law d id :
  db_wp d (mark_mfa_satisfied id) (fun r d' =>
    match r with
    | Ok _ => sessions_only d d' /\ forall t id', session_at t id' d' =
        (if bool_decide (id' = id) then session_satisfied else fun s => s) <$> session_at t id' d
    | Err _ => d' = d /\ faulty
    end).
Proof.
  intros g. unfold mark_mfa_satisfied. apply tx_bind. tx_call (update_free_law (R := Session)).
  intros [l|e] d'; [|by intros (-> & Hf & _)]. intros [now Hd']. apply tx_ret. split; [by eexists|]. intros t id'.
  rewrite (session_at_update t id' _ _ d d' Hd' (fun s _ => conj eq_refl eq_refl)).
  destruct (session_at t id' d) as [s|] eqn:E; simpl; [|done]. f_equal.
  apply session_at_id in E as [<- [Hl _]%andb_true_iff]. rewrite Hl, andb_true_r.
  by destruct (bool_decide (ss_id s = id)).
Qed.

(** The activity bump changes the time of last use only. *)
Lemma bump_law d id :
  db_wp d (bump_activity id) (fun r d' =>
    match r with
    | Ok _ => exists now, d' = set_rows (update_rows
        (fun s => bool_decide (ss_id s = id) && is_none (ss_revoked_at s)
                  && (ss_last_used_at s <? now - 5 * 60 * 1000000))
        (session_used now) (db_sessions d)) d
    | Err _ => d' = d
    end).
Proof.
  intros g. unfold bump_activity. apply tx_bind. tx_call (update_free_law (R := Session)).
  intros [l|e] d'; [|by intros [-> _]]. intros [now ->]. apply tx_ret. by exists now.
Qed.

Lemma bump_at d d' now id t id' :
  d' = set_rows (update_rows
        (fun s => bool_decide (ss_id s = id) && is_none (ss_revoked_at s)
                  && (ss_last_used_at s <? now - 5 * 60 * 1000000))
        (session_used now) (db_sessions d)) d ->
  (fun s => session_used 0 s) <$> session_at t id' d' = (fun s => session_used 0 s) <$> session_at t id' d.
Proof.
  intros Hd'. rewrite (session_at_update t id' _ _ d d' Hd' (fun s _ => conj eq_refl eq_refl)).
  destruct (session_at t id' d) as [s|]; simpl; [|done]. by destruct (_ && _ && _).
Qed.

Lemma issue_law g d mfa user :
  tx_wp g d (issue_with mfa user) (fun r d' =>
    match r with
    | Ok s => ss_user_id s = user /\ ss_mfa_satisfied s = mfa /\ ss_revoked_at s = None /\
        ss_expires_at s = ss_created_at s + SESSION_TTL /\ user_exists d user = true /\
        ~ In (ss_id s) (map ss_id (db_sessions d)) /\ d' = set_rows (db_sessions d ++ [s]) d
    | Err _ => d' = d
    end).
Proof.
  unfold issue_with. apply tx_bind, tx_now_v7. intros id. apply tx_bind, tx_now_utc. intros now.
  apply tx_map_err, tx_insert; try done. intros Hok t. cbn [result_map_err].
  rewrite insert_db_free. set (s := mkSession _ _ _ _ _ _ _).
  unfold insert_error in Hok. rewrite visible_free in Hok. simpl in Hok.
  destruct (existsb _ _) eqn:Ex in Hok; [done|]. do 4 (split; [done|]). split; [|split; [|done]].
  - unfold row_check in Hok. simpl in Hok. by destruct (user_exists d user).
  - rewrite existsb_false_iff in Ex. intros (s' & Hid & Hin)%in_map_iff. specialize (Ex s' Hin).
    cbn [row_conflict SessionTable] in Ex. apply bool_decide_eq_false in Ex. by apply Ex.
Qed.

(** The second factor the user has to show at the next log-in. *)
Definition must_assert (user : Uuid) (d : DB) : bool :=
  match user_row user d with
  | Some u => us_requires_mfa u && us_mfa_enrolled u
  | None => false
  end.

Definition logged_in (d : DB) (user : Uuid) (r : result PlatformError Session) (d' : DB) : Prop :=
  match r with
  | Ok s => ss_user_id s = user /\ ss_mfa_satisfied s = negb (must_assert user d) /\
      ss_revoked_at s = None /\ ss_expires_at s = ss_created_at s + SESSION_TTL /\
      ~ In (ss_id s) (map ss_id (db_sessions d)) /\ d' = set_rows (db_sessions d ++ [s]) d
  | Err _ => d' = d
  end.
Lemma issue_session_law g d user : tx_wp g d (issue_session user) (logged_in d user).
Proof.
  unfold issue_session. apply tx_bind.
  unfold user_requires_partial_session. apply tx_bind. tx_call user_lookup_law.
  intros [l|e] d' [-> Hl]; [|done]. subst l. apply tx_ret. fold (user_row user d) (must_assert user d).
  destruct (must_assert user d) eqn:Hm; (eapply tx_mono; [apply issue_law|]);
    intros [s|e] d'; try done; intros (H1 & H2 & H3 & H4 & _ & H6 & H7); cbn [logged_in]; by rewrite Hm, H2.
Qed.
Lemma login_law d user : db_wp d (issue_for_login user) (logged_in d user).
Proof.
  unfold issue_for_login. apply db_in_tx; [done|]. intros now. tx_call issue_session_law. by intros [s|e] d'.
Qed.

(** A session that was just appended is the one its identifier stands for. *)
Lemma session_at_new d s t :
  ~ In (ss_id s) (map ss_id (db_sessions d)) ->
  session_at t (ss_id s) (set_rows (db_sessions d ++ [s]) d) =
  if session_live t s then Some s else None.
Proof.
  intros Hnew. unfold session_at. change (db_sessions (set_rows ?l d)) with
    (rows (R := Session) (set_rows l d)). rewrite rows_set_rows, filter_app_list.
  rewrite (filter_false_in _ (db_sessions d)); simpl.
  - rewrite bool_decide_true by done. by destruct (session_live t s).
  - intros x Hx. rewrite bool_decide_false; [done|]. intros Heq. apply Hnew. rewrite <- Heq.
    by apply in_map.
Qed.
End Lifecycle.

(** The second factor, from a log-in to the assertion. *)
Section Flow.
Context `{En : Env}.

(** [callback], [/v1/me], a successful assertion, [/v1/me]. *)
Definition login_and_assert (user : Uuid) : M World PlatformError (Session * MfaState * MfaState) :=
  s <- issue_for_login user ;;
  before <- mfa_state user (ss_id s) ;;
  mark_mfa_satisfied (ss_id s) ;;;
  after <- mfa_state user (ss_id s) ;;
  ret (s, before, after).

Lemma user_row_sessions user l d : user_row user (set_rows (l : list Session) d) = user_row user d.
Proof. by destruct d. Qed.

Lemma login_and_assert_law d user :
  must_assert user d = true ->
  db_wp d (login_and_assert user) (fun r d' =>
    match r with
    | Ok (s, before, after) => ss_mfa_satisfied s = false /\ before = MustAssert /\
        exists now, after =
          if negb (bool_decide (ss_id s = Uuid_nil)) && session_live now s
          then Enrolled else MustAssert
    | Err _ => True
    end).
Proof.
  intros Hmust g. pose proof Hmust as Hrow. unfold must_assert in Hrow.
  destruct (user_row user d) as [u|] eqn:Hu; [|done]. apply andb_true_iff in Hrow as [Hreq Henr].
  unfold login_and_assert. apply tx_bind. tx_call login_law. intros [s|e] d1; [|done].
  intros (Hs & Hmfa & Hrev & Hexp & Hnew & Hd1). rewrite Hmust in Hmfa. simpl in Hmfa.
  assert (Hat : forall t, session_at t (ss_id s) d1 = if session_live t s then Some s else None).
  { intros t. rewrite Hd1. by apply session_at_new. }
  apply tx_bind. tx_call mfa_state_law. intros [before|e] d2; [|by intros []].
  intros [-> (now & Hbefore)]. rewrite Hat, Hd1, user_row_sessions, Hu, Hreq, Henr in Hbefore.
  apply tx_bind. tx_call mark_law. intros [[]|e] d2; [|done]. intros [[l Hl] Hd2].
  apply tx_bind. tx_call mfa_state_law. intros [after|e] d3; [|by intros []].
  intros [-> (now' & Hafter)]. apply tx_ret. split; [done|]. split.
  - rewrite Hbefore. unfold mfa_matrix.
    destruct (bool_decide (ss_id s = Uuid_nil)), (session_live now s); simpl; by rewrite ?Hmfa.
  - exists now'. rewrite Hafter, Hl, user_row_sessions, Hd1, user_row_sessions, Hu, Hreq, Henr.
    rewrite <- Hd1, <- Hl, Hd2, Hat, (bool_decide_true (ss_id s = ss_id s)) by done.
    unfold mfa_matrix. by destruct (bool_decide (ss_id s = Uuid_nil)), (session_live now' s).
Qed.
End Flow.

(** * Properties *)

Section Properties.
Context `{En : Env}.

(** A log-in appends one session that ends thirty days later and is partial
    exactly when the user must and can present a second factor; a revoked
    session is found at no later time; the assertion marks its own session
    only; and a failed call changes nothing. *)
Theorem session_operations_correct d user id :
  db_wp d (issue_for_login user) (fun r d' =>
    match r with
    | Ok s => ss_user_id s = user /\ ss_mfa_satisfied s = negb (must_assert user d) /\
        ss_revoked_at s = None /\ ss_expires_at s = ss_created_at s + SESSION_TTL /\
        ~ In (ss_id s) (map ss_id (db_sessions d)) /\ d' = set_rows (db_sessions d ++ [s]) d
    | Err _ => d' = d
    end) /\
  db_wp d (revoke_session id) (fun r d' =>
    match r with
    | Ok _ => sessions_only d d' /\ map ss_id (db_sessions d') = map ss_id (db_sessions d) /\
        forall t id', session_at t id' d' =
          if bool_decide (id' = id) then None else session_at t id' d
    | Err _ => d' = d /\ faulty
    end) /\
  db_wp d (mark_mfa_satisfied id) (fun r d' =>
    match r with
    | Ok _ => sessions_only d d' /\ forall t id', session_at t id' d' =
        (if bool_decide (id' = id) then session_satisfied else fun s => s) <$> session_at t id' d
    | Err _ => d' = d /\ faulty
    end).
Proof. split; [apply login_law|]. split; [apply revoke_law|apply mark_law]. Qed.

(** A user that must present a second factor logs in to a session in the
    state [MustAssert]; the assertion takes it to [Enrolled] for as long as the
    session lives. *)
Theorem second_factor_flow d user :
  must_assert user d = true ->
  db_wp d (login_and_assert user) (fun r _ =>
    match r with
    | Ok (s, before, after) => ss_mfa_satisfied s = false /\ before = MustAssert /\
        exists now, after =
          if negb (bool_decide (ss_id s = Uuid_nil)) && session_live now s
          then Enrolled else MustAssert
    | Err _ => True
    end).
Proof. apply login_and_assert_law. Qed.

(** [mfa_state] is the documented matrix of the policy bit, the enrolment
    and the session's flag; an unknown user needs no second factor, a session
    that is not live counts as unsatisfied. *)
Theorem mfa_state_matrix d user id :
  db_wp d (mfa_state user id) (fun r d' => d' = d /\
    match r with
    | Ok st => exists now, st =
        match user_row user d with
        | Some u => mfa_matrix (us_requires_mfa u) (us_mfa_enrolled u)
            (negb (bool_decide (id = Uuid_nil)) &&
             match session_at now id d with Some s => ss_mfa_satisfied s | None => false end)
        | None => NotRequired
        end
    | Err e => faulty /\ e = Database DbTransport
    end).
Proof. apply mfa_state_law. Qed.
End Properties.

(** Ada (5) is enrolled and must assert. *)
Definition demo_users : DB :=
  let 'mkDB a b c d e f g h _ j k m n o p r q t u v := empty_db in
  mkDB a b c d e f g h [mkUser 5%N "ada@x.org" "Ada" true true; mkUser 7%N "cy@x.org" "Cy" false false]
    j k m n o p r q t u v.

Lemma second_factor_flow_witness :
  let run := @login_and_assert demo_env 5%N (demo_world demo_users) in
  match run.1 with
  | Ok (s, before, after) => ss_mfa_satisfied s = false /\ before = MustAssert /\ after = Enrolled
  | Err _ => False
  end.
Proof.
  intros run. pose proof (@second_factor_flow demo_env demo_users 5%N eq_refl) as H.
  pose proof (db_run _ _ _ (demo_world demo_users) H eq_refl) as Hr. clear H. fold run in Hr.
  assert (Ha : forall s b a, run.1 = Ok (s, b, a) -> a = Enrolled).
  { vm_compute. congruence. }
  assert (Hok : is_ok run.1 = true) by (vm_compute; reflexivity).
  destruct run.1 as [[[s before] after]|e]; [|discriminate Hok].
  destruct Hr as (? & ? & _). split; [done|]. split; [done|]. by eapply Ha.
Defined.
