(* ===== verification/Access.v ===== *)
(** The authentication of a request ([crates/api/src/actor.rs]), the audit
    context it gives the operations ([audit_ctx.rs]), and the API keys
    ([api_keys.rs]).  A request is what its headers say: [rq_header n] is the
    value of the first header [n] when it is visible ASCII. *)

From Stdlib Require Import Ascii.
From stdpp Require Import base gmap strings list pretty.
From S2P Require Import Prelude Errors Integrations Events Schema Database Tables.
From S2P Require Import Membership Sessions.

Record Request := mkRequest { rq_header : string -> option string }.

(** What an extractor rejects a request with: [reject(status, msg)], or a
    rendered [ApiError]. *)
Inductive Rejection :=
| Reject (status : Z) (msg : string)
| RejectError (e : PlatformError).
Definition rejection_status (r : Rejection) : Z :=
  match r with Reject s _ => s | RejectError e => pb_status (into_response e) end.

(** [actor.rs: Actor, SessionUser, OwnerActor] *)
Record Actor := mkActor {
  ac_user_id : Uuid;
  ac_session_id : Uuid;
  ac_organization_id : Uuid;
}.
Record SessionUser := mkSessionUser { su_user_id : Uuid; su_session_id : Uuid }.
Record OwnerActor := mkOwnerActor { ow_inner : Actor; ow_role : MembershipRole }.

(** * API keys: the table *)

Section Table.
Context `{En : Env}.

(** [api_keys] ([20260424120000]); its updates are [update_keys] below. *)
#[export] Instance ApiKeyTable : Table ApiKey := {|
  rows := db_api_keys;
  set_rows l db :=
    let 'mkDB a b c d e f g h i j k m n o p _ r t u v := db in mkDB a b c d e f g h i j k m n o p l r t u v;
  row_id := ak_id;
  row_tenant r := Some (ak_organization_id r);
  row_audited := None;
  row_touch _ _ new := new;
  row_conflict a b :=
    bool_decide (ak_id a = ak_id b) || String.eqb (ak_token_hash a) (ak_token_hash b);
  row_check db r := constraints
    [ (org_exists db (ak_organization_id r), DbForeignKey);
      (match ak_user_id r with Some u => user_exists db u | None => true end, DbForeignKey) ];
  row_referenced _ _ := false;
  row_after _ _ db := db;
|}.
#[export] Instance ApiKeyTable_laws : TableLaws ApiKey.
Proof. table_laws. Qed.
#[export] Instance ApiKeyTable_plain : PlainTable ApiKey := fun _ _ _ => eq_refl.
#[export] Instance ApiKeyTable_tenant : TenantTable ApiKey :=
  {| tenant_of := ak_organization_id; row_tenant_of _ := eq_refl |}.

(** The BEFORE UPDATE trigger [api_keys_updated_at] runs [set_updated_at], which
    assigns [NEW.updated_at]; [api_keys] has no such column, so the trigger
    fails on every row it fires for. *)
Definition no_updated_at : DbError := DbMessage "record new has no field updated_at".
Definition update_keys (p : Z -> ApiKey -> bool) (f : Z -> ApiKey -> ApiKey)
  : M World DbError (list ApiKey) := update_chk (fun _ _ => Some no_updated_at) p f.
End Table.

(** * Requests *)

Definition SESSION_COOKIE : string := "kubinate_session".
Definition KEY_PREFIX : string := "kpat_".

(** The first pair with the prefix decides, parsed or not. *)
Fixpoint first_cookie (name : string) (cookies : list string) : option string :=
  match cookies with
  | [] => None
  | cookie :: rest =>
      match strip_prefix (name +++ "=") (trim cookie) with
      | Some value => Some value
      | None => first_cookie name rest
      end
  end.
(** [auth.rs: extract_cookie] *)
Definition extract_cookie (raw name : string) : option string :=
  first_cookie name (split_char ";"%char raw).

Section Requests.
Context `{En : Env}.

Definition extract_session_cookie (rq : Request) : option Uuid :=
  rq_header rq "cookie" ≫= fun raw => extract_cookie raw SESSION_COOKIE ≫= uuid_parse.

Definition extract_bearer_token (rq : Request) : option string :=
  rq_header rq "authorization" ≫= strip_prefix "Bearer ".

Definition header_uuid (rq : Request) (name : string) : option Uuid :=
  rq_header rq name ≫= uuid_parse.

(** [audit_ctx.rs] *)
Definition from_user_id_and_headers (user_id : Uuid) (rq : Request) : AuditContext :=
  mkAuditContext (if bool_decide (user_id = Uuid_nil) then None else Some user_id)
    (rq_header rq "x-request-id") (rq_header rq "user-agent").
Definition from_actor_and_headers (actor : Actor) (rq : Request) : AuditContext :=
  from_user_id_and_headers (ac_user_id actor) rq.

(** [.map_err(|_| reject(500, msg))] *)
Definition reject_on {E A} (msg : string) (m : M World E A) : M World Rejection A :=
  map_err (fun _ => Reject 500 msg) m.
End Requests.

(** * Extraction *)

Module Authentication.
Section Authentication.
Context `{En : Env}.

Definition member_of_user (user_id : Uuid) (m : Membership) : bool :=
  bool_decide (mb_user_id m = user_id) && is_none (mb_deleted_at m).

Definition resolve_organization (rq : Request) (user_id : Uuid) : M World Rejection Uuid :=
  match header_uuid rq "x-organization-id" with
  | Some header_org =>
      members <- reject_on "membership check failed"
        (on_pool (E := DbError) (select (fun _ => own_membership header_org user_id))) ;;
      match members with
      | [] => throw (Reject 403 "not a member of that organization")
      | _ => ret header_org
      end
  | None =>
      members <- reject_on "membership lookup failed"
        (on_pool (E := DbError) (select (fun _ => member_of_user user_id))) ;;
      match head (sort_by (fun a b => mb_created_at b <=? mb_created_at a) members) with
      | Some m => ret (mb_organization_id m)
      | None => throw (Reject 403 "user has no active organization membership")
      end
  end.

(** [SET LOCAL app.api_key_auth_bypass = 'on'], after which the policy
    [api_keys_auth_bypass] shows every key to a SELECT. *)
Definition set_key_bypass : M World DbError unit := stmt (fun w => (Ok tt, w)).
Definition select_bypassed (p : Z -> ApiKey -> bool) : M World DbError (list ApiKey) :=
  stmt (fun w => (Ok (List.filter (p (g_now (w_guc w))) (db_api_keys (w_db w))), w)).

Definition key_live (now : Z) (k : ApiKey) : bool :=
  is_none (ak_revoked_at k)
  && match ak_expires_at k with None => true | Some t => now <? t end.
Definition key_used (now : Z) (k : ApiKey) : ApiKey :=
  mkApiKey (ak_id k) (ak_organization_id k) (ak_user_id k) (ak_name k) (ak_token_hash k)
    (ak_token_prefix k) (ak_created_at k) (Some now) (ak_expires_at k) (ak_revoked_at k).

(** A key whose user is gone does not decode: [user_id] is read as not null. *)
Definition resolve_api_key (token : string) : M World Rejection (option Actor) :=
  in_tx_with (Reject 500 "api key auth: db begin failed")
    (fun found => match found with
                  | None => Ok None
                  | Some _ => Err (Reject 500 "api key auth: commit failed")
                  end)
    (reject_on "api key auth: bypass set failed" set_key_bypass ;;;
     keys <- reject_on "api key lookup failed"
       (select_bypassed (fun now k => String.eqb (ak_token_hash k) (sha256 token) && key_live now k)) ;;
     match head keys with
     | None => ret None
     | Some k =>
         match ak_user_id k with
         | None => throw (Reject 500 "api key lookup failed")
         | Some user_id =>
             ignore (set_tenant (ak_organization_id k)) ;;;
             ignore (update_keys (fun _ k' => bool_decide (ak_id k' = ak_id k)) key_used) ;;;
             ret (Some (mkActor user_id Uuid_nil (ak_organization_id k)))
         end
     end).

Definition authentication_required {A} : M World Rejection A :=
  throw (Reject 401 "authentication required").

(** The session a cookie names, if it is live. *)
Definition cookie_session (rq : Request) : M World Rejection (option Session) :=
  match extract_session_cookie rq with
  | Some session_id => reject_on "session lookup failed" (resolve session_id)
  | None => ret None
  end.

Definition dev_header_actor (rq : Request) : M World Rejection Actor :=
  if allow_header_actor then
    match header_uuid rq "x-organization-id" with
    | Some org => ret (mkActor (default Uuid_nil (header_uuid rq "x-actor-user-id")) Uuid_nil org)
    | None => throw (Reject 401 "dev header actor: X-Organization-Id missing or not a UUID")
    end
  else authentication_required.

(** [Actor::from_request_parts]; the activity bump is a task of its own, run
    here at once, and its error is dropped. *)
Definition extract_actor (rq : Request) : M World Rejection Actor :=
  session <- cookie_session rq ;;
  match session with
  | Some session =>
      org <- resolve_organization rq (ss_user_id session) ;;
      ignore (bump_activity (ss_id session)) ;;;
      ret (mkActor (ss_user_id session) (ss_id session) org)
  | None =>
      match extract_bearer_token rq with
      | Some token =>
          if starts_with KEY_PREFIX token then
            found <- resolve_api_key token ;;
            match found with
            | Some actor => ret actor
            | None => throw (Reject 401 "invalid or revoked API key")
            end
          else dev_header_actor rq
      | None => dev_header_actor rq
      end
  end.

(** [SessionUser::from_request_parts] *)
Definition extract_session_user (rq : Request) : M World Rejection SessionUser :=
  session <- cookie_session rq ;;
  match session with
  | Some session => ret (mkSessionUser (ss_user_id session) (ss_id session))
  | None =>
      if allow_header_actor then
        match header_uuid rq "x-actor-user-id" with
        | Some user_id => ret (mkSessionUser user_id Uuid_nil)
        | None => throw (Reject 401 "dev header actor: X-Actor-User-Id required for SessionUser")
        end
      else authentication_required
  end.

Definition mfa_gate (session_id : Uuid) : M World Rejection unit :=
  if bool_decide (session_id = Uuid_nil) then ret tt
  else
    row <- reject_on "session mfa-state lookup failed" (live_rows session_id) ;;
    match row with
    | Some s =>
        if ss_mfa_satisfied s then ret tt
        else throw (RejectError (MfaRequired "WebAuthn assertion required for this action"))
    | None => throw (RejectError (MfaRequired "WebAuthn assertion required for this action"))
    end.

(** [OwnerActor::from_request_parts] *)
Definition extract_owner (rq : Request) : M World Rejection OwnerActor :=
  actor <- extract_actor rq ;;
  mfa_gate (ac_session_id actor) ;;;
  members <- reject_on "role lookup failed"
    (on_pool (E := DbError)
       (select (fun _ => own_membership (ac_organization_id actor) (ac_user_id actor)))) ;;
  match head members with
  | None => throw (Reject 403 "no membership in the active organization")
  | Some m =>
      match mb_role m with
      | Owner | Admin => ret (mkOwnerActor actor (mb_role m))
      | _ => throw (Reject 403 "this action requires Owner or Admin role")
      end
  end.
End Authentication.
End Authentication.
Export Authentication.

(** * API key routes *)

Module ApiKeys.
Section ApiKeys.
Context `{En : Env}.

Definition own_key (user_id : Uuid) (k : ApiKey) : bool :=
  bool_decide (ak_user_id k = Some user_id) && is_none (ak_revoked_at k).

Definition list_api_keys (actor : Actor) : M World PlatformError (list ApiKey) :=
  rows <- tenant_tx (ac_organization_id actor) None
    (sql (select (fun _ => own_key (ac_user_id actor)))) ;;
  ret (sort_by (fun a b => ak_created_at b <=? ak_created_at a) rows).

(** [TOKEN_PREFIX.len() + 4] *)
Definition key_token_prefix (token : string) : string :=
  take_chars (Nat.min (String.length KEY_PREFIX + 4) (String.length token)) token.

Definition generate_key {E} : M World E string :=
  fun w => (Ok (KEY_PREFIX +++ base64url (os_random (w_tick w))), tick w).

(** [Duration::days(i64::from(days))], in microseconds. *)
Definition days (n : Z) : Z := n * 24 * 60 * 60 * 1000000.

Definition key_expiry (expires_in_days : option Z) : M World PlatformError (option Z) :=
  match expires_in_days with
  | Some n => now <- now_utc ;; ret (Some (now + days n))
  | None => ret None
  end.

(** Lengths are in bytes; [expires_in_days] is a [u32]. *)
Definition create_api_key (actor : Actor) (name : string) (expires_in_days : option Z)
  : M World PlatformError (ApiKey * string) :=
  let name := trim name in
  if String.eqb name EmptyString then throw (Invalid "name must not be empty")
  else if (64 <? String.length name)%nat then throw (Invalid "name must be 64 characters or fewer")
  else
    token <- generate_key ;;
    id <- now_v7 ;;
    expires_at <- key_expiry expires_in_days ;;
    row <- tenant_tx (ac_organization_id actor) None
      (sql (insert (fun now =>
         mkApiKey id (ac_organization_id actor) (Some (ac_user_id actor)) name (sha256 token)
           (key_token_prefix token) now None expires_at None))) ;;
    ret (row, token).

Definition key_revoked (now : Z) (k : ApiKey) : ApiKey :=
  mkApiKey (ak_id k) (ak_organization_id k) (ak_user_id k) (ak_name k) (ak_token_hash k)
    (ak_token_prefix k) (ak_created_at k) (ak_last_used_at k) (ak_expires_at k) (Some now).

Definition revoke_api_key (actor : Actor) (key_id : Uuid) : M World PlatformError unit :=
  affected <- tenant_tx (ac_organization_id actor) None
    (sql (update_keys
       (fun _ k => bool_decide (ak_id k = key_id) && own_key (ac_user_id actor) k)
       key_revoked)) ;;
  match affected with
  | [] => throw (NotFound ("api_key/" +++ uuid_str key_id))
  | _ => ret tt
  end.
End ApiKeys.
End ApiKeys.
Export ApiKeys.

(** * Who an accepted request speaks for *)

Section Laws.
Context `{En : Env}.

(** A query on the pool shows the rows its role may see without a tenant. *)
Lemma pool_select_law {R} `{!Table R} d (p : Z -> R -> bool) msg :
  db_wp d (reject_on msg (on_pool (E := DbError) (select p))) (fun r d' => d' = d /\
    match r with
    | Ok l => exists now, l = List.filter (fun r => visible (idle_guc now) r && p now r) (rows d)
    | Err e => faulty /\ e = Reject 500 msg
    end).
Proof.
  intros g. apply tx_map_err, db_on_pool. intros now. apply tx_select; [done|].
  split; [done|]. by exists now.
Qed.

Lemma live_session_law d id msg :
  db_wp d (reject_on msg (live_rows id)) (fun r d' => d' = d /\
    match r with
    | Ok s => exists now, s = session_at now id d
    | Err e => faulty /\ e = Reject 500 msg
    end).
Proof.
  intros g. apply tx_map_err. tx_call live_rows_law. intros [s|e] d' [-> H]; simpl; [done|].
  by destruct H as [? _].
Qed.

Lemma cookie_session_law d rq :
  db_wp d (cookie_session rq) (fun r d' => d' = d /\
    match r with
    | Ok (Some s) => exists id now, extract_session_cookie rq = Some id /\ session_at now id d = Some s
    | Ok None => True
    | Err e => faulty /\ rejection_status e = 500
    end).
Proof.
  intros g. unfold cookie_session. destruct (extract_session_cookie rq) as [id|]; [|by apply tx_ret].
  eapply tx_mono; [apply live_session_law|]. intros [[s|]|e] d' [-> H]; try done.
  - split; [done|]. destruct H as [now Hs]. by exists id, now.
  - split; [done|]. by destruct H as [? ->].
Qed.

Lemma head_filter {A} (p : A -> bool) l x :
  head (List.filter p l) = Some x -> In x l /\ p x = true.
Proof. intros H. apply filter_In. destruct (List.filter p l); [done|]. by left; injection H. Qed.

Definition organization_chosen (rq : Request) (org : Uuid) : Prop :=
  forall h, header_uuid rq "x-organization-id" = Some h -> org = h.

(** The membership a request of [user] acts under. *)
Definition acts_for (rq : Request) (user org : Uuid) (m : Membership) (d : DB) : Prop :=
  In m (db_memberships d) /\ own_membership org user m = true /\
  (exists now, visible (idle_guc now) m = true) /\ organization_chosen rq org.

Lemma resolve_organization_law d rq user :
  db_wp d (resolve_organization rq user) (fun r d' => d' = d /\
    match r with
    | Ok org => exists m, acts_for rq user org m d
    | Err e => rejection_status e = 403 \/ faulty /\ rejection_status e = 500
    end).
Proof.
  intros g. unfold resolve_organization. destruct (header_uuid rq _) as [org|] eqn:Hh; apply tx_bind.
  - tx_call (pool_select_law (R := Membership)). intros [l|e] d' [-> H].
    2: { destruct H as [? ->]. split; [done|]. by right. }
    destruct H as [now ->].
    destruct (List.filter _ _) as [|m l] eqn:E; [apply tx_throw; by split; [|left]|].
    apply tx_ret. split; [done|]. exists m.
    assert (Hm : In m (m :: l)) by by left. rewrite <- E in Hm.
    apply filter_In in Hm as [Hin [Hv Hp]%andb_true_iff].
    split; [done|]. split; [done|]. split; [by exists now|]. intros h. congruence.
  - tx_call (pool_select_law (R := Membership)). intros [l|e] d' [-> H].
    2: { destruct H as [? ->]. split; [done|]. by right. }
    destruct H as [now ->]. destruct (head _) as [m|] eqn:E; [|apply tx_throw; by split; [|left]].
    apply tx_ret. split; [done|]. exists m.
    assert (Hm : In m (sort_by (fun a b => mb_created_at b <=? mb_created_at a)
      (List.filter (fun r => visible (idle_guc now) r && member_of_user user r) (db_memberships d)))).
    { change (db_memberships d) with (rows (R := Membership) d).
      destruct (sort_by _ _) as [|x l]; [done|]. left. by injection E. }
    apply in_sort_by, filter_In in Hm as [Hin [Hv Hp]%andb_true_iff].
    split; [done|]. split; [|split; [by exists now|intros h; congruence]].
    unfold member_of_user in Hp. apply andb_true_iff in Hp as [Hu Hd]. unfold own_membership.
    by rewrite bool_decide_true, Hu, Hd.
Qed.

(** ** API keys *)

Definition bearer_key (token : string) (k : ApiKey) (d : DB) : Prop :=
  In k (db_api_keys d) /\ ak_token_hash k = sha256 token /\ exists now, key_live now k = true.

Lemma update_keys_law g d p f :
  tx_wp g d (update_keys p f) (fun r d' => d' = d /\
    match r with
    | Ok l => l = [] /\ update_hits g p f d = []
    | Err _ => True
    end).
Proof.
  unfold update_keys. apply tx_update_chk; [done|..].
  - intros e _. done.
  - intros Hnone t. assert (Hh : update_hits g p f d = []).
    { by destruct (update_hits g p f d). }
    split; [by apply update_nothing|]. by rewrite Hh.
Qed.

Lemma resolve_api_key_law d token :
  db_wp d (resolve_api_key token) (fun r d' => d' = d /\
    match r with
    | Ok (Some a) => exists k, bearer_key token k d /\ ak_user_id k = Some (ac_user_id a) /\
        ac_session_id a = Uuid_nil /\ ac_organization_id a = ak_organization_id k
    | Ok None => True
    | Err e => rejection_status e = 500
    end).
Proof.
  apply db_in_tx_with; [done|by intros [a|]|]. intros now.
  apply loose_bind, tx_map_err, tx_stmt; [done|]. intros w Hw Hg. split; [reflexivity|].
  cbn [fst snd result_map_err]. rewrite Hw. clear w Hw Hg.
  apply loose_bind, tx_map_err, tx_stmt; [done|]. intros w Hw Hg. split; [reflexivity|].
  cbn [fst snd result_map_err]. rewrite Hw, Hg. clear w Hw Hg.
  destruct (head _) as [k|] eqn:E; [|by apply tx_loosen, tx_ret].
  apply head_filter in E as [Hin [Hh%String.eqb_eq Hl]%andb_true_iff].
  destruct (ak_user_id k) as [user|] eqn:Hu; [|by apply tx_loosen, tx_throw].
  apply loose_set_tenant. intros g'. apply tx_loosen, tx_bind, tx_ignore.
  eapply tx_mono; [apply update_keys_law|]. intros _ d' [-> _]. apply tx_ret. split; [done|].
  exists k. repeat split; try done. by exists now.
Qed.

(** ** Extraction *)

(** Only the times of last use of the sessions may differ. *)
Definition bumped (d d' : DB) : Prop :=
  exists l, d' = set_rows (l : list Session) d /\
    map (session_used 0) l = map (session_used 0) (db_sessions d).

Lemma bumped_refl d : bumped d d.
Proof. exists (db_sessions d). split; [by destruct d|done]. Qed.

Lemma bump_bumped d id : db_wp d (bump_activity id) (fun _ d' => bumped d d').
Proof.
  eapply db_mono; [apply bump_law|]. intros [[]|e] d'; [|intros ->; apply bumped_refl].
  intros [now ->]. eexists. split; [done|]. unfold update_rows. rewrite map_map.
  apply map_ext. intros s. by destruct (_ && _ && _).
Qed.

(** Why the API took a request to speak for an actor. *)
Inductive authenticated (rq : Request) (d : DB) : Actor -> Prop :=
| by_session id now s org m :
    extract_session_cookie rq = Some id -> session_at now id d = Some s ->
    acts_for rq (ss_user_id s) org m d ->
    authenticated rq d (mkActor (ss_user_id s) (ss_id s) org)
| by_key token k user :
    extract_bearer_token rq = Some token -> bearer_key token k d -> ak_user_id k = Some user ->
    authenticated rq d (mkActor user Uuid_nil (ak_organization_id k))
| by_header org :
    allow_header_actor = true -> header_uuid rq "x-organization-id" = Some org ->
    authenticated rq d
      (mkActor (default Uuid_nil (header_uuid rq "x-actor-user-id")) Uuid_nil org).

Definition refusal (e : Rejection) : Prop :=
  rejection_status e = 401 \/ rejection_status e = 403 \/ rejection_status e = 500.

Lemma dev_header_actor_law g d rq :
  tx_wp g d (dev_header_actor rq) (fun r d' => d' = d /\
    match r with
    | Ok a => authenticated rq d a /\ ac_session_id a = Uuid_nil
    | Err e => refusal e
    end).
Proof.
  unfold dev_header_actor, authentication_required, refusal.
  destruct allow_header_actor eqn:Ha; [|apply tx_throw; by split; [|left]].
  destruct (header_uuid rq "x-organization-id") as [org|] eqn:Ho.
  - apply tx_ret. repeat split. by apply by_header.
  - apply tx_throw. by split; [|left].
Qed.

Lemma extract_actor_law d rq :
  db_wp d (extract_actor rq) (fun r d' => bumped d d' /\
    match r with Ok a => authenticated rq d a | Err e => refusal e end).
Proof.
  assert (Hdev : forall g, tx_wp g d (dev_header_actor rq) (fun r d' => bumped d d' /\
    match r with Ok a => authenticated rq d a | Err e => refusal e end)).
  { intros g. eapply tx_mono; [apply dev_header_actor_law|].
    intros [a|e] d' [-> H]; split; try apply bumped_refl; [by destruct H|done]. }
  unfold refusal in *. intros g. unfold extract_actor. apply tx_bind. tx_call cookie_session_law.
  intros [[s|]|e] d' [-> H]; [| |split; [apply bumped_refl|by right; right; destruct H]].
  - destruct H as (id & now & Hid & Hs). apply tx_bind. tx_call resolve_organization_law.
    intros [org|e] d' [-> H]; [|split; [apply bumped_refl|destruct H as [?|[_ ?]]; auto]].
    destruct H as [m Hm]. apply tx_bind, tx_ignore. tx_call bump_bumped. intros _ d' Hb.
    apply tx_ret. split; [done|]. by eapply by_session.
  - destruct (extract_bearer_token rq) as [token|] eqn:Ht; [|apply Hdev].
    destruct (starts_with KEY_PREFIX token); [|apply Hdev].
    apply tx_bind. tx_call resolve_api_key_law.
    intros [[a|]|e] d' [-> Hk0]; [apply tx_ret|apply tx_throw|]; (split; [apply bumped_refl|]); auto.
    destruct Hk0 as (k & Hk & Hu & Hs & Ho). destruct a as [user session org]. simpl in *. subst.
    by eapply by_key.
Qed.

(** The session that passed the second-factor gate. *)
Definition mfa_passed (session_id : Uuid) (d : DB) : Prop :=
  session_id = Uuid_nil \/
  exists s, In s (db_sessions d) /\ ss_id s = session_id /\ ss_mfa_satisfied s = true.

Lemma mfa_gate_law d id :
  db_wp d (mfa_gate id) (fun r d' => d' = d /\
    match r with Ok _ => mfa_passed id d | Err e => refusal e end).
Proof.
  intros g. unfold mfa_gate, refusal. destruct (bool_decide_reflect (id = Uuid_nil)) as [->|Hne].
  { apply tx_ret. split; [done|]. by left. }
  apply tx_bind. tx_call live_session_law. intros [s|e] d' [-> H].
  2: { split; [done|]. right; right. by destruct H as [_ ->]. }
  destruct H as [now Hs]. destruct s as [s|]; [|apply tx_throw; split; [done|by left]].
  destruct (ss_mfa_satisfied s) eqn:Hm; [|apply tx_throw; split; [done|by left]].
  apply tx_ret. split; [done|]. right. exists s. unfold session_at in Hs. symmetry in Hs.
  apply head_filter in Hs as [Hin [Hid _]%andb_true_iff]. by apply bool_decide_eq_true in Hid.
Qed.

Lemma bumped_mfa d d' id : bumped d d' -> mfa_passed id d' -> mfa_passed id d.
Proof.
  intros (l & -> & Hl) [->|(s & Hin & Hid & Hm)]; [by left|right].
  assert (Hs : In s l) by by destruct d.
  apply (in_map (session_used 0)) in Hs. rewrite Hl in Hs. apply in_map_iff in Hs as (s0 & He & Hin0).
  exists s0. split; [done|]. destruct s, s0; simpl in *. by injection He as -> -> -> -> -> ->.
Qed.

Lemma bumped_members d d' : bumped d d' -> db_memberships d' = db_memberships d.
Proof. intros (l & -> & _). by destruct d. Qed.

Lemma extract_owner_law d rq :
  db_wp d (extract_owner rq) (fun r d' => bumped d d' /\
    match r with
    | Ok o => authenticated rq d (ow_inner o) /\ mfa_passed (ac_session_id (ow_inner o)) d /\
        can_manage_members (ow_role o) = true /\
        exists m, In m (db_memberships d) /\ mb_role m = ow_role o /\
          (exists now, visible (idle_guc now) m = true) /\
          own_membership (ac_organization_id (ow_inner o)) (ac_user_id (ow_inner o)) m = true
    | Err e => refusal e
    end).
Proof.
  intros g. unfold extract_owner. apply tx_bind. tx_call extract_actor_law.
  intros [a|e] d1 [Hb Ha]; [|done]. apply tx_bind. tx_call mfa_gate_law.
  intros [[]|e] d2 [-> Hm]; [|done]. apply tx_bind. tx_call (pool_select_law (R := Membership)).
  intros [l|e] d2 [-> Hl]; [|split; [done|right; right; by destruct Hl as [_ ->]]].
  destruct Hl as [now ->]. change (rows d1) with (db_memberships d1). rewrite (bumped_members d d1 Hb).
  destruct (head _) as [m|] eqn:E; [|apply tx_throw; split; [done|by right; left]].
  apply head_filter in E as [Hin [Hv Hown]%andb_true_iff].
  destruct (mb_role m) eqn:Hr; [apply tx_ret|apply tx_ret| |];
    [| |apply tx_throw; split; [done|by right; left]..];
    (split; [done|]); simpl; (split; [done|]); (split; [by apply (bumped_mfa d d1)|]);
    (split; [done|]); exists m; eauto 6.
Qed.
End Laws.

Section KeyLaws.
Context `{En : Env}.

Lemma insert_key_law d (mk : Z -> ApiKey) org :
  db_wp d (tenant_tx org None (sql (insert mk)) : M World PlatformError ApiKey) (fun r d' =>
    match r with
    | Ok k => (exists now, k = mk now) /\ d' = set_rows (db_api_keys d ++ [k]) d
    | Err e => d' = d
    end).
Proof.
  intros g. apply db_tenant_tx; [done|]. intros now. apply tx_map_err, tx_insert; [done|done|].
  intros _ t. cbn [result_map_err]. split; [by eexists|].
  rewrite insert_db_plain, audit_entries_none, app_nil_r by done. by destruct d.
Qed.

(** A created key: the row holds the hash, the caller gets the token. *)
Definition key_created (d : DB) (actor : Actor) (name : string) (expires_in_days : option Z)
    (r : result PlatformError (ApiKey * string)) (d' : DB) : Prop :=
  match r with
  | Ok (k, token) => d' = set_rows (db_api_keys d ++ [k]) d /\
      ak_token_hash k = sha256 token /\ ak_token_prefix k = key_token_prefix token /\
      ak_organization_id k = ac_organization_id actor /\ ak_user_id k = Some (ac_user_id actor) /\
      ak_name k = trim name /\ ak_name k <> EmptyString /\ (String.length (ak_name k) <= 64)%nat /\
      ak_revoked_at k = None /\
      match expires_in_days with
      | Some n => exists now, ak_expires_at k = Some (now + days n)
      | None => ak_expires_at k = None
      end
  | Err _ => d' = d
  end.

Lemma create_api_key_law d actor name expires_in_days :
  db_wp d (create_api_key actor name expires_in_days)
    (key_created d actor name expires_in_days).
Proof.
  intros g. unfold create_api_key. destruct (String.eqb_spec (trim name) EmptyString) as [|Hne].
  { by apply tx_throw. }
  destruct (Nat.ltb_spec 64 (String.length (trim name))) as [|Hlen]; [by apply tx_throw|].
  apply tx_bind, (tx_ticked _ _ (fun n => KEY_PREFIX +++ base64url (os_random n))). intros n.
  apply tx_bind, tx_now_v7. intros id. apply tx_bind.
  assert (Hins : forall exp,
    match expires_in_days with
    | Some n => exists now, exp = Some (now + days n)
    | None => exp = None
    end ->
    tx_wp g d (bind (tenant_tx (ac_organization_id actor) None
      (sql (insert (fun now => mkApiKey id (ac_organization_id actor) (Some (ac_user_id actor))
         (trim name) (sha256 (KEY_PREFIX +++ base64url (os_random n)))
         (key_token_prefix (KEY_PREFIX +++ base64url (os_random n))) now None exp None))))
      (fun row => ret (row, KEY_PREFIX +++ base64url (os_random n))))
      (key_created d actor name expires_in_days)).
  { intros exp Hexp. apply tx_bind. eapply tx_mono; [apply insert_key_law|].
    intros [k|e] d' H; [|done]. destruct H as [[now ->] ->]. apply tx_ret. repeat split; done. }
  unfold key_expiry. destruct expires_in_days as [days'|].
  - apply tx_bind, tx_now_utc. intros now. apply tx_ret, Hins. by exists now.
  - by apply tx_ret, Hins.
Qed.

(** No revocation succeeds, and none changes a row. *)
Lemma revoke_api_key_law d actor id :
  db_wp d (revoke_api_key actor id) (fun r d' => d' = d /\ exists e, r = Err e).
Proof.
  intros g. unfold revoke_api_key. apply tx_bind.
  apply db_tenant_tx; [intros _; split; [done|by eexists]|]. intros now. apply tx_map_err.
  eapply tx_mono; [apply update_keys_law|]. intros [l|e] d' [-> H]; cbn [result_map_err].
  - destruct H as [-> _]. apply tx_throw. split; [done|by eexists].
  - split; [done|by eexists].
Qed.
End KeyLaws.

(** * Properties *)

Section Properties.
Context `{En : Env}.

(** A request is accepted only on a live session whose user is a member of
    the organisation acted for, on a live API key of that organisation, or, in
    the development mode, on its headers; everything else is refused with 401,
    403 or 500.  Nothing but the times of last use may have changed. *)
Theorem actor_authenticated d rq :
  db_wp d (extract_actor rq) (fun r d' => bumped d d' /\
    match r with Ok a => authenticated rq d a | Err e => refusal e end).
Proof. apply extract_actor_law. Qed.

(** An [OwnerActor] is an authenticated actor that holds an owner's or
    admin's live membership in the organisation, and whose session, when it has
    one, has satisfied the second factor. *)
Theorem owner_actor_gate d rq :
  db_wp d (extract_owner rq) (fun r d' => bumped d d' /\
    match r with
    | Ok o => authenticated rq d (ow_inner o) /\ mfa_passed (ac_session_id (ow_inner o)) d /\
        can_manage_members (ow_role o) = true /\
        exists m, In m (db_memberships d) /\ mb_role m = ow_role o /\
          (exists now, visible (idle_guc now) m = true) /\
          own_membership (ac_organization_id (ow_inner o)) (ac_user_id (ow_inner o)) m = true
    | Err e => refusal e
    end).
Proof. apply extract_owner_law. Qed.

(** Under the production role the membership queries on the pool see no row:
    no browser session is ever accepted as an actor, and nobody as an owner. *)
Theorem production_refuses_sessions d rq :
  bypass_rls = false -> Forall (fun m => mb_organization_id m <> Uuid_nil) (db_memberships d) ->
  db_wp d (extract_actor rq) (fun r _ =>
    match r with Ok a => ac_session_id a = Uuid_nil | Err _ => True end) /\
  db_wp d (extract_owner rq) (fun r _ => is_ok r = false).
Proof.
  intros Hb Hnil. rewrite Forall_forall in Hnil.
  assert (Hno : forall m, In m (db_memberships d) -> (exists now, visible (idle_guc now) m = true) -> False).
  { intros m Hin [now Hv]. rewrite visible_idle in Hv; [done|done|]. by apply Hnil, list_elem_of_In. }
  split.
  - eapply db_mono; [apply extract_actor_law|]. intros [a|e] d' [_ H]; [|done].
    destruct H as [? ? ? ? m ? ? (Hin & _ & Hv & _)|?|?]; [|done|done]. by destruct (Hno m).
  - eapply db_mono; [apply extract_owner_law|]. intros [o|e] d' [_ H]; [|done].
    destruct H as (_ & _ & _ & m & Hin & _ & Hv & _). by destruct (Hno m).
Qed.

(** A new API key is one row with the hash and the first characters of the
    token, a name of at most 64 bytes and the requested expiry; but no key is
    ever revoked, since the trigger on the table refuses every update. *)
Theorem api_key_lifecycle d actor name expires_in_days key_id :
  db_wp d (create_api_key actor name expires_in_days) (key_created d actor name expires_in_days) /\
  db_wp d (revoke_api_key actor key_id) (fun r d' => d' = d /\ exists e, r = Err e).
Proof. split; [apply create_api_key_law|apply revoke_api_key_law]. Qed.
End Properties.

(** * Concrete requests *)

Definition headers (l : list (string * string)) : Request :=
  mkRequest (fun n => snd <$> List.find (fun h => String.eqb h.1 n) l).

(** Ada (5) has a session that satisfied the second factor; Cy (7) has an API
    key of organisation 1, of which it is no member. *)
Definition demo_access : DB :=
  let 'mkDB a b c d e f g h i j k _ m n o _ q t u v := demo_members in
  mkDB a b c d e f g h i j k
    [mkSession 50%N 5%N 10 10 9000 None true; mkSession 51%N 6%N 10 10 9000 None false]
    m n o
    [mkApiKey 60%N 1%N (Some 7%N) "ci" "#kpat_cy" "kpat_cy" 10 None None None] q t u v.

Definition session_request : Request := headers
  [("cookie", "theme=dark; kubinate_session=50"); ("x-organization-id", "1")]%string.
Definition key_request : Request := headers [("authorization", "Bearer kpat_cy")]%string.

Example session_request_owner :
  (@extract_owner (demo_env_as true) session_request (demo_world_as true demo_access)).1 =
  Ok (mkOwnerActor (mkActor 5%N 50%N 1%N) Owner).
Proof. vm_compute. reflexivity. Qed.

(** A key outlives the membership of its user, and cannot be revoked. *)
Example key_without_membership :
  (@extract_actor demo_env key_request (demo_world demo_access)).1 = Ok (mkActor 7%N Uuid_nil 1%N) /\
  memberships_of 1%N 7%N demo_access = [] /\
  is_ok (@revoke_api_key demo_env (mkActor 7%N Uuid_nil 1%N) 60%N (demo_world demo_access)).1 = false.
Proof. vm_compute. auto. Qed.

Lemma production_refuses_sessions_witness :
  is_ok (@extract_owner demo_env session_request (demo_world demo_access)).1 = false.
Proof.
  destruct (@production_refuses_sessions demo_env demo_access session_request eq_refl
    ltac:(repeat constructor; discriminate)) as [_ H].
  exact (db_run _ _ _ (demo_world demo_access) H eq_refl).
Defined.
