(* ===== verification/RateLimit.v ===== *)
(** The sliding-window rate limiter of the API ([crates/api/src/rate_limit.rs]),
    one queue of instants per key, against a reference that remembers every
    admitted call and counts.  An [Instant] is a [Z] no smaller than
    [instant_min], the first instant the platform can represent. *)

From stdpp Require Import base gmap list sorting.
From S2P Require Import Prelude.

(** * The limiter *)

Record RateLimiter := mkRateLimiter {
  rl_window : Z;
  rl_max : nat;
  rl_state : gmap Uuid (list Z);
}.

Definition rate_limiter_new (max_per_window : nat) (window : Z) : RateLimiter :=
  mkRateLimiter window max_per_window ∅.

Section Limiter.
Variable instant_min : Z.

(** [Instant::checked_sub] *)
Definition checked_sub (now window : Z) : option Z :=
  if instant_min <=? now - window then Some (now - window) else None.

(** [while entry.front().is_some_and(|t| *t < cutoff) { entry.pop_front(); }] *)
Fixpoint prune (cutoff : Z) (entry : list Z) : list Z :=
  match entry with
  | t :: rest => if t <? cutoff then prune cutoff rest else entry
  | [] => []
  end.

Definition check_at (key : Uuid) (now : Z) (rl : RateLimiter) : bool * RateLimiter :=
  let entry := default [] (rl_state rl !! key) in
  let cutoff := default now (checked_sub now (rl_window rl)) in
  let entry := prune cutoff entry in
  let with_entry e := mkRateLimiter (rl_window rl) (rl_max rl) (<[key := e]> (rl_state rl)) in
  if (rl_max rl <=? length entry)%nat then (false, with_entry entry)
  else (true, with_entry (entry ++ [now])).

(** The answers to a sequence of calls. *)
Fixpoint run_checks (calls : list (Uuid * Z)) (rl : RateLimiter) : list (Uuid * Z * bool) :=
  match calls with
  | [] => []
  | (key, now) :: rest =>
      let '(ok, rl') := check_at key now rl in
      (key, now, ok) :: run_checks rest rl'
  end.

(** * The reference *)

(** Every admitted call so far, newest first. *)
Definition admitted_since (key : Uuid) (from : Z) (log : list (Uuid * Z)) : nat :=
  length (List.filter (fun '(k, t) => bool_decide (k = key) && (from <=? t)) log).

Fixpoint reference (window : Z) (max : nat) (calls log : list (Uuid * Z)) : list (Uuid * Z * bool) :=
  match calls with
  | [] => []
  | (key, now) :: rest =>
      let ok := (admitted_since key (now - window) log <? max)%nat in
      (key, now, ok) :: reference window max rest (if ok then (key, now) :: log else log)
  end.

(** The calls come in the order of time, none before the horizon. *)
Fixpoint in_order (window from : Z) (calls : list (Uuid * Z)) : Prop :=
  match calls with
  | [] => True
  | (_, now) :: rest => from <= now /\ instant_min <= now - window /\ in_order window now rest
  end.

(** * The queue of a key holds what the log says *)

Definition instants (key : Uuid) (from : Z) (log : list (Uuid * Z)) : list Z :=
  map snd (List.filter (fun '(k, t) => bool_decide (k = key) && (from <=? t)) log).

Lemma instants_length key from log : length (instants key from log) = admitted_since key from log.
Proof. apply length_map. Qed.

Lemma instants_cons key from k t log :
  instants key from ((k, t) :: log) =
  if bool_decide (k = key) && (from <=? t) then t :: instants key from log else instants key from log.
Proof. unfold instants. simpl. by destruct (_ && _). Qed.

(** The log is ordered, newest first, and nothing in it is later than [now]. *)
Definition log_before (now : Z) (log : list (Uuid * Z)) : Prop :=
  StronglySorted (fun a b => b.2 <= a.2) log /\ Forall (fun c => c.2 <= now) log.

Lemma prune_nothing cutoff l : Forall (fun t => cutoff <= t) l -> prune cutoff l = l.
Proof.
  destruct 1 as [|t l Ht _]; [done|]. simpl. by destruct (Z.ltb_spec t cutoff); [lia|].
Qed.

Lemma prune_app_old cutoff l k :
  Forall (fun t => t < cutoff) l -> prune cutoff (l ++ k) = prune cutoff k.
Proof.
  induction 1 as [|t l Ht _ IH]; [done|]. simpl. by destruct (Z.ltb_spec t cutoff); [|lia].
Qed.

(** Pruning the queue to a later horizon is reading the log from it. *)
Lemma prune_instants key from cutoff log :
  StronglySorted (fun a b => b.2 <= a.2) log -> from <= cutoff ->
  prune cutoff (reverse (instants key from log)) = reverse (instants key cutoff log).
Proof.
  intros Hs Hle. induction Hs as [|[k t] log Hs IH Hall]; [done|]. rewrite !instants_cons.
  destruct (bool_decide (k = key)); simpl; [|done].
  destruct (Z.leb_spec cutoff t) as [Hc|Hc].
  - destruct (Z.leb_spec from t); [|lia]. rewrite !reverse_cons.
    destruct (decide (Forall (fun t => t < cutoff) (reverse (instants key from log)))) as [Hold|Hnew].
    + rewrite prune_app_old by done. rewrite <- IH, <- (app_nil_r (reverse _)), prune_app_old by done.
      simpl. by destruct (Z.ltb_spec t cutoff); [lia|].
    + rewrite <- IH. generalize dependent (reverse (instants key from log)). clear -Hc.
      intros l _ Hnew. induction l as [|x l IHl]; [by destruct Hnew|]. simpl.
      destruct (Z.ltb_spec x cutoff); [|done]. apply IHl. intros Hl. apply Hnew. by constructor.
  - assert (Hno : instants key cutoff log = []).
    { clear -Hall Hc. induction log as [|[k' t'] log IH]; [done|]. apply Forall_cons in Hall as [H1 H2].
      simpl in H1. rewrite instants_cons. destruct (Z.leb_spec cutoff t'); [lia|].
      rewrite andb_false_r. by apply IH. }
    destruct (Z.leb_spec from t); [|done]. rewrite reverse_cons, Hno.
    assert (Hpr : prune cutoff (reverse (instants key from log)) = []) by by rewrite IH, Hno.
    clear -Hpr Hc. induction (reverse (instants key from log)) as [|x l IHl]; simpl.
    + by destruct (Z.ltb_spec t cutoff); [|lia].
    + simpl in Hpr. destruct (x <? cutoff); [by apply IHl|done].
Qed.

(** Every queue is the tail of the log of its key from some past horizon. *)
Definition mirrors_log (now : Z) (log : list (Uuid * Z)) (rl : RateLimiter) : Prop :=
  forall key, exists from, from <= now - rl_window rl /\
    default [] (rl_state rl !! key) = reverse (instants key from log).

Lemma check_at_reference key now0 now log rl :
  now0 <= now -> instant_min <= now - rl_window rl -> 0 <= rl_window rl ->
  log_before now0 log -> mirrors_log now0 log rl ->
  let ok := (admitted_since key (now - rl_window rl) log <? rl_max rl)%nat in
  let log' := if ok then (key, now) :: log else log in
  (check_at key now rl).1 = ok /\
  let rl' := (check_at key now rl).2 in
  rl_window rl' = rl_window rl /\ rl_max rl' = rl_max rl /\
  log_before now log' /\ mirrors_log now log' rl'.
Proof.
  intros Hnow Hmin Hw [Hsort Hall] Hm. cbv zeta. unfold check_at, checked_sub.
  destruct (Z.leb_spec instant_min (now - rl_window rl)); [|lia]. cbn [default].
  destruct (Hm key) as (from & Hfrom & Hent). rewrite Hent.
  rewrite (prune_instants key from (now - rl_window rl)) by (done || lia).
  rewrite length_reverse, instants_length.
  assert (Hb : log_before now log).
  { split; [done|]. eapply Forall_impl; [done|]. simpl. lia. }
  assert (Hold : forall k, exists from, from <= now - rl_window rl /\
    default [] (rl_state rl !! k) = reverse (instants k from log)).
  { intros k. destruct (Hm k) as (f & Hf & He). exists f. split; [lia|done]. }
  destruct (Nat.leb_spec (rl_max rl) (admitted_since key (now - rl_window rl) log)) as [Hfull|Hfree].
  - destruct (Nat.ltb_spec (admitted_since key (now - rl_window rl) log) (rl_max rl)); [lia|].
    simpl. repeat (split; [done|]). intros k. simpl.
    destruct (decide (k = key)) as [->|Hne]; [|by rewrite lookup_insert_ne].
    rewrite lookup_insert_eq. by exists (now - rl_window rl).
  - destruct (Nat.ltb_spec (admitted_since key (now - rl_window rl) log) (rl_max rl)); [|lia].
    simpl. split; [done|]. repeat (split; [done|]). split.
    + destruct Hb as [_ Hb]. split; [by constructor|constructor; [simpl; lia|done]].
    + intros k. simpl. destruct (decide (k = key)) as [->|Hne].
      * rewrite lookup_insert_eq. exists (now - rl_window rl). split; [done|]. simpl.
        rewrite instants_cons, bool_decide_true by done.
        destruct (Z.leb_spec (now - rl_window rl) now); [|lia]. cbn [andb]. by rewrite reverse_cons.
      * rewrite lookup_insert_ne by done. destruct (Hold k) as (f & Hf & He). exists f.
        split; [done|]. rewrite He, instants_cons. by rewrite bool_decide_false by congruence.
Qed.

Lemma run_reference calls now0 log rl :
  0 <= rl_window rl -> in_order (rl_window rl) now0 calls ->
  log_before now0 log -> mirrors_log now0 log rl ->
  run_checks calls rl = reference (rl_window rl) (rl_max rl) calls log.
Proof.
  revert now0 log rl. induction calls as [|[key now] rest IH]; intros now0 log rl Hw Hord Hb Hm; [done|].
  simpl in Hord. destruct Hord as (Hnow & Hmin & Hord). simpl.
  destruct (check_at_reference key now0 now log rl Hnow Hmin Hw Hb Hm) as (Hok & Hrw & Hrm & Hb' & Hm').
  destruct (check_at key now rl) as [ok rl']. simpl in *. rewrite <- Hok in *. f_equal.
  rewrite <- Hrw, <- Hrm. apply (IH now); [lia|by rewrite Hrw|done|done].
Qed.
End Limiter.

(** * The bound *)

Section Bound.
Variable instant_min : Z.

Definition admitted_between (key : Uuid) (from to : Z) (log : list (Uuid * Z)) : nat :=
  length (List.filter (fun '(k, t) => bool_decide (k = key) && (from <=? t) && (t <=? to)) log).

(** The admitted calls of [key] in the closed interval, by the answers given. *)
Definition answered_between (key : Uuid) (from to : Z) (answers : list (Uuid * Z * bool)) : nat :=
  length (List.filter (fun '(k, t, ok) => (ok : bool) && bool_decide (k = key) && (from <=? t) && (t <=? to))
            answers).

Lemma between_since key from to log :
  (admitted_between key from to log <= admitted_since key from log)%nat.
Proof.
  unfold admitted_between, admitted_since. induction log as [|[k t] log IH]; simpl; [lia|].
  destruct (bool_decide (k = key)), (from <=? t), (t <=? to); simpl; lia.
Qed.

Lemma since_mono key from from' log :
  from <= from' -> (admitted_since key from' log <= admitted_since key from log)%nat.
Proof.
  intros Hle. unfold admitted_since. induction log as [|[k t] log IH]; simpl; [lia|].
  destruct (bool_decide (k = key)); simpl; [|lia].
  destruct (Z.leb_spec from' t), (Z.leb_spec from t); simpl; lia.
Qed.

Lemma between_cons key from to k t log :
  admitted_between key from to ((k, t) :: log) =
  ((if bool_decide (k = key) && (from <=? t)%Z && (t <=? to)%Z then 1 else 0)
   + admitted_between key from to log)%nat.
Proof. unfold admitted_between. simpl. by destruct (_ && _). Qed.

Lemma reference_bound window max calls now0 log :
  0 <= window -> in_order instant_min window now0 calls ->
  (forall key t, admitted_between key (t - window) t log <= max)%nat ->
  (forall key t, admitted_between key (t - window) t log
     + answered_between key (t - window) t (reference window max calls log) <= max)%nat.
Proof.
  revert now0 log. induction calls as [|[key now] rest IH]; intros now0 log Hw Hord Hlog k t.
  { unfold answered_between. simpl. specialize (Hlog k t). lia. }
  simpl in Hord. destruct Hord as (Hnow & Hmin & Hord). cbn [reference].
  destruct (Nat.ltb_spec (admitted_since key (now - window) log) max) as [Hfree|Hfull].
  - assert (Hlog' : forall k t, (admitted_between k (t - window) t ((key, now) :: log) <= max)%nat).
    { intros k' t'. rewrite between_cons. specialize (Hlog k' t').
      destruct (bool_decide_reflect (key = k')) as [->|]; simpl; [|lia].
      destruct (Z.leb_spec (t' - window) now); simpl; [|lia].
      destruct (Z.leb_spec now t') as [Hle|]; simpl; [|lia].
      pose proof (between_since k' (t' - window) t' log).
      pose proof (since_mono k' (now - window) (t' - window) log ltac:(lia)). lia. }
    specialize (IH now ((key, now) :: log) Hw Hord Hlog' k t). rewrite between_cons in IH.
    unfold answered_between in *. simpl. destruct (bool_decide (key = k)); simpl in *; [|lia].
    destruct (t - window <=? now), (now <=? t); simpl in *; lia.
  - specialize (IH now log Hw Hord Hlog k t). unfold answered_between in *. simpl. lia.
Qed.

Lemma new_mirrors window max now :
  log_before now [] /\ mirrors_log now [] (rate_limiter_new max window).
Proof.
  split; [by repeat constructor|]. intros key. exists (now - window). split; [simpl; lia|].
  simpl. by rewrite lookup_empty.
Qed.

(** C40: On calls in the order of time, the limiter's queues answer exactly as
    the log of all admitted calls would: a call is admitted when fewer than the
    maximum of its key were in the window that ends at it. *)
Theorem rate_limiter_reference window max calls now0 :
  0 <= window -> in_order instant_min window now0 calls ->
  run_checks instant_min calls (rate_limiter_new max window) = reference window max calls [].
Proof.
  intros Hw Hord. destruct (new_mirrors window max now0) as [Hb Hm].
  by apply (run_reference instant_min calls now0 [] (rate_limiter_new max window)).
Qed.

(** No interval as long as the window sees more than the maximum of
    admitted calls of one key. *)
Theorem rate_limiter_bound window max calls now0 key t :
  0 <= window -> in_order instant_min window now0 calls ->
  (answered_between key (t - window) t
     (run_checks instant_min calls (rate_limiter_new max window)) <= max)%nat.
Proof.
  intros Hw Hord. destruct (new_mirrors window max now0) as [Hb Hm].
  rewrite (run_reference instant_min calls now0 [] (rate_limiter_new max window)) by done.
  pose proof (reference_bound window max calls now0 [] Hw Hord) as H.
  specialize (H ltac:(intros; unfold admitted_between; simpl; lia) key t).
  unfold admitted_between in H. simpl in H. exact H.
Qed.
End Bound.

(** Within its first window after the earliest instant the limiter forgets:
    [cutoff] falls back to [now], so every older admission is dropped. *)
Example limiter_forgets_early :
  run_checks 0 [(1%N, 10); (1%N, 11); (1%N, 12)] (rate_limiter_new 1 60) =
  [(1%N, 10, true); (1%N, 11, true); (1%N, 12, true)].
Proof. vm_compute. reflexivity. Qed.

(** Five downloads a minute, one user, a sixth refused and later admitted. *)
Definition demo_calls : list (Uuid * Z) :=
  [(1%N, 100); (1%N, 101); (2%N, 101); (1%N, 102); (1%N, 103); (1%N, 104); (1%N, 105); (1%N, 161)].

Lemma rate_limiter_reference_witness :
  run_checks 0 demo_calls (rate_limiter_new 5 60) = reference 60 5 demo_calls [] /\
  map snd (run_checks 0 demo_calls (rate_limiter_new 5 60)) =
    [true; true; true; true; true; true; false; true].
Proof.
  split; [|vm_compute; reflexivity].
  apply (rate_limiter_reference 0 60 5 demo_calls 100); [lia|]. unfold demo_calls, in_order. lia.
Defined.

Lemma rate_limiter_bound_witness :
  (answered_between 1%N 101 161 (run_checks 0 demo_calls (rate_limiter_new 5 60)) <= 5)%nat.
Proof.
  apply (rate_limiter_bound 0 60 5 demo_calls 100 1%N 161); [lia|]. unfold demo_calls, in_order. lia.
Defined.
