(* ===== verification/Api.v ===== *)
(** The state of the API process ([crates/api/src/main.rs: AppState]) and what
    its handlers share: the world of the repositories, the kubeconfig rate
    limiter, the background runs that were spawned ([runner.rs: spawn_*]), the
    table of idempotency keys, and the views the routes answer with. *)

From stdpp Require Import base gmap strings list pretty.
From S2P Require Import Prelude Errors Integrations Events Schema Database Tables Secrets Safety.
From S2P Require Import Cluster Addons Workflows Runner Sessions Access RateLimit.

(** * Idempotency keys: the table *)

Section Table.
Context `{En : Env}.

(** [idempotency_keys] ([20260424120500]) *)
#[export] Instance IdempotencyTable : Table IdempotencyRow := {|
  rows := db_idempotency;
  set_rows l db :=
    let 'mkDB a b c d e f g h i j k m n o _ p r t u v := db in mkDB a b c d e f g h i j k m n o l p r t u v;
  row_id := ik_organization_id;
  row_tenant r := Some (ik_organization_id r);
  row_audited := None;
  row_touch _ _ new := new;
  row_conflict a b :=
    bool_decide (ik_organization_id a = ik_organization_id b) && String.eqb (ik_key a) (ik_key b);
  row_check db r := constraints [ (org_exists db (ik_organization_id r), DbForeignKey) ];
  row_referenced _ _ := false;
  row_after _ _ db := db;
|}.
#[export] Instance IdempotencyTable_laws : TableLaws IdempotencyRow.
Proof. table_laws. Qed.
#[export] Instance IdempotencyTable_plain : PlainTable IdempotencyRow := fun _ _ _ => eq_refl.
#[export] Instance IdempotencyTable_tenant : TenantTable IdempotencyRow :=
  {| tenant_of := ik_organization_id; row_tenant_of _ := eq_refl |}.
#[export] Instance IdempotencyTable_rows : TenantRows IdempotencyRow.
Proof. intros org l d Hl. unfold others. destruct d; simpl in *. by rewrite Hl. Qed.
End Table.

(** * Requests and views *)

(** [clusters.rs: CreateRequest] *)
Record CreateRequest := mkCreateRequest {
  cr_name : string;
  cr_region : string;
  cr_server_type : string;
  cr_control_plane_count : Z;
  cr_worker_count : Z;
  cr_credential_id : Uuid;
}.

(** [clusters.rs: ClusterView] *)
Record ClusterView := mkClusterView {
  vw_id : Uuid;
  vw_name : string;
  vw_region : string;
  vw_server_type : string;
  vw_control_plane_count : Z;
  vw_worker_count : Z;
  vw_status : ClusterStatus;
  vw_current_step : option string;
  vw_started_at : Z;
  vw_error_category : option string;
  vw_terminal : bool;
  vw_kubeconfig_available : bool;
  vw_created_at : Z;
  vw_updated_at : Z;
  vw_agent_last_seen_at : option Z;
  vw_agent_version : string;
}.

(** [ClusterView::from_parts] *)
Definition from_parts (c : Cluster) (current_step : option string)
    (workflow_started_at : option Z) : ClusterView :=
  mkClusterView (cl_id c) (cl_name c) (cl_region c) (cl_server_type c)
    (cl_control_plane_count c) (cl_worker_count c) (cl_status c) current_step
    (default (cl_created_at c) workflow_started_at)
    (category_str <$> error_category (cl_status c) (cl_status_reason c))
    (match cl_status c with Ready | Failed | Destroyed => true | _ => false end)
    (bool_decide (cl_status c = Ready))
    (cl_created_at c) (cl_updated_at c) (cl_agent_last_seen_at c) (cl_agent_version c).

(** [From<Cluster>] *)
Definition view_of (c : Cluster) : ClusterView := from_parts c None None.

(** [clusters.rs: AddonView], [From<ClusterAddon>] *)
Record AddonView := mkAddonView {
  va_id : Uuid;
  va_addon : string;
  va_version : string;
  va_helm_release : string;
  va_status : AddonStatus;
  va_status_reason : option string;
  va_created_at : Z;
  va_updated_at : Z;
}.
Definition addon_view (a : ClusterAddon) : AddonView :=
  mkAddonView (ad_id a) (ad_addon a) (ad_version a) (ad_helm_release a) (ad_status a)
    (ad_status_reason a) (ad_created_at a) (ad_updated_at a).

(** A status code with a body. *)
Record Response := mkResponse { rs_status : Z; rs_body : string }.

(** [main.rs: ClusterSettings] *)
Record ClusterSettings := mkSettings {
  st_ssh_key : string;
  st_k3s_version : string;
  st_user_data : string;
}.

(** What the process gets from outside: the monotonic clock, its settings, and
    serde's reading and writing of JSON. *)
Class Host := {
  instant_now : nat -> Z;
  instant_floor : Z;
  cluster_settings : ClusterSettings;
  parse_create_request : string -> result string CreateRequest;
  view_json : ClusterView -> string;
  event_json : ClusterEvent -> option string;
}.

(** * The process *)

(** A spawned run; the Hetzner client is the secret it is bound to. *)
Inductive Job :=
| JProvision (org : Uuid) (hetzner : SecretRef) (input : ProvisionClusterInput)
| JDestroy (org : Uuid) (hetzner : SecretRef) (cluster_id : Uuid)
| JInstallAddon (org addon_id : Uuid) (params : InstallParams) (kubeconfig_path : string)
| JUninstallAddon (org addon_id : Uuid) (helm_release namespace kubeconfig_path : string)
| JScaleOut (org : Uuid) (hetzner : SecretRef) (cluster_id : Uuid) (count : nat)
    (cluster_name location server_type ssh_key user_data k3s_version : string)
| JScaleIn (org : Uuid) (hetzner : SecretRef) (cluster_id : Uuid) (cluster_name : string)
    (count : nat).

Section App.
Context `{En : Env}.

(** [AppState]; the spawned runs in the order of their spawning, and the
    nicknames of the passkeys being registered. *)
Record App := mkApp {
  ap_world : World;
  ap_limiter : RateLimiter;
  ap_jobs : list Job;
  ap_nicknames : gmap Uuid string;
}.

Definition set_world (w : World) (a : App) : App := mkApp w (ap_limiter a) (ap_jobs a) (ap_nicknames a).
Definition ap_db (a : App) : DB := w_db (ap_world a).

Definition in_world {E A} (m : M World E A) : M App E A :=
  fun a => let '(r, w) := m (ap_world a) in (r, set_world w a).

(** [tokio::spawn]: the run starts at some later point. *)
Definition spawn {E} (j : Job) : M App E unit :=
  modify (fun a => mkApp (ap_world a) (ap_limiter a) (ap_jobs a ++ [j]) (ap_nicknames a)).

(** [runner.rs: spawn_*] *)
Definition spawn_provision {E} (org : Uuid) (hetzner : SecretRef) (input : ProvisionClusterInput) : M App E unit :=
  spawn (JProvision org hetzner input).
Definition spawn_destroy {E} (org : Uuid) (hetzner : SecretRef) (cluster_id : Uuid) : M App E unit :=
  spawn (JDestroy org hetzner cluster_id).
Definition spawn_install_addon {E} (org addon_id : Uuid) (params : InstallParams) (kubeconfig_path : string)
  : M App E unit := spawn (JInstallAddon org addon_id params kubeconfig_path).
Definition spawn_uninstall_addon {E} (org addon_id : Uuid) (helm_release namespace kubeconfig_path : string)
  : M App E unit := spawn (JUninstallAddon org addon_id helm_release namespace kubeconfig_path).
Definition spawn_scale_out {E} (org : Uuid) (hetzner : SecretRef) (cluster_id : Uuid) (count : nat)
    (cluster_name location server_type ssh_key user_data k3s_version : string) : M App E unit :=
  spawn (JScaleOut org hetzner cluster_id count cluster_name location server_type ssh_key user_data k3s_version).
Definition spawn_scale_in {E} (org : Uuid) (hetzner : SecretRef) (cluster_id : Uuid) (cluster_name : string)
    (count : nat) : M App E unit :=
  spawn (JScaleIn org hetzner cluster_id cluster_name count).

(** The body of a spawned task: the run, its error only logged. *)
Definition run_job `{Ex : Externals} `{St : !SecretStore} (j : Job) : M World AnyhowError unit :=
  match j with
  | JProvision org _ input => run_provision org input
  | JDestroy org _ id => run_destroy org id
  | JInstallAddon org id params path => run_install_addon org id params path
  | JUninstallAddon org id release namespace path => run_uninstall_addon org id release namespace path
  | JScaleOut org _ id count name location server_type ssh_key user_data k3s_version =>
      run_scale_out org id count name location server_type ssh_key user_data k3s_version
  | JScaleIn org _ id name count => run_scale_in org id name count
  end.

(** What a route answers an error with. *)
Inductive HandlerError :=
| Refused (r : Rejection)
| Failing (e : PlatformError).
Definition handler_status (e : HandlerError) : Z :=
  match e with
  | Refused r => rejection_status r
  | Failing e => pb_status (into_response e)
  end.

(** A handler behind its extractor. *)
Definition with_actor {A} (rq : Request) (handler : Actor -> M App PlatformError A)
  : M App HandlerError A :=
  actor <- map_err Refused (in_world (extract_actor rq)) ;;
  map_err Failing (handler actor).
Definition with_owner {A} (rq : Request) (handler : OwnerActor -> M App PlatformError A)
  : M App HandlerError A :=
  owner <- map_err Refused (in_world (extract_owner rq)) ;;
  map_err Failing (handler owner).
Definition with_session_user {A} (rq : Request) (handler : SessionUser -> M App PlatformError A)
  : M App HandlerError A :=
  user <- map_err Refused (in_world (extract_session_user rq)) ;;
  map_err Failing (handler user).

(** ** Reasoning *)

Lemma wp_in_world {E A} (m : M World E A) (Q : result E A -> App -> Prop) a :
  wp m (fun r w => Q r (set_world w a)) (ap_world a) -> wp (in_world m) Q a.
Proof. unfold wp, in_world. by destruct (m (ap_world a)). Qed.

(** An operation of the repositories, from what it does to the tables. *)
Lemma wp_in_db {E A} (m : M World E A) P (Q : result E A -> App -> Prop) a :
  db_wp (ap_db a) m P ->
  (forall r w, P r (w_db w) -> frame (ap_world a) w -> Q r (set_world w a)) ->
  wp (in_world m) Q a.
Proof.
  intros Hm HQ. apply wp_in_world. destruct (Hm (w_guc (ap_world a)) (ap_world a) eq_refl eq_refl)
    as [Hf HP]. by apply HQ.
Qed.

(** The clock never goes back. *)
Definition later (a a' : App) : Prop := (w_tick (ap_world a) <= w_tick (ap_world a'))%nat.
#[export] Instance later_preorder : PreOrder later.
Proof. split; unfold later; repeat intro; lia. Qed.

Lemma in_world_later {E A} (m : M World E A) a :
  (forall d, exists P, db_wp d m P) -> wp (in_world m) (fun _ => later a) a.
Proof.
  intros Hm. destruct (Hm (ap_db a)) as [P HP]. eapply wp_in_db; [exact HP|].
  intros r w _ Hf. apply (frame_tick _ _ Hf).
Qed.

Lemma ap_db_set w a : ap_db (set_world w a) = w_db w.
Proof. done. Qed.
Lemma ap_jobs_set w a : ap_jobs (set_world w a) = ap_jobs a.
Proof. done. Qed.

Lemma wp_spawn {E} j (Q : result E unit -> App -> Prop) a :
  Q (Ok tt) (mkApp (ap_world a) (ap_limiter a) (ap_jobs a ++ [j]) (ap_nicknames a)) -> wp (spawn j) Q a.
Proof. done. Qed.
End App.

(** * A concrete process *)

(** The body of a request is the name of the cluster; a view prints as its id. *)
Definition demo_host : Host := {|
  instant_now n := Z.of_nat n;
  instant_floor := -1000;
  cluster_settings := mkSettings "ssh-key" "v1.29.4+k3s1" "#cloud-config";
  parse_create_request body :=
    if String.eqb body "?" then Err "expected value"%string
    else Ok (mkCreateRequest body "nbg1" "cpx21" 1 2 10%N);
  view_json v := pretty (vw_id v);
  event_json e := match e with Step s => Some s | Terminal s _ => Some s end;
|}.

(** Five downloads a minute. *)
Definition demo_app (db : DB) : @App demo_env :=
  @mkApp demo_env (demo_world db) (rate_limiter_new 5 60) [] ∅.
Definition demo_owner : OwnerActor := mkOwnerActor (mkActor 5%N 50%N 1%N) Owner.
