(* ===== verification/ClusterRoutes.v ===== *)
(** The routes under [/v1/clusters] ([crates/api/src/clusters.rs]): each handler
    behind its extractor, with the services it calls, the audit rows it writes
    and the runs it spawns. *)

From Stdlib Require Import Ascii.
From stdpp Require Import base gmap strings list pretty.
From S2P Require Import Prelude Errors Integrations Events Schema Database Tables Secrets Safety.
From S2P Require Import Cluster Addons Workflows Runner Credentials Sessions Access RateLimit Api.

Definition IDEMPOTENCY_HEADER : string := "idempotency-key".
(** 24 hours, in microseconds. *)
Definition IDEMPOTENCY_TTL : Z := 24 * 60 * 60 * 1000000.

(** [StatusCode::from_u16(u16::try_from(s).unwrap_or(200)).unwrap_or(OK)] *)
Definition cached_status (s : Z) : Z :=
  let code := if 0 <=? s then s else 200 in
  if (100 <=? code) && (code <=? 999) then code else 200.

(** [-delta] of an [i16] (release), and the cast [as usize]. *)
Definition i16_neg (x : Z) : Z := if x =? i16_min then i16_min else - x.
Definition i16_as_usize (x : Z) : nat := Z.to_nat (x mod 2 ^ 64).

Definition MIN_WORKER_COUNT : Z := 1.
Definition MAX_WORKER_COUNT : Z := 10.

(** [InstallAddonRequest] *)
Record InstallAddonRequest := mkInstallRequest { ir_addon : string; ir_version : string }.

(** [{:?}] of an [AddonStatus]. *)
Definition addon_status_debug (s : AddonStatus) : string :=
  match s with
  | APending => "Pending" | AInstalling => "Installing" | AReady => "Ready"
  | AFailed => "Failed" | AUninstalling => "Uninstalling" | AUninstalled => "Uninstalled"
  end.

Definition new_cluster_of (req : CreateRequest) : NewCluster :=
  mkNewCluster (cr_name req) (cr_region req) (cr_server_type req) (cr_control_plane_count req)
    (cr_worker_count req) (cr_credential_id req).

Module Routes.
Section Routes.
Context `{En : Env} `{St : !SecretStore} `{Ho : Host}.

(** ** Idempotency *)

Definition idempotency_row (organization_id : Uuid) (key : string) (r : IdempotencyRow) : bool :=
  bool_decide (ik_organization_id r = organization_id) && String.eqb (ik_key r) key.

Definition lookup_idempotency (organization_id : Uuid) (key body_hash : string)
  : M World PlatformError (option Response) :=
  rows <- tenant_tx organization_id None
    (sql (select (fun _ => idempotency_row organization_id key))) ;;
  match rows with
  | [] => ret None
  | row :: _ =>
      now <- now_utc ;;
      if ik_expires_at row <? now then ret None
      else if negb (String.eqb (ik_request_hash row) body_hash)
      then throw (Conflict "Idempotency-Key reused with a different request body")
      else ret (Some (mkResponse (ik_response_status row) (ik_response_body row)))
  end.

(** The row is built from the clock read before the statement. *)
Definition store_idempotency (organization_id : Uuid) (key body_hash : string) (status : Z)
    (body : string) : M World PlatformError unit :=
  tenant_tx organization_id None
    (now <- now_utc ;;
     sql (insert_or_ignore
       (fun new r => idempotency_row (ik_organization_id new) (ik_key new) r)
       (fun _ => mkIdem organization_id key body_hash status body (now + IDEMPOTENCY_TTL)))) ;;;
  ret tt.

(** ** Create, read, list, destroy *)

Definition provision_input (cluster : Cluster) : ProvisionClusterInput :=
  mkProvisionInput (cl_id cluster) (cl_name cluster) (cl_region cluster) (cl_server_type cluster)
    (Z.to_nat (Z.max (cl_worker_count cluster) 0))
    (st_ssh_key cluster_settings) (st_user_data cluster_settings) (st_k3s_version cluster_settings).

Definition parse_body (body : string) : result PlatformError CreateRequest :=
  result_map_err (fun e => Invalid ("invalid JSON body: " +++ e)) (parse_create_request body).

(** The part of [create] behind the replay. *)
Definition create_fresh (actor : Actor) (rq : Request) (req : CreateRequest)
    (idempotency_key : option string) (body_hash : string) : M App PlatformError Response :=
  let org := ac_organization_id actor in
  cluster <- in_world (create org (new_cluster_of req) (from_actor_and_headers actor rq)) ;;
  credential <- in_world (get_credential org (cr_credential_id req)) ;;
  spawn_provision org (secret_ref credential) (provision_input cluster) ;;;
  let response_body := view_json (view_of cluster) in
  match idempotency_key with
  | Some key => in_world (store_idempotency org key body_hash 202 response_body)
  | None => ret tt
  end ;;;
  ret (mkResponse 202 response_body).

Definition create_route (owner : OwnerActor) (rq : Request) (body : string)
  : M App PlatformError Response :=
  let actor := ow_inner owner in
  req <- lift (parse_body body) ;;
  let body_hash := sha256 body in
  let idempotency_key := rq_header rq IDEMPOTENCY_HEADER in
  cached <- match idempotency_key with
            | Some key => in_world (lookup_idempotency (ac_organization_id actor) key body_hash)
            | None => ret None
            end ;;
  match cached with
  | Some c => ret (mkResponse (cached_status (rs_status c)) (rs_body c))
  | None => create_fresh actor rq req idempotency_key body_hash
  end.

Definition read_route (actor : Actor) (id : Uuid) : M App PlatformError ClusterView :=
  in_world
    (cluster <- get_cluster (ac_organization_id actor) id ;;
     workflows <- tenant_tx (ac_organization_id actor) None
       (sql (select (fun _ w => bool_decide (wf_cluster_id w = id)))) ;;
     let workflow := head (sort_by (fun a b => wf_started_at b <=? wf_started_at a) workflows) in
     ret (from_parts cluster (wf_current_step <$> workflow) (wf_started_at <$> workflow))).

Definition list_route (actor : Actor) : M App PlatformError (list ClusterView) :=
  rows <- in_world (list_clusters (ac_organization_id actor)) ;;
  ret (map view_of rows).

Definition destroy_route (owner : OwnerActor) (id : Uuid) : M App PlatformError Z :=
  let org := ac_organization_id (ow_inner owner) in
  cluster <- in_world (get_cluster org id) ;;
  credential <- in_world (get_credential org (cl_credential_id cluster)) ;;
  spawn_destroy org (secret_ref credential) id ;;;
  ret 202.

(** ** Kubeconfig *)

(** [kubeconfig_rate_limit.check(actor.user_id)] *)
Definition check_limit {E} (key : Uuid) : M App E bool :=
  fun a =>
    let w := ap_world a in
    let '(ok, rl) := check_at instant_floor key (instant_now (w_tick w)) (ap_limiter a) in
    (Ok ok, mkApp (tick w) rl (ap_jobs a) (ap_nicknames a)).

Definition record_kubeconfig_audit (actor : Actor) (rq : Request) (cluster_id : Uuid)
  : M World PlatformError unit :=
  tenant_tx (ac_organization_id actor) (Some (from_actor_and_headers actor rq))
    (append_explicit (ac_organization_id actor) "kubeconfig.retrieved" "cluster"
       (Some (uuid_str cluster_id)) "allowed") ;;;
  ret tt.

Definition download_kubeconfig (actor : Actor) (rq : Request) (id : Uuid)
  : M App PlatformError Response :=
  admitted <- check_limit (ac_user_id actor) ;;
  if negb admitted
  then throw (Forbidden "kubeconfig downloads are rate-limited to 5 per minute")
  else
    kubeconfig <- in_world (fetch_kubeconfig (ac_organization_id actor) id) ;;
    in_world (record_kubeconfig_audit actor rq id) ;;;
    ret (mkResponse 200 kubeconfig).

(** ** Add-ons *)

(** [tokio::fs::write] of the kubeconfig, known by its path. *)
Definition stage_kubeconfig : M World PlatformError string :=
  file_id <- now_v7 ;;
  let path := temp_dir +++ "/kubinate-kc-" +++ uuid_str file_id +++ ".yaml" in
  fun w => match fs_write_error (w_tick w) with
           | Some e => (Err (Internal ("stage kubeconfig: " +++ e)), tick w)
           | None => (Ok path, set_files (w_files w ++ [path]) (tick w))
           end.

Definition install_params (spec : AddonSpec) (row : ClusterAddon) : InstallParams :=
  mkInstall (ad_helm_release row) (sp_chart_name spec) (sp_chart_repo spec) (ad_version row)
    (sp_namespace spec) (sp_default_values_yaml spec).

Definition install_addon_route (owner : OwnerActor) (rq : Request) (cluster_id : Uuid)
    (req : InstallAddonRequest) : M App PlatformError (Z * AddonView) :=
  let actor := ow_inner owner in
  let org := ac_organization_id actor in
  cluster <- in_world (get_cluster org cluster_id) ;;
  if negb (bool_decide (cl_status cluster = Ready))
  then throw (Conflict "cluster must be Ready before installing addons")
  else
    row <- in_world (request_install org cluster_id (mkNewAddon (ir_addon req) (ir_version req))
                       (from_actor_and_headers actor rq)) ;;
    in_world (fetch_kubeconfig org cluster_id) ;;;
    path <- in_world stage_kubeconfig ;;
    spec <- lift (lookup_addon (ad_addon row)) ;;
    spawn_install_addon org (ad_id row) (install_params spec row) path ;;;
    ret (202, addon_view row).

Definition list_addons (actor : Actor) (cluster_id : Uuid) : M App PlatformError (list AddonView) :=
  rows <- in_world (list_for_cluster (ac_organization_id actor) cluster_id) ;;
  ret (map addon_view rows).

Definition addon_not_found (addon_id : Uuid) : PlatformError :=
  NotFound ("addon/" +++ uuid_str addon_id).

Definition uninstall_addon (owner : OwnerActor) (rq : Request) (cluster_id addon_id : Uuid)
  : M App PlatformError (Z * AddonView) :=
  let actor := ow_inner owner in
  let org := ac_organization_id actor in
  found <- in_world (get_by_id org addon_id) ;;
  match found with
  | None => throw (addon_not_found addon_id)
  | Some addon =>
      if negb (bool_decide (ad_cluster_id addon = cluster_id)) then throw (addon_not_found addon_id)
      else if negb (bool_decide (ad_status addon = AReady) || bool_decide (ad_status addon = AFailed))
      then throw (Conflict ("addon must be ready or failed to uninstall (current: "
                              +++ addon_status_debug (ad_status addon) +++ ")"))
      else
        in_world (update_addon_status org addon_id AUninstalling None
                    (from_actor_and_headers actor rq)) ;;;
        spec <- lift (lookup_addon (ad_addon addon)) ;;
        in_world (fetch_kubeconfig org cluster_id) ;;;
        path <- in_world stage_kubeconfig ;;
        spawn_uninstall_addon org addon_id (ad_helm_release addon) (sp_namespace spec) path ;;;
        ret (202, addon_view (with_addon_status AUninstalling (ad_status_reason addon) addon))
  end.

(** ** Scaling *)

Definition scaling_view (c : Cluster) (new_worker_count : Z) : ClusterView :=
  let v := view_of c in
  mkClusterView (vw_id v) (vw_name v) (vw_region v) (vw_server_type v) (vw_control_plane_count v)
    new_worker_count Scaling (vw_current_step v) (vw_started_at v) (vw_error_category v)
    false (vw_kubeconfig_available v) (vw_created_at v) (vw_updated_at v)
    (vw_agent_last_seen_at v) (vw_agent_version v).

Definition spawn_scale {E} (org : Uuid) (hetzner : SecretRef) (cluster : Cluster) (cluster_id : Uuid)
    (delta : Z) : M App E unit :=
  if 0 <? delta
  then spawn_scale_out org hetzner cluster_id (i16_as_usize delta) (cl_name cluster) (cl_region cluster)
         (cl_server_type cluster) (st_ssh_key cluster_settings) (st_user_data cluster_settings)
         (st_k3s_version cluster_settings)
  else spawn_scale_in org hetzner cluster_id (cl_name cluster) (i16_as_usize (i16_neg delta)).

Definition scale_workers (owner : OwnerActor) (rq : Request) (cluster_id : Uuid) (delta : Z)
  : M App PlatformError (Z * ClusterView) :=
  let actor := ow_inner owner in
  let org := ac_organization_id actor in
  cluster <- in_world (get_cluster org cluster_id) ;;
  if negb (bool_decide (cl_status cluster = Ready))
  then throw (Conflict "cluster must be Ready to scale")
  else if delta =? 0 then ret (200, view_of cluster)
  else
    let new_worker_count := i16_saturating_add (cl_worker_count cluster) delta in
    if negb ((MIN_WORKER_COUNT <=? new_worker_count) && (new_worker_count <=? MAX_WORKER_COUNT))
    then throw (Invalid ("worker_count must stay between " +++ pretty MIN_WORKER_COUNT +++ " and "
                  +++ pretty MAX_WORKER_COUNT +++ " (current " +++ pretty (cl_worker_count cluster)
                  +++ " + delta " +++ pretty delta +++ " = " +++ pretty new_worker_count +++ ")"))
    else
      credential <- in_world (get_credential org (cl_credential_id cluster)) ;;
      in_world (update_worker_count org cluster_id new_worker_count
                  (from_actor_and_headers actor rq)) ;;;
      spawn_scale org (secret_ref credential) cluster cluster_id delta ;;;
      ret (202, scaling_view cluster new_worker_count).

(** ** Events *)

(** The subscription of [stream_events]. *)
Definition stream_events (actor : Actor) (cluster_id : Uuid) : M App PlatformError unit :=
  in_world
    (get_cluster (ac_organization_id actor) cluster_id ;;;
     modify (fun w => set_hub (hub_subscribe cluster_id (w_hub w)) w)).

(** What the subscription receives: an event, or the number of events the
    channel dropped because the client was too slow. *)
Inductive Received := Event (e : ClusterEvent) | Lagged (n : nat).
Definition received_event (i : Received) : ClusterEvent :=
  match i with Event e => e | Lagged _ => Step "__lagged__" end.
Definition is_terminal (e : ClusterEvent) : bool :=
  match e with Terminal _ _ => true | Step _ => false end.

(** [take_while] with the flag [terminal_seen]: the events let through, and
    whether the stream has ended. *)
Fixpoint take_until_terminal (terminal_seen : bool) (l : list ClusterEvent)
  : list ClusterEvent * bool :=
  match l with
  | [] => ([], false)
  | event :: l' =>
      if terminal_seen then ([], true)
      else let '(out, closed) := take_until_terminal (is_terminal event) l' in
           (event :: out, closed)
  end.

Record SseEvent := mkSse { se_event : string; se_data : string }.
Definition quote (s : string) : string := String "034"%char s +++ String "034"%char EmptyString.
Definition error_data : string :=
  "{" +++ quote "type" +++ ":" +++ quote "step" +++ "," +++ quote "step" +++ ":"
      +++ quote "__error__" +++ "}".
Definition sse_of (e : ClusterEvent) : SseEvent :=
  mkSse (if is_terminal e then "terminal" else "step") (default error_data (event_json e)).

(** The body of [stream_events] for what the subscription has received. *)
Definition sse_stream (items : list Received) : list SseEvent * bool :=
  let '(events, closed) := take_until_terminal false (map received_event items) in
  (mkSse "connected" "{}" :: map sse_of events, closed).
End Routes.
End Routes.
Export Routes.

(** [catalog]: regions, server types, add-ons. *)
Definition catalog : list string * list string * list string :=
  (ALLOWED_REGIONS, ALLOWED_SERVER_TYPES, slugs).
