(* ===== verification/CreateRoute.v ===== *)
(** What [POST /v1/clusters] guarantees ([crates/api/src/clusters.rs: create]):
    the outcomes of a request on every branch, and the replay of a request that
    carries an idempotency key. *)

From stdpp Require Import base gmap strings list pretty.
From S2P Require Import Prelude Errors Integrations Events Schema Database Tables Secrets Safety.
From S2P Require Import Cluster Addons Workflows Runner Credentials Membership Sessions Access.
From S2P Require Import RateLimit Api ClusterRoutes.

Section Idempotency.
Context `{En : Env} (Hb : bypass_rls = false).

(** The row recorded under a key of the tenant. *)
Definition idempotency_of (org : Uuid) (key : string) (d : DB) : option IdempotencyRow :=
  head (List.filter (idempotency_row org key) (db_idempotency d)).

(** The answer of a look-up at the time [now]. *)
Definition looked_up (row : option IdempotencyRow) (body_hash : string) (now : Z)
  : result PlatformError (option Response) :=
  match row with
  | None => Ok None
  | Some r =>
      if ik_expires_at r <? now then Ok None
      else if String.eqb (ik_request_hash r) body_hash
      then Ok (Some (mkResponse (ik_response_status r) (ik_response_body r)))
      else Err (Conflict "Idempotency-Key reused with a different request body")
  end.

Lemma idempotency_select_law d org key :
  db_wp d (tenant_tx org None (sql (select (fun _ => idempotency_row org key))))
    (fun (r : result PlatformError (list IdempotencyRow)) d' => d' = d /\
      match r with
      | Ok l => head l = idempotency_of org key d
      | Err e => faulty /\ e = Database DbTransport
      end).
Proof.
  intros g. apply db_tenant_tx; [by split; auto|]. intros now.
  apply tx_map_err, tx_select; [by split; auto|]. cbn [result_map_err]. split; [done|].
  unfold idempotency_of. f_equal. apply filter_ext_list. intros r. rewrite visible_own by done.
  unfold idempotency_row. simpl. by destruct (bool_decide _).
Qed.

(** The clock of the answer is read during the call. *)
Lemma lookup_idempotency_law org key body_hash w :
  wp (lookup_idempotency org key body_hash) (fun r w' => w_db w' = w_db w /\ frame w w' /\
    (faulty /\ r = Err (Database DbTransport) \/
     exists n, (w_tick w <= n <= w_tick w')%nat /\
       r = looked_up (idempotency_of org key (w_db w)) body_hash (clock n))) w.
Proof.
  unfold lookup_idempotency. apply wp_bind.
  eapply wp_mono; [apply (idempotency_select_law (w_db w) org key (w_guc w)); done|].
  intros [l|e] w1 (Hf & Hd & H); [|split; [done|]; split; [done|]; left; by destruct H as [? ->]].
  pose proof (frame_tick _ _ Hf) as Ht. rewrite <- H.
  destruct l as [|row l]; simpl.
  { apply wp_ret. split; [done|]. split; [done|]. right. exists (w_tick w1). by split; [lia|]. }
  assert (Hf' : frame w (tick w1)) by (etrans; [exact Hf|]; destruct w1; constructor; simpl; done || lia).
  pose proof (frame_tick _ _ Hf') as Ht'.
  assert (Hd' : w_db (tick w1) = w_db w) by by destruct w1.
  apply wp_bind. unfold wp at 1, now_utc. cbn [fst snd].
  assert (Hr : forall r, r = looked_up (Some row) body_hash (clock (w_tick w1)) ->
    w_db (tick w1) = w_db w /\ frame w (tick w1) /\
    (faulty /\ r = Err (Database DbTransport) \/
     exists n, (w_tick w <= n <= w_tick (tick w1))%nat /\
       r = looked_up (Some row) body_hash (clock n))).
  { intros r ->. split; [done|]. split; [done|]. right. exists (w_tick w1).
    split; [destruct w1; simpl in *; lia|done]. }
  unfold looked_up in Hr. destruct (ik_expires_at row <? clock (w_tick w1)); [by apply wp_ret, Hr|].
  destruct (String.eqb (ik_request_hash row) body_hash); simpl; [by apply wp_ret, Hr|].
  by apply wp_throw, Hr.
Qed.

(** A key is recorded once: a later row never replaces it. *)
Definition recorded (org : Uuid) (key body_hash : string) (status : Z) (body : string)
    (d d' : DB) : Prop :=
  idempotency_of org key d <> None /\ d' = d \/
  idempotency_of org key d = None /\ exists n,
    d' = set_rows (db_idempotency d ++
           [mkIdem org key body_hash status body (clock n + IDEMPOTENCY_TTL)]) d.

Lemma store_idempotency_law d org key body_hash status body :
  db_wp d (store_idempotency org key body_hash status body) (fun r d' =>
    match r with
    | Ok _ => recorded org key body_hash status body d d'
    | Err _ => d' = d
    end).
Proof.
  intros g. unfold store_idempotency. apply tx_bind, db_tenant_tx; [done|]. intros now.
  apply tx_bind, (tx_ticked _ _ clock). intros n. apply tx_map_err, tx_insert_or_ignore.
  - done.
  - done.
  - intros Hon. cbn [result_map_err]. apply tx_ret. left. split; [|done].
    apply existsb_exists in Hon as (r & Hin & Hr). simpl in Hr. unfold idempotency_of.
    intros Hnil. assert (Hf : In r (List.filter (idempotency_row org key) (db_idempotency d))).
    { by apply filter_In. }
    by destruct (List.filter _ _).
  - done.
  - intros Hins t. cbn [result_map_err]. apply tx_ret. right.
    apply insert_error_none in Hins as (_ & Hconf & _). split.
    + unfold idempotency_of. rewrite filter_false_in; [done|]. intros r Hin.
      rewrite existsb_false_iff in Hconf. specialize (Hconf r Hin). simpl in Hconf.
      unfold idempotency_row. rewrite String.eqb_sym.
      destruct (bool_decide_reflect (ik_organization_id r = org)) as [<-|]; [|done].
      by rewrite bool_decide_true in Hconf.
    + exists n. rewrite insert_db_plain, audit_entries_none, app_nil_r by done. by destruct d.
Qed.

Lemma recorded_row org key body_hash status body d d' :
  idempotency_of org key d = None -> recorded org key body_hash status body d d' ->
  exists n, idempotency_of org key d' =
    Some (mkIdem org key body_hash status body (clock n + IDEMPOTENCY_TTL)).
Proof.
  intros Hnone [[? _]|[_ [n ->]]]; [done|]. exists n. unfold idempotency_of in *.
  assert (Hr : forall l, db_idempotency (set_rows (l : list IdempotencyRow) d) = l) by by destruct d.
  rewrite Hr, filter_app_list. destruct (List.filter _ (db_idempotency d)); [|done]. simpl.
  unfold idempotency_row. simpl. by rewrite bool_decide_true, String.eqb_refl.
Qed.
End Idempotency.

(** * Outcomes *)

Section Outcomes.
Context `{En : Env} `{St : !SecretStore} `{Ho : Host} (Hb : bypass_rls = false).

(** Neither the tables nor the spawned runs have changed. *)
Definition untouched (a a' : App) : Prop := ap_db a' = ap_db a /\ ap_jobs a' = ap_jobs a.

Definition spawned (j : Job) (a a' : App) : Prop := ap_jobs a' = ap_jobs a ++ [j].

(** A request that is not answered from a recorded response: the cluster, its
    run and the record of the response, or how far the handler got. *)
Inductive fresh_outcome (actor : Actor) (rq : Request) (req : CreateRequest) (key : option string)
    (body_hash : string) (a : App) : result PlatformError Response -> App -> Prop :=
| fresh_accepted c cred d1 a' :
    cluster_created (ap_db a) (ac_organization_id actor) (new_cluster_of req)
      (from_actor_and_headers actor rq) (Ok c) d1 ->
    credential_of (ac_organization_id actor) (cr_credential_id req) d1 = Some cred ->
    spawned (JProvision (ac_organization_id actor) (secret_ref cred) (provision_input c)) a a' ->
    match key with
    | Some k => recorded (ac_organization_id actor) k body_hash 202 (view_json (view_of c)) d1 (ap_db a')
    | None => ap_db a' = d1
    end ->
    fresh_outcome actor rq req key body_hash a (Ok (mkResponse 202 (view_json (view_of c)))) a'
| fresh_refused e a' :
    cluster_created (ap_db a) (ac_organization_id actor) (new_cluster_of req)
      (from_actor_and_headers actor rq) (Err e) (ap_db a') ->
    ap_jobs a' = ap_jobs a ->
    fresh_outcome actor rq req key body_hash a (Err e) a'
| fresh_orphaned c e a' :
    cluster_created (ap_db a) (ac_organization_id actor) (new_cluster_of req)
      (from_actor_and_headers actor rq) (Ok c) (ap_db a') ->
    ap_jobs a' = ap_jobs a ->
    e = credential_not_found (cr_credential_id req) /\
      credential_of (ac_organization_id actor) (cr_credential_id req) (ap_db a') = None
    \/ faulty /\ e = Database DbTransport ->
    fresh_outcome actor rq req key body_hash a (Err e) a'
| fresh_unrecorded c cred k e a' :
    key = Some k ->
    cluster_created (ap_db a) (ac_organization_id actor) (new_cluster_of req)
      (from_actor_and_headers actor rq) (Ok c) (ap_db a') ->
    spawned (JProvision (ac_organization_id actor) (secret_ref cred) (provision_input c)) a a' ->
    fresh_outcome actor rq req key body_hash a (Err e) a'.

Lemma create_fresh_law actor rq req key body_hash a :
  wp (create_fresh actor rq req key body_hash) (fresh_outcome actor rq req key body_hash a) a.
Proof.
  unfold create_fresh. apply wp_bind. eapply wp_in_db; [apply create_law|].
  intros [c|e] w1 Hc _; [|by apply fresh_refused].
  apply wp_bind. eapply wp_in_db; [by apply get_credential_law|].
  intros [cred|e] w2 [Hd2 Hcred] _.
  2: { apply (fresh_orphaned _ _ _ _ _ _ c); [|done|].
       - rewrite !ap_db_set in *. by rewrite Hd2.
       - rewrite !ap_db_set in *. rewrite Hd2. destruct Hcred as [[-> Hn]|H]; [left|by right]. done. }
  rewrite !ap_db_set in *. apply wp_bind, wp_spawn, wp_bind.
  destruct key as [k|].
  - eapply wp_in_db; [by apply store_idempotency_law|]. cbn [ap_db ap_world].
    intros [[]|e] w3 H3 _.
    + apply wp_ret. eapply fresh_accepted; [exact Hc|exact Hcred|done|].
      unfold ap_db in H3. cbn [ap_world set_world] in H3. by rewrite Hd2 in H3.
    + apply (fresh_unrecorded _ _ _ _ _ _ c cred k); [done| |done].
      unfold ap_db in *. cbn [ap_world set_world] in *. by rewrite H3, Hd2.
  - apply wp_ret, wp_ret. eapply fresh_accepted; [exact Hc|exact Hcred|done|].
    unfold ap_db. cbn [ap_world set_world]. by rewrite Hd2.
Qed.

Lemma create_fresh_later actor rq req key body_hash a :
  wp (create_fresh actor rq req key body_hash) (fun _ => later a) a.
Proof.
  unfold create_fresh. apply bind_preserves; [typeclasses eauto| |intros c a1].
  { apply in_world_later. intros d. eexists. apply create_law. }
  apply bind_preserves; [typeclasses eauto| |intros cred a2].
  { apply in_world_later. intros d. eexists. by apply get_credential_law. }
  apply bind_preserves; [typeclasses eauto|apply wp_spawn; unfold later; simpl; lia|intros _ a3].
  apply bind_preserves; [typeclasses eauto| |intros _ a4; by apply wp_ret].
  destruct key; [|by apply wp_ret].
  apply in_world_later. intros d. eexists. by apply store_idempotency_law.
Qed.

(** Every branch of the handler. *)
Inductive create_outcome (actor : Actor) (rq : Request) (body : string) (a : App)
  : result PlatformError Response -> App -> Prop :=
| create_unparsed e a' :
    parse_body body = Err e -> untouched a a' -> create_outcome actor rq body a (Err e) a'
| create_unreachable a' :
    faulty -> untouched a a' ->
    create_outcome actor rq body a (Err (Database DbTransport)) a'
| create_looked_up req key n r a' :
    parse_body body = Ok req -> rq_header rq IDEMPOTENCY_HEADER = Some key ->
    (w_tick (ap_world a) <= n <= w_tick (ap_world a'))%nat ->
    match looked_up (idempotency_of (ac_organization_id actor) key (ap_db a)) (sha256 body) (clock n) with
    | Ok (Some c) => r = Ok (mkResponse (cached_status (rs_status c)) (rs_body c))
    | Err e => r = Err e
    | Ok None => False
    end -> untouched a a' ->
    create_outcome actor rq body a r a'
| create_made req n r a0 a' :
    parse_body body = Ok req -> untouched a a0 ->
    match rq_header rq IDEMPOTENCY_HEADER with
    | Some key => (w_tick (ap_world a) <= n <= w_tick (ap_world a0))%nat /\
        looked_up (idempotency_of (ac_organization_id actor) key (ap_db a)) (sha256 body) (clock n)
          = Ok None
    | None => True
    end ->
    fresh_outcome actor rq req (rq_header rq IDEMPOTENCY_HEADER) (sha256 body) a0 r a' ->
    later a0 a' ->
    create_outcome actor rq body a r a'.

Lemma create_route_law owner rq body a :
  wp (create_route owner rq body) (create_outcome (ow_inner owner) rq body a) a.
Proof.
  unfold create_route. apply wp_bind, wp_lift.
  destruct (parse_body body) as [req|e] eqn:Hp; [|by apply create_unparsed].
  apply wp_bind. destruct (rq_header rq IDEMPOTENCY_HEADER) as [key|] eqn:Hk.
  2: { apply wp_ret. eapply wp_mono; [apply wp_and; [apply create_fresh_law|apply create_fresh_later]|].
       intros r a' [H ?].
       apply (create_made _ _ _ _ req O _ a); rewrite ?Hk; done. }
  apply wp_in_world. eapply wp_mono; [by apply lookup_idempotency_law|].
  intros r w' (Hd & Hf & [[Hfl ->]|(n & Hn & ->)]).
  { by apply create_unreachable. }
  assert (Hu : untouched a (set_world w' a)) by done.
  destruct (looked_up _ _ _) as [[c|]|e] eqn:Hl.
  - apply wp_ret. apply (create_looked_up _ _ _ _ req key n); try done. unfold ap_db. by rewrite Hl.
  - eapply wp_mono; [apply wp_and; [apply create_fresh_law|apply create_fresh_later]|].
    intros r a' [H ?].
    apply (create_made _ _ _ _ req n _ (set_world w' a)); rewrite ?Hk; done.
  - apply (create_looked_up _ _ _ _ req key n); try done. unfold ap_db. by rewrite Hl.
Qed.
End Outcomes.

(** * Properties *)

Section Properties.
Context `{En : Env} `{St : !SecretStore} `{Ho : Host}.

(** C16: A request to create a cluster ends in one of the listed ways: refused
    with nothing changed, answered from the record of its idempotency key, or
    one new pending cluster with one run spawned for it under the credential
    named; a failure in between leaves the pending cluster without a run, or
    with its run but without the record of the answer. *)
Theorem create_route_outcomes owner rq body a :
  bypass_rls = false ->
  wp (create_route owner rq body) (create_outcome (ow_inner owner) rq body a) a.
Proof. intros Hb. by apply create_route_law. Qed.

(** C15: An accepted request can be repeated safely: until the time recorded
    with its key, the same body is answered with the same response and another
    body with a conflict, and neither touches the tables or spawns a run. *)
Theorem create_replayed owner rq body key a :
  bypass_rls = false -> rq_header rq IDEMPOTENCY_HEADER = Some key ->
  idempotency_of (ac_organization_id (ow_inner owner)) key (ap_db a) = None ->
  wp (create_route owner rq body) (fun r a1 =>
    match r with
    | Err _ => True
    | Ok response => exists row m,
        idempotency_of (ac_organization_id (ow_inner owner)) key (ap_db a1) = Some row /\
        ik_expires_at row = clock m + IDEMPOTENCY_TTL /\
        forall owner2 rq2 body2 a2,
          ac_organization_id (ow_inner owner2) = ac_organization_id (ow_inner owner) ->
          rq_header rq2 IDEMPOTENCY_HEADER = Some key ->
          is_ok (parse_body body2) = true ->
          idempotency_of (ac_organization_id (ow_inner owner)) key (ap_db a2) = Some row ->
          wp (create_route owner2 rq2 body2) (fun r2 a3 =>
            (exists n, (w_tick (ap_world a2) <= n <= w_tick (ap_world a3))%nat /\
               ik_expires_at row < clock n) \/
            untouched a2 a3 /\
            (r2 = (if String.eqb (sha256 body) (sha256 body2) then Ok response
                   else Err (Conflict "Idempotency-Key reused with a different request body")) \/
             faulty /\ r2 = Err (Database DbTransport))) a2
    end) a.
Proof.
  intros Hb Hk Hnone. eapply wp_mono; [by apply create_route_law|]. intros r a1 Hr.
  destruct r as [response|e]; [|done].
  assert (Hrec : exists d1 status out, recorded (ac_organization_id (ow_inner owner)) key (sha256 body)
    202 out d1 (ap_db a1) /\ idempotency_of (ac_organization_id (ow_inner owner)) key d1 = None /\
    response = mkResponse status out /\ status = 202).
  { inversion Hr as [| |req k n r a' Hp Hk' Hn Hl Hu|req n r a0 a' Hp Hu Hl Hf Hla]; subst.
    - assert (k = key) as -> by congruence. by rewrite Hnone in Hl.
    - rewrite Hk in Hf. inversion Hf as [c cred d1 a' Hc Hcred Hs Hrec| | |]; subst.
      eexists _, _, _. split; [exact Hrec|]. split; [|done].
      destruct Hc as (_ & _ & _ & _ & e & -> & _). destruct Hu as [Hd _]. rewrite Hd in *.
      unfold idempotency_of in *. by destruct (ap_db a). }
  destruct Hrec as (d1 & status & out & Hrec & Hn1 & -> & ->).
  destruct (recorded_row _ _ _ _ _ _ _ Hn1 Hrec) as [m Hrow].
  eexists _, m. split; [exact Hrow|]. split; [done|].
  intros owner2 rq2 body2 a2 Hown Hk2 Hp2 Hrow2.
  eapply wp_mono; [by apply create_route_law|]. cbn [ik_expires_at].
  intros r2 a3 [e a3' He Hu|a3' Hfl Hu|req k n r a3' Hp Hk' Hn Hl Hu|req n r a0 a3' Hp Hu Hl Hf Hla].
  - by rewrite He in Hp2.
  - right. split; [done|]. by right.
  - assert (k = key) as -> by congruence. rewrite Hown, Hrow2 in Hl. simpl in Hl.
    destruct (Z.ltb_spec (clock m + IDEMPOTENCY_TTL) (clock n)); [done|].
    right. split; [done|]. left. destruct (String.eqb _ _); by rewrite Hl.
  - rewrite Hk2, Hown, Hrow2 in Hl. destruct Hl as [Hn Hl]. simpl in Hl.
    destruct (Z.ltb_spec (clock m + IDEMPOTENCY_TTL) (clock n)); [|by destruct (String.eqb _ _)].
    left. exists n. unfold later in Hla. split; [lia|done].
Qed.
End Properties.

Definition keyed_request : Request := headers [("idempotency-key", "k-1")]%string.
Definition demo_create : Request -> string -> M (@App demo_env) PlatformError Response :=
  @create_route demo_env demo_host demo_owner.

Lemma create_route_outcomes_witness :
  let a := demo_app demo_db in
  (demo_create keyed_request "api" a).1 = Ok (mkResponse 202 "1004") /\
  @create_outcome demo_env demo_host (ow_inner demo_owner) keyed_request "api" a
    (demo_create keyed_request "api" a).1 (demo_create keyed_request "api" a).2.
Proof.
  split; [vm_compute; reflexivity|].
  exact (@create_route_outcomes demo_env demo_host demo_owner keyed_request "api"
    (demo_app demo_db) eq_refl).
Defined.

(** The second request, in the tables the first left, gets the first answer. *)
Lemma create_replayed_witness :
  let a1 := (demo_create keyed_request "api" (demo_app demo_db)).2 in
  (demo_create keyed_request "api" a1).1 = Ok (mkResponse 202 "1004").
Proof.
  pose proof (@create_replayed demo_env demo_host demo_owner keyed_request "api" "k-1"
    (demo_app demo_db) eq_refl eq_refl ltac:(vm_compute; reflexivity)) as H.
  unfold wp in H. change (@create_route demo_env demo_host demo_owner) with demo_create in H.
  cbv zeta. set (a1 := (demo_create keyed_request "api" (demo_app demo_db)).2) in *.
  assert (Hr : (demo_create keyed_request "api" (demo_app demo_db)).1 = Ok (mkResponse 202 "1004"))
    by (vm_compute; reflexivity).
  rewrite Hr in H. destruct H as (row & m & Hrow & Hexp & Hall).
  specialize (Hall demo_owner keyed_request "api"%string a1 eq_refl eq_refl eq_refl Hrow).
  destruct Hall as [(n & [_ Hn] & Hlt)|[_ [Hok|[[n Hn] _]]]]; [exfalso| |discriminate Hn].
  - rewrite Hexp in Hlt. cbn [clock demo_env demo_env_as] in Hlt. unfold IDEMPOTENCY_TTL in Hlt.
    assert (Ht : (w_tick (ap_world (demo_create keyed_request "api" a1).2) <= 100)%nat)
      by (vm_compute; lia).
    change (@create_route demo_env demo_host demo_owner) with demo_create in Hn. lia.
  - change (@create_route demo_env demo_host demo_owner) with demo_create in Hok. exact Hok.
Defined.

(** A deleted credential passes the foreign key: the request fails, and leaves
    a pending cluster that no run will ever provision. *)
Example orphaned_cluster :
  let deleted := (@soft_delete_credential demo_env 1%N 10%N demo_audit (demo_world demo_db)).2 in
  let '(r, a1) := demo_create keyed_request "api" (demo_app (w_db deleted)) in
  r = Err (@credential_not_found demo_env 10%N) /\ ap_jobs a1 = [] /\
  map (fun c => (cl_name c, cl_status c)) (db_clusters (ap_db a1)) =
    [("web", Ready); ("web", Ready); ("api", Pending)]%string.
Proof. vm_compute. auto. Qed.
