(* ===== verification/RouteLaws.v ===== *)
(** What the routes under [/v1/clusters/{id}] guarantee
    ([crates/api/src/clusters.rs]): kubeconfig downloads, destruction, scaling,
    add-ons and the event stream. *)

From stdpp Require Import base gmap strings list pretty.
From S2P Require Import Prelude Errors Integrations Events Schema Database Tables Secrets Safety.
From S2P Require Import Cluster Addons Workflows Runner Runs Credentials Membership Sessions Access.
From S2P Require Import RateLimit Api ClusterRoutes CreateRoute.

(** * Kubeconfig *)

Section Kubeconfig.
Context `{En : Env} `{St : !SecretStore} `{Ho : Host} `{HSt : !SecretStoreLaws St}.
Context (Hb : bypass_rls = false).

(** The audit entry of one download. *)
Definition retrieval_entry (actor : Actor) (rq : Request) (id : Uuid) (log : list AuditEntry)
    (e : AuditEntry) : Prop :=
  let org := ac_organization_id actor in
  let ctx := from_actor_and_headers actor rq in
  au_organization_id e = org /\ au_action e = "kubeconfig.retrieved"%string /\
  au_resource_type e = "cluster"%string /\ au_resource_id e = uuid_str id /\
  au_decision e = "allowed"%string /\ au_actor_user_id e = ac_actor_user_id ctx /\
  au_request_id e = ac_request_id ctx /\ au_user_agent e = ac_user_agent ctx /\
  au_prev_hash e = au_hash <$> audit_tail org log /\
  au_hash e = sha256 (audit_hash_input (au_prev_hash e) org (au_action e) (au_resource_type e)
                        (au_resource_id e)).

Lemma append_explicit_law g d org action resource_type resource_id decision :
  tx_wp g d (append_explicit org action resource_type resource_id decision) (fun r d' =>
    match r with
    | Ok id => d' = set_audit (db_audit d ++ [audit_entry g id org action resource_type
                      (default EmptyString resource_id) decision (db_audit d)]) d
    | Err e => d' = d /\ faulty /\ e = Database DbTransport
    end).
Proof.
  apply tx_map_err, tx_stmt; [by split; auto|]. intros w <- <-. cbv beta zeta. cbn [fst snd].
  split; [|by destruct w]. destruct w; constructor; simpl; done || lia.
Qed.

Lemma record_kubeconfig_audit_law d actor rq id :
  db_wp d (record_kubeconfig_audit actor rq id) (fun r d' =>
    match r with
    | Ok _ => exists e, d' = set_audit (db_audit d ++ [e]) d /\
        retrieval_entry actor rq id (db_audit d) e
    | Err e => d' = d /\ faulty /\ e = Database DbTransport
    end).
Proof.
  intros g. unfold record_kubeconfig_audit. apply tx_bind, db_tenant_tx; [by split; auto|].
  intros now. tx_call append_explicit_law. intros [eid|e] d'; [|by intros (_ & H)].
  intros ->. apply tx_ret. eexists. split; [done|].
  unfold retrieval_entry. simpl.
  destruct (bool_decide (ac_user_id actor = Uuid_nil)), (rq_header rq "x-request-id"),
    (rq_header rq "user-agent"); repeat split; done.
Qed.

Lemma fetch_kubeconfig_any d org id :
  db_wp d (fetch_kubeconfig org id) (fun r d' => d' = d /\
    forall ref kubeconfig, kubeconfig_available org id d ref kubeconfig ->
      r = Ok kubeconfig \/ is_ok r = false).
Proof.
  intros g w Hw Hg. pose proof (fetch_kubeconfig_reads Hb _ org id g w Hw Hg) as [Hf Hd].
  split; [exact Hf|]. split; [exact Hd|]. intros ref kc Hk.
  destruct (fetch_kubeconfig_law Hb _ _ id ref kc Hk g w Hw Hg) as [_ [_ H]].
  destruct H as [H|[[_ H]|(e & _ & H)]]; rewrite H; auto.
Qed.

(** The limiter's answer for a request. *)
Definition limited (actor : Actor) (a : App) : bool * RateLimiter :=
  check_at instant_floor (ac_user_id actor) (instant_now (w_tick (ap_world a))) (ap_limiter a).

Definition download_outcome (actor : Actor) (rq : Request) (id : Uuid) (a : App)
    (r : result PlatformError Response) (a' : App) : Prop :=
  ap_jobs a' = ap_jobs a /\ ap_limiter a' = (limited actor a).2 /\
  match r with
  | Ok response =>
      (limited actor a).1 = true /\ rs_status response = 200 /\
      (exists e, ap_db a' = set_audit (db_audit (ap_db a) ++ [e]) (ap_db a) /\
         retrieval_entry actor rq id (db_audit (ap_db a)) e) /\
      forall ref kubeconfig,
        kubeconfig_available (ac_organization_id actor) id (ap_db a) ref kubeconfig ->
        rs_body response = kubeconfig
  | Err e => ap_db a' = ap_db a /\ ((limited actor a).1 = false ->
      e = Forbidden "kubeconfig downloads are rate-limited to 5 per minute")
  end.

Lemma download_kubeconfig_law actor rq id a :
  wp (download_kubeconfig actor rq id) (download_outcome actor rq id a) a.
Proof.
  unfold download_kubeconfig. apply wp_bind. unfold wp at 1, check_limit. fold (limited actor a).
  destruct (limited actor a) as [ok rl] eqn:Hl. cbn [fst snd].
  assert (Hdb : forall w, w_db (tick w) = w_db w) by by intros [].
  destruct ok; simpl.
  2: { apply wp_throw. split; [done|]. rewrite Hl. split; [done|].
       unfold ap_db. cbn [ap_world]. rewrite Hdb. by split. }
  apply wp_bind. eapply wp_in_db; [apply fetch_kubeconfig_any|].
  unfold ap_db. cbn [ap_world]. rewrite !Hdb.
  intros [kc|e] w1 [Hd1 Hkc] _.
  2: { split; [done|]. rewrite Hl. split; [done|]. by split. }
  apply wp_bind. eapply wp_in_db; [apply record_kubeconfig_audit_law|].
  unfold ap_db. cbn [ap_world set_world]. rewrite Hd1.
  intros [[]|e] w2 H2 _.
  - apply wp_ret. split; [done|]. rewrite Hl. split; [done|]. split; [done|]. split; [done|].
    split; [done|]. intros ref kubeconfig Hk. simpl.
    by destruct (Hkc ref kubeconfig Hk) as [[= ->]|].
  - split; [done|]. rewrite Hl. split; [done|]. split; [by destruct H2|done].
Qed.
End Kubeconfig.

(** * Destruction and scaling *)

Section Runs.
Context `{En : Env} `{St : !SecretStore} `{Ho : Host} (Hb : bypass_rls = false).

Definition live_clusters (org id : Uuid) (d : DB) : list Cluster :=
  List.filter (fun c => bool_decide (cl_organization_id c = org) && live_cluster id c) (db_clusters d).

(** Why a route that looks up the cluster and its credential gave up. *)
Definition not_runnable (org id : Uuid) (d : DB) (e : PlatformError) : Prop :=
  e = cluster_not_found id /\ live_clusters org id d = [] \/
  (exists c l, live_clusters org id d = c :: l /\
     credential_of org (cl_credential_id c) d = None /\
     e = credential_not_found (cl_credential_id c)) \/
  faulty /\ e = Database DbTransport.

Definition destroy_outcome (org id : Uuid) (a : App) (r : result PlatformError Z) (a' : App) : Prop :=
  ap_db a' = ap_db a /\
  match r with
  | Ok status => status = 202 /\ exists c l cred, live_clusters org id (ap_db a) = c :: l /\
      credential_of org (cl_credential_id c) (ap_db a) = Some cred /\
      spawned (JDestroy org (secret_ref cred) id) a a'
  | Err e => ap_jobs a' = ap_jobs a /\ not_runnable org id (ap_db a) e
  end.

Lemma destroy_route_law owner id a :
  wp (destroy_route owner id) (destroy_outcome (ac_organization_id (ow_inner owner)) id a) a.
Proof.
  unfold destroy_route. apply wp_bind.
  eapply wp_in_db; [by apply get_cluster_law|].
  intros [c|e] w1 [Hd1 H1] _.
  2: { split; [exact Hd1|]. split; [done|]. destruct H1 as [H1|H1]; [left; exact H1|right; right; exact H1]. }
  destruct H1 as [l Hl]. apply wp_bind. eapply wp_in_db; [by apply get_credential_law|].
  rewrite ap_db_set, Hd1. intros [cred|e] w2 [Hd2 H2] _.
  - apply wp_bind, wp_spawn, wp_ret. split; [exact Hd2|]. split; [done|]. by exists c, l, cred.
  - split; [exact Hd2|]. split; [done|].
    destruct H2 as [[-> Hn]|H2]; [right; left|right; right; exact H2].
    by exists c, l.
Qed.

(** The new worker count and the run that brings it about. *)
Definition scaled (org id : Uuid) (n : Z) (d d' : DB) : Prop :=
  exists now, db_clusters d' = update_rows (own_cluster org id)
    (fun c => cluster_touch now c (with_worker_count n c)) (db_clusters d).

Lemma update_worker_count_law d org id n audit :
  db_wp d (update_worker_count org id n audit) (fun r d' =>
    match r with Ok _ => scaled org id n d d' | Err _ => d' = d end).
Proof.
  intros g. unfold update_worker_count. apply tx_bind, db_tenant_tx; [done|]. intros now.
  apply tx_map_err, tx_update_chk; [done|done|]. intros _ t. cbn [result_map_err].
  destruct (update_hits _ _ _ _) as [|c l] eqn:E.
  - apply tx_throw. by apply update_nothing.
  - apply tx_ret. exists now. by rewrite clusters_of_update.
Qed.

(** Rust's types bound the counts. *)
Definition i16 (x : Z) : Prop := i16_min <= x <= i16_max.

(** How many workers a run adds or removes. *)
Definition job_count (j : Job) : option (bool * nat) :=
  match j with
  | JScaleOut _ _ _ n _ _ _ _ _ _ => Some (true, n)
  | JScaleIn _ _ _ _ n => Some (false, n)
  | _ => None
  end.

Lemma spawn_scale_law org ref c id delta (Q : result PlatformError unit -> App -> Prop) a :
  i16 delta -> delta <> 0 -> delta <> i16_min ->
  (forall job, job_count job = Some (0 <? delta, Z.to_nat (Z.abs delta)) ->
     Q (Ok tt) (mkApp (ap_world a) (ap_limiter a) (ap_jobs a ++ [job]) (ap_nicknames a))) ->
  wp (spawn_scale org ref c id delta) Q a.
Proof.
  unfold i16, spawn_scale, i16_neg, i16_as_usize, i16_min, i16_max. intros Hd H0 Hmin HQ.
  destruct (Z.ltb_spec 0 delta); apply wp_spawn, HQ; cbn [job_count].
  - rewrite Z.mod_small by lia. by rewrite Z.abs_eq by lia.
  - destruct (Z.eqb_spec delta (-32768)); [lia|]. rewrite Z.mod_small by lia.
    by rewrite Z.abs_neq by lia.
Qed.

Definition scale_outcome (org id : Uuid) (delta : Z) (a : App)
    (r : result PlatformError (Z * ClusterView)) (a' : App) : Prop :=
  match r with
  | Ok (200, view) => untouched a a' /\ delta = 0 /\
      exists c l, live_clusters org id (ap_db a) = c :: l /\ cl_status c = Ready /\ view = view_of c
  | Ok (status, view) => status = 202 /\
      exists c l cred job, live_clusters org id (ap_db a) = c :: l /\ cl_status c = Ready /\
        credential_of org (cl_credential_id c) (ap_db a) = Some cred /\
        1 <= cl_worker_count c + delta <= 10 /\
        scaled org id (cl_worker_count c + delta) (ap_db a) (ap_db a') /\
        spawned job a a' /\ job_count job = Some (0 <? delta, Z.to_nat (Z.abs delta)) /\
        vw_worker_count view = cl_worker_count c + delta /\ vw_status view = Scaling
  | Err e => untouched a a'
  end.

Lemma scale_workers_law owner rq id delta a :
  i16 delta -> Forall (fun c => i16 (cl_worker_count c)) (db_clusters (ap_db a)) ->
  wp (scale_workers owner rq id delta)
    (scale_outcome (ac_organization_id (ow_inner owner)) id delta a) a.
Proof.
  intros Hdelta Hi16. unfold scale_workers. apply wp_bind.
  eapply wp_in_db; [by apply get_cluster_law|]. intros [c|e] w1 [Hd1 H1] _; [|by split].
  destruct H1 as [l Hl].
  assert (Hc : i16 (cl_worker_count c)).
  { rewrite Forall_forall in Hi16. apply Hi16, list_elem_of_In.
    assert (Hin : In c (c :: l)) by by left. rewrite <- Hl in Hin.
    apply filter_In in Hin as [Hin _]. exact Hin. }
  destruct (bool_decide_reflect (cl_status c = Ready)) as [Hready|]; [|by apply wp_throw].
  cbn [negb]. destruct (Z.eqb_spec delta 0) as [->|H0].
  { apply wp_ret. split; [done|]. split; [done|]. by exists c, l. }
  set (n := i16_saturating_add _ _).
  destruct (Z.leb_spec MIN_WORKER_COUNT n) as [Hn1|]; [|by apply wp_throw].
  destruct (Z.leb_spec n MAX_WORKER_COUNT) as [Hn2|]; [|by apply wp_throw]. cbn [negb andb].
  unfold MIN_WORKER_COUNT, MAX_WORKER_COUNT in *.
  assert (Hn : n = cl_worker_count c + delta /\ delta <> i16_min).
  { unfold n, i16_saturating_add, i16, i16_min, i16_max in *. lia. }
  destruct Hn as [Hn Hmin]. rewrite Hn in *. clear n Hn.
  apply wp_bind. eapply wp_in_db; [by apply get_credential_law|].
  rewrite ap_db_set, Hd1. intros [cred|e] w2 [Hd2 H2] _; [|by split].
  apply wp_bind. eapply wp_in_db; [by apply update_worker_count_law|].
  rewrite ap_db_set, Hd2. intros [[]|e] w3 H3 _; [|by split].
  apply wp_bind, spawn_scale_law; [done..|]. intros job Hjob. apply wp_ret. split; [done|].
  exists c, l, cred, job. split; [done|]. split; [done|]. split; [done|]. split; [lia|].
  split; [exact H3|]. by split_and!.
Qed.
End Runs.

(** * Add-ons *)

Section Addons.
Context `{En : Env} `{St : !SecretStore} `{Ho : Host} `{HSt : !SecretStoreLaws St}.
Context (Hb : bypass_rls = false).

(** The add-on rows a look-up by id, or by cluster and slug, finds. *)
Definition addon_at (org id : Uuid) (d : DB) : option ClusterAddon :=
  head (List.filter (fun a => bool_decide (ad_organization_id a = org)
    && (bool_decide (ad_id a = id) && is_none (ad_deleted_at a))) (db_addons d)).
Definition addon_on (org cluster_id : Uuid) (slug : string) (d : DB) : option ClusterAddon :=
  head (List.filter (fun a => bool_decide (ad_organization_id a = org)
    && live_addon cluster_id slug a) (db_addons d)).

Lemma get_by_id_law d org id :
  db_wp d (get_by_id org id) (fun r d' => d' = d /\
    match r with Ok found => found = addon_at org id d | Err e => faulty end).
Proof.
  intros g. unfold get_by_id. apply tx_bind, db_tenant_tx; [by split|]. intros now.
  apply tx_map_err, tx_select; [by split|]. cbn [result_map_err]. apply tx_ret. split; [done|].
  unfold addon_at. rewrite (filter_ext_list _ (fun a => bool_decide (ad_organization_id a = org)
    && (bool_decide (ad_id a = id) && is_none (ad_deleted_at a)))); [by destruct (List.filter _ _)|].
  intros a. by rewrite visible_own.
Qed.

(** The row an install request works on: the live one, as it is, or a new one
    in the requested version. *)
Definition addon_requested (org cluster_id : Uuid) (spec : AddonSpec) (version : string)
    (d : DB) (row : ClusterAddon) (d' : DB) : Prop :=
  addon_on org cluster_id (sp_slug spec) d = Some row /\ d' = d \/
  addon_on org cluster_id (sp_slug spec) d = None /\
    (exists id now, row = mkAddon id org cluster_id (sp_slug spec) version (sp_release_name spec)
       APending None now now 1 None) /\
    exists es, d' = set_audit (db_audit d ++ es) (set_rows (db_addons d ++ [row]) d).

Lemma lookup_addon_spec slug spec : lookup_addon slug = Ok spec -> sp_slug spec = slug.
Proof.
  unfold lookup_addon. destruct (List.find _ _) as [s|] eqn:E; [|done]. intros [= ->].
  by apply find_some in E as [_ E%String.eqb_eq].
Qed.

Lemma request_install_law d org cluster_id new audit :
  db_wp d (request_install org cluster_id new audit) (fun r d' =>
    match r with
    | Ok row => String.eqb (trim (na_version new)) EmptyString = false /\
        exists spec, lookup_addon (na_addon new) = Ok spec /\
          addon_requested org cluster_id spec (na_version new) d row d'
    | Err _ => d' = d
    end).
Proof.
  intros g. unfold request_install. destruct (String.eqb _ _) eqn:Hv; [by apply tx_throw|].
  apply tx_bind, tx_lift. destruct (lookup_addon _) as [spec|e] eqn:Hs; [|done].
  unfold upsert. apply db_tenant_tx; [done|]. intros now.
  apply tx_bind, tx_map_err, tx_select; [done|]. cbn [result_map_err].
  rewrite (filter_ext_list _ (fun a => bool_decide (ad_organization_id a = org)
    && live_addon cluster_id (sp_slug spec) a)) by (intros; by rewrite visible_own).
  assert (Hon : addon_on org cluster_id (sp_slug spec) d = head (List.filter (fun a =>
    bool_decide (ad_organization_id a = org) && live_addon cluster_id (sp_slug spec) a)
      (db_addons d))) by done.
  change (rows d) with (db_addons d).
  destruct (List.filter _ (db_addons d)) as [|row l].
  - apply tx_bind, tx_now_v7. intros id. apply tx_map_err, tx_insert; [done|done|].
    intros _ t. cbn [result_map_err]. split; [done|]. exists spec. split; [done|]. right.
    split; [done|]. split; [by eexists _, _|]. eexists. by rewrite insert_db_plain.
  - apply tx_ret. split; [done|]. exists spec. split; [done|]. by left.
Qed.

(** Only the files and the clock change. *)
Lemma stage_kubeconfig_law (w : World) :
  wp (stage_kubeconfig) (fun r w' => w_db w' = w_db w /\
    match r with
    | Ok path => w_files w' = w_files w ++ [path]
    | Err e => w_files w' = w_files w
    end) w.
Proof.
  unfold stage_kubeconfig. apply wp_bind. unfold wp, now_v7. cbn [fst snd].
  destruct (fs_write_error _); simpl; by destruct w.
Qed.

Definition files (a : App) : list string := w_files (ap_world a).

Definition install_outcome_of (org cluster_id : Uuid) (req : InstallAddonRequest) (a : App)
    (r : result PlatformError (Z * AddonView)) (a' : App) : Prop :=
  match r with
  | Ok (status, view) => status = 202 /\
      exists c l spec row path, live_clusters org cluster_id (ap_db a) = c :: l /\
        cl_status c = Ready /\ lookup_addon (ir_addon req) = Ok spec /\
        addon_requested org cluster_id spec (ir_version req) (ap_db a) row (ap_db a') /\
        spawned (JInstallAddon org (ad_id row) (install_params spec row) path) a a' /\
        files a' = files a ++ [path] /\ view = addon_view row
  | Err e => ap_jobs a' = ap_jobs a /\ files a' = files a /\
      (ap_db a' = ap_db a \/ exists spec row, lookup_addon (ir_addon req) = Ok spec /\
         addon_requested org cluster_id spec (ir_version req) (ap_db a) row (ap_db a'))
  end.

Lemma addon_requested_slug org cluster_id spec version d row d' :
  addon_requested org cluster_id spec version d row d' -> ad_addon row = sp_slug spec.
Proof.
  intros [[H _]|[_ [(id & now & ->) _]]]; [|done].
  unfold addon_on in H. apply head_filter in H as [_ H].
  apply andb_true_iff in H as [_ H]. unfold live_addon in H.
  apply andb_true_iff in H as [H _]. apply andb_true_iff in H as [_ H].
  by apply String.eqb_eq.
Qed.

Lemma install_addon_route_law owner rq cluster_id req a :
  wp (install_addon_route owner rq cluster_id req)
    (install_outcome_of (ac_organization_id (ow_inner owner)) cluster_id req a) a.
Proof.
  unfold install_addon_route. apply wp_bind. eapply wp_in_db; [by apply get_cluster_law|].
  intros [c|e] w1 [Hd1 H1] Hf1; pose proof (frame_files _ _ Hf1) as F1;
    [|repeat split; by try left].
  destruct H1 as [l Hl].
  destruct (bool_decide_reflect (cl_status c = Ready)) as [Hready|];
    [|apply wp_throw; repeat split; by try left].
  apply wp_bind. eapply wp_in_db; [by apply request_install_law|]. rewrite ap_db_set, Hd1.
  intros [row|e] w2 H2 Hf2; pose proof (frame_files _ _ Hf2) as F2; simpl in F2; rewrite F1 in F2;
    [|repeat split; by try left].
  destruct H2 as (_ & spec & Hs & Hrow). apply wp_bind.
  eapply wp_in_db; [apply fetch_kubeconfig_reads; done|]. rewrite ap_db_set.
  intros [kc|e] w3 Hd3 Hf3; pose proof (frame_files _ _ Hf3) as F3; simpl in F3; rewrite F2 in F3.
  2: { split; [done|]. split; [done|]. right. exists spec, row. rewrite ap_db_set, Hd3. by split. }
  apply wp_bind, wp_in_world. eapply wp_mono; [apply stage_kubeconfig_law|].
  intros [path|e] w4 [Hd4 F4]; simpl in Hd4, F4; rewrite F3 in F4; rewrite Hd3 in Hd4.
  2: { split; [done|]. split; [done|]. right. exists spec, row. rewrite ap_db_set, Hd4. by split. }
  rewrite (addon_requested_slug _ _ _ _ _ _ _ Hrow), (lookup_addon_spec _ _ Hs), Hs.
  apply wp_bind, wp_lift, wp_bind, wp_spawn, wp_ret. split; [done|].
  exists c, l, spec, row, path. split; [done|]. split; [done|]. split; [done|].
  split; [|done]. unfold ap_db at 2. cbn [ap_world set_world]. by rewrite Hd4.
Qed.

(** The add-on may be uninstalled. *)
Definition removable (cluster_id : Uuid) (addon : ClusterAddon) : Prop :=
  ad_cluster_id addon = cluster_id /\ (ad_status addon = AReady \/ ad_status addon = AFailed).

Definition uninstall_outcome_of (org cluster_id addon_id : Uuid) (a : App)
    (r : result PlatformError (Z * AddonView)) (a' : App) : Prop :=
  match r with
  | Ok (status, view) => status = 202 /\
      exists addon spec path, addon_at org addon_id (ap_db a) = Some addon /\
        removable cluster_id addon /\ lookup_addon (ad_addon addon) = Ok spec /\
        addon_settled org addon_id AUninstalling None (ap_db a) (ap_db a') /\
        spawned (JUninstallAddon org addon_id (ad_helm_release addon) (sp_namespace spec) path) a a' /\
        files a' = files a ++ [path] /\ va_status view = AUninstalling
  | Err e => ap_jobs a' = ap_jobs a /\ files a' = files a /\
      (ap_db a' = ap_db a \/
       (exists addon, addon_at org addon_id (ap_db a) = Some addon /\ removable cluster_id addon) /\
       addon_settled org addon_id AUninstalling None (ap_db a) (ap_db a'))
  end.

Lemma uninstall_addon_law owner rq cluster_id addon_id a :
  wp (uninstall_addon owner rq cluster_id addon_id)
    (uninstall_outcome_of (ac_organization_id (ow_inner owner)) cluster_id addon_id a) a.
Proof.
  unfold uninstall_addon. apply wp_bind. eapply wp_in_db; [by apply get_by_id_law|].
  intros [found|e] w1 [Hd1 H1] Hf1; pose proof (frame_files _ _ Hf1) as F1;
    [|repeat split; by try left].
  destruct found as [addon|]; [|apply wp_throw; repeat split; by try left].
  destruct (bool_decide_reflect (ad_cluster_id addon = cluster_id)) as [Hc|];
    [|apply wp_throw; repeat split; by try left]. cbn [negb].
  destruct (bool_decide (ad_status addon = AReady) || bool_decide (ad_status addon = AFailed)) eqn:Hs;
    [|apply wp_throw; repeat split; by try left]. cbn [negb].
  assert (Hrem : removable cluster_id addon).
  { split; [done|]. apply orb_true_iff in Hs as [Hs|Hs]; apply bool_decide_eq_true in Hs; auto. }
  apply wp_bind. eapply wp_in_db; [by apply update_addon_status_law|]. rewrite ap_db_set, Hd1.
  intros [[]|e] w2 H2 Hf2; pose proof (frame_files _ _ Hf2) as F2; simpl in F2; rewrite F1 in F2.
  2: { split; [done|]. split; [done|]. left. by destruct H2. }
  assert (Hgone : forall a' (e : PlatformError), ap_jobs a' = ap_jobs a -> files a' = files a ->
    ap_db a' = w_db w2 ->
    uninstall_outcome_of (ac_organization_id (ow_inner owner)) cluster_id addon_id a (Err e) a').
  { intros a' e Hj Hfi Hd. split; [done|]. split; [done|]. right. rewrite Hd. split; [|done].
    by exists addon. }
  apply wp_bind, wp_lift. destruct (lookup_addon _) as [spec|e] eqn:Hspec; [|by apply Hgone].
  apply wp_bind. eapply wp_in_db; [apply fetch_kubeconfig_reads; done|]. rewrite ap_db_set.
  intros [kc|e] w3 Hd3 Hf3; pose proof (frame_files _ _ Hf3) as F3; simpl in F3; rewrite F2 in F3;
    [|by apply Hgone].
  apply wp_bind, wp_in_world. eapply wp_mono; [apply stage_kubeconfig_law|].
  intros [path|e] w4 [Hd4 F4]; simpl in Hd4, F4; rewrite F3 in F4; rewrite Hd3 in Hd4;
    [|by apply Hgone].
  apply wp_bind, wp_spawn, wp_ret. split; [done|].
  exists addon, spec, path. split; [done|]. split; [done|]. split; [done|].
  split; [|done]. unfold ap_db at 2. cbn [ap_world set_world]. by rewrite Hd4.
Qed.
End Addons.

(** * Events *)

Section Events.
Context `{Ho : Host}.

Lemma take_until_terminal_open events :
  forallb (fun e => negb (is_terminal e)) events = true ->
  take_until_terminal false events = (events, false).
Proof.
  induction events as [|e l IH]; [done|]. simpl. intros [He Hl]%andb_true_iff.
  apply negb_true_iff in He. by rewrite He, IH.
Qed.

Lemma take_until_terminal_end before last after :
  forallb (fun e => negb (is_terminal e)) before = true -> is_terminal last = true ->
  take_until_terminal false (before ++ last :: after) =
    (before ++ [last], match after with [] => false | _ => true end).
Proof.
  intros Hb Hl. induction before as [|e l IH]; simpl.
  - rewrite Hl. by destruct after.
  - simpl in Hb. apply andb_true_iff in Hb as [He Hb]. apply negb_true_iff in He.
    by rewrite He, IH.
Qed.
End Events.

(** * Properties *)

Section Properties.
Context `{En : Env} `{St : !SecretStore} `{Ho : Host} `{HSt : !SecretStoreLaws St}.

(** C17: No kubeconfig leaves the API unrecorded: a download is answered only
    when the limiter of its user admits it, with the stored text, and after an
    entry that names the actor, the request and the cluster was linked to the
    tenant's audit chain; a refused or failed one changes no table. *)
Theorem kubeconfig_download_audited actor rq id a :
  bypass_rls = false ->
  wp (download_kubeconfig actor rq id) (download_outcome actor rq id a) a.
Proof. intros Hb. by apply download_kubeconfig_law. Qed.

(** C18: Scaling keeps the worker count of a ready cluster between 1 and 10: the
    new count and the size of the spawned run are the exact sum and difference,
    although the counts are 16-bit numbers added with saturation, and every
    other request leaves the tables and the runs as they were. *)
Theorem scale_workers_bounded owner rq id delta a :
  bypass_rls = false -> i16 delta -> Forall (fun c => i16 (cl_worker_count c)) (db_clusters (ap_db a)) ->
  wp (scale_workers owner rq id delta)
    (scale_outcome (ac_organization_id (ow_inner owner)) id delta a) a.
Proof. intros Hb. by apply scale_workers_law. Qed.

(** A destruction is accepted exactly when the tenant has the cluster and
    its credential, both live; it then spawns one run and writes nothing.  Once
    the credential was deleted no destruction of its clusters is accepted. *)
Theorem destruction_needs_credential owner audit cred id a :
  bypass_rls = false ->
  let org := ac_organization_id (ow_inner owner) in
  wp (destroy_route owner id) (destroy_outcome org id a) a /\
  ((forall c l, live_clusters org id (ap_db a) = c :: l -> cl_credential_id c = cred) ->
   wp (in_world (delete_credential org cred audit)) (fun r a1 =>
     match r with
     | Ok _ => wp (destroy_route owner id) (fun r2 a2 => is_ok r2 = false /\ untouched a1 a2) a1
     | Err _ => untouched a a1
     end) a).
Proof.
  intros Hb org. split; [by apply destroy_route_law|]. intros Hc.
  eapply wp_in_db; [by apply delete_credential_law|]. intros [[]|e] w Hw _; [|by split].
  destruct Hw as [Hnone Hcl]. eapply wp_mono; [by apply destroy_route_law|].
  intros [s|e] a2 [Hd H]; [exfalso|by destruct H].
  destruct H as (_ & c & l & cr & Hl & Hcr & _). fold org in Hl, Hcr.
  unfold live_clusters in *. rewrite ap_db_set, Hcl in Hl. rewrite ap_db_set, (Hc c l Hl) in Hcr.
  congruence.
Qed.

(** Installing and uninstalling an add-on: what was looked up, the row
    written, the run spawned with its staged kubeconfig, or how far a failed
    request got.  An add-on left [uninstalling] is never removed by a later
    request. *)
Theorem addon_routes_correct owner rq cluster_id addon_id req a :
  bypass_rls = false ->
  let org := ac_organization_id (ow_inner owner) in
  wp (install_addon_route owner rq cluster_id req) (install_outcome_of org cluster_id req a) a /\
  wp (uninstall_addon owner rq cluster_id addon_id) (fun r a' =>
    uninstall_outcome_of org cluster_id addon_id a r a' /\
    forall addon, addon_at org addon_id (ap_db a) = Some addon -> ad_status addon = AUninstalling ->
      is_ok r = false /\ untouched a a') a.
Proof.
  intros Hb org. split; [by apply install_addon_route_law|].
  eapply wp_mono; [by apply uninstall_addon_law|]. intros r a' H. split; [exact H|].
  intros addon Hat Hst. destruct r as [[status view]|e].
  - destruct H as (_ & x & spec & path & Hx & [_ Hrem] & _). fold org in Hx.
    rewrite Hat in Hx. injection Hx as <-. rewrite Hst in Hrem. by destruct Hrem.
  - destruct H as (Hj & _ & [Hd|[(x & Hx & [_ Hrem]) _]]); [done|]. fold org in Hx.
    rewrite Hat in Hx. injection Hx as <-. rewrite Hst in Hrem. by destruct Hrem.
Qed.

(** The event stream starts with [connected], carries every event up to the
    first terminal one and none after it; it is closed by the next event, not
    by the terminal one itself. *)
Theorem sse_stream_spec before last after :
  forallb (fun i => negb (is_terminal (received_event i))) before = true ->
  is_terminal (received_event last) = true ->
  sse_stream before = (mkSse "connected" "{}" :: map (fun i => sse_of (received_event i)) before, false) /\
  sse_stream (before ++ last :: after) =
    (mkSse "connected" "{}" :: map (fun i => sse_of (received_event i)) (before ++ [last]),
     match after with [] => false | _ => true end).
Proof.
  intros Hbe Hl. unfold sse_stream.
  assert (Hm : forallb (fun e => negb (is_terminal e)) (map received_event before) = true).
  { revert Hbe. rewrite !forallb_forall. intros H e (i & <- & Hi)%in_map_iff. by apply H. }
  split.
  - by rewrite take_until_terminal_open, map_map.
  - rewrite map_app. simpl. rewrite take_until_terminal_end by done.
    rewrite map_app, !map_map, map_app. simpl. by destruct after.
Qed.
End Properties.

(** * Concrete runs *)

Definition demo_request : Request := headers [("x-request-id", "r-9"); ("user-agent", "curl")]%string.
Definition demo_actor : Actor := mkActor 5%N 50%N 1%N.

Lemma kubeconfig_download_audited_witness :
  let a' := (@download_kubeconfig demo_env demo_store demo_host demo_actor demo_request 30%N
               (demo_app demo_db)).2 in
  map au_action (db_audit (ap_db a')) = ["kubeconfig.retrieved"]%string /\
  map au_actor_user_id (db_audit (ap_db a')) = [Some 5%N].
Proof.
  pose proof (@kubeconfig_download_audited demo_env demo_store demo_host (pgcrypto_laws "kek")
    demo_actor demo_request 30%N (demo_app demo_db) eq_refl) as H.
  destruct H as (_ & _ & H).
  assert (Hr : (@download_kubeconfig demo_env demo_store demo_host demo_actor demo_request 30%N
    (demo_app demo_db)).1 = Ok (mkResponse 200 "kubeconfig")) by (vm_compute; reflexivity).
  rewrite Hr in H. destruct H as (_ & _ & (e & Hd & He) & _).
  cbv zeta. rewrite Hd. destruct He as (_ & Ha & _ & _ & _ & Hu & _).
  cbn. rewrite Ha, Hu. split; reflexivity.
Defined.

Lemma scale_workers_bounded_witness :
  exists v, (@scale_workers demo_env demo_host demo_owner demo_request 30%N 3 (demo_app demo_db)).1
    = Ok (202, v) /\ vw_worker_count v = 4.
Proof.
  pose proof (@scale_workers_bounded demo_env demo_host demo_owner demo_request 30%N 3
    (demo_app demo_db) eq_refl ltac:(vm_compute; split; discriminate)
    ltac:(repeat constructor; vm_compute; discriminate)) as H. unfold wp in H.
  destruct (scale_workers _ _ _ _ _) as [r a'] eqn:E. cbn [fst snd] in *.
  assert (Hr : exists v, r = Ok (202, v)).
  { eexists. change r with (r, a').1. rewrite <- E. vm_compute. reflexivity. }
  destruct Hr as [v ->]. exists v. split; [reflexivity|].
  destruct H as (_ & c & l & cred & job & Hl & _ & _ & _ & _ & _ & _ & Hv & _).
  assert (Hc : cl_worker_count c = 1).
  { vm_compute in Hl. injection Hl as <- _. reflexivity. }
  rewrite Hv, Hc. reflexivity.
Defined.

Lemma destruction_needs_credential_witness :
  let a1 := (@in_world demo_env _ _ (@delete_credential demo_env demo_store 1%N 10%N demo_audit)
               (demo_app demo_db)) in
  a1.1 = Ok tt /\ is_ok (@destroy_route demo_env demo_owner 30%N a1.2).1 = false.
Proof.
  split; [vm_compute; reflexivity|].
  destruct (@destruction_needs_credential demo_env demo_store (pgcrypto_laws "kek") demo_owner
    demo_audit 10%N 30%N (demo_app demo_db) eq_refl) as [_ H].
  specialize (H ltac:(intros c l Hl; vm_compute in Hl; by injection Hl as <- _)).
  unfold wp in H. change (ac_organization_id (ow_inner demo_owner)) with 1%N in H.
  destruct (in_world _ _) as [r a1] eqn:E. cbn [fst snd] in *.
  assert (Hr : r = Ok tt).
  { change r with (r, a1).1. rewrite <- E. vm_compute. reflexivity. }
  subst r. by destruct H.
Defined.

Lemma addon_routes_correct_witness :
  let a' := (@install_addon_route demo_env demo_store demo_owner demo_request 30%N
               (mkInstallRequest "cert-manager" "v1.14.4") (demo_app demo_db)).2 in
  length (ap_jobs a') = 1%nat /\ length (files a') = 1%nat.
Proof.
  destruct (@addon_routes_correct demo_env demo_store (pgcrypto_laws "kek") demo_owner demo_request
    30%N 70%N (mkInstallRequest "cert-manager" "v1.14.4") (demo_app demo_db) eq_refl) as [H _].
  unfold wp in H. cbv zeta. destruct (install_addon_route _ _ _ _ _) as [r a'] eqn:E. cbn [fst snd] in *.
  assert (Hr : exists v, r = Ok (202, v)).
  { eexists. change r with (r, a').1. rewrite <- E. vm_compute. reflexivity. }
  destruct Hr as [v ->].
  destruct H as (_ & c & l & spec & row & path & _ & _ & _ & _ & Hj & Hf & _).
  rewrite Hj, Hf. split; reflexivity.
Defined.

Lemma sse_stream_spec_witness :
  @sse_stream demo_host [Event (Step "queued"); Event (Terminal "ready" None); Lagged 3] =
    ([mkSse "connected" "{}"; mkSse "step" "queued"; mkSse "terminal" "ready"], true).
Proof.
  exact (proj2 (@sse_stream_spec demo_host [Event (Step "queued")] (Event (Terminal "ready" None))
    [Lagged 3] eq_refl eq_refl)).
Defined.
