(* ===== verification/Stripe.v ===== *)
(** The Stripe client ([crates/integrations/src/stripe.rs]): the form of a
    checkout request, and the verification of a webhook signature, which is the
    only thing between the internet and the plan of an organisation.  HMAC-SHA256
    is a parameter, as a function to byte strings. *)

From Stdlib Require Import Ascii.
From stdpp Require Import base strings list pretty.
From S2P Require Import Prelude Errors.

(** Seconds. *)
Definition STRIPE_TIMESTAMP_TOLERANCE : Z := 5 * 60.

Inductive StripeError :=
| StripeTransport (msg : string)
| StripeStatus (status : Z) (body : string).

Inductive SignatureError := Malformed | Timestamp | Mismatch.
#[export] Instance SignatureError_eq_dec : EqDecision SignatureError.
Proof. solve_decision. Defined.

Record CheckoutSessionParams := mkCheckout {
  ck_price_id : string;
  ck_success_url : string;
  ck_cancel_url : string;
  ck_customer_id : option string;
  ck_customer_email : option string;
  (** In the order of the keys. *)
  ck_metadata : list (string * string);
}.

Record CheckoutSession := mkSessionUrl { cs_url : string; cs_customer : option string }.

(** [create_checkout_session]: the form it posts. *)
Definition checkout_form (p : CheckoutSessionParams) : list (string * string) :=
  [ ("mode", "subscription"); ("line_items[0][price]", ck_price_id p);
    ("line_items[0][quantity]", "1"); ("success_url", ck_success_url p);
    ("cancel_url", ck_cancel_url p) ]%string
  ++ (match ck_customer_id p with Some c => [("customer"%string, c)] | None => [] end)
  ++ (match ck_customer_email p with Some e => [("customer_email"%string, e)] | None => [] end)
  ++ map (fun kv => ("metadata[" +++ kv.1 +++ "]", kv.2)) (ck_metadata p).

(** * Signatures *)

(** [hex_lower] *)
Definition hex_digit (n : nat) : ascii :=
  ascii_of_nat (if (n <? 10)%nat then 48 + n else 87 + n).
Fixpoint hex_lower (s : string) : string :=
  match s with
  | EmptyString => EmptyString
  | String c s' =>
      let n := nat_of_ascii c in
      String (hex_digit (n / 16)) (String (hex_digit (n mod 16)) (hex_lower s'))
  end.

(** [constant_time_eq_ignore_ascii_case]: every pair is compared. *)
Fixpoint zip_diff (diff : Z) (a b : string) : Z :=
  match a, b with
  | String x a', String y b' =>
      let same := if Ascii.eqb (ascii_lower x) (ascii_lower y) then 1 else 0 in
      zip_diff (Z.lor diff (Z.lxor same 1)) a' b'
  | _, _ => diff
  end.
Definition constant_time_eq_ignore_ascii_case (a b : string) : bool :=
  if negb (String.length a =? String.length b)%nat then false else zip_diff 0 a b =? 0.

(** The loop over the parts of the header. *)
Fixpoint parse_parts (parts : list string) (timestamp : option Z) (signatures : list string)
  : result SignatureError (option Z * list string) :=
  match parts with
  | [] => Ok (timestamp, signatures)
  | part :: rest =>
      match split_once "="%char part with
      | (k, None) => Err Malformed
      | (k, Some v) =>
          let k := trim k in
          let v := trim v in
          if String.eqb k "t" then parse_parts rest (parse_i64 v) signatures
          else if String.eqb k "v1" then parse_parts rest timestamp (signatures ++ [v])
          else parse_parts rest timestamp signatures
      end
  end.

(** [i64::abs] (release). *)
Definition i64_abs (x : Z) : Z := if x =? i64_min then i64_min else Z.abs x.

(** ** The comparison *)

Lemma zip_diff_or diff a b : 0 <= diff -> zip_diff diff a b = 0 <-> diff = 0 /\ zip_diff 0 a b = 0.
Proof.
  revert diff b. induction a as [|x a IH]; intros diff b Hd; [simpl; tauto|].
  destruct b as [|y b]; [simpl; tauto|]. cbn [zip_diff].
  set (bit := Z.lxor _ 1). assert (Hbit : 0 <= bit) by (unfold bit; destruct (Ascii.eqb _ _); done).
  rewrite (IH (Z.lor diff bit)), (IH (Z.lor 0 bit)), Z.lor_0_l by (rewrite ?Z.lor_nonneg; lia).
  rewrite Z.lor_eq_0_iff. tauto.
Qed.

(** Without the data-dependent early exit, the same answer. *)
Lemma constant_time_eq_spec a b :
  constant_time_eq_ignore_ascii_case a b = eq_ignore_ascii_case a b.
Proof.
  unfold constant_time_eq_ignore_ascii_case, eq_ignore_ascii_case, to_ascii_lowercase.
  revert b. induction a as [|x a IH]; intros [|y b]; try done. specialize (IH b).
  cbn [String.length Nat.eqb string_map String.eqb zip_diff].
  destruct (String.length a =? String.length b)%nat; cbn [negb] in *.
  2: { rewrite <- IH. by destruct (Ascii.eqb _ _). }
  destruct (Ascii.eqb (ascii_lower x) (ascii_lower y)); [done|].
  apply Z.eqb_neq. intros [H _]%zip_diff_or; done.
Qed.

(** ** The header *)

Lemma parse_parts_range parts ts sigs t l :
  (forall z, ts = Some z -> i64_min <= z <= i64_max) ->
  parse_parts parts ts sigs = Ok (Some t, l) -> i64_min <= t <= i64_max.
Proof.
  revert ts sigs. induction parts as [|part parts IH]; intros ts sigs Hts; simpl.
  - intros [= -> _]. by apply Hts.
  - destruct (split_once _ _) as [k [v|]]; [|done].
    destruct (String.eqb _ _); [apply IH; apply parse_i64_range|].
    destruct (String.eqb _ _); by apply IH.
Qed.

Definition comma_free : ascii -> bool := fun a => negb (Ascii.eqb a ",").
Definition hex_char (c : ascii) : bool :=
  let n := nat_of_ascii c in ((48 <=? n) && (n <=? 57) || (97 <=? n) && (n <=? 102))%nat.

Lemma hex_digit_char n : (n < 16)%nat -> hex_char (hex_digit n) = true.
Proof.
  intros H. do 16 (destruct n as [|n]; [reflexivity|]). lia.
Qed.

Lemma hex_lower_chars s : all_chars hex_char (hex_lower s) = true.
Proof.
  induction s as [|c s IH]; [done|]. cbn [hex_lower all_chars]. pose proof (nat_ascii_bounded c).
  rewrite IH, !hex_digit_char; [done|apply Nat.mod_upper_bound; lia|].
  apply Nat.Div0.div_lt_upper_bound. lia.
Qed.

Lemma char_classes c :
  (hex_char c = true -> graphic c = true /\ comma_free c = true) /\
  (decimal c = true -> graphic c = true /\ comma_free c = true).
Proof. destruct c as [[] [] [] [] [] [] [] []]; vm_compute; split; auto; discriminate. Qed.

Lemma split_once_key k c v :
  all_chars (fun a => negb (Ascii.eqb a c)) k = true -> split_once c (k +++ String c v) = (k, Some v).
Proof.
  induction k as [|a k IH]; [intros _; rewrite append_nil_l; simpl; by rewrite Ascii.eqb_refl|].
  rewrite append_cons. simpl. intros [Ha Hk]%andb_true_iff. apply negb_true_iff in Ha.
  by rewrite Ha, IH.
Qed.

(** The clock is a number of seconds that fits with room to spare. *)
Definition clock_range (now : Z) : Prop := 0 <= now < 2 ^ 62.

Lemma drift_within now ts tolerance :
  clock_range now -> i64_min <= ts <= i64_max -> 0 <= tolerance <= i64_max / 2 ->
  tolerance < i64_abs (wrap_i64 (now - ts)) <->
  tolerance < Z.abs (now - ts) /\ now - ts <> 2 ^ 63.
Proof.
  unfold clock_range, i64_abs, i64_min, i64_max. intros Hn Ht Htol.
  assert (H63 : 2 ^ 63 = 9223372036854775808) by reflexivity.
  assert (H62 : 2 ^ 62 = 4611686018427387904) by reflexivity.
  assert (H64 : 2 ^ 64 = 18446744073709551616) by reflexivity.
  assert (Htol' : tolerance <= 4611686018427387903) by (change (9223372036854775807 / 2) with 4611686018427387903 in Htol; lia).
  destruct (Z_lt_le_dec (now - ts) (2 ^ 63)) as [Hs|Hb].
  - rewrite wrap_i64_id by (unfold i64_min, i64_max; lia).
    destruct (Z.eqb_spec (now - ts) (-9223372036854775808)); lia.
  - assert (Hw : wrap_i64 (now - ts) = now - ts - 2 ^ 64).
    { unfold wrap_i64, i64_min. replace (now - ts - -9223372036854775808)
        with (now - ts - 9223372036854775808 + 1 * 2 ^ 64) by lia.
      rewrite Z.mod_add, Z.mod_small by lia. lia. }
    rewrite Hw. destruct (Z.eqb_spec (now - ts - 2 ^ 64) (-9223372036854775808)); lia.
Qed.
Section Verification.
(** [HMAC::mac(input, key)] *)
Variable hmac_sha256 : string -> string -> string.

Definition expected_signature (timestamp : Z) (payload secret : string) : string :=
  hex_lower (hmac_sha256 (pretty timestamp +++ "." +++ payload) secret).

Definition verify_signature (payload signature_header secret : string) (now_unix_secs tolerance : Z)
  : result SignatureError unit :=
  match parse_parts (split_char ","%char signature_header) None [] with
  | Err e => Err e
  | Ok (None, _) => Err Malformed
  | Ok (Some _, []) => Err Malformed
  | Ok (Some timestamp, signatures) =>
      if tolerance <? i64_abs (wrap_i64 (now_unix_secs - timestamp)) then Err Timestamp
      else if existsb (fun s =>
                constant_time_eq_ignore_ascii_case s (expected_signature timestamp payload secret))
                signatures
      then Ok tt
      else Err Mismatch
  end.

(** The header Stripe sends. *)
Definition signature_header (timestamp : Z) (payload secret : string) : string :=
  "t=" +++ pretty timestamp +++ ",v1=" +++ expected_signature timestamp payload secret.

Lemma parse_own_header timestamp payload secret :
  0 <= timestamp <= i64_max ->
  parse_parts (split_char ","%char (signature_header timestamp payload secret)) None [] =
    Ok (Some timestamp, [expected_signature timestamp payload secret]).
Proof.
  intros Hts. unfold signature_header. set (sig := expected_signature _ _ _).
  assert (Hsig : all_chars hex_char sig = true) by apply hex_lower_chars.
  assert (Hg : forall p s, all_chars p s = true -> (forall c, p c = true ->
    graphic c = true /\ comma_free c = true) ->
    all_chars graphic s = true /\ all_chars comma_free s = true).
  { intros p s Hs Hp. split; eapply all_chars_mono; try exact Hs; intros c Hc; by apply Hp. }
  destruct (Hg _ _ Hsig (fun c => proj1 (char_classes c))) as [Hsg Hsc].
  destruct (Hg _ _ (pretty_Z_decimal timestamp) (fun c => proj2 (char_classes c))) as [Htg Htc].
  change (",v1=" +++ sig) with (String ","%char ("v1=" +++ sig)).
  rewrite <- append_assoc, split_char_app by (fold comma_free; by rewrite all_chars_app, Htc).
  rewrite split_char_none by (fold comma_free; by rewrite all_chars_app, Hsc).
  cbn [parse_parts]. change ("t=" +++ pretty timestamp) with ("t" +++ String "="%char (pretty timestamp)).
  rewrite split_once_key by done. rewrite (trim_graphic (pretty timestamp)) by done.
  cbn [String.eqb]. rewrite (trim_graphic "t") by done. cbn [String.eqb Ascii.eqb Bool.eqb].
  change ("v1=" +++ sig) with ("v1" +++ String "="%char sig).
  rewrite split_once_key by done. rewrite !trim_graphic by done. by rewrite parse_i64_pretty.
Qed.

End Verification.

(** * Properties *)

(** C28: A delivery is accepted exactly when its header parses to a timestamp
    within the tolerance of the clock (or 2^63 seconds away, where the release
    build wraps around) and to a signature that is the HMAC of timestamp and
    payload, whatever the case of its hexadecimal digits. *)
Theorem verify_signature_iff hmac payload header secret now tolerance :
  clock_range now -> 0 <= tolerance <= i64_max / 2 ->
  verify_signature hmac payload header secret now tolerance = Ok tt <->
  exists ts sigs sig, parse_parts (split_char ","%char header) None [] = Ok (Some ts, sigs) /\
    In sig sigs /\ eq_ignore_ascii_case sig (expected_signature hmac ts payload secret) = true /\
    (Z.abs (now - ts) <= tolerance \/ now - ts = 2 ^ 63).
Proof.
  intros Hn Ht. unfold verify_signature.
  destruct (parse_parts _ _ _) as [[[ts|] sigs]|e] eqn:Hp.
  2, 3: (split; [done|intros (? & ? & ? & ? & _); congruence]).
  assert (Hr : i64_min <= ts <= i64_max) by (eapply parse_parts_range; [|exact Hp]; done).
  pose proof (drift_within now ts tolerance Hn Hr Ht) as Hd.
  destruct sigs as [|s0 sigs]; [split; [done|intros (? & ? & ? & [= <- <-] & [] & _)]|].
  destruct (Z.ltb_spec tolerance (i64_abs (wrap_i64 (now - ts)))) as [Hlt|Hle].
  - split; [done|]. intros (? & ? & ? & [= <- <-] & _ & _ & H). exfalso. apply Hd in Hlt. lia.
  - assert (Hok : Z.abs (now - ts) <= tolerance \/ now - ts = 2 ^ 63).
    { destruct (Z_le_dec (Z.abs (now - ts)) tolerance); [by left|right].
      destruct (Z.eq_dec (now - ts) (2 ^ 63)); [done|]. exfalso.
      assert (tolerance < i64_abs (wrap_i64 (now - ts))) by (apply Hd; lia). lia. }
    destruct (existsb _ _) eqn:E.
    + split; [intros _|done]. apply existsb_exists in E as (sig & Hin & Hs).
      rewrite constant_time_eq_spec in Hs. by exists ts, (s0 :: sigs), sig.
    + split; [done|]. intros (? & ? & sig & [= <- <-] & Hin & Hs & _).
      exfalso. apply not_true_iff_false in E. apply E, existsb_exists. exists sig.
      by rewrite constant_time_eq_spec.
Qed.

(** A delivery that Stripe signs is accepted: the header it sends for the
    payload verifies at any clock within the tolerance. *)
Theorem verify_own_signature hmac payload secret timestamp now tolerance :
  clock_range now -> 0 <= timestamp <= i64_max -> 0 <= tolerance <= i64_max / 2 ->
  Z.abs (now - timestamp) <= tolerance ->
  verify_signature hmac payload (signature_header hmac timestamp payload secret) secret now tolerance
    = Ok tt.
Proof.
  intros Hn Hts Htol Hd. unfold verify_signature. rewrite parse_own_header by done.
  destruct (Z.ltb_spec tolerance (i64_abs (wrap_i64 (now - timestamp)))) as [Hlt|_].
  - apply drift_within in Hlt; [lia|done|unfold i64_min; lia|done].
  - simpl. rewrite constant_time_eq_spec. unfold eq_ignore_ascii_case. by rewrite String.eqb_refl.
Qed.

(** A keyed digest of fixed length, for the examples. *)
Definition demo_hmac (input key : string) : string :=
  String (ascii_of_nat (String.length input)) (String (ascii_of_nat (String.length key)) EmptyString).

Lemma verify_own_signature_witness :
  signature_header demo_hmac 1700000000 "{}" "whsec" = "t=1700000000,v1=0d05"%string /\
  verify_signature demo_hmac "{}" "t=1700000000,v1=0d05" "whsec" 1700000100
    STRIPE_TIMESTAMP_TOLERANCE = Ok tt.
Proof.
  split; [vm_compute; reflexivity|].
  exact (verify_own_signature demo_hmac "{}" "whsec" 1700000000 1700000100
    STRIPE_TIMESTAMP_TOLERANCE ltac:(vm_compute; split; [discriminate|reflexivity])
    ltac:(vm_compute; split; discriminate) ltac:(vm_compute; split; discriminate)
    ltac:(vm_compute; discriminate)).
Defined.

Lemma verify_signature_iff_witness :
  verify_signature demo_hmac "{}" "t=1,v1=0405" "whsec" 200 STRIPE_TIMESTAMP_TOLERANCE = Ok tt /\
  verify_signature demo_hmac "{}" "t=1,v1=0405" "whsec" 302 STRIPE_TIMESTAMP_TOLERANCE <> Ok tt.
Proof.
  split.
  - apply (verify_signature_iff demo_hmac "{}" "t=1,v1=0405" "whsec" 200 STRIPE_TIMESTAMP_TOLERANCE);
      [split; [discriminate|reflexivity]|split; discriminate|].
    exists 1, ["0405"%string], "0405"%string. split; [vm_compute; reflexivity|].
    split; [left; reflexivity|]. split; [vm_compute; reflexivity|left; vm_compute; discriminate].
  - intros (ts & sigs & sig & Hp & _ & _ & H)%verify_signature_iff;
      [|split; [discriminate|reflexivity]|split; discriminate].
    assert (Hts : ts = 1) by (vm_compute in Hp; congruence). subst ts.
    destruct H as [H|H]; [vm_compute in H; exact (H eq_refl)|discriminate H].
Defined.
