(* ===== verification/Billing.v ===== *)
(** Billing ([crates/billing/src], [crates/api/src/billing.rs]): the plan of an
    organisation, the log of Stripe's webhook deliveries, the checkout, and the
    webhook handler, over the tables [organizations] and [subscription_events]. *)

From Stdlib Require Import Ascii.
From stdpp Require Import base gmap strings list pretty.
From S2P Require Import Prelude Errors Integrations Events Schema Database Tables.
From S2P Require Import Membership Sessions Access Stripe.

(** * Tables *)

Section Tables.
Context `{En : Env}.

Definition same_customer (a b : OrgRow) : bool :=
  match og_stripe_customer_id a, og_stripe_customer_id b with
  | Some c, Some c' => String.eqb c c'
  | _, _ => false
  end.

Definition org_touch (now : Z) (old new : OrgRow) : OrgRow :=
  mkOrg (og_id new) (og_slug new) (og_display_name new) (og_plan new) (og_stripe_customer_id new)
    (og_created_at new) now (og_version old + 1).

(** [organizations] ([20260424120000], [20260427120100]); the trigger of
    [20260429120000] fires on updates of the billing columns only, which go
    through [update_billing] below. *)
#[export] Instance OrgTable : Table OrgRow := {|
  rows := db_orgs;
  set_rows l db :=
    let 'mkDB a b c d e f _ h i j k m n o p r q t u v := db in mkDB a b c d e f l h i j k m n o p r q t u v;
  row_id := og_id;
  row_tenant r := Some (og_id r);
  row_audited := None;
  row_touch := org_touch;
  row_conflict a b :=
    bool_decide (og_id a = og_id b) || String.eqb (og_slug a) (og_slug b) || same_customer a b;
  row_check _ _ := None;
  row_referenced _ _ := false;
  row_after _ _ db := db;
|}.

(** [subscription_events] ([20260427120100]): no row security. *)
#[export] Instance SubEventTable : Table SubscriptionEvent := {|
  rows := db_sub_events;
  set_rows l db :=
    let 'mkDB a b c d e f g _ i j k m n o p r q t u v := db in mkDB a b c d e f g l i j k m n o p r q t u v;
  row_id := ev_id;
  row_tenant _ := None;
  row_audited := None;
  row_touch _ _ new := new;
  row_conflict a b :=
    bool_decide (ev_id a = ev_id b) || String.eqb (ev_stripe_event_id a) (ev_stripe_event_id b);
  row_check db r := constraints
    [ (match ev_organization_id r with Some o => org_exists db o | None => true end, DbForeignKey) ];
  row_referenced _ _ := false;
  row_after _ _ db := db;
|}.

#[export] Instance OrgTable_laws : TableLaws OrgRow.
Proof. table_laws. Qed.
#[export] Instance SubEventTable_laws : TableLaws SubscriptionEvent.
Proof. table_laws. Qed.
#[export] Instance OrgTable_plain : PlainTable OrgRow := fun _ _ _ => eq_refl.
#[export] Instance SubEventTable_plain : PlainTable SubscriptionEvent := fun _ _ _ => eq_refl.
#[export] Instance OrgTable_tenant : TenantTable OrgRow :=
  {| tenant_of := og_id; row_tenant_of _ := eq_refl |}.

(** [organizations_billing_audit_trigger]: an entry per row whose plan or
    customer changed. *)
Definition billing_changed (old new : OrgRow) : bool :=
  negb (bool_decide (og_plan old = og_plan new)
        && bool_decide (og_stripe_customer_id old = og_stripe_customer_id new)).
Fixpoint billing_entries (g : Guc) (t : nat) (writes : list (OrgRow * OrgRow))
    (log : list AuditEntry) : list AuditEntry :=
  match writes with
  | [] => []
  | (old, new) :: rest =>
      if billing_changed old new then
        let e := audit_entry g (rand_uuid t) (og_id new) "organizations.updated" "organizations"
                   (uuid_str (og_id new)) "allowed" log in
        e :: billing_entries g (S t) rest (log ++ [e])
      else billing_entries g (S t) rest log
  end.

(** [UPDATE organizations SET plan | stripe_customer_id = .. WHERE p]: the
    number of rows. *)
Definition billing_writes (g : Guc) (p : OrgRow -> bool) (f : OrgRow -> OrgRow) (d : DB)
  : list (OrgRow * OrgRow) :=
  map (fun r => (r, org_touch (g_now g) r (f r)))
    (List.filter (fun r => visible g r && p r) (db_orgs d)).
Definition billing_db (t : nat) (g : Guc) (p : OrgRow -> bool) (f : OrgRow -> OrgRow) (d : DB) : DB :=
  set_audit (db_audit d ++ billing_entries g t (billing_writes g p f d) (db_audit d))
    (set_rows (update_rows (fun r => visible g r && p r)
                 (fun r => org_touch (g_now g) r (f r)) (db_orgs d)) d).
Definition customer_taken (d : DB) (new : OrgRow) : bool :=
  existsb (fun r => negb (bool_decide (og_id r = og_id new)) && same_customer r new) (db_orgs d).
Definition update_billing (p : OrgRow -> bool) (f : OrgRow -> OrgRow) : M World DbError nat :=
  stmt (fun w =>
    let writes := billing_writes (w_guc w) p f (w_db w) in
    if existsb (fun x => customer_taken (w_db w) x.2) writes then (Err DbUnique, w)
    else (Ok (length writes),
          set_tick (w_tick w + length writes)%nat
            (set_db (billing_db (w_tick w) (w_guc w) p f (w_db w)) w))).
End Tables.

(** * Repository ([repository.rs]) *)

(** [model.rs: OrgBillingState] *)
Record OrgBillingState := mkBillingState {
  bs_organization_id : Uuid;
  bs_plan : BillingPlan;
  bs_stripe_customer_id : option string;
}.

Definition with_plan (plan : BillingPlan) (o : OrgRow) : OrgRow :=
  mkOrg (og_id o) (og_slug o) (og_display_name o) plan (og_stripe_customer_id o)
    (og_created_at o) (og_updated_at o) (og_version o).
Definition with_customer (customer : string) (o : OrgRow) : OrgRow :=
  mkOrg (og_id o) (og_slug o) (og_display_name o) (og_plan o) (Some customer)
    (og_created_at o) (og_updated_at o) (og_version o).

Module BillingRepository.
Section BillingRepository.
Context `{En : Env}.

Definition get_billing (organization_id : Uuid) : M World PlatformError OrgBillingState :=
  rows <- on_pool (select (fun _ o => bool_decide (og_id o = organization_id))) ;;
  match rows with
  | o :: _ => ret (mkBillingState organization_id (og_plan o) (og_stripe_customer_id o))
  | [] => throw (NotFound ("organization/" +++ uuid_str organization_id))
  end.

Definition org_for_customer (stripe_customer_id : string) : M World PlatformError (option Uuid) :=
  rows <- on_pool (select (fun _ o =>
    bool_decide (og_stripe_customer_id o = Some stripe_customer_id))) ;;
  ret (og_id <$> head rows).

Definition set_stripe_customer (organization_id : Uuid) (customer_id : string)
  : M World PlatformError unit :=
  affected <- on_pool (update_billing
    (fun o => bool_decide (og_id o = organization_id)
              && (is_none (og_stripe_customer_id o)
                  || bool_decide (og_stripe_customer_id o = Some customer_id)))
    (with_customer customer_id)) ;;
  if (affected =? 0)%nat
  then throw (Conflict "organization already linked to a different Stripe customer")
  else ret tt.

Definition update_plan (organization_id : Uuid) (plan : BillingPlan) : M World PlatformError unit :=
  on_pool (update_billing (fun o => bool_decide (og_id o = organization_id)) (with_plan plan)) ;;;
  ret tt.

Definition same_event (a b : SubscriptionEvent) : bool :=
  String.eqb (ev_stripe_event_id a) (ev_stripe_event_id b).

Definition append_event (stripe_event_id : string) (organization_id : option Uuid)
    (event_type decision : string) : M World PlatformError bool :=
  id <- now_v7 ;;
  affected <- on_pool (insert_or_ignore same_event (fun now =>
    mkSubEvent id stripe_event_id organization_id event_type decision now)) ;;
  ret (affected =? 1)%nat.

Definition recent_events (limit : nat) : M World PlatformError (list SubscriptionEvent) :=
  rows <- on_pool (select (fun _ (_ : SubscriptionEvent) => true)) ;;
  ret (firstn limit (sort_by (fun a b => ev_received_at b <=? ev_received_at a) rows)).
End BillingRepository.
End BillingRepository.
Export BillingRepository.

(** * Service ([service.rs]) *)

Definition price_id_for_plan (plan : BillingPlan) : option string :=
  match plan with
  | Free => None
  | Starter => Some "price_starter_replace_me"%string
  | Pro => Some "price_pro_replace_me"%string
  end.

(** [format!("{target_plan:?}").to_lowercase()], and serde's names. *)
Definition plan_str (plan : BillingPlan) : string :=
  match plan with Free => "free" | Starter => "starter" | Pro => "pro" end.
Definition plan_of_str (s : string) : option BillingPlan :=
  if String.eqb s "free" then Some Free
  else if String.eqb s "starter" then Some Starter
  else if String.eqb s "pro" then Some Pro
  else None.

Inductive BillingError :=
| BForbidden (msg : string)
| BStripe (e : StripeError)
| BPlatform (e : PlatformError).

(** [From<BillingError> for PlatformError] *)
Definition billing_to_platform (e : BillingError) : PlatformError :=
  match e with
  | BForbidden msg => Forbidden msg
  | BPlatform p => p
  | BStripe (StripeStatus status _) => Internal ("stripe api status " +++ pretty status)
  | BStripe (StripeTransport msg) => Internal ("stripe transport: " +++ msg)
  end.

(** JSON values as the webhook reads them. *)
Inductive Json :=
| JString (s : string)
| JObject (fields : list JsonField)
| JOther
with JsonField :=
| mkField (name : string) (value : Json).
Definition field_name (f : JsonField) : string := let 'mkField n _ := f in n.
Definition field_value (f : JsonField) : Json := let 'mkField _ v := f in v.
(** [Value::get], [Value::as_str] *)
Definition json_get (key : string) (v : Json) : option Json :=
  match v with
  | JObject fields => field_value <$> List.find (fun f => String.eqb (field_name f) key) fields
  | _ => None
  end.
Definition as_str (v : Json) : option string := match v with JString s => Some s | _ => None end.
Definition json_str (key : string) (v : Json) : option string := json_get key v ≫= as_str.

(** Stripe's answers, the settings of the service, the wall clock in seconds,
    HMAC, and [serde_json::from_slice]. *)
Class StripeHost := {
  on_checkout : nat -> CheckoutSessionParams -> result StripeError CheckoutSession;
  success_url : string;
  cancel_url : string;
  stripe_webhook_secret : string;
  unix_now : nat -> Z;
  hmac_sha256 : string -> string -> string;
  parse_json : string -> result string Json;
}.

Module BillingService.
Section BillingService.
Context `{En : Env} `{SH : StripeHost}.

Definition platform_err {A} (m : M World PlatformError A) : M World BillingError A :=
  map_err BPlatform m.

Definition billing_state (organization_id : Uuid) : M World BillingError OrgBillingState :=
  platform_err (get_billing organization_id).

Definition checkout_params (organization_id : Uuid) (target_plan : BillingPlan) (price_id : string)
    (customer : option string) (actor_email : string) : CheckoutSessionParams :=
  mkCheckout price_id success_url cancel_url customer
    (match customer with None => Some actor_email | Some _ => None end)
    [("organization_id"%string, uuid_str organization_id); ("target_plan"%string, plan_str target_plan)].

Definition start_checkout (organization_id : Uuid) (target_plan : BillingPlan) (actor_email : string)
  : M World BillingError CheckoutSession :=
  match price_id_for_plan target_plan with
  | None => throw (BForbidden "cannot upgrade to the free plan")
  | Some price_id =>
      state <- platform_err (get_billing organization_id) ;;
      session <- (fun w => (result_map_err BStripe (on_checkout (w_tick w)
                    (checkout_params organization_id target_plan price_id
                       (bs_stripe_customer_id state) actor_email)), tick w)) ;;
      match cs_customer session with
      | Some customer_id => platform_err (set_stripe_customer organization_id customer_id)
      | None => ret tt
      end ;;;
      ret session
  end.

Definition apply_checkout_completion (stripe_event_id : string) (organization_id : Uuid)
    (plan : BillingPlan) : M World BillingError unit :=
  platform_err (update_plan organization_id plan) ;;;
  platform_err (append_event stripe_event_id (Some organization_id)
                  "checkout.session.completed" "plan_applied") ;;;
  ret tt.

Definition apply_subscription_cancelled (stripe_event_id customer_id : string)
  : M World BillingError unit :=
  organization_id <- platform_err (org_for_customer customer_id) ;;
  match organization_id with
  | Some org_id =>
      platform_err (update_plan org_id Free) ;;;
      platform_err (append_event stripe_event_id (Some org_id)
                      "customer.subscription.deleted" "plan_applied") ;;;
      ret tt
  | None => ret tt
  end.

Definition record_event (stripe_event_id event_type : string) (customer_id : option string)
  : M World BillingError bool :=
  organization_id <- match customer_id with
                     | Some c => platform_err (org_for_customer c)
                     | None => ret None
                     end ;;
  platform_err (append_event stripe_event_id organization_id event_type "processed").

(** * Routes ([api/src/billing.rs]) *)

Definition billing_to_api {A} (m : M World BillingError A) : M World PlatformError A :=
  map_err billing_to_platform m.

Definition state_route (actor : Actor) (org_id : Uuid) : M World PlatformError OrgBillingState :=
  if negb (bool_decide (ac_organization_id actor = org_id))
  then throw (Forbidden "actor's active organization does not match the path")
  else billing_to_api (billing_state org_id).

Definition start_checkout_route (owner : OwnerActor) (plan : BillingPlan)
  : M World PlatformError string :=
  let actor := ow_inner owner in
  users <- on_pool (select (fun _ u => bool_decide (us_id u = ac_user_id actor))) ;;
  match users with
  | [] => throw (Database (DbMessage "no rows returned by a query that expected at least one row"))
  | u :: _ =>
      session <- billing_to_api (start_checkout (ac_organization_id actor) plan (us_email u)) ;;
      ret (cs_url session)
  end.

Definition signature_message (e : SignatureError) : string :=
  match e with
  | Malformed => "malformed signature"
  | Timestamp => "timestamp out of tolerance"
  | Mismatch => "signature mismatch"
  end.

(** [.ok_or_else(|| Invalid(msg))] *)
Definition required {A} (o : option A) (msg : string) : M World PlatformError A :=
  match o with Some a => ret a | None => throw (Invalid msg) end.

(** What the handler does with a delivery whose signature was verified. *)
Definition dispatch (envelope : Json) : M World PlatformError unit :=
  stripe_event_id <- required (json_str "id" envelope) "missing event id" ;;
  event_type <- required (json_str "type" envelope) "missing event type" ;;
  let obj : option Json := json_get "data" envelope ≫= json_get "object" in
  let customer_id : option string := obj ≫= json_str "customer" in
  if String.eqb event_type "checkout.session.completed" then
    obj <- required obj "missing data.object" ;;
    meta <- required (json_get "metadata" obj) "missing metadata" ;;
    org_id <- required (json_str "organization_id" meta ≫= uuid_parse)
      "missing or invalid metadata.organization_id" ;;
    plan <- required (json_str "target_plan" meta ≫= plan_of_str)
      "missing or invalid metadata.target_plan" ;;
    billing_to_api (apply_checkout_completion stripe_event_id org_id plan)
  else if String.eqb event_type "customer.subscription.deleted" then
    match customer_id with
    | Some cid => billing_to_api (apply_subscription_cancelled stripe_event_id cid)
    | None => ret tt
    end
  else
    billing_to_api (record_event stripe_event_id event_type customer_id) ;;; ret tt.

Definition webhook (rq : Request) (body : string) : M World PlatformError Z :=
  match rq_header rq "stripe-signature" with
  | None => throw (Forbidden "missing Stripe-Signature header")
  | Some signature =>
      now <- (fun w => (Ok (unix_now (w_tick w)), tick w)) ;;
      match verify_signature hmac_sha256 body signature stripe_webhook_secret now
              STRIPE_TIMESTAMP_TOLERANCE with
      | Err e => throw (Forbidden (signature_message e))
      | Ok _ =>
          envelope <- lift (result_map_err (fun e => Invalid ("invalid json: " +++ e)) (parse_json body)) ;;
          dispatch envelope ;;;
          ret 200
      end
  end.
End BillingService.
End BillingService.
Export BillingService.

(** * What the operations leave *)

Section Laws.
Context `{En : Env}.

Definition plan_set (org : Uuid) (plan : BillingPlan) (d d' : DB) : Prop :=
  exists t now, d' = billing_db t (idle_guc now) (fun o => bool_decide (og_id o = org)) (with_plan plan) d.

(** Stripe's id of a delivery that is on record. *)
Definition logged (stripe_event_id : string) (d : DB) : bool :=
  existsb (fun e => String.eqb (ev_stripe_event_id e) stripe_event_id) (db_sub_events d).

(** The delivery is on record, once. *)
Definition event_logged (id : string) (org : option Uuid) (event_type decision : string) (d d' : DB)
  : Prop :=
  logged id d = true /\ d' = d \/
  logged id d = false /\ exists e, d' = set_rows (db_sub_events d ++ [e]) d /\
    ev_stripe_event_id e = id /\ ev_organization_id e = org /\ ev_event_type e = event_type /\
    ev_decision e = decision.

Lemma update_billing_law d p f :
  db_wp d (on_pool (update_billing p f) : M World PlatformError nat) (fun r d' =>
    match r with
    | Ok n => exists t now, d' = billing_db t (idle_guc now) p f d /\
        n = length (billing_writes (idle_guc now) p f d)
    | Err _ => d' = d
    end).
Proof.
  apply db_on_pool. intros now. apply tx_stmt; [done|]. intros w <- Hg. cbv beta zeta. rewrite Hg.
  destruct (existsb _ _); simpl; [by split|].
  split; [apply frame_set_db; lia|]. exists (w_tick w), now. by destruct w.
Qed.

Lemma update_plan_law d org plan :
  db_wp d (update_plan org plan) (fun r d' =>
    match r with Ok _ => plan_set org plan d d' | Err _ => d' = d end).
Proof.
  intros g. unfold update_plan. apply tx_bind. tx_call update_billing_law.
  intros [n|e] d' H; [|done]. destruct H as (t & now & -> & _). apply tx_ret. by exists t, now.
Qed.

Lemma org_for_customer_law d customer :
  db_wp d (org_for_customer customer) (fun _ d' => d' = d).
Proof.
  intros g. unfold org_for_customer. apply tx_bind, db_on_pool. intros now.
  apply tx_select; [done|]. by apply tx_ret.
Qed.

Lemma append_event_law d id org event_type decision :
  db_wp d (append_event id org event_type decision) (fun r d' =>
    match r with
    | Ok written => written = negb (logged id d) /\ event_logged id org event_type decision d d'
    | Err _ => d' = d
    end).
Proof.
  intros g. unfold append_event. apply tx_bind, tx_now_v7. intros eid. apply tx_bind, db_on_pool.
  intros now. apply tx_insert_or_ignore; cbn [result_map_err]; try done.
  - intros Hon. apply tx_ret. assert (Hl : logged id d = true); [|rewrite Hl; split; [done|by left]].
    unfold logged. apply existsb_exists in Hon as (e & Hin & He). apply existsb_exists.
    exists e. split; [done|]. unfold same_event in He. simpl in He. by rewrite String.eqb_sym.
  - intros Hins t. apply tx_ret. apply insert_error_none in Hins as (_ & Hconf & _).
    assert (Hl : logged id d = false).
    { unfold logged. rewrite existsb_false_iff in *. intros e Hin. specialize (Hconf e Hin).
      simpl in Hconf. apply orb_false_iff in Hconf as [_ Hne]. by rewrite String.eqb_sym. }
    rewrite Hl. split; [done|]. right. split; [done|]. eexists.
    rewrite insert_db_plain, audit_entries_none, app_nil_r by done. by destruct d.
Qed.

(** ** Invariants of the log and of the plans *)

(** The unique index on [stripe_event_id]. *)
Definition events_unique (d : DB) : Prop := NoDup (map ev_stripe_event_id (db_sub_events d)).

Lemma event_logged_unique id org ty dec d d' :
  event_logged id org ty dec d d' -> events_unique d -> events_unique d'.
Proof.
  unfold events_unique. intros [[_ ->]|[Hl (e & -> & He & _)]] Hu; [done|].
  assert (Hr : forall l, db_sub_events (set_rows (l : list SubscriptionEvent) d) = l) by by destruct d.
  rewrite Hr, map_app. simpl. apply NoDup_app. split; [done|]. split; [|apply NoDup_singleton].
  intros x Hx Hx'%list_elem_of_singleton. subst x. rewrite He in Hx.
  apply list_elem_of_In, in_map_iff in Hx as (e' & He' & Hin).
  unfold logged in Hl. rewrite existsb_false_iff in Hl. specialize (Hl e' Hin).
  by rewrite He', String.eqb_refl in Hl.
Qed.

Lemma billing_events t g p f d : db_sub_events (billing_db t g p f d) = db_sub_events d.
Proof. unfold billing_db. by destruct d. Qed.

Lemma plan_set_events org plan d d' :
  plan_set org plan d d' -> db_sub_events d' = db_sub_events d.
Proof. intros (t & now & ->). apply billing_events. Qed.

Lemma logged_same id d d' : db_sub_events d' = db_sub_events d -> logged id d' = logged id d.
Proof. intros H. unfold logged. by rewrite H. Qed.

Lemma event_logged_orgs id org ty dec d d' :
  event_logged id org ty dec d d' -> db_orgs d' = db_orgs d /\ logged id d' = true.
Proof.
  intros [[Hl ->]|[Hl (e & -> & He & _)]]; [done|]. split; [by destruct d|].
  unfold logged.
  assert (Hr : forall l, db_sub_events (set_rows (l : list SubscriptionEvent) d) = l) by by destruct d.
  rewrite Hr, existsb_app. simpl. by rewrite He, String.eqb_refl, orb_true_r.
Qed.

Lemma update_rows_nothing {A} (p : A -> bool) f l :
  (forall x, In x l -> p x = false) -> update_rows p f l = l.
Proof.
  intros H. unfold update_rows. rewrite <- (map_id l) at 2. apply map_ext_in. intros x Hx.
  by rewrite H.
Qed.

(** On the pool, under the production role, no organisation is visible. *)
Lemma billing_idle_nothing t now p f d :
  bypass_rls = false -> Forall (fun o => og_id o <> Uuid_nil) (db_orgs d) ->
  billing_db t (idle_guc now) p f d = d.
Proof.
  intros Hb Hnil. rewrite Forall_forall in Hnil.
  assert (Hv : forall o, In o (db_orgs d) -> visible (idle_guc now) o && p o = false).
  { intros o Ho. rewrite visible_idle; [done|done|]. apply Hnil, list_elem_of_In, Ho. }
  unfold billing_db, billing_writes. rewrite filter_false_in, update_rows_nothing by done. simpl.
  rewrite app_nil_r. trans (set_audit (db_audit d) d); [by destruct d|apply set_audit_self].
Qed.
End Laws.

Section ServiceLaws.
Context `{En : Env} `{SH : StripeHost}.

Lemma completion_law d ev org plan :
  db_wp d (apply_checkout_completion ev org plan) (fun r d' =>
    match r with
    | Ok _ => exists d1, plan_set org plan d d1 /\
        event_logged ev (Some org) "checkout.session.completed" "plan_applied" d1 d'
    | Err _ => d' = d \/ plan_set org plan d d'
    end).
Proof.
  intros g. unfold apply_checkout_completion. apply tx_bind, tx_map_err. tx_call update_plan_law.
  intros [[]|e] d1 H1; cbn [result_map_err]; [|by left]. apply tx_bind, tx_map_err.
  tx_call append_event_law. intros [b|e] d2 H2; cbn [result_map_err].
  - apply tx_ret. exists d1. by destruct H2.
  - right. by rewrite H2.
Qed.

Lemma cancelled_law d ev customer :
  db_wp d (apply_subscription_cancelled ev customer) (fun r d' =>
    match r with
    | Ok _ => d' = d \/ exists org d1, plan_set org Free d d1 /\
        event_logged ev (Some org) "customer.subscription.deleted" "plan_applied" d1 d'
    | Err _ => d' = d \/ exists org, plan_set org Free d d'
    end).
Proof.
  intros g. unfold apply_subscription_cancelled. apply tx_bind, tx_map_err.
  tx_call org_for_customer_law. intros [found|e] d0 ->; cbn [result_map_err]; [|by left].
  destruct found as [org|]; [|apply tx_ret; by left].
  apply tx_bind, tx_map_err. tx_call update_plan_law.
  intros [[]|e] d1 H1; cbn [result_map_err]; [|by left]. apply tx_bind, tx_map_err.
  tx_call append_event_law. intros [b|e] d2 H2; cbn [result_map_err].
  - apply tx_ret. right. exists org, d1. by destruct H2.
  - right. exists org. by rewrite H2.
Qed.

Lemma record_event_law d ev ty customer :
  db_wp d (record_event ev ty customer) (fun r d' =>
    match r with
    | Ok written => written = negb (logged ev d) /\
        exists org, event_logged ev org ty "processed" d d'
    | Err _ => d' = d
    end).
Proof.
  intros g. unfold record_event. apply tx_bind.
  assert (Hgo : forall org, tx_wp g d (platform_err (append_event ev org ty "processed"))
    (fun r d' => match r with
    | Ok written => written = negb (logged ev d) /\
        exists org, event_logged ev org ty "processed" d d'
    | Err _ => d' = d end)).
  { intros org. apply tx_map_err. tx_call append_event_law. intros [b|e] d1 H; [|done].
    destruct H as [-> H]. split; [done|]. by exists org. }
  destruct customer as [c|]; [|apply tx_ret, Hgo].
  apply tx_map_err. tx_call org_for_customer_law. intros [org|e] d1 ->; [apply Hgo|done].
Qed.

(** What a verified delivery does to the tables. *)
Inductive delivered (envelope : Json) (d : DB) : result PlatformError unit -> DB -> Prop :=
| delivered_nothing r : delivered envelope d r d
| delivered_event ev org ty d' :
    json_str "id" envelope = Some ev -> event_logged ev org ty "processed" d d' ->
    delivered envelope d (Ok tt) d'
| delivered_plan ev org plan ty d1 d' :
    json_str "id" envelope = Some ev -> plan_set org plan d d1 ->
    event_logged ev (Some org) ty "plan_applied" d1 d' ->
    delivered envelope d (Ok tt) d'
| delivered_half org plan e d' : plan_set org plan d d' -> delivered envelope d (Err e) d'.

Lemma tx_required {A B} g d (o : option A) msg (k : A -> M World PlatformError B) P :
  (forall a, o = Some a -> tx_wp g d (k a) P) -> P (Err (Invalid msg)) d ->
  tx_wp g d (bind (required o msg) k) P.
Proof.
  intros Hk He. apply tx_bind. destruct o as [a|]; [apply tx_ret; by apply Hk|by apply tx_throw].
Qed.

Lemma dispatch_law d envelope : db_wp d (dispatch envelope) (delivered envelope d).
Proof.
  intros g. unfold dispatch. apply tx_required; [intros ev Hev|apply delivered_nothing].
  apply tx_required; [intros ty Hty|apply delivered_nothing]. cbv zeta.
  destruct (String.eqb ty "checkout.session.completed").
  { apply tx_required; [intros obj _|apply delivered_nothing].
    apply tx_required; [intros meta _|apply delivered_nothing].
    apply tx_required; [intros org _|apply delivered_nothing].
    apply tx_required; [intros plan _|apply delivered_nothing].
    apply tx_map_err. tx_call completion_law. intros [[]|e] d' H.
    - destruct H as (d1 & H1 & H2). by eapply delivered_plan.
    - destruct H as [->|H]; [apply delivered_nothing|by eapply delivered_half]. }
  destruct (String.eqb ty "customer.subscription.deleted").
  { destruct (_ ≫= json_str "customer") as [cid|]; [|apply tx_ret, delivered_nothing].
    apply tx_map_err. tx_call cancelled_law. intros [[]|e] d' H.
    - destruct H as [->|(org & d1 & H1 & H2)]; [apply delivered_nothing|by eapply delivered_plan].
    - destruct H as [->|[org H]]; [apply delivered_nothing|by eapply delivered_half]. }
  apply tx_bind, tx_map_err. tx_call record_event_law. intros [b|e] d' H; cbn [result_map_err].
  - apply tx_ret. destruct H as (_ & org & H). by eapply delivered_event.
  - subst. apply delivered_nothing.
Qed.

Lemma delivered_events_unique envelope d r d' :
  delivered envelope d r d' -> events_unique d -> events_unique d'.
Proof.
  intros [r0|ev org ty d1 _ H|ev org plan ty d1 d2 _ Hp H|org plan e d1 Hp] Hu; [done|..].
  - by eapply event_logged_unique.
  - eapply event_logged_unique; [done|]. unfold events_unique. by rewrite (plan_set_events _ _ _ _ Hp).
  - unfold events_unique. by rewrite (plan_set_events _ _ _ _ Hp).
Qed.

Lemma delivered_orgs_production envelope d r d' :
  bypass_rls = false -> Forall (fun o => og_id o <> Uuid_nil) (db_orgs d) ->
  delivered envelope d r d' -> db_orgs d' = db_orgs d.
Proof.
  intros Hb Hnil [r0|ev org ty d1 _ H|ev org plan ty d1 d2 _ (t & now & ->) H|org plan e d1 (t & now & ->)].
  - done.
  - by apply event_logged_orgs in H as [-> _].
  - rewrite billing_idle_nothing in H by done. by apply event_logged_orgs in H as [-> _].
  - by rewrite billing_idle_nothing.
Qed.

(** The delivery carries a signature that verifies at the clock of the call. *)
Definition signed (rq : Request) (body : string) : Prop :=
  exists header n, rq_header rq "stripe-signature" = Some header /\
    verify_signature hmac_sha256 body header stripe_webhook_secret (unix_now n)
      STRIPE_TIMESTAMP_TOLERANCE = Ok tt.

Lemma webhook_law d rq body :
  db_wp d (webhook rq body) (fun r d' =>
    (exists msg, r = Err (Forbidden msg) /\ d' = d) \/
    signed rq body /\
      ((exists e, parse_json body = Err e) /\ is_ok r = false /\ d' = d \/
       exists envelope r', parse_json body = Ok envelope /\ delivered envelope d r' d' /\
         is_ok r = is_ok r')).
Proof.
  intros g. unfold webhook. destruct (rq_header rq "stripe-signature") as [header|] eqn:Hh.
  2: { apply tx_throw. left. by eexists. }
  apply tx_bind, (tx_ticked _ _ unix_now). intros n.
  destruct (verify_signature _ _ _ _ _ _) as [[]|e] eqn:Hv.
  2: { apply tx_throw. left. by eexists. }
  assert (Hs : signed rq body) by by exists header, n.
  apply tx_bind, tx_lift. destruct (parse_json body) as [envelope|e] eqn:Hp; simpl.
  2: { right. split; [done|]. left. split; [by exists e|done]. }
  apply tx_bind. tx_call dispatch_law. intros [[]|e] d' Hd.
  - apply tx_ret. right. split; [done|]. right. by exists envelope, (Ok tt).
  - right. split; [done|]. right. by exists envelope, (Err e).
Qed.
End ServiceLaws.

(** * Properties *)

Section Properties.
Context `{En : Env} `{SH : StripeHost}.


(** Under the production role the webhook never changes an organisation:
    the queries of billing run on the pool without a tenant, so a paid checkout
    is logged as applied while the plan stays as it was. *)
Theorem production_plan_unchanged d rq body org plan ev :
  bypass_rls = false -> Forall (fun o => og_id o <> Uuid_nil) (db_orgs d) ->
  db_wp d (webhook rq body) (fun _ d' => db_orgs d' = db_orgs d) /\
  db_wp d (apply_checkout_completion ev org plan) (fun r d' =>
    db_orgs d' = db_orgs d /\ (r = Ok tt -> logged ev d' = true)).
Proof.
  intros Hb Hnil. split.
  - eapply db_mono; [apply webhook_law|].
    intros r d' [(msg & _ & ->)|[_ [[_ [_ ->]]|(envelope & r' & _ & Hd & _)]]]; [done|done|].
    by eapply delivered_orgs_production.
  - eapply db_mono; [apply completion_law|]. intros [[]|e] d' H.
    + destruct H as (d1 & (t & now & ->) & H). rewrite billing_idle_nothing in H by done.
      by apply event_logged_orgs in H as [-> Hl].
    + destruct H as [->|(t & now & ->)]; [done|]. by rewrite billing_idle_nothing.
Qed.

(** For a role that sees every organisation, a completed checkout puts the
    organisation on the plan, leaves the others alone and has the delivery on
    record; a delivery that was on record already sets the plan again. *)
Theorem completion_applied d ev org plan :
  bypass_rls = true ->
  db_wp d (apply_checkout_completion ev org plan) (fun r d' =>
    match r with
    | Ok _ =>
        Forall (fun o => og_id o = org -> og_plan o = plan) (db_orgs d') /\
        List.filter (fun o => negb (bool_decide (og_id o = org))) (db_orgs d') =
          List.filter (fun o => negb (bool_decide (og_id o = org))) (db_orgs d) /\
        logged ev d' = true /\ (logged ev d = true -> db_sub_events d' = db_sub_events d)
    | Err _ => db_sub_events d' = db_sub_events d
    end).
Proof.
  intros Hb. eapply db_mono; [apply completion_law|]. intros [[]|e] d' H.
  2: { destruct H as [->|H]; [done|by apply plan_set_events in H]. }
  destruct H as (d1 & Hp & He). pose proof (plan_set_events _ _ _ _ Hp) as Hev.
  destruct (event_logged_orgs _ _ _ _ _ _ He) as [-> Hl].
  destruct Hp as (t & now & ->). set (hit := fun o => visible (idle_guc now) o && bool_decide (og_id o = org)).
  assert (Ho : forall l, db_orgs (billing_db t (idle_guc now) (fun o => bool_decide (og_id o = org))
    (with_plan plan) d) = l -> l = update_rows hit (fun o => org_touch now o (with_plan plan o)) (db_orgs d))
    by (intros l <-; by destruct d).
  rewrite (Ho _ eq_refl).
  assert (Hhit : forall o, hit o = bool_decide (og_id o = org)).
  { intros o. unfold hit, visible. simpl. by rewrite Hb. }
  split; [|split; [|split; [done|]]].
  - apply Forall_forall. intros o Hin%list_elem_of_In. apply in_update_rows in Hin as (o0 & _ & ->).
    rewrite Hhit. destruct (bool_decide_reflect (og_id o0 = org)); [done|]. by intros ?.
  - apply filter_update_rows_other. intros o. rewrite Hhit. simpl. intros Ho'. by rewrite Ho'.
  - intros Hlog. destruct He as [[_ ->]|[Hno _]]; [done|].
    by rewrite (logged_same ev _ _ Hev), Hlog in Hno.
Qed.
End Properties.

(** * Concrete deliveries *)

Definition str (k v : string) : JsonField := mkField k (JString v).
Definition completion_event : Json :=
  JObject [str "id" "evt_1"; str "type" "checkout.session.completed";
    mkField "data" (JObject [mkField "object" (JObject
      [str "customer" "cus_1"; mkField "metadata" (JObject
         [str "organization_id" "2"; str "target_plan" "pro"])])])].
Definition cancel_event : Json :=
  JObject [str "id" "evt_2"; str "type" "customer.subscription.deleted";
    mkField "data" (JObject [mkField "object" (JObject [str "customer" "cus_b"])])].

(** The body of a delivery is its name; the secret is [whsec]. *)
Definition demo_stripe : StripeHost := {|
  on_checkout _ p := Ok (mkSessionUrl "https://checkout" (Some "cus_new"%string));
  success_url := "https://ok";
  cancel_url := "https://bail";
  stripe_webhook_secret := "whsec";
  unix_now n := 1700000000 + Z.of_nat n;
  hmac_sha256 := demo_hmac;
  parse_json body :=
    if String.eqb body "completed" then Ok completion_event
    else if String.eqb body "cancelled" then Ok cancel_event else Err "expected value"%string;
|}.
Definition delivery (body : string) : Request :=
  headers [("stripe-signature", signature_header demo_hmac 1700000000 body "whsec")]%string.
Definition deliver (superuser : bool) (body : string)
  : World (H := demo_env_as superuser) -> result PlatformError Z * World (H := demo_env_as superuser) :=
  @webhook (demo_env_as superuser) demo_stripe (delivery body) body.
Definition plans (d : DB) : list BillingPlan := map og_plan (db_orgs d).

(** A completion that Stripe delivers again after the subscription was
    cancelled puts the organisation back on the paid plan. *)
Example plan_resurrected :
  let w1 := (deliver true "completed" (demo_world_as true demo_db)).2 in
  let w2 := (deliver true "cancelled" w1).2 in
  let w3 := (deliver true "completed" w2).2 in
  plans (w_db w1) = [Free; Pro] /\ plans (w_db w2) = [Free; Free] /\
  plans (w_db w3) = [Free; Pro] /\ length (db_sub_events (w_db w3)) = 2%nat.
Proof. vm_compute. auto. Qed.

Lemma production_plan_unchanged_witness :
  (deliver false "completed" (demo_world demo_db)).1 = Ok 200 /\
  plans (w_db (deliver false "completed" (demo_world demo_db)).2) = [Free; Free].
Proof.
  split; [vm_compute; reflexivity|].
  destruct (@production_plan_unchanged demo_env demo_stripe demo_db (delivery "completed") "completed"
    2%N Pro "evt_1" eq_refl ltac:(repeat constructor; discriminate)) as [H _].
  exact (f_equal (map og_plan) (db_run _ _ _ (demo_world demo_db) H eq_refl)).
Defined.

Lemma completion_applied_witness :
  Forall (fun o => og_id o = 2%N -> og_plan o = Pro)
    (db_orgs (w_db (@apply_checkout_completion (demo_env_as true) "evt_9" 2%N Pro
       (demo_world_as true demo_db)).2)).
Proof.
  pose proof (@completion_applied (demo_env_as true) demo_db "evt_9" 2%N Pro eq_refl) as H.
  pose proof (db_run _ _ _ (demo_world_as true demo_db) H eq_refl) as Hr. clear H.
  destruct (apply_checkout_completion "evt_9" 2%N Pro (demo_world_as true demo_db)) as [r w] eqn:E.
  cbn [fst snd] in *. assert (Hok : r = Ok tt).
  { change r with (r, w).1. rewrite <- E. vm_compute. reflexivity. }
  subst r. exact (proj1 Hr).
Defined.
