(* ===== verification/TeamRoutes.v ===== *)
(** The routes of an organisation ([crates/api/src/team.rs], [integrations.rs],
    [audit_log.rs]): members and invitations, the organisation itself, its
    Hetzner credentials, and the pages of its audit log. *)

From stdpp Require Import base gmap strings list pretty sorting.
From S2P Require Import Prelude Errors Integrations Events Schema Database Tables Secrets Safety.
From S2P Require Import Cluster Credentials Membership Sessions Access Billing.

(** [require_self_org] *)
Definition require_self_org (actor : Actor) (org_id : Uuid) : result PlatformError unit :=
  if negb (bool_decide (ac_organization_id actor = org_id))
  then Err (Forbidden "actor's active organization does not match the path")
  else Ok tt.

(** [InviteView] *)
Record InviteView := mkInviteView {
  iw_id : Uuid;
  iw_email : string;
  iw_role : MembershipRole;
  iw_token_prefix : string;
  iw_accepted_at : option Z;
  iw_revoked_at : option Z;
  iw_expires_at : Z;
  iw_created_at : Z;
}.
Definition invite_view (i : Invite) : InviteView :=
  mkInviteView (iv_id i) (iv_email i) (iv_role i) (iv_token_prefix i) (iv_accepted_at i)
    (iv_revoked_at i) (iv_expires_at i) (iv_created_at i).

(** [OrgView] *)
Record OrgView := mkOrgView {
  ow_id : Uuid;
  ow_slug : string;
  ow_display_name : string;
  ow_created_at : Z;
  ow_updated_at : Z;
}.
Definition org_view (o : OrgRow) : OrgView :=
  mkOrgView (og_id o) (og_slug o) (og_display_name o) (og_created_at o) (og_updated_at o).
Definition with_display_name (name : string) (o : OrgRow) : OrgRow :=
  mkOrg (og_id o) (og_slug o) name (og_plan o) (og_stripe_customer_id o) (og_created_at o)
    (og_updated_at o) (og_version o).

(** [integrations.rs: CredentialView] *)
Record CredentialView := mkCredentialView {
  cw_id : Uuid;
  cw_alias : string;
  cw_created_at : Z;
  cw_updated_at : Z;
}.
Definition credential_view (c : HetznerCredential) : CredentialView :=
  mkCredentialView (hc_id c) (hc_alias c) (hc_created_at c) (hc_updated_at c).

Module TeamRoutes.
Section TeamRoutes.
Context `{En : Env}.

(** [.map_err(invite_to_api)] *)
Definition invite_to_api {A} (m : M World InviteError A) : M World PlatformError A :=
  map_err invite_to_platform m.

Definition create_invite_route (owner : OwnerActor) (rq : Request) (org_id : Uuid) (email : string)
    (role : MembershipRole) : M World PlatformError (InviteView * string) :=
  let actor := ow_inner owner in
  lift (require_self_org actor org_id) ;;;
  created <- invite_to_api (create_invite org_id (ac_user_id actor) email role
                              (from_actor_and_headers actor rq)) ;;
  ret (invite_view created.1, created.2).

Definition list_invites_route (actor : Actor) (org_id : Uuid)
  : M World PlatformError (list InviteView) :=
  lift (require_self_org actor org_id) ;;;
  invites <- invite_to_api (list_pending_invites org_id (ac_user_id actor)) ;;
  ret (map invite_view invites).

Definition revoke_invite_route (owner : OwnerActor) (rq : Request) (org_id id : Uuid)
  : M World PlatformError Z :=
  let actor := ow_inner owner in
  lift (require_self_org actor org_id) ;;;
  invite_to_api (revoke_invite org_id id (ac_user_id actor) (from_actor_and_headers actor rq)) ;;;
  ret 204.

Definition list_members_route (actor : Actor) (org_id : Uuid)
  : M World PlatformError (list MembershipView) :=
  lift (require_self_org actor org_id) ;;;
  invite_to_api (list_members org_id (ac_user_id actor)).

Definition update_role_route (owner : OwnerActor) (rq : Request) (org_id user_id : Uuid)
    (role : MembershipRole) : M World PlatformError Z :=
  let actor := ow_inner owner in
  lift (require_self_org actor org_id) ;;;
  invite_to_api (update_role org_id user_id role (ac_user_id actor)
                   (from_actor_and_headers actor rq)) ;;;
  ret 204.

Definition remove_member_route (owner : OwnerActor) (rq : Request) (org_id user_id : Uuid)
  : M World PlatformError Z :=
  let actor := ow_inner owner in
  lift (require_self_org actor org_id) ;;;
  invite_to_api (remove_member org_id user_id (ac_user_id actor) (from_actor_and_headers actor rq)) ;;;
  ret 204.

Definition lookup_user_email (user_id : Uuid) : M World PlatformError string :=
  rows <- on_pool (select (fun _ u => bool_decide (us_id u = user_id))) ;;
  match rows with
  | u :: _ => ret (us_email u)
  | [] => throw (NotFound ("user/" +++ uuid_str user_id))
  end.

Definition accept_invite_route (user : SessionUser) (rq : Request) (token : string)
  : M World PlatformError (Uuid * MembershipRole) :=
  if negb (starts_with INVITE_TOKEN_PREFIX token)
  then throw (Invalid "invite token must start with the kinv_ prefix")
  else
    email <- lookup_user_email (su_user_id user) ;;
    accepted <- invite_to_api (accept_invite token (su_user_id user) email
                                 (from_user_id_and_headers (su_user_id user) rq)) ;;
    ret (iv_organization_id accepted, iv_role accepted).

(** ** The organisation *)

Definition org_mismatch {A} : M World PlatformError A :=
  throw (Forbidden "actor's organization does not match the path").

Definition get_org (actor : Actor) (org_id : Uuid) : M World PlatformError OrgView :=
  if negb (bool_decide (ac_organization_id actor = org_id)) then org_mismatch
  else
    rows <- tenant_tx org_id None (sql (select (fun _ o => bool_decide (og_id o = org_id)))) ;;
    match rows with
    | o :: _ => ret (org_view o)
    | [] => throw (NotFound ("org/" +++ uuid_str org_id))
    end.

(** The length is in bytes; no billing column changes, so no audit entry. *)
Definition update_org (owner : OwnerActor) (org_id : Uuid) (display_name : string)
  : M World PlatformError OrgView :=
  if negb (bool_decide (ac_organization_id (ow_inner owner) = org_id)) then org_mismatch
  else
    let display_name := trim display_name in
    if String.eqb display_name EmptyString
    then throw (Invalid "display_name must not be empty")
    else if (100 <? String.length display_name)%nat
    then throw (Invalid "display_name must be 100 characters or fewer")
    else
      rows <- tenant_tx org_id None
        (sql (update (fun _ o => bool_decide (og_id o = org_id))
                (fun _ => with_display_name display_name))) ;;
      match rows with
      | o :: _ => ret (org_view o)
      | [] => throw (NotFound ("org/" +++ uuid_str org_id))
      end.
End TeamRoutes.
End TeamRoutes.
Export TeamRoutes.

(** * Hetzner credentials ([integrations.rs]) *)

Module CredentialRoutes.
Section CredentialRoutes.
Context `{En : Env} `{St : !SecretStore}.

Definition create_credential_route (owner : OwnerActor) (rq : Request) (alias token : string)
  : M World PlatformError (Z * CredentialView) :=
  let actor := ow_inner owner in
  if String.eqb (trim alias) EmptyString then throw (Invalid "alias must not be empty")
  else if String.eqb (trim token) EmptyString then throw (Invalid "token must not be empty")
  else
    credential <- create_credential (ac_organization_id actor) alias token
                    (from_actor_and_headers actor rq) ;;
    ret (201, credential_view credential).

Definition list_credentials_route (actor : Actor) : M World PlatformError (list CredentialView) :=
  rows <- list_credentials (ac_organization_id actor) ;;
  ret (map credential_view rows).

Definition remove_credential_route (owner : OwnerActor) (rq : Request) (id : Uuid)
  : M World PlatformError Z :=
  let actor := ow_inner owner in
  delete_credential (ac_organization_id actor) id (from_actor_and_headers actor rq) ;;;
  ret 204.
End CredentialRoutes.
End CredentialRoutes.
Export CredentialRoutes.

(** * The audit log ([audit_log.rs]) *)

(** [AuditLogEntry]; the column [reason] is never written. *)
Record AuditLogEntry := mkLogEntry {
  le_id : Uuid;
  le_action : string;
  le_resource_type : string;
  le_resource_id : string;
  le_decision : string;
  le_actor_user_id : option Uuid;
  le_actor_email : option string;
  le_actor_display_name : option string;
  le_request_id : option string;
  le_created_at : Z;
}.

Section AuditLog.
Context `{En : Env}.

(** [LEFT JOIN users u ON u.id = e.actor_user_id] *)
Definition log_entry (d : DB) (e : AuditEntry) : AuditLogEntry :=
  let user := au_actor_user_id e ≫= fun id =>
                List.find (fun u => bool_decide (us_id u = id)) (db_users d) in
  mkLogEntry (au_id e) (au_action e) (au_resource_type e) (au_resource_id e) (au_decision e)
    (au_actor_user_id e) (us_email <$> user) (us_display_name <$> user) (au_request_id e)
    (au_created_at e).

(** [e.id < $2], [ORDER BY e.id DESC] *)
Definition before_cursor (before : option Uuid) (e : AuditEntry) : bool :=
  match before with Some b => (au_id e <? b)%N | None => true end.
Definition id_desc (a b : AuditEntry) : bool := (au_id b <=? au_id a)%N.

Definition audit_page (org_id : Uuid) (before : option Uuid) (limit : nat) (d : DB)
  : list AuditEntry :=
  firstn limit (sort_by id_desc (List.filter (fun e =>
    bool_decide (au_organization_id e = org_id) && before_cursor before e) (db_audit d))).

(** [q.limit.unwrap_or(50).clamp(1, 200)] of a [u32]. *)
Definition page_size (limit : option Z) : nat :=
  Z.to_nat (Z.max 1 (Z.min 200 (default 50 limit))).

(** The policy of [audit_log_entries] repeats the condition on the tenant. *)
Definition list_audit_log (owner : OwnerActor) (org_id : Uuid) (before : option Uuid)
    (limit : option Z) : M World PlatformError (list AuditLogEntry) :=
  if negb (bool_decide (ac_organization_id (ow_inner owner) = org_id))
  then throw (Forbidden "actor's active organization does not match the path")
  else
    tenant_tx org_id None
      (sql (stmt (fun w => (Ok (map (log_entry (w_db w))
                                 (audit_page org_id before (page_size limit) (w_db w))), w)))).

(** The page of the dashboard: the first request, then [loadMore] from the last
    entry shown while the pages come full. *)
Fixpoint read_log (fuel : nat) (owner : OwnerActor) (org_id : Uuid) (before : option Uuid)
    (limit : option Z) : M World PlatformError (list AuditLogEntry) :=
  match fuel with
  | O => ret []
  | S fuel' =>
      page <- list_audit_log owner org_id before limit ;;
      match last page with
      | Some e =>
          if (length page <? page_size limit)%nat then ret page
          else rest <- read_log fuel' owner org_id (Some (le_id e)) limit ;; ret (page ++ rest)
      | None => ret page
      end
  end.
End AuditLog.

Section AuditLogLaws.
Context `{En : Env}.

(** The entries of the organisation behind the cursor, newest id first. *)
Definition log_from (org_id : Uuid) (before : option Uuid) (d : DB) : list AuditEntry :=
  sort_by id_desc (List.filter (fun e =>
    bool_decide (au_organization_id e = org_id) && before_cursor before e) (db_audit d)).

Lemma id_desc_total a b : id_desc a b = false -> id_desc b a = true.
Proof. unfold id_desc. rewrite N.leb_gt, N.leb_le. lia. Qed.
Lemma id_desc_trans a b c : id_desc a b = true -> id_desc b c = true -> id_desc a c = true.
Proof. unfold id_desc. rewrite !N.leb_le. lia. Qed.

Lemma log_from_before org before d :
  log_from org before d = List.filter (before_cursor before) (log_from org None d).
Proof.
  unfold log_from. rewrite filter_sort_by by eauto using id_desc_total, id_desc_trans.
  f_equal. induction (db_audit d) as [|e l IH]; simpl; [done|].
  case_bool_decide; simpl; [|done]. destruct (before_cursor before e); by rewrite IH.
Qed.

Lemma log_from_in org before d e :
  In e (log_from org before d) ->
  In e (db_audit d) /\ au_organization_id e = org /\ before_cursor before e = true.
Proof.
  intros H. apply in_sort_by, filter_In in H as [Hin [Ho%bool_decide_eq_true Hb]%andb_true_iff].
  done.
Qed.

(** What is left behind the last entry of a page. *)
Lemma log_from_next org before d pre e post :
  NoDup (map au_id (log_from org None d)) ->
  log_from org before d = pre ++ e :: post ->
  log_from org (Some (au_id e)) d = post.
Proof.
  intros Hnd Heq.
  assert (Hs : sorted id_desc (pre ++ e :: post)).
  { rewrite <- Heq. apply sort_by_sorted, id_desc_total. }
  assert (Hn : NoDup (map au_id (pre ++ e :: post))).
  { rewrite <- Heq, log_from_before. by apply NoDup_map_filter. }
  assert (He : before_cursor before e = true).
  { apply (log_from_in org before d). rewrite Heq. apply in_or_app. right. by left. }
  rewrite log_from_before.
  rewrite <- (filter_narrow _ (before_cursor before)).
  2: { intros x. simpl. destruct before as [b|]; [|done]. simpl in *.
       rewrite !N.ltb_lt in *. lia. }
  rewrite <- log_from_before, Heq, List.filter_app. simpl. rewrite N.ltb_irrefl.
  rewrite map_app in Hn. simpl in Hn. apply NoDup_app in Hn as (_ & _ & Hn%NoDup_cons).
  destruct Hn as [Hne _]. apply Sorted_StronglySorted in Hs; [|intros a b c; apply id_desc_trans].
  apply StronglySorted_app in Hs as (Hpre & _ & Hpost).
  rewrite filter_false_in, filter_true_in; [done|..].
  - intros x Hx. apply StronglySorted_inv in Hpost as [_ Hall].
    rewrite List.Forall_forall in Hall. specialize (Hall x Hx). unfold id_desc in Hall.
    rewrite N.leb_le in Hall. apply N.ltb_lt.
    assert (au_id x <> au_id e); [|lia]. intros E. apply Hne, list_elem_of_In.
    rewrite <- E. by apply in_map.
  - intros x Hx. specialize (Hpre x e). apply N.ltb_ge.
    apply N.leb_le, Hpre; [by apply list_elem_of_In|by left].
Qed.
End AuditLogLaws.

Section ReadLog.
Context `{En : Env}.

Definition owns (owner : OwnerActor) (org_id : Uuid) : Prop :=
  ac_organization_id (ow_inner owner) = org_id.

Lemma page_size_bounds limit : (1 <= page_size limit <= 200)%nat.
Proof. unfold page_size. lia. Qed.

Lemma list_audit_log_law d owner org_id before limit :
  db_wp d (list_audit_log owner org_id before limit) (fun r d' => d' = d /\
    match r with
    | Ok page => owns owner org_id /\
        page = map (log_entry d) (firstn (page_size limit) (log_from org_id before d))
    | Err (Forbidden _) => ~ owns owner org_id
    | Err _ => faulty
    end).
Proof.
  intros g. unfold list_audit_log, owns. case_bool_decide as Ho; simpl; [|by apply tx_throw].
  eapply tx_mono; [apply (db_tenant_tx _ _ _ _ (fun r d' => d' = d /\
    match r with
    | Ok page => page = map (log_entry d) (firstn (page_size limit) (log_from org_id before d))
    | Err e => faulty /\ e = of_db DbTransport
    end))|].
  - by intros Hf.
  - intros now. apply tx_map_err, tx_stmt; [by intros Hf|]. by intros w <- _.
  - intros [page|e] d' [-> H]; [by rewrite H|]. by destruct H as [? ->].
Qed.

Lemma last_map {A B} (f : A -> B) l : last (map f l) = f <$> last l.
Proof. induction l as [|x [|y l] IH]; [done..|exact IH]. Qed.

Lemma read_log_law d owner org_id limit fuel before :
  owns owner org_id ->
  NoDup (map au_id (log_from org_id None d)) ->
  (length (log_from org_id before d) < fuel)%nat ->
  db_wp d (read_log fuel owner org_id before limit) (fun r d' => d' = d /\
    match r with
    | Ok entries => entries = map (log_entry d) (log_from org_id before d)
    | Err _ => faulty
    end).
Proof.
  intros Ho Hnd. revert before. induction fuel as [|fuel IH]; intros before Hfuel g; [lia|].
  pose proof (page_size_bounds limit) as Hsize. simpl. apply tx_bind.
  tx_call list_audit_log_law. intros [page|e] d' [-> H]; [|by destruct e].
  destruct H as [_ ->]. rewrite last_map, length_map. set (l := log_from org_id before d) in *.
  destruct (last (firstn (page_size limit) l)) as [e|] eqn:El; simpl.
  2: { apply tx_ret. split; [done|]. apply last_None in El.
       destruct l; [by rewrite firstn_nil|]. by destruct (page_size limit); [lia|]. }
  rewrite length_firstn. destruct (Nat.ltb_spec (Nat.min (page_size limit) (length l)) (page_size limit)).
  { apply tx_ret. split; [done|]. f_equal. apply firstn_all2. lia. }
  apply last_Some in El as [pre El].
  assert (Hl : l = pre ++ e :: skipn (page_size limit) l).
  { rewrite <- (firstn_skipn (page_size limit) l) at 1. rewrite El. by rewrite <- app_assoc. }
  pose proof (log_from_next _ _ _ _ _ _ Hnd Hl) as Hnext.
  apply tx_bind. eapply tx_mono; [apply (IH (Some (au_id e)))|].
  { rewrite Hnext, length_skipn. lia. }
  intros [rest|err] d' [-> Hr]; [|done]. apply tx_ret. split; [done|].
  by rewrite Hr, Hnext, <- map_app, firstn_skipn.
Qed.

(** C29: Reading the audit log page by page shows an owner every entry of the
    organisation exactly once, newest id first, whatever the page size: with
    distinct ids, one request more than there are entries is enough, nothing is
    written, and only a failing round trip stops it. *)
Theorem audit_pages_complete d owner org_id limit fuel :
  owns owner org_id ->
  NoDup (map au_id (log_from org_id None d)) ->
  (length (log_from org_id None d) < fuel)%nat ->
  db_wp d (read_log fuel owner org_id None limit) (fun r d' => d' = d /\
    match r with
    | Ok entries => exists l, entries = map (log_entry d) l /\
        sorted id_desc l /\
        l ≡ₚ List.filter (fun e => bool_decide (au_organization_id e = org_id)) (db_audit d)
    | Err _ => faulty
    end).
Proof.
  intros Ho Hnd Hfuel. eapply db_mono; [by apply (read_log_law _ _ _ limit _ _ Ho Hnd Hfuel)|].
  intros [entries|e] d' [-> H]; (split; [done|]); [|done].
  exists (log_from org_id None d). split; [done|]. split.
  - apply sort_by_sorted, id_desc_total.
  - unfold log_from. rewrite sort_by_perm. erewrite List.filter_ext; [reflexivity|].
    intros e. simpl. by rewrite andb_true_r.
Qed.
End ReadLog.

(** Five entries of two organisations, read two at a time. *)
Definition demo_entry (org id : Uuid) : AuditEntry :=
  mkAudit id org (Some 5%N) "clusters.created" "clusters" "3" "allowed" None None None "#" 7.
Definition demo_log : DB :=
  set_audit [demo_entry 1 30; demo_entry 2 31; demo_entry 1 12; demo_entry 1 77; demo_entry 1 5]%N
    demo_db.
Definition demo_log_owner : OwnerActor := mkOwnerActor (mkActor 5%N 50%N 1%N) Owner.

Example two_entries_a_page :
  match (read_log (En := demo_env) 5 demo_log_owner 1%N None (Some 2) (demo_world demo_log)).1 with
  | Ok l => map le_id l = [77; 30; 12; 5]%N
  | Err _ => False
  end.
Proof. vm_compute. reflexivity. Qed.

Lemma audit_pages_complete_witness :
  w_db (read_log (En := demo_env) 5 demo_log_owner 1%N None (Some 2) (demo_world demo_log)).2 = demo_log.
Proof.
  pose proof (@audit_pages_complete demo_env demo_log demo_log_owner 1%N (Some 2) 5 eq_refl
    ltac:(apply (bool_decide_unpack _); vm_compute; exact I) ltac:(vm_compute; lia)) as H.
  exact (proj1 (db_run _ _ _ (demo_world demo_log) H eq_refl)).
Defined.
