(* ===== verification/Metrics.v ===== *)
(** Metrics ([crates/observability/src/metrics.rs],
    [crates/api/src/observability.rs]): the in-memory store, the text the
    VictoriaMetrics store writes and the selector it queries with, and the tenant
    guard in front of both. *)

From Stdlib Require Import Ascii.
From stdpp Require Import base gmap strings list pretty.
From S2P Require Import Prelude Errors Schema.

(** [f64], with the conversions the code uses. *)
Class Float := { f64 : Type; f64_str : f64 -> string }.

(** [Label] *)
Record Label := mkLabel { lb_name : string; lb_value : string }.

Section Data.
Context `{F : Float}.
(** [Sample] *)
Record Sample := mkSample { sm_labels : list Label; sm_timestamp_ms : Z; sm_value : f64 }.
(** [WriteRequest] *)
Record WriteRequest := mkWrite { wr_organization_id : Uuid; wr_samples : list Sample }.
End Data.

(** [RangeQuery] *)
Record RangeQuery := mkQuery {
  rq_metric : string;
  rq_label_eq : list Label;
  rq_start_ms : Z;
  rq_end_ms : Z;
}.

(** [MetricsError] *)
Inductive MetricsError :=
| TenantMismatch (actor body : Uuid)
| Backend (msg : string).

(** [observability.rs: metrics_error_to_api] *)
Definition metrics_error_to_api `{En : Env} (e : MetricsError) : PlatformError :=
  match e with
  | TenantMismatch actor body =>
      Forbidden ("tenant mismatch: actor=<" +++ uuid_str actor +++ "> body=<" +++ uuid_str body +++ ">")
  | Backend inner => Internal inner
  end.

(** * The store in memory *)

Module InMemory.
Section InMemory.
Context `{F : Float}.

Definition Store : Type := gmap Uuid (list Sample).

(** [guard.entry(organization_id).or_default().extend(samples)] *)
Definition ingest (organization_id : Uuid) (samples : list Sample) : M Store MetricsError nat :=
  fun s => (Ok (length samples),
            <[organization_id := default [] (s !! organization_id) ++ samples]> s).

(** [labels.iter().find(|l| l.name == "__name__")] *)
Definition metric_name (s : Sample) : option string :=
  lb_value <$> List.find (fun l => String.eqb (lb_name l) "__name__") (sm_labels s).

Definition sample_matches (s : Sample) (q : RangeQuery) : bool :=
  if (sm_timestamp_ms s <? rq_start_ms q) || (rq_end_ms q <? sm_timestamp_ms s) then false
  else if negb (bool_decide (metric_name s = Some (rq_metric q))) then false
  else forallb (fun m => existsb (fun l =>
         String.eqb (lb_name l) (lb_name m) && String.eqb (lb_value l) (lb_value m)) (sm_labels s))
       (rq_label_eq q).

Definition query_range (organization_id : Uuid) (q : RangeQuery) : M Store MetricsError (list Sample) :=
  fun s => (Ok match s !! organization_id with
               | None => []
               | Some samples => List.filter (fun x => sample_matches x q) samples
               end, s).

(** ** Dispatch *)

Definition handle_write (actor_organization_id : Uuid) (request : WriteRequest)
  : M Store MetricsError nat :=
  if negb (bool_decide (actor_organization_id = wr_organization_id request))
  then throw (TenantMismatch actor_organization_id (wr_organization_id request))
  else ingest actor_organization_id (wr_samples request).
Definition handle_query (actor_organization_id : Uuid) (q : RangeQuery)
  : M Store MetricsError (list Sample) := query_range actor_organization_id q.
End InMemory.
End InMemory.
Export InMemory.

(** * VictoriaMetrics *)

Definition dquote : Ascii.ascii := "034"%char.
Definition newline : Ascii.ascii := "010"%char.
Definition tab : Ascii.ascii := "009"%char.
Definition quoted (s : string) : string := String dquote (s +++ String dquote EmptyString).
(** [parts.join(",")] *)
Definition join_comma (parts : list string) : string :=
  match parts with
  | [] => EmptyString
  | x :: rest => fold_left (fun acc p => acc +++ "," +++ p) rest x
  end.

Definition prom_escape (s : string) : string :=
  str_replace (String newline EmptyString) "\n"
    (str_replace (String dquote EmptyString) (String "\"%char (String dquote EmptyString))
       (str_replace "\" "\\" s)).

Module Victoria.
Section Victoria.
Context `{En : Env} `{F : Float}.

Definition matcher (name value : string) : string := name +++ "=" +++ quoted value.

(** [to_prom_text]: one line per sample. *)
Definition prom_line (organization_id : Uuid) (s : Sample) : string :=
  let name := default "unknown"%string (metric_name s) in
  let parts := map (fun l => matcher (lb_name l) (prom_escape (lb_value l)))
                 (List.filter (fun l => negb (String.eqb (lb_name l) "__name__")
                                        && negb (String.eqb (lb_name l) "organization_id"))
                    (sm_labels s))
               ++ [matcher "organization_id" (uuid_str organization_id)] in
  name +++ "{" +++ join_comma parts +++ "}" +++ String tab (f64_str (sm_value s) +++ " "
    +++ pretty (sm_timestamp_ms s) +++ String newline EmptyString).
Definition to_prom_text (organization_id : Uuid) (samples : list Sample) : string :=
  fold_left (fun out s => out +++ prom_line organization_id s) samples EmptyString.

Definition promql_selector (organization_id : Uuid) (q : RangeQuery) : string :=
  "{" +++ join_comma
    ([matcher "__name__" (prom_escape (rq_metric q));
      matcher "organization_id" (uuid_str organization_id)]
     ++ map (fun l => matcher (lb_name l) (prom_escape (lb_value l))) (rq_label_eq q)) +++ "}".

(** The step of a range query, in seconds; the difference is an [i64]. *)
Definition step_secs (q : RangeQuery) : Z :=
  let window_secs := Z.quot (Z.max (wrap_i64 (rq_end_ms q - rq_start_ms q)) 0) 1000 in
  Z.max (Z.quot window_secs 360) 15.
End Victoria.
End Victoria.
Export Victoria.

(** * Reading a selector

    The part of PromQL the store uses, as the server reads it: selectors of
    equality matchers, joined by [or]. *)

Definition ident_char (c : Ascii.ascii) : bool :=
  let n := Ascii.nat_of_ascii c in
  ((48 <=? n) && (n <=? 57) || (65 <=? n) && (n <=? 90) || (97 <=? n) && (n <=? 122) || (n =? 95))%nat.

Fixpoint lex_ident (s : string) : string * string :=
  match s with
  | String c s' => if ident_char c then let '(i, r) := lex_ident s' in (String c i, r)
                   else (EmptyString, s)
  | EmptyString => (EmptyString, s)
  end.

Definition unescape (c : Ascii.ascii) : option Ascii.ascii :=
  if Ascii.eqb c "n"%char then Some newline
  else if Ascii.eqb c dquote || Ascii.eqb c "\"%char then Some c
  else None.

Definition push (c : Ascii.ascii) (o : option (string * string)) : option (string * string) :=
  match o with Some (v, r) => Some (String c v, r) | None => None end.

(** The contents of a string literal, behind its opening quote. *)
Fixpoint lex_string (s : string) : option (string * string) :=
  match s with
  | EmptyString => None
  | String c s' =>
      if Ascii.eqb c dquote then Some (EmptyString, s')
      else if Ascii.eqb c newline then None
      else if Ascii.eqb c "\"%char then
        match s' with
        | String e s'' => match unescape e with Some d => push d (lex_string s'') | None => None end
        | EmptyString => None
        end
      else push c (lex_string s')
  end.

Definition Matchers : Type := list (string * string).

(** [name="value"], then [,] or [}]. *)
Fixpoint parse_matchers (fuel : nat) (s : string) : option (Matchers * string) :=
  match fuel with
  | O => None
  | S fuel' =>
      let '(name, r) := lex_ident s in
      match name, r with
      | String _ _, String "="%char (String q r') =>
          if negb (Ascii.eqb q dquote) then None else
          match lex_string r' with
          | Some (value, String ","%char r'') =>
              match parse_matchers fuel' r'' with
              | Some (l, rest) => Some ((name, value) :: l, rest)
              | None => None
              end
          | Some (value, String "}"%char r'') => Some ([(name, value)], r'')
          | _ => None
          end
      | _, _ => None
      end
  end.

(** The selectors of a query. *)
Fixpoint parse_query (fuel : nat) (s : string) : option (list Matchers) :=
  match fuel with
  | O => None
  | S fuel' =>
      match s with
      | String "{"%char r =>
          match parse_matchers fuel r with
          | Some (l, EmptyString) => Some [l]
          | Some (l, rest) =>
              match strip_prefix " or " rest with
              | Some rest' => match parse_query fuel' rest' with
                              | Some ls => Some (l :: ls)
                              | None => None
                              end
              | None => None
              end
          | None => None
          end
      | _ => None
      end
  end.
Definition read_query (s : string) : option (list Matchers) := parse_query (String.length s) s.

(** A label name Prometheus accepts. *)
Definition ident (s : string) : bool := negb (String.eqb s EmptyString) && all_chars ident_char s.

Section Reading.
Lemma lex_ident_app s c rest :
  all_chars ident_char s = true -> ident_char c = false ->
  lex_ident (s +++ String c rest) = (s, String c rest).
Proof.
  intros Hs Hc. induction s as [|d s IH]; simpl in *; [by rewrite Hc|].
  apply andb_true_iff in Hs as [Hd Hs]. by rewrite Hd, IH.
Qed.

(** The escaping of one character. *)
Definition prom_escape_char (c : Ascii.ascii) : string :=
  if Ascii.eqb c "\"%char then "\\"
  else if Ascii.eqb c dquote then String "\"%char (String dquote EmptyString)
  else if Ascii.eqb c newline then "\n"
  else String c EmptyString.

Lemma str_replace_app a to s t :
  str_replace (String a EmptyString) to (s +++ t) =
  str_replace (String a EmptyString) to s +++ str_replace (String a EmptyString) to t.
Proof.
  induction s as [|c s IH]; [done|]. rewrite append_cons, !str_replace_char, IH.
  destruct (Ascii.eqb a c); by autorewrite with str.
Qed.

Lemma prom_escape_cons c s : prom_escape (String c s) = prom_escape_char c +++ prom_escape s.
Proof.
  unfold prom_escape. rewrite str_replace_char, Ascii.eqb_sym. unfold prom_escape_char.
  destruct (Ascii.eqb c "\"%char) eqn:E1; [by rewrite !str_replace_app|].
  rewrite str_replace_char, Ascii.eqb_sym.
  destruct (Ascii.eqb c dquote) eqn:E2; [by rewrite str_replace_app|].
  rewrite str_replace_char, Ascii.eqb_sym. by destruct (Ascii.eqb c newline).
Qed.

Lemma lex_string_escape v rest :
  lex_string (prom_escape v +++ String dquote rest) = Some (v, rest).
Proof.
  induction v as [|c v IH]; [done|]. rewrite prom_escape_cons, append_assoc.
  set (tail := prom_escape v +++ String dquote rest) in *.
  assert (Hstep : lex_string (prom_escape_char c +++ tail) = push c (lex_string tail)).
  { unfold prom_escape_char. destruct (Ascii.eqb c "\"%char) eqn:E1; [by apply Ascii.eqb_eq in E1 as ->|].
    destruct (Ascii.eqb c dquote) eqn:E2; [by apply Ascii.eqb_eq in E2 as ->|].
    destruct (Ascii.eqb c newline) eqn:E3; [by apply Ascii.eqb_eq in E3 as ->|].
    rewrite append_cons, append_nil_l. cbn [lex_string]. by rewrite E2, E3, E1. }
  by rewrite Hstep, IH.
Qed.
End Reading.

(** * Properties *)

Section Selectors.
Context `{En : Env} `{F : Float}.

Lemma join_comma_cons x y l : join_comma (x :: y :: l) = x +++ "," +++ join_comma (y :: l).
Proof.
  unfold join_comma. simpl. revert y. induction l as [|z l IH]; intros y; simpl; [done|].
  rewrite <- IH. by autorewrite with str.
Qed.

Definition render (m : string * string) : string := matcher m.1 (prom_escape m.2).

Lemma parse_one fuel name value c rest :
  ident name = true ->
  parse_matchers (S fuel) (render (name, value) +++ String c rest) =
  if Ascii.eqb c ","%char
  then match parse_matchers fuel rest with Some (l, r) => Some ((name, value) :: l, r) | None => None end
  else if Ascii.eqb c "}"%char then Some ([(name, value)], rest) else None.
Proof.
  intros [Hne Hid]%andb_true_iff. unfold render, matcher, quoted. cbn [fst snd parse_matchers].
  rewrite append_assoc. change ("=" +++ ?s) with (String "="%char s).
  rewrite append_cons, lex_ident_app by done. destruct name as [|d name]; [done|].
  rewrite append_cons. cbn [negb Ascii.eqb Bool.eqb dquote]. rewrite append_assoc, append_cons, append_nil_l.
  rewrite lex_string_escape.
  destruct c as [[] [] [] [] [] [] [] []]; reflexivity.
Qed.

Lemma parse_matchers_join ms fuel rest :
  ms <> [] -> Forall (fun m => ident m.1 = true) ms -> (length ms <= fuel)%nat ->
  parse_matchers fuel (join_comma (map render ms) +++ String "}"%char rest) = Some (ms, rest).
Proof.
  intros Hne Hid. revert fuel. induction Hid as [|[n v] ms Hn Hid IH]; intros fuel Hf; [done|].
  destruct fuel as [|fuel]; [simpl in Hf; lia|]. destruct ms as [|m ms].
  - cbn [map join_comma fold_left]. by rewrite parse_one.
  - cbn [map]. rewrite join_comma_cons, append_assoc.
    change ("," +++ ?s) with (String ","%char s). rewrite append_cons, parse_one by done.
    cbn [Ascii.eqb Bool.eqb]. cbn [map] in IH. by rewrite IH by (done || (simpl in *; lia)).
Qed.

Lemma length_append s t : String.length (s +++ t) = (String.length s + String.length t)%nat.
Proof. induction s as [|c s IH]; simpl; [done|]. by rewrite IH. Qed.

Lemma length_join ms : (length ms <= String.length (join_comma (map render ms)))%nat.
Proof.
  induction ms as [|m [|m' ms] IH]; [simpl; lia| |].
  - cbn [map join_comma fold_left]. unfold render, matcher, quoted.
    rewrite !length_append. simpl. lia.
  - cbn [map] in *. rewrite join_comma_cons, !length_append. simpl in *. lia.
Qed.

(** The characters that need no escape in a string literal. *)
Definition literal_char (c : Ascii.ascii) : bool :=
  negb (Ascii.eqb c "\"%char) && negb (Ascii.eqb c dquote) && negb (Ascii.eqb c newline).

Lemma prom_escape_literal s : all_chars literal_char s = true -> prom_escape s = s.
Proof.
  induction s as [|c s IH]; simpl; [done|]. intros [Hc Hs]%andb_true_iff.
  rewrite prom_escape_cons, IH by done. unfold prom_escape_char, literal_char in *.
  destruct (Ascii.eqb c "\"%char), (Ascii.eqb c dquote), (Ascii.eqb c newline); done.
Qed.

Lemma selector_law organization_id q :
  all_chars literal_char (uuid_str organization_id) = true ->
  Forall (fun l => ident (lb_name l) = true) (rq_label_eq q) ->
  read_query (promql_selector organization_id q) =
    Some [("__name__"%string, rq_metric q) :: ("organization_id"%string, uuid_str organization_id)
            :: map (fun l => (lb_name l, lb_value l)) (rq_label_eq q)].
Proof.
  intros Hu Hid. set (ms := _ :: _ :: _).
  assert (Hsel : promql_selector organization_id q =
    String "{"%char (join_comma (map render ms) +++ String "}"%char EmptyString)).
  { unfold promql_selector, ms. change ("{" +++ ?s) with (String "{"%char s). do 3 f_equal.
    cbn [map]. unfold render at 1 2. cbn [fst snd]. rewrite (prom_escape_literal (uuid_str _)) by done.
    by rewrite map_map. }
  rewrite Hsel. unfold read_query. cbn [String.length parse_query].
  rewrite parse_matchers_join; [done|done| |].
  - repeat constructor. apply Forall_forall. intros m Hm. apply list_elem_of_In in Hm.
    apply in_map_iff in Hm as (l & <- & Hl). rewrite Forall_forall in Hid.
    apply Hid. by apply list_elem_of_In.
  - rewrite length_append. pose proof (length_join ms). simpl in *. lia.
Qed.

(** A query whose label names are identifiers reads as one selector with
    exactly the matchers asked for, the tenant's among them: no metric name and
    no label value, whatever its characters, changes how the selector reads. *)
Theorem selector_scoped organization_id q :
  all_chars literal_char (uuid_str organization_id) = true ->
  Forall (fun l => ident (lb_name l) = true) (rq_label_eq q) ->
  read_query (promql_selector organization_id q) =
    Some [("__name__"%string, rq_metric q) :: ("organization_id"%string, uuid_str organization_id)
            :: map (fun l => (lb_name l, lb_value l)) (rq_label_eq q)].
Proof. apply selector_law. Qed.
End Selectors.

Section InMemoryLaws.
Context `{F : Float}.

(** The samples of the requests accepted for a tenant, in order. *)
Definition written (organization_id : Uuid) (requests : list (Uuid * WriteRequest)) : list Sample :=
  concat (map (fun '(actor, r) =>
    if bool_decide (actor = wr_organization_id r) && bool_decide (actor = organization_id)
    then wr_samples r else []) requests).

Definition write_all (requests : list (Uuid * WriteRequest)) (s : Store) : Store :=
  fold_left (fun s '(actor, r) => (handle_write actor r s).2) requests s.

Lemma handle_write_samples actor r s org :
  default [] ((handle_write actor r s).2 !! org) =
  default [] (s !! org) ++ written org [(actor, r)].
Proof.
  unfold handle_write, written. simpl. rewrite app_nil_r.
  destruct (decide (actor = wr_organization_id r)) as [Heq|Hne].
  2: { rewrite (bool_decide_false _ Hne). simpl. by rewrite app_nil_r. }
  rewrite (bool_decide_true _ Heq). cbn [negb andb ingest snd].
  destruct (decide (actor = org)) as [->|Ho].
  - rewrite bool_decide_true by done. unfold Store. by rewrite lookup_insert_eq.
  - rewrite bool_decide_false by done. unfold Store. by rewrite lookup_insert_ne, app_nil_r.
Qed.

Lemma write_all_samples requests s org :
  default [] (write_all requests s !! org) = default [] (s !! org) ++ written org requests.
Proof.
  revert s. induction requests as [|[actor r] rest IH]; intros s; simpl; [by rewrite app_nil_r|].
  rewrite IH, handle_write_samples. unfold written. simpl. by rewrite app_nil_r, <- app_assoc.
Qed.

(** Whatever was posted to the in-memory store by whomever, a query answers
    with exactly the matching samples of the actor's own accepted requests, in
    the order they came; a request that claims another tenant is refused and
    changes nothing. *)
Theorem store_isolated requests actor q body s :
  (handle_query actor q (write_all requests ∅)).1 =
    Ok (List.filter (fun x => sample_matches x q) (written actor requests)) /\
  (actor <> wr_organization_id body ->
     handle_write actor body s = (Err (TenantMismatch actor (wr_organization_id body)), s)).
Proof.
  split.
  - unfold handle_query, query_range. simpl. pose proof (write_all_samples requests ∅ actor) as H.
    unfold Store in H. rewrite lookup_empty in H. cbn in H. rewrite <- H. by destruct (_ !! actor).
  - intros Hne. unfold handle_write. by rewrite bool_decide_false.
Qed.
End InMemoryLaws.

(** * Label names are not escaped *)

Definition demo_float : Float := {| f64 := Z; f64_str := pretty |}.

(** A label name of a query ends the selector and adds one for tenant 8. *)
Definition hostile_query : RangeQuery :=
  mkQuery "m" [mkLabel ("x=" +++ quoted "a" +++ "} or {organization_id") "8"] 0 10.
Theorem selector_escaped :
  @read_query (@promql_selector demo_env 7%N hostile_query) =
    Some [[("__name__", "m"); ("organization_id", "7"); ("x", "a")]; [("organization_id", "8")]]%string.
Proof. vm_compute. reflexivity. Qed.

(** A metric name writes a line of its own, for tenant 8. *)
Definition hostile_line : string :=
  "m{organization_id=" +++ quoted "8" +++ "} 1 1" +++ String newline EmptyString.
Theorem prom_text_escaped :
  @to_prom_text demo_env demo_float 7%N
    [@mkSample demo_float [mkLabel "__name__" (hostile_line +++ "m")] 5 3] =
  hostile_line +++ "m{organization_id=" +++ quoted "7" +++ "}" +++ String tab ("3 5" +++ String newline EmptyString).
Proof. vm_compute. reflexivity. Qed.

Lemma selector_scoped_witness :
  read_query (@promql_selector demo_env 7%N (mkQuery (quoted "up\") [mkLabel "job" "a,b}"] 0 10)) =
    Some [[("__name__"%string, quoted "up\"); ("organization_id"%string, "7"%string);
           ("job"%string, "a,b}"%string)]].
Proof.
  apply (@selector_scoped demo_env 7%N (mkQuery (quoted "up\") [mkLabel "job" "a,b}"] 0 10)).
  - vm_compute. reflexivity.
  - repeat constructor.
Defined.

Lemma store_isolated_witness :
  7%N <> wr_organization_id (@mkWrite demo_float 8%N []) /\
  @handle_write demo_float 7%N (mkWrite 8%N []) ∅ = (Err (TenantMismatch 7%N 8%N), ∅).
Proof.
  split; [discriminate|].
  apply (@store_isolated demo_float [] 7%N hostile_query (mkWrite 8%N []) ∅). discriminate.
Defined.
