(* ===== verification/Victoria.v ===== *)
(** The client of VictoriaMetrics ([crates/observability/src/metrics.rs]:
    [VictoriaMetricsStore]): the requests it makes for a tenant, the decoding of the
    answers, and what a server that reads the Prometheus formats makes of them. *)

From Stdlib Require Import Ascii.
From stdpp Require Import base gmap strings list pretty.
From S2P Require Import Prelude Errors Schema Metrics.

(** The serde shapes of [prom_resp]; a metric is a map, read in some order. *)
Record Series `{F : Float} := mkSeries {
  se_metric : list (string * string);
  se_values : list (f64 * string);
}.
Record Envelope `{F : Float} := mkEnvelope {
  ev_status : string;
  ev_data : option (list Series);
  ev_error_type : option string;
  ev_error : option string;
}.

(** The three requests, and an answer: its status, its text if it can be read, and
    its JSON as an [Envelope]. *)
Inductive VmRequest :=
| ImportText (url body : string)
| RemoteWrite (url body : string)
| QueryRange (url : string) (params : list (string * string)).
Record VmAnswer `{F : Float} := mkVmAnswer {
  vr_status : Z;
  vr_text : option string;
  vr_envelope : result string Envelope;
}.

Arguments mkSeries {F} _ _.
Arguments mkEnvelope {F} _ _ _ _.
Arguments mkVmAnswer {F} _ _ _.

(** The exchange with the server, and the conversions of [f64]: [(ts * 1000.0).round()
    as i64] and [str::parse]; the display of a status. *)
Class VictoriaHttp `{F : Float} := {
  vm_send : nat -> VmRequest -> result string VmAnswer;
  f64_millis : f64 -> Z;
  f64_parse : string -> result string f64;
  vm_status_str : Z -> string;
}.

Module VictoriaMetricsStore.
Section VictoriaMetricsStore.
Context `{En : Env} `{F : Float} `{VH : !VictoriaHttp} (base_url : string).

Definition dash : string := " " +++ bytes [226; 128; 148]%nat +++ " ".
(** [Err(e)], or a status outside 200 to 299, or [k] of the answer. *)
Definition vm_exchange {A} (n : nat) (what : string) (request : VmRequest)
    (k : VmAnswer -> result MetricsError A) : result MetricsError A :=
  match vm_send n request with
  | Err e => Err (Backend e)
  | Ok a =>
      if (200 <=? vr_status a) && (vr_status a <? 300) then k a
      else Err (Backend ("victoria metrics " +++ what +++ ": " +++ vm_status_str (vr_status a) +++ dash
                           +++ default EmptyString (vr_text a)))
  end.

Definition vm_ingest (n : nat) (organization_id : Uuid) (samples : list Sample) : result MetricsError nat :=
  match samples with
  | [] => Ok O
  | _ => vm_exchange n "ingest"
           (ImportText (base_url +++ "/api/v1/import/prometheus") (to_prom_text organization_id samples))
           (fun _ => Ok (length samples))
  end.

Definition vm_forward_write (n : nat) (organization_id : Uuid) (write_request : string)
  : result MetricsError unit :=
  if String.eqb write_request EmptyString then Ok tt
  else vm_exchange n "write"
         (RemoteWrite (base_url +++ "/api/v1/write?extra_label=organization_id=" +++ uuid_str organization_id)
            write_request)
         (fun _ => Ok tt).

(** [{:03}] of the milliseconds; only [i64::MIN.abs()] wraps to a negative number. *)
Definition pad3 (z : Z) : string :=
  if z <? 0 then pretty z
  else if z <? 10 then "00" +++ pretty z else if z <? 100 then "0" +++ pretty z else pretty z.
Definition seconds (ms : Z) : string :=
  pretty (Z.quot ms 1000) +++ "." +++ pad3 (Z.rem (wrap_i64 (Z.abs ms)) 1000).

Definition query_params (organization_id : Uuid) (q : RangeQuery) : list (string * string) :=
  [("query", promql_selector organization_id q); ("start", seconds (rq_start_ms q));
   ("end", seconds (rq_end_ms q)); ("step", pretty (step_secs q) +++ "s")]%string.

Fixpoint decode_values (labels : list Label) (values : list (f64 * string)) : result MetricsError (list Sample) :=
  match values with
  | [] => Ok []
  | (ts, text) :: values' =>
      match f64_parse text with
      | Err e => Err (Backend ("parse sample value: " +++ e))
      | Ok value =>
          match decode_values labels values' with
          | Ok samples => Ok (mkSample labels (f64_millis ts) value :: samples)
          | Err e => Err e
          end
      end
  end.
Definition series_labels (s : Series) : list Label :=
  map (fun '(k, v) => mkLabel k v)
    (List.filter (fun '(k, _) => negb (String.eqb k "organization_id")) (se_metric s)).
Fixpoint decode_series (result : list Series) : Prelude.result MetricsError (list Sample) :=
  match result with
  | [] => Ok []
  | s :: result' =>
      match decode_values (series_labels s) (se_values s) with
      | Err e => Err e
      | Ok samples =>
          match decode_series result' with
          | Ok rest => Ok (samples ++ rest)
          | Err e => Err e
          end
      end
  end.

Definition vm_query_range (n : nat) (organization_id : Uuid) (q : RangeQuery)
  : result MetricsError (list Sample) :=
  vm_exchange n "query" (QueryRange (base_url +++ "/api/v1/query_range") (query_params organization_id q))
    (fun a =>
       match vr_envelope a with
       | Err e => Err (Backend e)
       | Ok envelope =>
           if negb (String.eqb (ev_status envelope) "success")
           then Err (Backend ("victoria metrics query error: "
                                +++ default "unknown"%string (ev_error_type envelope) +++ dash
                                +++ default EmptyString (ev_error envelope)))
           else decode_series (default [] (ev_data envelope))
       end).
End VictoriaMetricsStore.
End VictoriaMetricsStore.
Export VictoriaMetricsStore.

(** * What a server reads *)

(** Up to the first [c]. *)
Fixpoint lex_until (c : ascii) (s : string) : option (string * string) :=
  match s with
  | EmptyString => None
  | String d s' => if Ascii.eqb d c then Some (EmptyString, s') else push d (lex_until c s')
  end.

(** One line of the text format: name, labels, value, time. *)
Definition Line : Type := string * Matchers * string * string.
Definition read_line (s : string) : option (Line * string) :=
  let '(name, r) := lex_ident s in
  match r with
  | String "{"%char r =>
      match parse_matchers (String.length r) r with
      | Some (labels, String t r) =>
          if negb (Ascii.eqb t tab) then None else
          match lex_until " " r with
          | Some (value, r) =>
              match lex_until newline r with
              | Some (time, rest) => Some ((name, labels, value, time), rest)
              | None => None
              end
          | None => None
          end
      | _ => None
      end
  | _ => None
  end.
Fixpoint read_text (fuel : nat) (s : string) : option (list Line) :=
  match fuel, s with
  | _, EmptyString => Some []
  | O, _ => None
  | S fuel', _ =>
      match read_line s with
      | Some (line, rest) =>
          match read_text fuel' rest with Some ls => Some (line :: ls) | None => None end
      | None => None
      end
  end.

(** The text of a number, as [Display] writes it. *)
Class FloatText `{F : Float} : Prop := { f64_str_graphic v : all_chars graphic (f64_str v) = true }.

Section Reading.
Context `{En : Env} `{F : Float} `{FT : !FloatText}.

Lemma lex_until_graphic c s rest :
  graphic c = false -> all_chars graphic s = true -> lex_until c (s +++ String c rest) = Some (s, rest).
Proof.
  intros Hc. induction s as [|d s IH]; intros Hs; [simpl; by rewrite Ascii.eqb_refl|].
  simpl in Hs. apply andb_true_iff in Hs as [Hd Hs]. rewrite append_cons. cbn [lex_until].
  destruct (Ascii.eqb d c) eqn:E; [apply Ascii.eqb_eq in E as ->; congruence|]. by rewrite IH.
Qed.

(** The labels a sample is stored with: the tenant's is the store's own. *)
Definition stamped (organization_id : Uuid) (s : Sample) : Matchers :=
  map (fun l => (lb_name l, lb_value l))
    (List.filter (fun l => negb (String.eqb (lb_name l) "__name__")
                           && negb (String.eqb (lb_name l) "organization_id")) (sm_labels s))
  ++ [("organization_id"%string, uuid_str organization_id)].
Definition line_of (organization_id : Uuid) (s : Sample) : Line :=
  (default "unknown"%string (metric_name s), stamped organization_id s, f64_str (sm_value s),
   pretty (sm_timestamp_ms s)).
(** The names that need no escape. *)
Definition plain_names (s : Sample) : Prop :=
  all_chars ident_char (default "unknown"%string (metric_name s)) = true /\
  Forall (fun l => ident (lb_name l) = true) (sm_labels s).

Lemma prom_line_stamped organization_id s :
  all_chars literal_char (uuid_str organization_id) = true ->
  prom_line organization_id s =
  default "unknown"%string (metric_name s) +++ String "{"%char
    (join_comma (map render (stamped organization_id s)) +++ String "}"%char
       (String tab (f64_str (sm_value s) +++ String " "%char
          (pretty (sm_timestamp_ms s) +++ String newline EmptyString)))).
Proof.
  intros Hu. unfold prom_line, stamped. rewrite map_app, map_map. cbn [map].
  unfold render at 2. cbn [fst snd]. rewrite (prom_escape_literal (uuid_str _)) by done. done.
Qed.

Lemma pretty_Z_graphic (z : Z) : all_chars graphic (pretty z) = true.
Proof.
  eapply all_chars_mono; [|apply pretty_Z_decimal]. intros [[] [] [] [] [] [] [] []]; vm_compute; congruence.
Qed.

Lemma read_line_of organization_id s rest :
  all_chars literal_char (uuid_str organization_id) = true -> plain_names s ->
  read_line (prom_line organization_id s +++ rest) = Some (line_of organization_id s, rest).
Proof.
  intros Hu [Hname Hlabels]. rewrite prom_line_stamped by done. rewrite append_assoc, append_cons.
  unfold read_line. rewrite lex_ident_app by done.
  set (ms := stamped organization_id s). rewrite append_assoc, append_cons.
  rewrite parse_matchers_join; [|unfold ms, stamped; by destruct (map _ _)| |].
  - rewrite append_cons. rewrite append_assoc, append_cons.
    cbn [negb Ascii.eqb Bool.eqb tab]. rewrite lex_until_graphic by (done || apply f64_str_graphic).
    rewrite append_assoc, append_cons, append_nil_l.
    rewrite lex_until_graphic by (done || apply pretty_Z_graphic). done.
  - unfold ms, stamped. apply Forall_app. split; [|by repeat constructor].
    apply Forall_forall. intros m Hm. apply list_elem_of_In, in_map_iff in Hm as (l & <- & [Hl _]%filter_In).
    rewrite Forall_forall in Hlabels. apply Hlabels. by apply list_elem_of_In.
  - rewrite length_append. pose proof (length_join ms). lia.
Qed.

Lemma to_prom_text_cons organization_id s samples :
  to_prom_text organization_id (s :: samples) =
  prom_line organization_id s +++ to_prom_text organization_id samples.
Proof.
  unfold to_prom_text. simpl. rewrite append_nil_l.
  assert (H : forall l acc, fold_left (fun out s => out +++ prom_line organization_id s) l acc =
    acc +++ fold_left (fun out s => out +++ prom_line organization_id s) l EmptyString).
  { induction l as [|x l IH]; intros acc; simpl; [by rewrite append_nil_r|].
    rewrite IH, (IH (EmptyString +++ _)), append_nil_l. by rewrite append_assoc. }
  apply H.
Qed.

End Reading.

(** * What a query answers *)

(** The label of a series; a missing one counts as empty. *)
Definition label_of `{F : Float} (s : Series) (name : string) : string :=
  default EmptyString (snd <$> List.find (fun kv => String.eqb (fst kv) name) (se_metric s)).
Definition selected `{F : Float} (ms : Matchers) (s : Series) : bool :=
  forallb (fun m => String.eqb (label_of s (fst m)) (snd m)) ms.
Definition query_param (params : list (string * string)) : string :=
  default EmptyString (snd <$> List.find (fun kv => String.eqb (fst kv) "query") params).

(** A server answers a range query with series that its selectors match. *)
Class Selects `{F : Float} `{VH : !VictoriaHttp} : Prop := {
  selects n url params a envelope sels :
    vm_send n (QueryRange url params) = Ok a -> vr_envelope a = Ok envelope ->
    ev_status envelope = "success"%string -> read_query (query_param params) = Some sels ->
    Forall (fun s => existsb (fun ms => selected ms s) sels = true) (default [] (ev_data envelope));
}.

Section Queries.
Context `{En : Env} `{F : Float} `{VH : !VictoriaHttp} (base_url : string).

(** A value of a series, as a sample. *)
Definition read_value (s : Series) (p : f64 * string) (x : Sample) : Prop :=
  exists v, f64_parse (snd p) = Ok v /\ x = mkSample (series_labels s) (f64_millis (fst p)) v.

Lemma decode_values_spec s values samples :
  decode_values (series_labels s) values = Ok samples -> Forall2 (read_value s) values samples.
Proof.
  revert samples. induction values as [|[ts text] values IH]; intros samples H; [by injection H as <-|].
  cbn [decode_values] in H. destruct (f64_parse text) as [v|e] eqn:Hv; [|done].
  destruct (decode_values _ values) as [rest|e]; [|done]. injection H as <-.
  constructor; [by exists v|by apply IH].
Qed.

(** The values of the series, in order. *)
Definition series_points (data : list Series) : list (Series * (f64 * string)) :=
  concat (map (fun s => map (pair s) (se_values s)) data).

Lemma decode_series_spec data samples :
  decode_series data = Ok samples ->
  Forall2 (fun sp x => read_value (fst sp) (snd sp) x) (series_points data) samples.
Proof.
  revert samples. induction data as [|s data IH]; intros samples H; [by injection H as <-|].
  cbn [decode_series] in H. destruct (decode_values _ _) as [head|e] eqn:Hv; [|done].
  destruct (decode_series data) as [rest|e]; [|done]. injection H as <-.
  apply Forall2_app; [|by apply IH]. apply Forall2_fmap_l. by apply decode_values_spec in Hv.
Qed.

Lemma series_labels_foreign s v : mkLabel "organization_id" v ∉ series_labels s.
Proof.
  unfold series_labels. rewrite list_elem_of_In, in_map_iff. intros ([k w] & [= -> ->] & [_ Hk]%filter_In).
  by rewrite String.eqb_refl in Hk.
Qed.

Lemma vm_query_ok n organization_id q samples :
  vm_query_range base_url n organization_id q = Ok samples ->
  exists a envelope,
    vm_send n (QueryRange (base_url +++ "/api/v1/query_range") (query_params organization_id q)) = Ok a /\
    vr_envelope a = Ok envelope /\ ev_status envelope = "success"%string /\
    decode_series (default [] (ev_data envelope)) = Ok samples.
Proof.
  unfold vm_query_range, vm_exchange. destruct (vm_send _ _) as [a|e]; [|done].
  destruct (_ && _); [|done]. destruct (vr_envelope a) as [envelope|e] eqn:He; [|done].
  destruct (String.eqb_spec (ev_status envelope) "success"); [|done]. intros H. exists a, envelope.
  by split_and!.
Qed.

End Queries.

(** * A server, and concrete runs *)

Section Server.
Context `{F : Float} (read : string -> result string f64) (millis : f64 -> Z) (stored : list Series).

(** A server that holds [stored] and answers a query with what it selects. *)
Definition server_answer (request : VmRequest) : VmAnswer :=
  match request with
  | QueryRange _ params =>
      match read_query (query_param params) with
      | Some sels =>
          mkVmAnswer 200 None (Ok (mkEnvelope "success"
            (Some (List.filter (fun s => existsb (fun ms => selected ms s) sels) stored)) None None))
      | None => mkVmAnswer 422 (Some "bad query"%string)
                  (Ok (mkEnvelope "error" None (Some "422"%string) (Some "bad query"%string)))
      end
  | _ => mkVmAnswer 204 (Some EmptyString) (Err "no JSON"%string)
  end.
Definition server : VictoriaHttp := {|
  vm_send := fun _ request => Ok (server_answer request);
  f64_millis := millis;
  f64_parse := read;
  vm_status_str := pretty;
|}.

Lemma server_selects : @Selects _ server.
Proof.
  split. intros n url params a envelope sels [= <-] He _ Hq. cbn [server_answer] in He. rewrite Hq in He.
  injection He as <-. apply Forall_forall. intros s Hs%list_elem_of_In%filter_In. apply Hs.
Qed.
End Server.

Definition demo_stored : list (@Series demo_float) :=
  [ @mkSeries demo_float [("__name__", "up"); ("organization_id", "7"); ("job", "a")]%string [(3, "5"%string); (4, "6"%string)];
    @mkSeries demo_float [("__name__", "up"); ("organization_id", "8"); ("job", "a")]%string [(3, "9"%string)] ].
Definition demo_server : @VictoriaHttp demo_float :=
  @server demo_float (fun text => Ok (Z.of_nat (String.length text))) (fun ts => ts * 1000) demo_stored.


Definition up_query : RangeQuery := mkQuery "up" [mkLabel "job" "a"] 0 10000.

(** Half a second before the epoch is asked for as half a second after it. *)
Theorem negative_bounds_lose_sign : seconds (-500) = "0.500"%string.
Proof. vm_compute. reflexivity. Qed.
