(* ===== verification/AgentTunnel.v ===== *)
(** The data plane of the API: the metrics routes ([crates/api/src/observability.rs]
    and [query_metrics] of [clusters.rs]) and the stream of an agent
    ([crates/api/src/agent.rs]), whose heartbeats touch the cluster's row and
    whose metrics are forwarded for the tenant the row names. *)

From stdpp Require Import base gmap strings list pretty.
From S2P Require Import Prelude Errors Integrations Events Schema Database Tables Secrets.
From S2P Require Import Cluster Membership Sessions Access Metrics.

(** * Metrics routes *)

Section MetricsRoutes.
Context `{En : Env} `{F : Float}.

(** The world and the metrics store of the process. *)
Record Plane := mkPlane { pl_world : World; pl_store : Store }.
Definition with_world {E A} (m : M World E A) : M Plane E A :=
  fun p => let '(r, w) := m (pl_world p) in (r, mkPlane w (pl_store p)).
Definition with_store {E A} (m : M Store E A) : M Plane E A :=
  fun p => let '(r, s) := m (pl_store p) in (r, mkPlane (pl_world p) s).

Definition write_route (actor : Actor) (body : WriteRequest) : M Plane PlatformError (Z * nat) :=
  accepted <- map_err metrics_error_to_api
                (with_store (handle_write (ac_organization_id actor) body)) ;;
  ret (202, accepted).

Definition query_route (actor : Actor) (q : RangeQuery) : M Plane PlatformError (list Sample) :=
  map_err metrics_error_to_api (with_store (handle_query (ac_organization_id actor) q)).

Definition metrics_display (e : MetricsError) : string :=
  match e with
  | TenantMismatch actor body =>
      "tenant mismatch: actor=<" +++ uuid_str actor +++ "> body=<" +++ uuid_str body +++ ">"
  | Backend inner => "backend: " +++ inner
  end.

(** [query_metrics], the bounds already rounded to milliseconds: the cluster is
    looked up but is no part of the query. *)
Definition query_metrics (actor : Actor) (cluster_id : Uuid) (metric : string) (start_ms end_ms : Z)
  : M Plane PlatformError (list Sample) :=
  with_world (get_cluster (ac_organization_id actor) cluster_id) ;;;
  map_err (fun e => Internal ("metrics query: " +++ metrics_display e))
    (with_store (query_range (ac_organization_id actor) (mkQuery metric [] start_ms end_ms))).
End MetricsRoutes.

(** * The agent's stream *)

(** [AgentPayload]: the heartbeat's cluster id and version, the claimed tenant
    and the bytes of a remote write. *)
Inductive AgentPayload :=
| Heartbeat (cluster_id agent_version : string)
| AgentMetrics (organization_id write_request : string)
| Assertion.

(** The wall clock since the epoch, in milliseconds; whether the client is gone
    when an acknowledgement is sent. *)
Class AgentHost := {
  unix_millis : nat -> option Z;
  client_gone : nat -> bool;
}.

(** The locals of the task, the acknowledgements sent and the writes forwarded. *)
Record Stream := mkStream {
  st_cluster_id : option string;
  st_cluster_org_id : option Uuid;
  st_agent_version : option string;
  st_acks : list Z;
  st_forwarded : list (Uuid * string);
}.
Definition fresh_stream : Stream := mkStream None None None [] [].

Module Agent.
Section Agent.
Context `{En : Env} `{AH : AgentHost}.

(** [wall_clock_ms] *)
Definition wall_clock_ms {E} : M World E Z :=
  fun w => (Ok (Z.min i64_max (default 0 (unix_millis (w_tick w)))), tick w).

(** [touch_agent_heartbeat], its errors only logged. *)
Definition resolve_cluster {E} (cluster_id agent_version : string) : M World E (option Uuid) :=
  match uuid_parse cluster_id with
  | Some id =>
      touched <- attempt (touch_agent_heartbeat id agent_version) ;;
      ret match touched with Ok (Some org) => Some org | _ => None end
  | None => ret None
  end.

(** [tx.send(..).await] *)
Definition send_ack {E} : M World E bool :=
  fun w => (Ok (negb (client_gone (w_tick w))), tick w).

Definition with_resolved (cluster_id agent_version : string) (org : option Uuid) (s : Stream) : Stream :=
  mkStream (Some cluster_id) (match org with Some _ => org | None => st_cluster_org_id s end)
    (Some agent_version) (st_acks s) (st_forwarded s).
Definition with_ack (ms : Z) (s : Stream) : Stream :=
  mkStream (st_cluster_id s) (st_cluster_org_id s) (st_agent_version s) (st_acks s ++ [ms]) (st_forwarded s).

Definition on_metrics (organization_id write_request : string) (s : Stream) : Stream :=
  match uuid_parse organization_id with
  | Some org =>
      match st_cluster_org_id s with
      | Some resolved =>
          if bool_decide (resolved = org)
          then mkStream (st_cluster_id s) (st_cluster_org_id s) (st_agent_version s) (st_acks s)
                 (st_forwarded s ++ [(org, write_request)])
          else s
      | None => s
      end
  | None => s
  end.

(** [open_stream]: [None] is a transport error, [Some None] an empty message. *)
Fixpoint open_stream {E} (inbound : list (option (option AgentPayload))) (s : Stream) : M World E Stream :=
  match inbound with
  | [] | None :: _ => ret s
  | Some None :: rest => open_stream rest s
  | Some (Some (Heartbeat cluster_id agent_version)) :: rest =>
      received_at_ms <- wall_clock_ms ;;
      org <- resolve_cluster cluster_id agent_version ;;
      sent <- send_ack ;;
      let s' := with_resolved cluster_id agent_version org s in
      if sent then open_stream rest (with_ack received_at_ms s') else ret s'
  | Some (Some (AgentMetrics organization_id write_request)) :: rest =>
      open_stream rest (on_metrics organization_id write_request s)
  | Some (Some Assertion) :: rest => open_stream rest s
  end.
End Agent.
End Agent.
Export Agent.

Definition DEFAULT_AGENT_BIND_ADDR : string := "0.0.0.0:8082".

(** [ListenerDecision], [decide_listener]; reading an address is a parameter. *)
Inductive ListenerDecision {Addr : Type} :=
| Disabled
| InvalidAddr (reason : string)
| Bind (addr : Addr).
Arguments ListenerDecision : clear implicits.
Definition decide_listener {Addr} (parse : string -> result string Addr)
    (enabled addr_override : option string) : ListenerDecision Addr :=
  if bool_decide (enabled = Some "0"%string) then Disabled
  else
    let raw := default DEFAULT_AGENT_BIND_ADDR addr_override in
    match parse raw with
    | Ok addr => Bind addr
    | Err e => InvalidAddr (raw +++ ": " +++ e)
    end.

(** * What a stream does *)

Section Laws.
Context `{En : Env}.

(** A live cluster of the tenant. *)
Definition lives (d : DB) (id org : Uuid) : Prop :=
  exists c, In c (db_clusters d) /\ live_cluster id c = true /\ cl_organization_id c = org.

(** Only the agent's columns of rows of the cluster change. *)
Definition touched_db (t : nat) (g : Guc) (id : Uuid) (version : string) (d : DB) : DB :=
  let new c := cluster_touch (g_now g) c (with_heartbeat (g_now g) version c) in
  after_rows g t ".updated" (map new (List.filter (live_cluster id) (db_clusters d)))
    (set_rows (update_rows (live_cluster id) new (db_clusters d)) d).

Lemma touched_clusters t g id version d :
  db_clusters (touched_db t g id version d) =
  update_rows (live_cluster id) (fun c => cluster_touch (g_now g) c (with_heartbeat (g_now g) version c))
    (db_clusters d).
Proof. unfold touched_db. rewrite after_rows_plain. by destruct d. Qed.

Lemma touch_law d id version :
  db_wp d (touch_agent_heartbeat id version) (fun r d' =>
    match r with
    | Ok (Some org) => lives d id org /\ exists t g, d' = touched_db t g id version d
    | Ok None => False
    | Err _ => d' = d
    end).
Proof.
  unfold touch_agent_heartbeat. apply db_on_pool. intros now. apply tx_stmt; [done|].
  intros w <- _. cbv beta zeta.
  destruct (List.filter (live_cluster id) (db_clusters (w_db w))) as [|c l] eqn:E;
    cbn [map]; [by split|].
  split; [apply frame_set_db; cbn [length]; lia|]. cbn [fst snd result_map_err].
  assert (Hin : In c (List.filter (live_cluster id) (db_clusters (w_db w)))) by (rewrite E; by left).
  apply filter_In in Hin as [Hin Hl]. split; [by exists c|].
  exists (w_tick w), (w_guc w). unfold touched_db. rewrite E. by destruct w.
Qed.

Lemma lives_touched t g id version d id' org :
  lives (touched_db t g id version d) id' org <-> lives d id' org.
Proof.
  unfold lives. rewrite touched_clusters. split.
  - intros (c & Hin & Hl & Ho). apply in_update_rows in Hin as (c0 & Hin & ->).
    exists c0. by destruct (live_cluster id c0).
  - intros (c & Hin & Hl & Ho).
    exists (if live_cluster id c
            then cluster_touch (g_now g) c (with_heartbeat (g_now g) version c) else c).
    split; [apply in_update_rows; by exists c|]. by destruct (live_cluster id c).
Qed.
End Laws.

Section Stream.
Context `{En : Env} `{AH : AgentHost}.

(** The heartbeats seen so far name a live cluster of the tenant. *)
Definition vouched (d : DB) (seen : list AgentPayload) (org : Uuid) : Prop :=
  exists cluster version id, In (Heartbeat cluster version) seen /\
    uuid_parse cluster = Some id /\ lives d id org.

Definition heartbeats (seen : list AgentPayload) : nat :=
  length (List.filter (fun p => match p with Heartbeat _ _ => true | _ => false end) seen).

Record stream_ok (d : DB) (seen : list AgentPayload) (s : Stream) : Prop := mkStreamOk {
  so_org org : st_cluster_org_id s = Some org -> vouched d seen org;
  so_forwarded org bytes : In (org, bytes) (st_forwarded s) -> vouched d seen org /\
    exists claimed, In (AgentMetrics claimed bytes) seen /\ uuid_parse claimed = Some org;
  so_acks : (length (st_acks s) <= heartbeats seen)%nat;
}.

(** Rows of clusters change in the agent's columns only. *)
Definition same_lives (d d' : DB) : Prop := forall id org, lives d' id org <-> lives d id org.

Lemma vouched_more d seen more org : vouched d seen org -> vouched d (seen ++ more) org.
Proof. intros (c & v & id & Hin & H). exists c, v, id. split; [apply in_or_app; by left|done]. Qed.

Lemma vouched_same d d' seen org : same_lives d d' -> vouched d' seen org <-> vouched d seen org.
Proof.
  intros Hs. split; intros (c & v & id & Hin & Hp & Hl); exists c, v, id;
    (split; [done|]); (split; [done|]); by apply Hs.
Qed.

Lemma heartbeats_app seen more : heartbeats (seen ++ more) = (heartbeats seen + heartbeats more)%nat.
Proof. unfold heartbeats. by rewrite List.filter_app, length_app. Qed.

Lemma stream_ok_more d seen more s : stream_ok d seen s -> stream_ok d (seen ++ more) s.
Proof.
  intros [Ho Hf Ha]. split.
  - intros org H. by apply vouched_more, Ho.
  - intros org bytes H. destruct (Hf org bytes H) as (Hv & claimed & Hin & Hp).
    split; [by apply vouched_more|]. exists claimed. split; [apply in_or_app; by left|done].
  - rewrite heartbeats_app. lia.
Qed.

Lemma stream_ok_same d d' seen s : same_lives d d' -> stream_ok d' seen s -> stream_ok d seen s.
Proof.
  intros Hs [Ho Hf Ha]. split; [|intros org bytes H|done].
  - intros org H. by apply (vouched_same d d'), Ho.
  - destruct (Hf org bytes H) as (Hv & Hc). split; [by apply (vouched_same d d')|done].
Qed.

Lemma on_metrics_ok d seen org bytes s :
  stream_ok d seen s -> stream_ok d (seen ++ [AgentMetrics org bytes]) (on_metrics org bytes s).
Proof.
  intros Hs. pose proof (stream_ok_more d seen [AgentMetrics org bytes] s Hs) as Hm.
  unfold on_metrics. destruct (uuid_parse org) as [o|] eqn:Hp; [|done].
  destruct (st_cluster_org_id s) as [resolved|] eqn:Ho; [|done].
  case_bool_decide as Heq; [subst resolved|done]. destruct Hm as [H1 H2 H3]. split; simpl.
  - rewrite <- Ho. exact H1.
  - intros org' bytes' [Hin|[[= <- <-]|[]]]%in_app_or; [by apply H2|].
    split; [by apply H1|]. exists org. split; [|done]. apply in_or_app. right. by left.
  - exact H3.
Qed.

Lemma resolve_law {E} d cluster version :
  db_wp d (resolve_cluster cluster version : M World E _) (fun r d' => same_lives d d' /\
    exists o, r = Ok o /\ (forall org, o = Some org -> vouched d [Heartbeat cluster version] org)).
Proof.
  intros g. unfold resolve_cluster. destruct (uuid_parse cluster) as [id|] eqn:Hp.
  2: { apply tx_ret. split; [done|]. by exists None. }
  apply tx_bind, tx_attempt. tx_call touch_law. intros [[org|]|e] d' H; [|done|].
  - destruct H as (Hl & t & g' & ->). apply tx_ret. split; [intros ? ?; apply lives_touched|].
    exists (Some org). split; [done|]. intros ? [= <-]. exists cluster, version, id. by repeat split; [left|..].
  - subst d'. apply tx_ret. split; [done|]. by exists None.
Qed.

Lemma heartbeat_ok d seen cluster version org s :
  stream_ok d seen s ->
  (forall o, org = Some o -> vouched d [Heartbeat cluster version] o) ->
  stream_ok d (seen ++ [Heartbeat cluster version]) (with_resolved cluster version org s) /\
  forall ms, stream_ok d (seen ++ [Heartbeat cluster version])
               (with_ack ms (with_resolved cluster version org s)).
Proof.
  intros Hs Horg. destruct (stream_ok_more d seen [Heartbeat cluster version] s Hs) as [H1 H2 _].
  assert (Hacks : (length (st_acks s) < heartbeats (seen ++ [Heartbeat cluster version]))%nat).
  { rewrite heartbeats_app. unfold heartbeats at 2. simpl. destruct Hs. lia. }
  assert (Ho : forall o, st_cluster_org_id (with_resolved cluster version org s) = Some o ->
    vouched d (seen ++ [Heartbeat cluster version]) o).
  { intros o Heq. destruct org as [o'|]; simpl in Heq; [|by apply H1]. injection Heq as ->.
    destruct (Horg o eq_refl) as (c & v & id & Hin & H). exists c, v, id.
    split; [apply in_or_app; by right|done]. }
  split; [|intros ms]; (split; [exact Ho|exact H2|]); simpl; rewrite ?length_app; simpl; lia.
Qed.

Definition payloads (inbound : list (option (option AgentPayload))) : list AgentPayload :=
  omap (fun m => m ≫= id) inbound.

Lemma open_stream_law {E} d inbound seen s :
  stream_ok d seen s ->
  db_wp d (open_stream inbound s : M World E Stream) (fun r d' => same_lives d d' /\
    exists s', r = Ok s' /\ stream_ok d (seen ++ payloads inbound) s').
Proof.
  revert d seen s. induction inbound as [|[[[c v|org bytes|]|]|] rest IH]; intros d seen s Hs g; simpl.
  - apply tx_ret. split; [done|]. exists s. split; [done|]. by rewrite app_nil_r.
  - apply tx_bind, (tx_ticked _ _ (fun n => Z.min i64_max (default 0 (unix_millis n)))). intros n.
    apply tx_bind. tx_call (resolve_law (E := E)). intros r d1 (Hsame & o & -> & Ho).
    apply tx_bind, (tx_ticked _ _ (fun n => negb (client_gone n))). intros k.
    destruct (heartbeat_ok d seen c v o s Hs Ho) as [Hr Ha].
    assert (Hback : same_lives d1 d) by (intros id org; symmetry; apply Hsame).
    destruct (negb (client_gone k)).
    + set (s1 := with_ack _ _).
      tx_call (IH d1 (seen ++ [Heartbeat c v]) s1).
      { apply (stream_ok_same d1 d); [done|apply Ha]. }
      intros r d2 (Hsame2 & s2 & -> & Hs2). split.
      { intros id org. etrans; [apply Hsame2|apply Hsame]. }
      exists s2. split; [done|]. rewrite <- app_assoc in Hs2. by apply (stream_ok_same d d1).
    + apply tx_ret. split; [done|]. eexists. split; [done|].
      change (Heartbeat c v :: ?l) with ([Heartbeat c v] ++ l). rewrite app_assoc.
      by apply stream_ok_more.
  - tx_call (IH d (seen ++ [AgentMetrics org bytes]) (on_metrics org bytes s)).
    { by apply on_metrics_ok. }
    intros r d' (H1 & s' & -> & H2). split; [done|]. exists s'. split; [done|].
    by rewrite <- app_assoc in H2.
  - tx_call (IH d (seen ++ [Assertion]) s). { by apply stream_ok_more. }
    intros r d' (H1 & s' & -> & H2). split; [done|]. exists s'. split; [done|].
    by rewrite <- app_assoc in H2.
  - apply IH, Hs.
  - apply tx_ret. split; [done|]. exists s. split; [done|]. by apply stream_ok_more.
Qed.

(** C21: Whatever an agent sends, its stream ends; every write that was forwarded
    claimed the tenant of a live cluster that a heartbeat of the same stream
    named, at most one acknowledgement was sent per heartbeat, and no cluster
    was added, moved to another tenant or ended. *)
Theorem forwarded_for_named_clusters d inbound :
  db_wp d (open_stream inbound fresh_stream : M World unit Stream) (fun r d' =>
    same_lives d d' /\ exists s, r = Ok s /\
      (forall org bytes, In (org, bytes) (st_forwarded s) ->
         vouched d (payloads inbound) org /\
         exists claimed, In (AgentMetrics claimed bytes) (payloads inbound) /\
           uuid_parse claimed = Some org) /\
      (length (st_acks s) <= heartbeats (payloads inbound))%nat).
Proof.
  eapply db_mono; [apply (open_stream_law d inbound [] fresh_stream)|].
  - by split.
  - intros r d' (H1 & s & -> & [_ H2 H3]). split; [done|]. by exists s.
Qed.
End Stream.

(** Nothing of the stream says who the agent is: a heartbeat that names any
    live cluster makes the writes for its tenant pass. *)
Definition demo_agent : AgentHost := {| unix_millis n := Some (Z.of_nat n); client_gone _ := false |}.
Example any_agent_vouches :
  match (open_stream (E := unit) (En := demo_env) (AH := demo_agent)
           [Some (Some (AgentMetrics "2" "early")); Some (Some (Heartbeat "31" "v1"));
            Some (Some (AgentMetrics "1" "other")); Some (Some (AgentMetrics "2" "forged"))]
           fresh_stream (demo_world demo_db)).1 with
  | Ok s => st_forwarded s = [(2%N, "forged"%string)] /\ length (st_acks s) = 1%nat
  | Err _ => False
  end.
Proof. vm_compute. auto. Qed.
