(* ===== verification/ClusterAgent.v ===== *)
(** The agent in a customer's cluster ([src/agent/src]): its start, the loop that
    connects again and again, and the two tasks of a session, the reader of what the
    control plane sends and the ticker that sends heartbeats, which interleave in any
    order.  Times are in milliseconds of the monotonic clock. *)

From stdpp Require Import base gmap strings list pretty.
From S2P Require Import Prelude Errors Integrations Events Schema Database Tables Secrets.
From S2P Require Import Cluster AgentTunnel.

(** An [anyhow] error: a message, or a context in front of its cause. *)
Inductive AgentError :=
| Root (message : string)
| Within (context : string) (cause : AgentError).
Definition context {A} (what : string) (r : result AgentError A) : result AgentError A :=
  result_map_err (Within what) r.
Definition foreign {A} (r : result string A) : result AgentError A := result_map_err Root r.
#[export] Instance result_and_then {E} : MBind (result E) :=
  fun _ _ f r => match r with Ok a => f a | Err e => Err e end.

(** [MtlsConfig] *)
Record MtlsConfig := mkMtls {
  mt_ca_cert_pem : string;
  mt_client_cert_pem : string;
  mt_client_key_pem : string;
}.

(** [AgentConfig]; the interval in milliseconds. *)
Record AgentConfig := mkAgentConfig {
  ag_control_plane_url : string;
  ag_cluster_id : string;
  ag_mtls : option MtlsConfig;
  ag_heartbeat_interval : Z;
}.
Definition agent_config_new (control_plane_url cluster_id : string) (mtls : option MtlsConfig) : AgentConfig :=
  mkAgentConfig control_plane_url cluster_id mtls 30000.

(** What the agent gets from outside: tracing, files, the PEM reader (one item per
    section that is a certificate or that does not decode), URLs and TLS settings, the
    wall clock at an instant (since the epoch, unless it is before it), the draws
    of [rand::random::<f64>()] as multiples of [2^-53], and the next deadline of an
    interval whose last one was noticed late. *)
Class AgentOs := {
  agent_telemetry : result string unit;
  agent_package_version : string;
  fs_read : string -> result string string;
  pem_certs : string -> list (result string string);
  pem_private_key : string -> result string (option string);
  agent_endpoint : string -> result string unit;
  agent_tls_config : MtlsConfig -> result string unit;
  agent_unix_millis : Z -> option Z;
  agent_random : nat -> Z;
  next_deadline : Z -> Z -> Z -> Z;
}.
(** The draws lie in [[0, 1)]; a ticker with the behaviour [Delay] never makes up for
    a deadline it missed, and its next one is at most a period away. *)
Class AgentOsLaws `(AO : AgentOs) : Prop := {
  random_unit n : 0 <= agent_random n < 2 ^ 53;
  deadline_spaced timeout now period :
    timeout <= now -> 0 <= period ->
    timeout + period <= next_deadline timeout now period <= now + period;
}.

(** * Start *)

Module AgentStart.
Section Start.
Context `{AO : AgentOs}.

Definition validate_cert_pem (pem : string) : result AgentError unit :=
  if (0 <? length (pem_certs pem))%nat then Ok tt else Err (Root "no certificate blocks found").
Definition validate_key_pem (pem : string) : result AgentError unit :=
  key ← context "failed to parse private key" (foreign (pem_private_key pem));
  match key with Some _ => Ok tt | None => Err (Root "no private key block found") end.

(** [MtlsConfig::load] *)
Definition mtls_load (cert_path key_path ca_path : string) : result AgentError MtlsConfig :=
  client_cert_pem ← context ("read client cert " +++ cert_path) (foreign (fs_read cert_path));
  client_key_pem ← context ("read client key " +++ key_path) (foreign (fs_read key_path));
  ca_cert_pem ← context ("read CA cert " +++ ca_path) (foreign (fs_read ca_path));
  _ ← context "client cert PEM invalid" (validate_cert_pem client_cert_pem);
  _ ← context "client key PEM invalid" (validate_key_pem client_key_pem);
  _ ← context "CA cert PEM invalid" (validate_cert_pem ca_cert_pem);
  Ok (mkMtls ca_cert_pem client_cert_pem client_key_pem).

Definition required_env (env : gmap string string) (var : string) : result AgentError string :=
  match env !! var with
  | Some v => Ok v
  | None => Err (Root ("required env var " +++ var +++ " is not set"))
  end.

(** The [match] on the three variables. *)
Definition mtls_of_env (env : gmap string string) : result AgentError (option MtlsConfig) :=
  match env !! "KUBINATE__CERT_PATH"%string, env !! "KUBINATE__KEY_PATH"%string,
        env !! "KUBINATE__CA_PATH"%string with
  | Some cert, Some key, Some ca => m ← mtls_load cert key ca; Ok (Some m)
  | _, _, _ => Ok None
  end.

(** [main], up to the loop it hands the configuration to. *)
Definition agent_main (env : gmap string string) : result AgentError AgentConfig :=
  _ ← foreign agent_telemetry;
  control_plane_url ← required_env env "KUBINATE__CONTROL_PLANE_URL";
  cluster_id ← required_env env "KUBINATE__CLUSTER_ID";
  mtls ← mtls_of_env env;
  Ok (agent_config_new control_plane_url cluster_id mtls).
End Start.
End AgentStart.
Export AgentStart.

(** * Backoff *)


(** The [f64] nearest to a natural number, ties to even. *)
Definition f64_round (n : Z) : Z :=
  let e := Z.max 0 (Z.log2 n - 52) in
  let q := n / 2 ^ e in
  let r := n mod 2 ^ e in
  let up := match Z.compare (2 * r) (2 ^ e) with Lt => false | Gt => true | Eq => Z.odd q end in
  (if up then q + 1 else q) * 2 ^ e.

(** [backoff_delay]; the draw is a multiple of [2^-53], so the product is the rounded
    product of the numerators, shifted. *)
Definition backoff_ceiling (attempt : Z) : Z :=
  Z.min (Z.min u64_max (500 * Z.shiftl 1 (Z.min attempt 7))) 60000.
Definition backoff_delay (draw attempt : Z) : Z := f64_round (draw * backoff_ceiling attempt) / 2 ^ 53.

(** * A session *)

(** [Heartbeat] as the agent fills it in. *)
Record HeartbeatMessage := mkHeartbeat {
  hm_cluster_id : string;
  hm_agent_version : string;
  hm_k3s_version : string;
  hm_sent_at_ms : Z;
}.

(** [ServerPayload]; the kind of a command, if the agent knows it, with its
    [grace_seconds]. *)
Inductive ServerPayload :=
| HeartbeatAck (received_at_ms : Z)
| Command (graceful_restart : option Z).

(** The ticker's task: it waits for a deadline, or for room in the channel with its
    next deadline set; or it has ended. *)
Inductive Ticker :=
| Waiting (deadline : Z)
| Sending (msg : HeartbeatMessage) (deadline : Z)
| Ended.

(** When the stream was opened, its ticker, the outbound channel, whether its receiver
    is alive, and what the connection took from it. *)
Record AgentStream := mkAgentStream {
  se_opened : Z;
  se_ticker : Ticker;
  se_outbox : list HeartbeatMessage;
  se_receiver : bool;
  se_sent : list HeartbeatMessage;
}.

Module AgentSession.
Section Session.
Context `{AO : AgentOs}.
Variable config : AgentConfig.

Definition OUTBOUND : nat := 32.

(** [wall_clock_ms] *)
Definition wall_clock_ms (now : Z) : Z := Z.min i64_max (default 0 (agent_unix_millis now)).
Definition heartbeat (now : Z) : HeartbeatMessage :=
  mkHeartbeat (ag_cluster_id config) agent_package_version EmptyString (wall_clock_ms now).

Definition fresh_session (now : Z) : AgentStream := mkAgentStream now (Waiting now) [] true [].

(** [hb_tx.send(msg).await]: it fails without a receiver and waits without room. *)
Definition try_send (msg : HeartbeatMessage) (deadline : Z) (s : AgentStream) : AgentStream :=
  if negb (se_receiver s) then mkAgentStream (se_opened s) Ended (se_outbox s) false (se_sent s)
  else if (length (se_outbox s) <? OUTBOUND)%nat
       then mkAgentStream (se_opened s) (Waiting deadline) (se_outbox s ++ [msg]) true (se_sent s)
       else mkAgentStream (se_opened s) (Sending msg deadline) (se_outbox s) true (se_sent s).

(** A tick of the interval. *)
Definition on_tick (now : Z) (s : AgentStream) : option AgentStream :=
  match se_ticker s with
  | Waiting deadline =>
      if deadline <=? now
      then Some (try_send (heartbeat now) (next_deadline deadline now (ag_heartbeat_interval config)) s)
      else None
  | _ => None
  end.
(** A waiting [send] is tried again. *)
Definition resume (s : AgentStream) : option AgentStream :=
  match se_ticker s with
  | Sending msg deadline =>
      if negb (se_receiver s) || (length (se_outbox s) <? OUTBOUND)%nat
      then Some (try_send msg deadline s) else None
  | _ => None
  end.
(** The connection takes a message, or lets go of the receiver. *)
Definition take_message (s : AgentStream) : option AgentStream :=
  match se_outbox s with
  | m :: rest =>
      if se_receiver s then Some (mkAgentStream (se_opened s) (se_ticker s) rest true (se_sent s ++ [m])) else None
  | [] => None
  end.
Definition drop_receiver (s : AgentStream) : option AgentStream :=
  if se_receiver s then Some (mkAgentStream (se_opened s) (se_ticker s) [] false (se_sent s)) else None.
(** [heartbeat_task.abort()] *)
Definition abort (s : AgentStream) : AgentStream :=
  mkAgentStream (se_opened s) Ended (se_outbox s) (se_receiver s) (se_sent s).
End Session.
End AgentSession.


(** * The process *)

(** What the process is doing: dialling, reading the stream of its newest session,
    draining before it exits, sleeping before it dials again. *)
Inductive Phase :=
| Dialing
| Reading
| Draining (until : Z)
| BackingOff (until : Z)
| Exited.

(** The lines the process logs. *)
Inductive LogLine :=
| AckLine (rtt_ms : Z)
| RestartLine (grace_seconds : Z)
| NoKindLine
| CleanLine
| BackoffLine (error : AgentError) (delay_ms attempt : Z).

(** The clock, the counter of [run_connect_loop], the sessions opened so far, the
    newest last (the ticker of one that failed runs on), and the log with the time of
    each line, the newest first. *)
Record Process := mkAgentProcess {
  pr_now : Z;
  pr_attempt : Z;
  pr_phase : Phase;
  pr_sessions : list AgentStream;
  pr_log : list (Z * LogLine);
}.
Definition started (now : Z) : Process := mkAgentProcess now 0 Dialing [] [].

(** What happens next: time passes; the dial and the call [open_stream] are answered;
    a step of the ticker or of the connection of the [i]-th session; a message, an
    error or the end of the stream that is read; the ends of the two sleeps. *)
Inductive Move :=
| Elapse (ms : Z)
| Dial (connected opened : result string unit)
| Tick (i : nat)
| Resume (i : nat)
| Deliver (i : nat)
| DropReceiver (i : nat)
| Receive (msg : result string (option ServerPayload))
| CloseStream
| Drained
| Wake.

Module AgentLoop.
Section Loop.
Context `{AO : AgentOs}.
Variable config : AgentConfig.

Definition current (p : Process) : nat := pred (length (pr_sessions p)).
Definition with_phase (ph : Phase) (p : Process) : Process :=
  mkAgentProcess (pr_now p) (pr_attempt p) ph (pr_sessions p) (pr_log p).
Definition log (l : LogLine) (p : Process) : Process :=
  mkAgentProcess (pr_now p) (pr_attempt p) (pr_phase p) (pr_sessions p) ((pr_now p, l) :: pr_log p).
Definition set_sessions (l : list AgentStream) (p : Process) : Process :=
  mkAgentProcess (pr_now p) (pr_attempt p) (pr_phase p) l (pr_log p).
Definition with_attempt (n : Z) (p : Process) : Process :=
  mkAgentProcess (pr_now p) n (pr_phase p) (pr_sessions p) (pr_log p).

(** [build_channel]; [connected] answers [connect]. *)
Definition build_channel (connected : result string unit) : result AgentError unit :=
  _ ← context "invalid control-plane URL" (foreign (agent_endpoint (ag_control_plane_url config)));
  _ ← match ag_mtls config with
      | Some m => context "apply TLS config" (foreign (agent_tls_config m))
      | None => Ok tt
      end;
  context "connect to control plane" (foreign connected).

(** [build_and_run] up to the stream. *)
Definition open_session (connected opened : result string unit) : result AgentError unit :=
  _ ← build_channel connected;
  context "open_stream RPC failed" (foreign opened).

(** The [Err] arm of [run_connect_loop], up to its sleep. *)
Definition back_off (e : AgentError) (p : Process) : Process :=
  let delay := backoff_delay (agent_random (length (pr_log p))) (pr_attempt p) in
  with_phase (BackingOff (pr_now p + delay)) (log (BackoffLine e delay (pr_attempt p)) p).
(** What follows the sleep. *)
Definition retry (p : Process) : Process :=
  with_phase Dialing (with_attempt (Z.min u32_max (pr_attempt p + 1)) p).

Definition dial (connected opened : result string unit) (p : Process) : Process :=
  match open_session connected opened with
  | Ok _ => with_phase Reading (set_sessions (pr_sessions p ++ [AgentSession.fresh_session (pr_now p)]) p)
  | Err e => back_off e p
  end.

(** [handle_command]; [i64::saturating_sub] in the log of an acknowledgement. *)
Definition grace (grace_seconds : Z) : Z := i64_to_u64_or_zero (Z.max grace_seconds 0).
Definition receive (msg : result string (option ServerPayload)) (p : Process) : Process :=
  match msg with
  | Err e => back_off (Within "inbound stream error" (Root e)) p
  | Ok None => p
  | Ok (Some (HeartbeatAck received_at_ms)) =>
      let rtt := AgentSession.wall_clock_ms (pr_now p) - received_at_ms in
      log (AckLine (Z.max i64_min (Z.min i64_max rtt))) p
  | Ok (Some (Command (Some g))) =>
      with_phase (Draining (pr_now p + 1000 * grace g)) (log (RestartLine (grace g)) p)
  | Ok (Some (Command None)) => log NoKindLine p
  end.

(** The end of [run_session] and the [Ok] arm of [run_connect_loop]. *)
Definition close_stream (p : Process) : Process :=
  with_phase Dialing (with_attempt 0 (log CleanLine
    (set_sessions (alter AgentSession.abort (current p) (pr_sessions p)) p))).

Definition on_session (f : AgentStream -> option AgentStream) (i : nat) (p : Process) : option Process :=
  s ← pr_sessions p !! i;
  s' ← f s;
  Some (set_sessions (<[i := s']> (pr_sessions p)) p).

Definition elapse (ms : Z) (p : Process) : Process :=
  mkAgentProcess (pr_now p + ms) (pr_attempt p) (pr_phase p) (pr_sessions p) (pr_log p).

Definition agent_step (l : Move) (p : Process) : option Process :=
  match l, pr_phase p with
  | _, Exited => None
  | Elapse ms, _ => if 0 <=? ms then Some (elapse ms p) else None
  | Tick i, _ => on_session (AgentSession.on_tick config (pr_now p)) i p
  | Resume i, _ => on_session AgentSession.resume i p
  | Deliver i, _ => on_session AgentSession.take_message i p
  | DropReceiver i, _ => on_session AgentSession.drop_receiver i p
  | Dial connected opened, Dialing => Some (dial connected opened p)
  | Receive msg, Reading => Some (receive msg p)
  | CloseStream, Reading => Some (close_stream p)
  | Drained, Draining until => if until <=? pr_now p then Some (with_phase Exited p) else None
  | Wake, BackingOff until => if until <=? pr_now p then Some (retry p) else None
  | _, _ => None
  end.

Fixpoint agent_steps (ls : list Move) (p : Process) : option Process :=
  match ls with [] => Some p | l :: rest => p' ← agent_step l p; agent_steps rest p' end.

(** The states [run_connect_loop] can be in. *)
Inductive reachable : Process -> Prop :=
| reachable_booted now : reachable (started now)
| reachable_step l p p' : reachable p -> agent_step l p = Some p' -> reachable p'.
End Loop.
End AgentLoop.
Export AgentLoop.

(** * Bounds *)

Lemma f64_round_below n c :
  0 <= n <= c * 2 ^ 53 -> c < 2 ^ 53 -> f64_round n <= c * 2 ^ 53.
Proof.
  intros [Hn Hle] Hc. unfold f64_round. set (e := Z.max 0 (Z.log2 n - 52)).
  assert (He : 0 <= e <= 53).
  { split; [lia|]. destruct (decide (n = 0)) as [->|]; [done|].
    assert (Z.log2 n < 106); [|lia]. apply Z.log2_lt_pow2; [lia|].
    assert ((c * 2 ^ 53) < 2 ^ 53 * 2 ^ 53) by lia. change (2 ^ 106) with (2 ^ 53 * 2 ^ 53). lia. }
  assert (Hp : 0 < 2 ^ e) by (apply Z.pow_pos_nonneg; lia).
  assert (H53 : 2 ^ 53 = 2 ^ (53 - e) * 2 ^ e).
  { rewrite <- Z.pow_add_r by lia. f_equal. lia. }
  pose proof (Z.div_mod n (2 ^ e) ltac:(lia)) as Hd.
  pose proof (Z.mod_pos_bound n (2 ^ e) Hp) as Hr. rewrite H53 in Hle |- *.
  rewrite Z.mul_assoc in Hle |- *. clear H53.
  set (P := 2 ^ e) in *. set (q := n / P) in *. set (r := n mod P) in *. set (m := c * 2 ^ (53 - e)) in *.
  clearbody q r m P.
  set (up := match 2 * r ?= P with Lt => false | Gt => true | Eq => Z.odd q end).
  assert (Hup : up = true -> 0 < r).
  { unfold up. destruct (Z.compare_spec (2 * r) P); [|done|]; lia. }
  destruct up; [|lia]. specialize (Hup eq_refl).
  assert (q < m) by (apply (Z.mul_lt_mono_pos_l P); lia). apply Z.mul_le_mono_nonneg_r; lia.
Qed.

Lemma f64_round_nonneg n : 0 <= n -> 0 <= f64_round n.
Proof.
  intros Hn. unfold f64_round. assert (0 < 2 ^ Z.max 0 (Z.log2 n - 52)) by (apply Z.pow_pos_nonneg; lia).
  pose proof (Z.div_pos n _ Hn H). destruct (match _ ?= _ with Lt => _ | Gt => _ | Eq => _ end); nia.
Qed.

(** The exponent's cap changes nothing: the ceiling is the documented one. *)
Lemma backoff_ceiling_documented attempt :
  0 <= attempt -> backoff_ceiling attempt = Z.min 60000 (500 * 2 ^ attempt).
Proof.
  intros H. unfold backoff_ceiling. rewrite Z.shiftl_1_l. destruct (decide (attempt <= 7)) as [Hs|Hs].
  - rewrite (Z.min_l attempt) by lia. assert (2 ^ attempt <= 2 ^ 7) by (apply Z.pow_le_mono_r; lia).
    unfold u64_max. lia.
  - assert (2 ^ 7 <= 2 ^ attempt) by (apply Z.pow_le_mono_r; lia).
    rewrite (Z.min_r attempt) by lia. change (Z.min _ 60000) with 60000 at 1. lia.
Qed.

Lemma backoff_bounds draw attempt :
  0 <= draw < 2 ^ 53 -> 0 <= attempt -> 0 <= backoff_delay draw attempt <= Z.min 60000 (500 * 2 ^ attempt).
Proof.
  intros Hd Ha. rewrite <- backoff_ceiling_documented by done. unfold backoff_delay.
  assert (0 <= backoff_ceiling attempt <= 60000).
  { rewrite backoff_ceiling_documented by done. pose proof (Z.pow_nonneg 2 attempt). lia. }
  set (c := backoff_ceiling attempt) in *. split.
  - apply Z.div_pos; [apply f64_round_nonneg|]; lia.
  - apply Z.div_le_upper_bound; [done|]. rewrite (Z.mul_comm (2 ^ 53)). apply f64_round_below; [|lia]. nia.
Qed.

(** * What every reachable state satisfies *)

Lemma sublist_forall {A} (P : A -> Prop) (l k : list A) : l `sublist_of` k -> Forall P k -> Forall P l.
Proof. induction 1; intros Hk; inversion Hk; subst; auto. Qed.

(** The time a line leaves the process asleep until; the failures since the stream last
    ended cleanly. *)
Definition line_end (x : Z * LogLine) : Z :=
  match x with
  | (t, BackoffLine _ delay _) => t + delay
  | (t, RestartLine grace) => t + 1000 * grace
  | (t, _) => t
  end.
Fixpoint failures (lines : list (Z * LogLine)) : Z :=
  match lines with
  | [] | (_, CleanLine) :: _ => 0
  | (_, BackoffLine _ _ _) :: rest => 1 + failures rest
  | _ :: rest => failures rest
  end.

(** A wait is counted from the failures before it and within its ceiling. *)
Definition line_ok (l : LogLine) (earlier : list (Z * LogLine)) : Prop :=
  match l with
  | BackoffLine _ delay attempt =>
      attempt = Z.min u32_max (failures earlier) /\ 0 <= delay <= Z.min 60000 (500 * 2 ^ attempt)
  | RestartLine grace => 0 <= grace
  | _ => True
  end.
(** No line is logged during a wait. *)
Fixpoint log_ok (lines : list (Z * LogLine)) : Prop :=
  match lines with
  | [] => True
  | (t, l) :: earlier => Forall (fun x => line_end x <= t) earlier /\ line_ok l earlier /\ log_ok earlier
  end.

Lemma failures_nonneg lines : 0 <= failures lines.
Proof. induction lines as [|[t []] l IH]; simpl; lia. Qed.

Section Invariant.
Context `{AL : AgentOsLaws}.
Variable config : AgentConfig.
Let interval := ag_heartbeat_interval config.
Hypothesis interval_nonneg : 0 <= interval.

(** The heartbeats of a session, whether delivered, queued or waiting for room. *)
Definition created (s : AgentStream) : list HeartbeatMessage :=
  se_sent s ++ se_outbox s ++ match se_ticker s with Sending m _ => [m] | _ => [] end.
Definition ours (m : HeartbeatMessage) : Prop :=
  hm_cluster_id m = ag_cluster_id config /\ hm_agent_version m = agent_package_version /\
  hm_k3s_version m = EmptyString.
Definition deadline_ok (now opened : Z) (n : nat) (deadline : Z) : Prop :=
  opened + interval * Z.of_nat n <= deadline <= now + interval.

Record session_ok (now : Z) (s : AgentStream) : Prop := mkSessionOk {
  so_queue : (length (se_outbox s) <= AgentSession.OUTBOUND)%nat;
  so_ours : Forall ours (created s);
  so_opened : se_opened s <= now;
  so_rate : interval * (Z.of_nat (length (created s)) - 1) <= now - se_opened s;
  so_deadline :
    match se_ticker s with
    | Waiting d | Sending _ d => deadline_ok now (se_opened s) (length (created s)) d
    | Ended => True
    end;
}.
(** The ticker ends only without a receiver. *)
Definition ticking (s : AgentStream) : Prop := se_receiver s = true -> se_ticker s <> Ended.

Lemma session_ok_later now now' s : now <= now' -> session_ok now s -> session_ok now' s.
Proof.
  intros Hle [H1 H2 H3 H4 H5]. split; [done|done|lia|lia|].
  destruct (se_ticker s); unfold deadline_ok in *; lia || done.
Qed.

Lemma fresh_session_ok now : session_ok now (AgentSession.fresh_session now).
Proof. split; simpl; [lia|constructor|lia|lia|]. unfold deadline_ok. simpl. lia. Qed.

Lemma try_send_ok now s msg d :
  (length (se_outbox s) <= AgentSession.OUTBOUND)%nat ->
  Forall ours (se_sent s ++ se_outbox s) -> ours msg -> se_opened s <= now ->
  interval * Z.of_nat (length (se_sent s ++ se_outbox s)) <= now - se_opened s ->
  deadline_ok now (se_opened s) (S (length (se_sent s ++ se_outbox s))) d ->
  session_ok now (AgentSession.try_send msg d s) /\ ticking (AgentSession.try_send msg d s).
Proof.
  intros Hq Hf Hm Ho Hr Hd. unfold AgentSession.try_send, ticking.
  assert (Hf' : Forall ours ((se_sent s ++ se_outbox s) ++ [msg])) by (apply Forall_app; auto).
  assert (Hl : length ((se_sent s ++ se_outbox s) ++ [msg]) = S (length (se_sent s ++ se_outbox s)))
    by (rewrite length_app; simpl; lia).
  destruct (se_receiver s); cbn [negb]; [destruct (Nat.ltb_spec (length (se_outbox s)) AgentSession.OUTBOUND)|];
    (split; [|cbn; congruence]); split; unfold created; cbn [se_outbox se_sent se_ticker se_opened];
    rewrite ?app_nil_r, ?app_assoc, ?Hl; auto; try lia; rewrite length_app; simpl; lia.
Qed.

Lemma tick_ok now s s' :
  session_ok now s -> AgentSession.on_tick config now s = Some s' -> session_ok now s' /\ ticking s'.
Proof.
  intros [H1 H2 H3 H4 H5]. unfold AgentSession.on_tick, created in *.
  destruct (se_ticker s) as [d| |]; [|done|done]. rewrite app_nil_r in *.
  destruct (Z.leb_spec d now) as [Hd|]; [|done]. intros [= <-].
  unfold deadline_ok in H5. apply try_send_ok; auto; [by repeat split|lia|].
  destruct (deadline_spaced d now interval Hd interval_nonneg). unfold deadline_ok.
  fold interval. lia.
Qed.

Lemma resume_ok now s s' :
  session_ok now s -> AgentSession.resume s = Some s' -> session_ok now s' /\ ticking s'.
Proof.
  intros [H1 H2 H3 H4 H5]. unfold AgentSession.resume, created in *.
  destruct (se_ticker s) as [|m d|]; [done| |done]. rewrite app_assoc in *.
  apply Forall_app in H2 as [H2 Hm%Forall_inv]. rewrite length_app, Nat.add_1_r in H4, H5.
  destruct (_ || _); [|done]. intros [= <-].
  apply try_send_ok; auto. lia.
Qed.

Lemma deliver_ok now s s' :
  session_ok now s -> AgentSession.take_message s = Some s' -> session_ok now s' /\ (ticking s -> ticking s').
Proof.
  intros [H1 H2 H3 H4 H5]. unfold AgentSession.take_message, created, ticking in *.
  destruct (se_outbox s) as [|m rest]; [done|]. destruct (se_receiver s); [|done]. intros [= <-].
  split; [|done]. split; unfold created; cbn [se_outbox se_sent se_ticker se_opened];
    rewrite <- ?(assoc_L (++)); simpl in *; auto; lia.
Qed.

(** Heartbeats that are lost keep a session's bounds. *)
Lemma fewer_ok now s s' :
  session_ok now s -> se_opened s' = se_opened s ->
  (length (se_outbox s') <= length (se_outbox s))%nat ->
  created s' `sublist_of` created s ->
  se_ticker s' = Ended \/ se_ticker s' = se_ticker s ->
  session_ok now s'.
Proof.
  intros [H1 H2 H3 H4 H5] Ho Hq Hc Ht. pose proof (sublist_length _ _ Hc) as Hl. split; rewrite ?Ho.
  - lia.
  - by apply (sublist_forall ours _ _ Hc).
  - done.
  - nia.
  - destruct Ht as [->| ->]; [done|]. unfold deadline_ok in *. destruct (se_ticker s); [nia|nia|done].
Qed.

Lemma drop_receiver_ok now s s' :
  session_ok now s -> AgentSession.drop_receiver s = Some s' -> session_ok now s' /\ ticking s'.
Proof.
  intros Hs. unfold AgentSession.drop_receiver. destruct (se_receiver s) eqn:Hr; [|done]. intros [= <-].
  split; [|done]. apply (fewer_ok now s); simpl; [done|done|lia| |by right].
  unfold created. simpl. apply sublist_app; [done|]. by apply sublist_inserts_l.
Qed.

Lemma abort_ok now s : session_ok now s -> session_ok now (AgentSession.abort s).
Proof.
  intros Hs. apply (fewer_ok now s); simpl; [done|done|lia| |by left].
  unfold created. simpl. apply sublist_app; [done|]. apply sublist_app; [done|]. apply sublist_nil_l.
Qed.

(** Until when the process sleeps. *)
Definition asleep_until (p : Process) : Z :=
  match pr_phase p with BackingOff u | Draining u => u | _ => pr_now p end.
Definition attempt_ok (p : Process) : Prop :=
  match pr_phase p with
  | BackingOff _ => 1 <= failures (pr_log p) /\ pr_attempt p = Z.min u32_max (failures (pr_log p) - 1)
  | _ => pr_attempt p = Z.min u32_max (failures (pr_log p))
  end.
(** Draining, and the end, come from a command to restart. *)
Definition told (p : Process) : Prop :=
  match pr_phase p with
  | Draining u => exists t g rest, pr_log p = (t, RestartLine g) :: rest /\ u = t + 1000 * g
  | Exited => exists t g rest, pr_log p = (t, RestartLine g) :: rest /\ t + 1000 * g <= pr_now p
  | _ => True
  end.
Definition streaming (ph : Phase) : bool :=
  match ph with Reading | Draining _ => true | _ => false end.

Record process_ok (p : Process) : Prop := mkProcessOk {
  po_sessions : Forall (session_ok (pr_now p)) (pr_sessions p);
  po_open : streaming (pr_phase p) = true ->
    exists s, pr_sessions p !! current p = Some s /\ ticking s;
  po_attempt : attempt_ok p;
  po_log : log_ok (pr_log p);
  po_ends : Forall (fun x => line_end x <= asleep_until p) (pr_log p);
  po_told : told p;
}.

Lemma booted_ok now : process_ok (started now).
Proof. by split. Qed.

Lemma on_session_ok f i p p' :
  (forall s s', session_ok (pr_now p) s -> f s = Some s' ->
     session_ok (pr_now p) s' /\ (ticking s -> ticking s')) ->
  process_ok p -> on_session f i p = Some p' -> process_ok p'.
Proof.
  intros Hf [H1 H2 H3 H4 H5 H6]. unfold on_session.
  destruct (pr_sessions p !! i) as [s|] eqn:Hi; [|done]. simpl.
  destruct (f s) as [s'|] eqn:Hs; [|done]. intros [= <-].
  destruct (Hf s s' (Forall_lookup_1 _ _ _ _ H1 Hi) Hs) as [Hok Ht]. split; try done.
  - cbn. by apply Forall_insert.
  - unfold current. cbn. rewrite length_insert. intros (s0 & Hc & Ht0)%H2.
    destruct (decide (i = current p)) as [->|Hne].
    + exists s'. rewrite Hi in Hc. injection Hc as <-. split; [|by apply Ht].
      apply list_lookup_insert_eq. by eapply lookup_lt_Some.
    + exists s0. by rewrite list_lookup_insert_ne.
Qed.

(** A line is logged by a process that is awake. *)
Lemma log_line_ok l p :
  process_ok p -> asleep_until p = pr_now p -> line_ok l (pr_log p) -> log_ok (pr_log (log l p)).
Proof. intros [_ _ _ H4 H5 _] Ha Hl. rewrite Ha in H5. by split. Qed.

Lemma ends_log t l (lines : list (Z * LogLine)) u :
  Forall (fun x => line_end x <= t) lines -> t <= u -> line_end (t, l) <= u ->
  Forall (fun x => line_end x <= u) ((t, l) :: lines).
Proof. intros H Ht Hl. constructor; [done|]. eapply Forall_impl; [done|]. intros x Hx. simpl in Hx. lia. Qed.

Lemma back_off_ok e p :
  process_ok p -> pr_phase p = Dialing \/ pr_phase p = Reading -> process_ok (back_off e p).
Proof.
  intros Hp Hph. pose proof Hp as [H1 H2 H3 H4 H5 H6].
  assert (Ha : asleep_until p = pr_now p) by (unfold asleep_until; by destruct Hph as [-> | ->]).
  assert (Hn : pr_attempt p = Z.min u32_max (failures (pr_log p)))
    by (unfold attempt_ok in H3; by destruct Hph as [Hph|Hph]; rewrite Hph in H3).
  pose proof (failures_nonneg (pr_log p)).
  assert (Hd : 0 <= backoff_delay (agent_random (length (pr_log p))) (pr_attempt p)
               <= Z.min 60000 (500 * 2 ^ pr_attempt p)).
  { apply backoff_bounds; [apply random_unit|]. rewrite Hn. unfold u32_max. lia. }
  split; try done.
  - cbn. split; [lia|]. rewrite Hn. f_equal. lia.
  - cbn [back_off with_phase pr_log]. apply log_line_ok; [done|done|]. by split.
  - rewrite Ha in H5. unfold asleep_until. cbn. apply ends_log; [done|lia|]. simpl. lia.
Qed.

Lemma elapse_ok ms p : 0 <= ms -> process_ok p -> process_ok (elapse ms p).
Proof.
  intros Hms [H1 H2 H3 H4 H5 H6]. split; try done.
  - cbn. eapply Forall_impl; [done|]. intros s. apply session_ok_later. lia.
  - eapply Forall_impl; [done|]. intros x Hx. simpl in Hx. unfold asleep_until in *. cbn.
    destruct (pr_phase p); lia.
  - unfold told in *. cbn. destruct (pr_phase p); [done|done|done|done|].
    destruct H6 as (t & g & rest & Hl & Ht). exists t, g, rest. split; [done|lia].
Qed.

Lemma dial_ok connected opened p :
  process_ok p -> pr_phase p = Dialing -> process_ok (dial config connected opened p).
Proof.
  intros Hp Hph. unfold dial. destruct (open_session _ _ _); [|apply back_off_ok; auto].
  destruct Hp as [H1 H2 H3 H4 H5 H6]. unfold attempt_ok, asleep_until in *. rewrite Hph in *. split; try done.
  - cbn. apply Forall_app. split; [done|]. by apply Forall_singleton, fresh_session_ok.
  - intros _. exists (AgentSession.fresh_session (pr_now p)). split; [|done]. unfold current. cbn.
    rewrite length_app. simpl. rewrite Nat.add_1_r. cbn [pred]. by apply list_lookup_middle.
Qed.

(** A line that is no failure and no wait. *)
Lemma note_ok l p :
  process_ok p -> pr_phase p = Reading -> line_ok l (pr_log p) -> line_end (pr_now p, l) = pr_now p ->
  failures ((pr_now p, l) :: pr_log p) = failures (pr_log p) -> process_ok (log l p).
Proof.
  intros Hp Hph Hl He Hf. assert (Ha : asleep_until p = pr_now p) by (unfold asleep_until; by rewrite Hph).
  pose proof (log_line_ok l p Hp Ha Hl). destruct Hp as [H1 H2 H3 H4 H5 H6].
  rewrite Ha in H5. split; try done.
  - unfold attempt_ok in *. rewrite Hph in H3. cbn [log pr_phase pr_log pr_attempt]. by rewrite Hph, Hf.
  - unfold asleep_until. cbn [log pr_phase pr_log pr_now]. rewrite Hph. apply ends_log; [done|lia|lia].
  - unfold told. cbn [log pr_phase]. by rewrite Hph.
Qed.

Lemma receive_ok msg p : process_ok p -> pr_phase p = Reading -> process_ok (receive msg p).
Proof.
  intros Hp Hph. destruct msg as [[[t|[g|]]|]|e]; cbn [receive];
    [by apply note_ok| |by apply note_ok|done|apply back_off_ok; auto].
  assert (Hg : 0 <= grace g) by (unfold grace, i64_to_u64_or_zero; destruct (Z.ltb_spec (Z.max g 0) 0); lia).
  assert (Ha : asleep_until p = pr_now p) by (unfold asleep_until; by rewrite Hph).
  pose proof (log_line_ok (RestartLine (grace g)) p Hp Ha Hg) as Hlog.
  destruct Hp as [H1 H2 H3 H4 H5 H6]. rewrite Ha in H5. rewrite Hph in H2. split; try done.
  - unfold attempt_ok in *. by rewrite Hph in H3.
  - unfold asleep_until. cbn. apply ends_log; simpl; [done|lia|lia].
  - cbn. by exists (pr_now p), (grace g), (pr_log p).
Qed.

Lemma close_stream_ok p : process_ok p -> pr_phase p = Reading -> process_ok (close_stream p).
Proof.
  intros Hp Hph. assert (Ha : asleep_until p = pr_now p) by (unfold asleep_until; by rewrite Hph).
  pose proof (log_line_ok CleanLine p Hp Ha I) as Hlog.
  destruct Hp as [H1 H2 H3 H4 H5 H6]. rewrite Ha in H5. split; try done.
  - cbn. apply Forall_alter; [done|]. intros s _. apply abort_ok.
  - unfold asleep_until. cbn. apply ends_log; simpl; [done|lia|lia].
Qed.

Lemma wake_ok u p :
  process_ok p -> pr_phase p = BackingOff u -> u <= pr_now p -> process_ok (retry p).
Proof.
  intros [H1 H2 H3 H4 H5 H6] Hph Hu. unfold attempt_ok, asleep_until in *. rewrite Hph in *. split; try done.
  - unfold attempt_ok. cbn. unfold u32_max in *. lia.
  - unfold asleep_until. cbn. eapply Forall_impl; [done|]. intros x Hx. simpl in Hx. lia.
Qed.

Lemma drained_ok u p :
  process_ok p -> pr_phase p = Draining u -> u <= pr_now p -> process_ok (with_phase Exited p).
Proof.
  intros [H1 H2 H3 H4 H5 H6] Hph Hu. unfold attempt_ok, asleep_until, told in *. rewrite Hph in *. split; try done.
  - unfold asleep_until. cbn. eapply Forall_impl; [done|]. intros x Hx. simpl in Hx. lia.
  - destruct H6 as (t & g & rest & Hl & ->). unfold told. cbn. by exists t, g, rest.
Qed.

Lemma step_ok l p p' : process_ok p -> agent_step config l p = Some p' -> process_ok p'.
Proof.
  intros Hp. unfold agent_step.
  assert (Hsess : forall i p', (on_session (AgentSession.on_tick config (pr_now p)) i p = Some p' \/
      on_session AgentSession.resume i p = Some p' \/ on_session AgentSession.take_message i p = Some p' \/
      on_session AgentSession.drop_receiver i p = Some p') -> process_ok p').
  { intros i p0 [H|[H|[H|H]]]; refine (on_session_ok _ i p p0 _ Hp H); intros s s' Hs Hf.
    - by destruct (tick_ok _ _ _ Hs Hf).
    - by destruct (resume_ok _ _ _ Hs Hf).
    - by destruct (deliver_ok _ _ _ Hs Hf).
    - by destruct (drop_receiver_ok _ _ _ Hs Hf). }
  destruct (pr_phase p) as [| |u|u|] eqn:Hph; destruct l; try done; try (intros; eapply Hsess; by eauto).
  all: try (destruct (Z.leb_spec 0 ms); [|done]); try (destruct (Z.leb_spec u (pr_now p)); [|done]);
    intros [= <-]; eauto using elapse_ok, dial_ok, receive_ok, close_stream_ok, wake_ok, drained_ok.
Qed.

Lemma reachable_ok p : reachable config p -> process_ok p.
Proof. induction 1; [apply booted_ok|]. by eapply step_ok. Qed.
End Invariant.

(** * What the agent does *)

Lemma log_ok_at later t l earlier :
  log_ok (later ++ (t, l) :: earlier) ->
  line_ok l earlier /\ forall x, In x later -> line_end (t, l) <= x.1.
Proof.
  induction later as [|[t' l'] later IH]; simpl; [by intros (_ & H & _)|].
  intros (Hf & _ & Hr). destruct (IH Hr) as [Hl Hlater]. split; [done|].
  intros x [<-|Hx]; [|by apply Hlater]. cbn. rewrite Forall_app, Forall_cons in Hf. by destruct Hf as (_ & H & _).
Qed.

Section Pace.
Context `{AL : AgentOsLaws}.

Lemma on_session_eq f i p s s' :
  pr_sessions p !! i = Some s -> f s = Some s' ->
  exists p', on_session f i p = Some p' /\ pr_sessions p' !! i = Some s' /\
    pr_now p' = pr_now p /\ pr_phase p' = pr_phase p.
Proof.
  intros Hi Hf. unfold on_session. rewrite Hi. simpl. rewrite Hf. eexists. split; [done|]. cbn.
  split; [|done]. apply list_lookup_insert_eq. by eapply lookup_lt_Some.
Qed.

Lemma steps_cons config l ls p p' : agent_step config l p = Some p' -> agent_steps config (l :: ls) p = agent_steps config ls p'.
Proof. intros H. unfold agent_steps at 1. by rewrite H. Qed.

Lemma step_deliver config i p s m rest :
  pr_phase p <> Exited -> pr_sessions p !! i = Some s -> se_outbox s = m :: rest -> se_receiver s = true ->
  exists p' s', agent_step config (Deliver i) p = Some p' /\ pr_now p' = pr_now p /\
    pr_sessions p' !! i = Some s' /\ se_sent s' = se_sent s ++ [m].
Proof.
  intros Hph Hi Ho Hr.
  destruct (on_session_eq AgentSession.take_message i p s
    (mkAgentStream (se_opened s) (se_ticker s) rest true (se_sent s ++ [m])) Hi) as (p' & Hs & Hl & Hn & _).
  { unfold AgentSession.take_message. by rewrite Ho, Hr. }
  eexists p', _. split; [|split; [done|by split]]. unfold agent_step. by destruct (pr_phase p).
Qed.

(** A message that finds an empty channel is delivered by the next two steps. *)
Lemma send_deliver config l i f p s msg d :
  pr_phase p <> Exited -> agent_step config l p = on_session f i p -> pr_sessions p !! i = Some s ->
  se_outbox s = [] -> se_receiver s = true -> f s = Some (AgentSession.try_send msg d s) ->
  exists p' s', agent_steps config [l; Deliver i] p = Some p' /\ pr_now p' = pr_now p /\
    pr_sessions p' !! i = Some s' /\ se_sent s' = se_sent s ++ [msg].
Proof.
  intros Hph Hl Hi Ho Hr Hf. destruct (on_session_eq f i p s _ Hi Hf) as (p1 & Hs & H1 & Hn & Hph1).
  unfold AgentSession.try_send in H1. rewrite Hr, Ho in H1. cbn in H1.
  destruct (step_deliver config i p1 _ msg [] ltac:(by rewrite Hph1) H1 eq_refl eq_refl)
    as (p2 & s2 & H2 & Hn2 & Hl2 & Hs2).
  exists p2, s2. rewrite Hn2. split; [|done]. rewrite (steps_cons _ _ _ _ p1) by congruence.
  by rewrite (steps_cons _ _ _ _ p2).
Qed.


(** C23: While a stream is open its heartbeats keep coming: at most an interval later the
    connection can have taken another one, that names the configured cluster, whatever
    the state of the ticker and of its channel. *)
Theorem heartbeat_due config p :
  0 <= ag_heartbeat_interval config -> reachable config p -> streaming (pr_phase p) = true ->
  exists s, pr_sessions p !! current p = Some s /\
    (se_receiver s = true -> exists ls p' s' m,
       agent_steps config ls p = Some p' /\ pr_now p' <= pr_now p + ag_heartbeat_interval config /\
       pr_sessions p' !! current p = Some s' /\ se_sent s' = se_sent s ++ [m] /\ ours config m).
Proof.
  intros Hi Hr Hst. destruct (reachable_ok config Hi p Hr) as [H1 H2 _ _ _ _].
  destruct (H2 Hst) as (s & Hs & Ht). exists s. split; [done|]. intros Hrx.
  assert (Hph : pr_phase p <> Exited) by (by destruct (pr_phase p)).
  destruct (Forall_lookup_1 _ _ _ _ H1 Hs) as [_ Hours _ _ Hd]. unfold created in Hours.
  destruct (se_outbox s) as [|m rest] eqn:Ho; [destruct (se_ticker s) as [d|m d|] eqn:Htk|].
  - set (q := elapse (Z.max 0 (d - pr_now p)) p).
    destruct (send_deliver config (Tick (current p)) (current p)
      (AgentSession.on_tick config (pr_now q)) q s (AgentSession.heartbeat config (pr_now q))
      (next_deadline d (pr_now q) (ag_heartbeat_interval config))) as (p' & s' & Hp & Hn & Hl & Hsent); auto.
    + unfold agent_step, q. cbn. by destruct (pr_phase p).
    + unfold AgentSession.on_tick. rewrite Htk. destruct (Z.leb_spec d (pr_now q)) as [|Hlt]; [done|].
      unfold q in Hlt. cbn in Hlt. lia.
    + exists (Elapse (Z.max 0 (d - pr_now p)) :: [Tick (current p); Deliver (current p)]), p', s',
        (AgentSession.heartbeat config (pr_now q)).
      split; [|split; [rewrite Hn; unfold q, deadline_ok in *; cbn; lia|by repeat split]].
      rewrite (steps_cons _ _ _ _ q); [done|]. unfold agent_step.
      destruct (Z.leb_spec 0 (Z.max 0 (d - pr_now p))); [|lia]. by destruct (pr_phase p).
  - destruct (send_deliver config (Resume (current p)) (current p) AgentSession.resume p s m d)
      as (p' & s' & Hp & Hn & Hl & Hsent); auto.
    + unfold agent_step. by destruct (pr_phase p).
    + unfold AgentSession.resume. by rewrite Htk, Ho, Hrx.
    + exists [Resume (current p); Deliver (current p)], p', s', m. split; [done|]. split; [lia|]. split; [done|]. split; [done|].
      rewrite Forall_app in Hours. destruct Hours as [_ Hm]. by apply Forall_inv in Hm.
  - by destruct Ht.
  - destruct (step_deliver config (current p) p s m rest) as (p' & s' & Hp & Hn & Hl & Hsent); auto.
    exists [Deliver (current p)], p', s', m. rewrite (steps_cons _ _ _ _ p') by done. split; [done|]. split; [lia|].
    split; [done|]. split; [done|]. rewrite !Forall_app, Forall_cons in Hours. tauto.
Qed.
End Pace.

Lemma steps_reachable `{AO : AgentOs} config ls p p' :
  reachable config p -> agent_steps config ls p = Some p' -> reachable config p'.
Proof.
  revert p. induction ls as [|l ls IH]; intros p Hr; simpl; [by intros [= <-]|].
  destruct (agent_step config l p) as [p1|] eqn:Hs; [|done]. apply IH. by eapply reachable_step.
Qed.

(** * A session against the stream of the API *)

Section Tunnel.
Context `{En : Env} `{AH : AgentHost} `{AL : AgentOsLaws}.

(** What [AgentTunnel] reads of a heartbeat. *)
Definition wire (m : HeartbeatMessage) : option (option AgentPayload) :=
  Some (Some (Heartbeat (hm_cluster_id m) (hm_agent_version m))).

Record answered (d : DB) (id : Uuid) (version : string) (st : Stream) (n : nat) (st' : Stream) : Prop := {
  an_acks : length (st_acks st') = (length (st_acks st) + n)%nat;
  an_forwarded : st_forwarded st' = st_forwarded st;
  an_org org : st_cluster_org_id st' = Some org -> lives d id org;
  an_version : st_agent_version st' = match n with O => st_agent_version st | _ => Some version end;
}.

Lemma answered_law {E} config id d hs st :
  uuid_parse (ag_cluster_id config) = Some id -> (forall k, client_gone k = false) ->
  Forall (ours config) hs -> (forall org, st_cluster_org_id st = Some org -> lives d id org) ->
  db_wp d (open_stream (map wire hs) st : M World E Stream) (fun r d' => same_lives d d' /\
    exists st', r = Ok st' /\ answered d id agent_package_version st (length hs) st').
Proof.
  intros Hid Hgone. revert d st. induction hs as [|m hs IH]; intros d st Hours Horg g; cbn [map open_stream wire].
  - apply tx_ret. split; [done|]. exists st. split; [done|]. by split; [simpl; lia|..].
  - inversion Hours as [|? ? (Hc & Hv & Hk) Hours']; subst.
    apply tx_bind, (tx_ticked _ _ (fun n => Z.min i64_max (default 0 (unix_millis n)))). intros n.
    apply tx_bind. tx_call (resolve_law (E := E)). intros r d1 (Hsame & o & -> & Ho).
    apply tx_bind, (tx_ticked _ _ (fun n => negb (client_gone n))). intros k. rewrite Hgone. cbn [negb].
    set (st1 := with_ack _ _). tx_call (IH d1 st1 Hours').
    { intros org Heq. apply Hsame. unfold st1 in Heq. destruct o as [o|]; cbn in Heq; [|by apply Horg].
      injection Heq as <-. destruct (Ho o eq_refl) as (c & v & id' & [[= <- <-]|[]] & Hp & Hl). congruence. }
    intros r d2 (Hsame2 & st2 & -> & [H1 H2 H3 H4]). split; [intros ? ?; etrans; [apply Hsame2|apply Hsame]|].
    exists st2. split; [done|]. split.
    + rewrite H1. unfold st1. cbn. rewrite length_app. simpl. lia.
    + by rewrite H2.
    + intros org Heq. by apply Hsame, H3.
    + rewrite H4. unfold st1. cbn [length]. destruct (length hs); [|done]. by rewrite <- Hv.
Qed.

(** C24: The API's stream answers every heartbeat the agent's connection delivers, forwards
    nothing for it, learns the agent's version, resolves no other tenant than that of
    the live cluster the agent is configured for, and moves or ends no cluster. *)
Theorem heartbeats_answered config id d p s :
  0 <= ag_heartbeat_interval config -> uuid_parse (ag_cluster_id config) = Some id ->
  (forall k, client_gone k = false) -> reachable config p -> In s (pr_sessions p) ->
  db_wp d (open_stream (map wire (se_sent s)) fresh_stream : M World unit Stream) (fun r d' =>
    same_lives d d' /\ exists st, r = Ok st /\
      length (st_acks st) = length (se_sent s) /\ st_forwarded st = [] /\
      (forall org, st_cluster_org_id st = Some org -> lives d id org) /\
      (se_sent s <> [] -> st_agent_version st = Some agent_package_version)).
Proof.
  intros Hi Hid Hgone Hr Hs. destruct (reachable_ok config Hi p Hr) as [H1 _ _ _ _ _].
  rewrite Forall_forall in H1. destruct (H1 s ltac:(by apply list_elem_of_In)) as [_ Ho _ _ _].
  apply Forall_app in Ho as [Ho _].
  eapply db_mono; [apply (answered_law config id d (se_sent s) fresh_stream Hid Hgone Ho); done|].
  intros r d' (Hsame & st & -> & [H2 H3 H4 H5]). split; [done|]. exists st. split; [done|].
  split; [done|]. split; [done|]. split; [done|]. intros Hne. rewrite H5. by destruct (se_sent s).
Qed.
End Tunnel.

(** * The start *)

(** The agent starts exactly with an address and a cluster; with mTLS exactly if all three
    variables are set and name files that pass the checks. *)
Lemma agent_main_ok `{AO : AgentOs} env config :
  agent_main env = Ok config <->
  agent_telemetry = Ok tt /\
  env !! "KUBINATE__CONTROL_PLANE_URL"%string = Some (ag_control_plane_url config) /\
  env !! "KUBINATE__CLUSTER_ID"%string = Some (ag_cluster_id config) /\
  mtls_of_env env = Ok (ag_mtls config) /\ ag_heartbeat_interval config = 30000.
Proof.
  unfold agent_main, required_env. destruct agent_telemetry as [[]|e]; simpl; [|naive_solver].
  destruct (env !! "KUBINATE__CONTROL_PLANE_URL"%string) as [url|]; simpl; [|naive_solver].
  destruct (env !! "KUBINATE__CLUSTER_ID"%string) as [cid|]; simpl; [|naive_solver].
  destruct (mtls_of_env env) as [m|e]; simpl; [|naive_solver].
  split; [intros [= <-]; naive_solver|]. destruct config; simpl. naive_solver.
Qed.

Lemma mtls_of_env_some `{AO : AgentOs} env m :
  mtls_of_env env = Ok (Some m) -> exists cert key ca,
    env !! "KUBINATE__CERT_PATH"%string = Some cert /\ env !! "KUBINATE__KEY_PATH"%string = Some key /\
    env !! "KUBINATE__CA_PATH"%string = Some ca /\
    fs_read cert = Ok (mt_client_cert_pem m) /\ fs_read key = Ok (mt_client_key_pem m) /\
    fs_read ca = Ok (mt_ca_cert_pem m) /\
    pem_certs (mt_client_cert_pem m) <> [] /\ pem_certs (mt_ca_cert_pem m) <> [] /\
    exists k, pem_private_key (mt_client_key_pem m) = Ok (Some k).
Proof.
  unfold mtls_of_env. destruct (env !! "KUBINATE__CERT_PATH"%string) as [cert|]; [|done].
  destruct (env !! "KUBINATE__KEY_PATH"%string) as [key|]; [|done].
  destruct (env !! "KUBINATE__CA_PATH"%string) as [ca|]; [|done].
  unfold mtls_load, validate_cert_pem, validate_key_pem.
  destruct (fs_read cert) as [c|] eqn:H1, (fs_read key) as [k|] eqn:H2, (fs_read ca) as [a|] eqn:H3; simpl; try done.
  destruct (pem_certs c) eqn:Hc; simpl; [done|]. destruct (pem_private_key k) as [[pk|]|] eqn:Hk; simpl; try done.
  destruct (pem_certs a) eqn:Ha; simpl; [done|]. intros [= <-]. simpl. exists cert, key, ca.
  rewrite Hc, Ha, Hk. naive_solver.
Qed.

(** * A small host *)

(** Files hold their own names; one certificate does not decode. *)
Definition demo_os : AgentOs := {|
  agent_telemetry := Ok tt;
  agent_package_version := "0.1.0"%string;
  fs_read path := Ok path;
  pem_certs pem := if String.eqb pem "bad.pem" then [Err "base64"%string] else [Ok pem];
  pem_private_key pem := Ok (Some pem);
  agent_endpoint _ := Ok tt;
  agent_tls_config _ := Ok tt;
  agent_unix_millis now := Some now;
  agent_random n := 2 ^ 52;
  next_deadline deadline now period := deadline + period;
|}.
#[export] Instance demo_os_laws : AgentOsLaws demo_os.
Proof. split; intros; simpl; lia. Qed.

Definition agent_env (more : list (string * string)) : gmap string string :=
  list_to_map ([("KUBINATE__CONTROL_PLANE_URL", "https://api"); ("KUBINATE__CLUSTER_ID", "31")]%string ++ more).
Definition demo_config : AgentConfig := agent_config_new "https://api" "31" None.

(** Two of the three variables, and the agent runs without mTLS. *)
Example partial_mtls_is_plain :
  agent_main (AO := demo_os) (agent_env [("KUBINATE__CERT_PATH", "c"); ("KUBINATE__KEY_PATH", "k")]%string)
  = Ok demo_config.
Proof. vm_compute. reflexivity. Qed.

(** A certificate that does not decode is counted as one. *)
Example bad_certificate_accepted :
  agent_main (AO := demo_os)
    (agent_env [("KUBINATE__CERT_PATH", "bad.pem"); ("KUBINATE__KEY_PATH", "k"); ("KUBINATE__CA_PATH", "bad.pem")]%string)
  = Ok (agent_config_new "https://api" "31" (Some (mkMtls "bad.pem" "bad.pem" "k"))).
Proof. vm_compute. reflexivity. Qed.

(** A failed dial, a session that fails, a second one that is told to restart. *)
Definition demo_labels : list Move :=
  [Dial (Err "refused"%string) (Ok tt); Elapse 250; Wake;
   Dial (Ok tt) (Ok tt); Tick 0; Deliver 0; Receive (Ok (Some (HeartbeatAck 200)));
   Receive (Err "reset"%string); Elapse 500; Wake; Dial (Ok tt) (Ok tt); Elapse 30000; Tick 0; Tick 1; Deliver 0;
   Deliver 1; Receive (Ok (Some (Command None))); Receive (Ok (Some (Command (Some 5)))); Elapse 5000; Drained].
Definition demo_agent_run : option Process := agent_steps (AO := demo_os) demo_config demo_labels (started 0).

Example demo_agent_log : option_map (fun p => map snd (pr_log p)) demo_agent_run = Some
  [RestartLine 5; NoKindLine; BackoffLine (Within "inbound stream error" (Root "reset")) 500 1; AckLine 50;
   BackoffLine (Within "connect to control plane" (Root "refused")) 250 0]%string.
Proof. vm_compute. reflexivity. Qed.

(** The ticker of the session that failed goes on: its connection delivers a heartbeat
    while the next session is open. *)
Example failed_session_ticks :
  option_map (fun p => map (fun s => map hm_sent_at_ms (se_sent s)) (pr_sessions p)) demo_agent_run
  = Some [[250; 30750]; [30750]].
Proof. vm_compute. reflexivity. Qed.

(** The end of the run, and its first open stream. *)
Definition demo_agent_end : Process := default (started 0) demo_agent_run.
Definition demo_agent_open : Process :=
  default (started 0) (agent_steps (AO := demo_os) demo_config (take 4 demo_labels) (started 0)).
Lemma demo_agent_end_reachable : reachable (AO := demo_os) demo_config demo_agent_end.
Proof.
  apply (steps_reachable demo_config demo_labels (started 0)); [apply reachable_booted|]. vm_compute. reflexivity.
Qed.
Lemma demo_agent_open_reachable : reachable (AO := demo_os) demo_config demo_agent_open.
Proof.
  apply (steps_reachable demo_config (take 4 demo_labels) (started 0)); [apply reachable_booted|].
  vm_compute. reflexivity.
Qed.


Lemma heartbeat_due_witness : exists s ls p' s' m,
  pr_sessions demo_agent_open !! current demo_agent_open = Some s /\
  agent_steps (AO := demo_os) demo_config ls demo_agent_open = Some p' /\
  pr_now p' <= pr_now demo_agent_open + 30000 /\
  pr_sessions p' !! current demo_agent_open = Some s' /\ se_sent s' = se_sent s ++ [m].
Proof.
  destruct (heartbeat_due (AO := demo_os) demo_config demo_agent_open ltac:(done) demo_agent_open_reachable
    ltac:(vm_compute; reflexivity)) as (s & Hs & H).
  assert (Hr : se_receiver s = true) by (vm_compute in Hs; injection Hs as <-; reflexivity).
  destruct (H Hr) as (ls & p' & s' & m & H1 & H2 & H3 & H4 & _).
  exists s, ls, p', s', m. exact (conj Hs (conj H1 (conj H2 (conj H3 H4)))).
Defined.

Lemma heartbeats_answered_witness :
  exists s, In s (pr_sessions demo_agent_end) /\ length (se_sent s) = 2%nat /\
  db_wp demo_db (open_stream (En := demo_env) (AH := demo_agent) (map wire (se_sent s)) fresh_stream
                 : M World unit Stream) (fun r d' =>
    same_lives demo_db d' /\ exists st, r = Ok st /\
      length (st_acks st) = length (se_sent s) /\ st_forwarded st = [] /\
      (forall org, st_cluster_org_id st = Some org -> lives demo_db 31%N org) /\
      (se_sent s <> [] -> st_agent_version st = Some "0.1.0"%string)).
Proof.
  assert (Hin : exists s rest, pr_sessions demo_agent_end = s :: rest /\ length (se_sent s) = 2%nat)
    by (do 2 eexists; vm_compute; by split).
  destruct Hin as (s & rest & Hs & Hl). exists s.
  assert (Hi : In s (pr_sessions demo_agent_end)) by (rewrite Hs; left; reflexivity).
  split; [exact Hi|]. split; [exact Hl|].
  exact (heartbeats_answered (En := demo_env) (AH := demo_agent) (AO := demo_os) demo_config 31%N demo_db
    demo_agent_end s ltac:(done) ltac:(vm_compute; reflexivity) (fun _ => eq_refl) demo_agent_end_reachable Hi).
Defined.
