(* ===== verification/Account.v ===== *)
(** The caller's own account: [GET] and [PATCH /v1/me]
    ([crates/api/src/main.rs]) and the log-out ([crates/api/src/auth.rs]). *)

From stdpp Require Import base gmap strings list pretty.
From S2P Require Import Prelude Errors Integrations Events Schema Database Tables.
From S2P Require Import Membership Sessions Access.

(** [MeView] *)
Record MeView := mkMeView {
  me_user_id : Uuid;
  me_session_id : Uuid;
  me_organization_id : Uuid;
  me_mfa_state : MfaState;
  me_email : string;
  me_display_name : string;
}.

Definition with_user_name (name : string) (u : UserRow) : UserRow :=
  mkUser (us_id u) (us_email u) name (us_requires_mfa u) (us_mfa_enrolled u).

Module Account.
Section Account.
Context `{En : Env}.

Definition me_view (actor : Actor) (state : MfaState) (u : UserRow) : MeView :=
  mkMeView (ac_user_id actor) (ac_session_id actor) (ac_organization_id actor) state
    (us_email u) (us_display_name u).
Definition no_user {A} (actor : Actor) : M World PlatformError A :=
  throw (NotFound ("user/" +++ uuid_str (ac_user_id actor))).

Definition me (actor : Actor) : M World PlatformError MeView :=
  state <- mfa_state (ac_user_id actor) (ac_session_id actor) ;;
  rows <- on_pool (select (fun _ u => bool_decide (us_id u = ac_user_id actor))) ;;
  match rows with
  | u :: _ => ret (me_view actor state u)
  | [] => no_user actor
  end.

(** The length is in bytes. *)
Definition update_me (actor : Actor) (display_name : string) : M World PlatformError MeView :=
  let display_name := trim display_name in
  if String.eqb display_name EmptyString then throw (Invalid "display_name must not be empty")
  else if (100 <? String.length display_name)%nat
  then throw (Invalid "display_name must be 100 characters or fewer")
  else
    rows <- on_pool (update (fun _ u => bool_decide (us_id u = ac_user_id actor))
                       (fun _ => with_user_name display_name)) ;;
    match rows with
    | u :: _ =>
        state <- mfa_state (ac_user_id actor) (ac_session_id actor) ;;
        ret (me_view actor state u)
    | [] => no_user actor
    end.

(** The session the cookie carries is ended; an error of it is dropped. *)
Definition end_cookie_session (rq : Request) : M World PlatformError unit :=
  match extract_session_cookie rq with
  | Some id => ignore (revoke_session id)
  | None => ret tt
  end.

Definition logout (rq : Request) : M World PlatformError Z :=
  end_cookie_session rq ;;;
  ret 204.
End Account.
End Account.
Export Account.

Section Laws.
Context `{En : Env}.

Lemma end_cookie_law d rq :
  db_wp d (end_cookie_session rq) (fun r d' => r = Ok tt /\ sessions_only d d' /\
    map ss_id (db_sessions d') = map ss_id (db_sessions d) /\
    forall old, extract_session_cookie rq = Some old ->
      faulty \/ forall t, session_at t old d' = None).
Proof.
  assert (Hrefl : sessions_only d d) by (exists (db_sessions d); by destruct d).
  intros g. unfold end_cookie_session. destruct (extract_session_cookie rq) as [id|]; [|by apply tx_ret].
  apply tx_ignore. tx_call revoke_law. intros [[]|e] d' H; (split; [done|]).
  - destruct H as (Ho & Hids & Hs). split; [done|]. split; [done|]. intros old [= <-]. right.
    intros t. by rewrite Hs, bool_decide_true.
  - destruct H as [-> Hf]. split; [done|]. split; [done|]. intros old _. by left.
Qed.
End Laws.
