(* ===== verification/Passkeys.v ===== *)
(** The second factor: the tables of passkeys, recovery codes and WebAuthn
    ceremonies, their repositories ([crates/identity/src/repository.rs]), the
    recovery codes ([recovery_codes.rs]) and the ceremony facade
    ([webauthn.rs]).  What the crate webauthn-rs answers is a parameter. *)

From Stdlib Require Import Ascii.
From stdpp Require Import base gmap strings list pretty.
From S2P Require Import Prelude Errors Integrations Events Schema Database Tables Sessions.

(** * Tables *)

Section Tables.
Context `{En : Env}.

(** [user_passkeys] ([20260505120000]) *)
#[export] Instance PasskeyTable : Table Passkey := {|
  rows := db_passkeys;
  set_rows l db :=
    let 'mkDB a b c d e f g h i j k m _ n o p r t u v := db in mkDB a b c d e f g h i j k m l n o p r t u v;
  row_id := pk_id;
  row_tenant _ := None;
  row_audited := None;
  row_touch _ _ new := new;
  row_conflict a b :=
    bool_decide (pk_id a = pk_id b)
    || is_none (pk_revoked_at a) && is_none (pk_revoked_at b)
       && String.eqb (pk_credential_id a) (pk_credential_id b);
  row_check db r := constraints [ (user_exists db (pk_user_id r), DbForeignKey) ];
  row_referenced _ _ := false;
  row_after _ _ db := db;
|}.

(** [mfa_recovery_codes] ([20260505120000]) *)
#[export] Instance RecoveryTable : Table MfaRecoveryCode := {|
  rows := db_recovery;
  set_rows l db :=
    let 'mkDB a b c d e f g h i j k m n _ o p r t u v := db in mkDB a b c d e f g h i j k m n l o p r t u v;
  row_id := rc_id;
  row_tenant _ := None;
  row_audited := None;
  row_touch _ _ new := new;
  row_conflict a b :=
    bool_decide (rc_id a = rc_id b)
    || is_none (rc_used_at a) && is_none (rc_used_at b)
       && String.eqb (rc_code_hash a) (rc_code_hash b);
  row_check db r := constraints [ (user_exists db (rc_user_id r), DbForeignKey) ];
  row_referenced _ _ := false;
  row_after _ _ db := db;
|}.

(** [webauthn_ceremonies] ([20260505120100]) *)
#[export] Instance CeremonyTable : Table CeremonyRow := {|
  rows := db_ceremonies;
  set_rows l db :=
    let 'mkDB a b c d e f g h i j k m n o p r s _ u v := db in mkDB a b c d e f g h i j k m n o p r s l u v;
  row_id := cy_id;
  row_tenant _ := None;
  row_audited := None;
  row_touch _ _ new := new;
  row_conflict a b := bool_decide (cy_id a = cy_id b);
  row_check db r := constraints [ (user_exists db (cy_user_id r), DbForeignKey) ];
  row_referenced _ _ := false;
  row_after _ _ db := db;
|}.

#[export] Instance PasskeyTable_laws : TableLaws Passkey.
Proof. table_laws. Qed.
#[export] Instance RecoveryTable_laws : TableLaws MfaRecoveryCode.
Proof. table_laws. Qed.
#[export] Instance CeremonyTable_laws : TableLaws CeremonyRow.
Proof. table_laws. Qed.
#[export] Instance PasskeyTable_plain : PlainTable Passkey := fun _ _ _ => eq_refl.
#[export] Instance RecoveryTable_plain : PlainTable MfaRecoveryCode := fun _ _ _ => eq_refl.
#[export] Instance CeremonyTable_plain : PlainTable CeremonyRow := fun _ _ _ => eq_refl.
#[export] Instance PasskeyTable_free : FreeTable Passkey.
Proof. by split. Qed.
#[export] Instance RecoveryTable_free : FreeTable MfaRecoveryCode.
Proof. by split. Qed.
#[export] Instance CeremonyTable_free : FreeTable CeremonyRow.
Proof. by split. Qed.
End Tables.

(** * Passkeys *)

Definition passkey_used (counter : Z) (credential : string) (now : Z) (p : Passkey) : Passkey :=
  mkPasskey (pk_id p) (pk_user_id p) (pk_credential_id p) credential counter (pk_nickname p)
    (pk_registered_at p) (Some now) (pk_revoked_at p).
Definition passkey_revoked (now : Z) (p : Passkey) : Passkey :=
  mkPasskey (pk_id p) (pk_user_id p) (pk_credential_id p) (pk_credential p) (pk_sign_counter p)
    (pk_nickname p) (pk_registered_at p) (pk_last_used_at p) (Some now).
Definition with_enrolled (enrolled : bool) (u : UserRow) : UserRow :=
  mkUser (us_id u) (us_email u) (us_display_name u) (us_requires_mfa u) enrolled.

(** [user_id = $1 AND revoked_at IS NULL] *)
Definition live_passkey (user_id : Uuid) (p : Passkey) : bool :=
  bool_decide (pk_user_id p = user_id) && is_none (pk_revoked_at p).

Module PasskeyRepository.
Section PasskeyRepository.
Context `{En : Env}.

(** The [map_err] of the insert. *)
Definition passkey_conflict (e : DbError) : PlatformError :=
  if is_unique_violation e then Conflict "this passkey is already registered" else Database e.

Definition set_enrolled (user_id : Uuid) (enrolled : bool) : M World PlatformError unit :=
  sql (update (fun _ u => bool_decide (us_id u = user_id)) (fun _ => with_enrolled enrolled)) ;;;
  ret tt.

Definition insert_passkey (user_id : Uuid) (credential_id credential nickname : string)
  : M World PlatformError Passkey :=
  id <- now_v7 ;;
  in_tx
    (row <- map_err passkey_conflict
       (insert (fun now => mkPasskey id user_id credential_id credential 0 nickname now None None)) ;;
     set_enrolled user_id true ;;;
     ret row).

Definition list_live (user_id : Uuid) : M World PlatformError (list Passkey) :=
  rows <- on_pool (select (fun _ => live_passkey user_id)) ;;
  ret (sort_by (fun a b => pk_registered_at a <=? pk_registered_at b) rows).

Definition find_by_credential_id (credential_id : string) : M World PlatformError (option Passkey) :=
  rows <- on_pool (select (fun _ p => String.eqb (pk_credential_id p) credential_id
                                      && is_none (pk_revoked_at p))) ;;
  ret (head rows).

Definition record_use (passkey_id : Uuid) (new_sign_counter : Z) (new_credential : string)
  : M World PlatformError unit :=
  hits <- on_pool (update
    (fun _ p => bool_decide (pk_id p = passkey_id) && is_none (pk_revoked_at p)
                && ((pk_sign_counter p <? new_sign_counter) || (pk_sign_counter p =? 0)))
    (passkey_used new_sign_counter new_credential)) ;;
  if (length hits =? 1)%nat then ret tt
  else throw (Conflict "passkey was revoked or the assertion counter regressed").

Definition revoke_passkey (user_id passkey_id : Uuid) : M World PlatformError unit :=
  in_tx
    (hits <- sql (update
       (fun _ p => bool_decide (pk_id p = passkey_id) && live_passkey user_id p) passkey_revoked) ;;
     if (length hits =? 1)%nat then
       live <- sql (select (fun _ => live_passkey user_id)) ;;
       if (length live =? 0)%nat then set_enrolled user_id false else ret tt
     else throw (NotFound ("passkey/" +++ uuid_str passkey_id))).

(** ** Recovery codes: the repository *)

Definition code_used (now : Z) (c : MfaRecoveryCode) : MfaRecoveryCode :=
  mkRecovery (rc_id c) (rc_user_id c) (rc_code_hash c) (rc_created_at c) (Some now).
Definition live_code (user_id : Uuid) (c : MfaRecoveryCode) : bool :=
  bool_decide (rc_user_id c = user_id) && is_none (rc_used_at c).

Definition insert_code (user_id : Uuid) (hash : string) : M World PlatformError MfaRecoveryCode :=
  id <- now_v7 ;;
  sql (insert (fun now => mkRecovery id user_id hash now None)).

Definition rotate_batch (user_id : Uuid) (code_hashes : list string)
  : M World PlatformError (list MfaRecoveryCode) :=
  in_tx
    (sql (delete (fun _ c => bool_decide (rc_user_id c = user_id))) ;;;
     map_each (insert_code user_id) code_hashes).

Definition try_consume (user_id : Uuid) (code_hash : string) : M World PlatformError bool :=
  hits <- on_pool (update (fun _ c => live_code user_id c && String.eqb (rc_code_hash c) code_hash)
                     code_used) ;;
  ret match hits with [] => false | _ => true end.

Definition count_live (user_id : Uuid) : M World PlatformError Z :=
  rows <- on_pool (select (fun _ => live_code user_id)) ;;
  let n := Z.of_nat (length rows) in
  ret (if n <=? u32_max then n else u32_max).
End PasskeyRepository.
End PasskeyRepository.
Export PasskeyRepository.

(** * Recovery codes *)

(** Crockford's Base32. *)
Definition ALPHABET : string := "0123456789ABCDEFGHJKMNPQRSTVWXYZ".
Definition CODE_LEN : nat := 10.
Definition BATCH_SIZE : nat := 10.

(** The characters of a string, as their encodings. *)
Definition continues (s : string) : bool :=
  match s with String d _ => is_continuation d | EmptyString => false end.
Fixpoint chars (s : string) : list string :=
  match s with
  | EmptyString => []
  | String c s' =>
      match chars s' with
      | x :: l => if continues s' then String c x :: l else String c EmptyString :: x :: l
      | [] => [String c EmptyString]
      end
  end.
Definition ascii_upper (c : Ascii.ascii) : Ascii.ascii :=
  let n := Ascii.nat_of_ascii c in
  if (97 <=? n)%nat && (n <=? 122)%nat then Ascii.ascii_of_nat (n - 32) else c.

(** The thread's generator, [rng.gen_range(0..n)], and [char::to_uppercase]
    beyond ASCII. *)
Class CodeHost := {
  gen_range : nat -> nat -> nat;
  unicode_upper : string -> string;
}.
Class CodeHostLaws (CH : CodeHost) : Prop := {
  gen_range_lt n k : (0 < k)%nat -> (gen_range n k < k)%nat;
}.

Module RecoveryCodes.
Section RecoveryCodes.
Context `{En : Env} `{CH : CodeHost}.

Definition draw {E} (n : nat) : M World E nat := fun w => (Ok (gen_range (w_tick w) n), tick w).

(** One round of the loop: the character, and the hyphen after the first half. *)
Definition push_char {E} (i : nat) : M World E string :=
  idx <- draw (String.length ALPHABET) ;;
  ret (String (default "000"%char (String.get idx ALPHABET))
         (if (i =? CODE_LEN / 2 - 1)%nat then "-" else EmptyString)).
Definition generate_one {E} : M World E string :=
  parts <- map_each push_char (seq 0 CODE_LEN) ;;
  ret (String.concat EmptyString parts).
Definition generate_batch {E} : M World E (list string) :=
  map_each (fun _ => generate_one) (seq 0 BATCH_SIZE).

Definition to_uppercase (ch : string) : string :=
  match ch with
  | String c EmptyString => String (ascii_upper c) EmptyString
  | _ => unicode_upper ch
  end.
Definition is_white (ch : string) : bool := existsb (String.eqb ch) white_space.
Definition canonical (code : string) : string :=
  String.concat EmptyString
    (map to_uppercase (List.filter (fun ch => negb (is_white ch) && negb (String.eqb ch "-"))
                         (chars code))).
Definition hash (code : string) : string := sha256 (canonical code).
End RecoveryCodes.
End RecoveryCodes.
Export RecoveryCodes.

(** * Ceremonies *)

(** [webauthn.rs: WebauthnError] *)
Inductive WebauthnError :=
| Config (msg : string)
| Rejected (msg : string)
| CeremonyMissing
| Storage (e : PlatformError).

(** webauthn-rs and serde: the ceremonies of the crate, the serialisations of
    its values, and the decoding of base64url.  The [nat] draws the challenge. *)
Class WebAuthn := {
  WebauthnPasskey : Type;
  PasskeyRegistration : Type;
  PasskeyAuthentication : Type;
  RegisterPublicKeyCredential : Type;
  PublicKeyCredential : Type;
  CreationChallenge : Type;
  RequestChallenge : Type;
  AuthenticationResult : Type;
  start_passkey_registration :
    nat -> Uuid -> string -> string -> list string -> result string (CreationChallenge * PasskeyRegistration);
  finish_passkey_registration :
    RegisterPublicKeyCredential -> PasskeyRegistration -> result string WebauthnPasskey;
  start_passkey_authentication :
    nat -> list WebauthnPasskey -> result string (RequestChallenge * PasskeyAuthentication);
  finish_passkey_authentication :
    PublicKeyCredential -> PasskeyAuthentication -> result string AuthenticationResult;
  update_credential : WebauthnPasskey -> AuthenticationResult -> WebauthnPasskey;
  counter : AuthenticationResult -> Z;
  cred_id : WebauthnPasskey -> string;
  credential_raw_id : PublicKeyCredential -> string;
  registration_json : PasskeyRegistration -> result string string;
  registration_of_json : string -> result string PasskeyRegistration;
  authentication_json : PasskeyAuthentication -> result string string;
  authentication_of_json : string -> result string PasskeyAuthentication;
  passkey_json : WebauthnPasskey -> result string string;
  passkey_of_json : string -> result string WebauthnPasskey;
  base64url_decode : string -> option string;
  webauthn_configured : bool;
}.

(** [CompletedRegistration], [CompletedAssertion] *)
Record CompletedRegistration := mkCompletedRegistration {
  co_credential_id : string;
  co_credential_blob : string;
}.
Record CompletedAssertion := mkCompletedAssertion {
  ca_passkey_row_id : Uuid;
  ca_new_sign_counter : Z;
  ca_updated_credential_blob : string;
}.

(** [id = $1 AND kind = $2 AND expires_at > now()] *)
Definition opened (id : Uuid) (kind : CeremonyKind) (now : Z) (c : CeremonyRow) : bool :=
  bool_decide (cy_id c = id) && bool_decide (cy_kind c = kind) && (now <? cy_expires_at c).

(** Five minutes, in microseconds. *)
Definition CEREMONY_TTL : Z := 5 * 60 * 1000000.

Module Ceremonies.
Section Ceremonies.
Context `{En : Env} `{WA : WebAuthn}.

(** [PgCeremonyStore]; the errors are [Storage]. *)
Definition put_ceremony (row : CeremonyRow) : M World WebauthnError unit :=
  map_err Storage (on_pool (insert (fun _ => row))) ;;; ret tt.
Definition take (id : Uuid) (kind : CeremonyKind) : M World WebauthnError (option CeremonyRow) :=
  rows <- map_err Storage
    (on_pool (delete (opened id kind))) ;;
  ret (head rows).

(** serde's failures. *)
Definition serde {A} (r : result string A) : M World WebauthnError A :=
  map_err (fun e => Storage (Internal e)) (lift r).
Definition rejecting {A} (call : string) (r : result string A) : M World WebauthnError A :=
  map_err (fun e => Rejected (call +++ ": " +++ e)) (lift r).

Definition open_ceremony (user_id : Uuid) (kind : CeremonyKind) (state : string)
  : M World WebauthnError Uuid :=
  id <- now_v7 ;;
  now <- now_utc ;;
  put_ceremony (mkCeremony id user_id kind state (now + CEREMONY_TTL)) ;;;
  ret id.
Definition close_ceremony (ceremony_id : Uuid) (kind : CeremonyKind) : M World WebauthnError CeremonyRow :=
  row <- take ceremony_id kind ;;
  match row with Some c => ret c | None => throw CeremonyMissing end.

Definition start_registration (user_id : Uuid) (user_email user_display_name : string)
    (excluded_credentials : list string) : M World WebauthnError (Uuid * CreationChallenge) :=
  (* webauthn-rs draws the challenge *)
  started <- drawing (fun n => rejecting "start_passkey_registration"
    (start_passkey_registration n user_id user_email user_display_name excluded_credentials)) ;;
  let '(challenge, registration_state) := started in
  state <- serde (registration_json registration_state) ;;
  id <- open_ceremony user_id Registration state ;;
  ret (id, challenge).

Definition finish_registration (ceremony_id : Uuid) (register : RegisterPublicKeyCredential)
  : M World WebauthnError CompletedRegistration :=
  row <- close_ceremony ceremony_id Registration ;;
  state <- serde (registration_of_json (cy_state row)) ;;
  passkey <- rejecting "finish_passkey_registration" (finish_passkey_registration register state) ;;
  credential_blob <- serde (passkey_json passkey) ;;
  ret (mkCompletedRegistration (base64url (cred_id passkey)) credential_blob).

Definition start_assertion (user_id : Uuid) (passkeys : list WebauthnPasskey)
  : M World WebauthnError (Uuid * RequestChallenge) :=
  match passkeys with
  | [] => throw (Rejected "user has no registered passkeys")
  | _ =>
      started <- drawing (fun n => rejecting "start_passkey_authentication"
        (start_passkey_authentication n passkeys)) ;;
      let '(challenge, auth_state) := started in
      state <- serde (authentication_json auth_state) ;;
      id <- open_ceremony user_id Assertion state ;;
      ret (id, challenge)
  end.

Definition finish_assertion (ceremony_id passkey_row_id : Uuid) (passkey : WebauthnPasskey)
    (credential : PublicKeyCredential) : M World WebauthnError CompletedAssertion :=
  row <- close_ceremony ceremony_id Assertion ;;
  state <- serde (authentication_of_json (cy_state row)) ;;
  outcome <- rejecting "finish_passkey_authentication" (finish_passkey_authentication credential state) ;;
  updated_blob <- serde (passkey_json (update_credential passkey outcome)) ;;
  ret (mkCompletedAssertion passkey_row_id (counter outcome) updated_blob).

Definition deserialize_passkey (bytes : string) : M World WebauthnError WebauthnPasskey :=
  serde (passkey_of_json bytes).
End Ceremonies.
End Ceremonies.
Export Ceremonies.

(** [InMemoryCeremonyStore], which the tests use: its mutex makes every method one step. *)
Module InMemoryCeremonyStore.
Definition CeremonyMap : Type := gmap Uuid CeremonyRow.
Definition memory_put (row : CeremonyRow) : M CeremonyMap WebauthnError unit :=
  modify (fun s => <[cy_id row := row]> s).
Definition memory_take (now : Z) (id : Uuid) (kind : CeremonyKind)
  : M CeremonyMap WebauthnError (option CeremonyRow) := fun s =>
  (Ok match s !! id with
      | Some row => if bool_decide (cy_kind row = kind) && (now <? cy_expires_at row) then Some row else None
      | None => None
      end, base.delete id s).

(** A ceremony answers once, to its kind, before it expires; a call of the other kind
    spends it. *)
Lemma memory_take_once row kind now s :
  let '(r, s') := memory_take now (cy_id row) kind (memory_put row s).2 in
  r = Ok (if opened (cy_id row) kind now row then Some row else None) /\
  forall kind' now', (memory_take now' (cy_id row) kind' s').1 = Ok None.
Proof.
  unfold memory_take, memory_put, modify, CeremonyMap in *. cbn [snd]. rewrite lookup_insert_eq. unfold opened.
  rewrite (bool_decide_true (cy_id row = cy_id row)) by done. split; [done|]. intros kind' now'. cbn [fst]. by rewrite lookup_delete_eq.
Qed.
End InMemoryCeremonyStore.
Export InMemoryCeremonyStore.

(** * What the repositories leave *)

Section Laws.
Context `{En : Env}.

Definition enrolled_db (user : Uuid) (b : bool) (d : DB) : DB :=
  set_rows (update_rows (fun u => bool_decide (us_id u = user)) (with_enrolled b) (db_users d)) d.

Lemma set_enrolled_law g d user b :
  tx_wp g d (set_enrolled user b) (fun r d' => is_ok r = true -> d' = enrolled_db user b d).
Proof. unfold set_enrolled. apply tx_bind, tx_map_err, tx_update_free; [done|]. by apply tx_ret. Qed.

Lemma insert_passkey_law d user credential_id credential nickname :
  db_wp d (insert_passkey user credential_id credential nickname) (fun r d' =>
    match r with
    | Ok p => p = mkPasskey (pk_id p) user credential_id credential 0 nickname (pk_registered_at p) None None /\
        existsb (row_conflict p) (db_passkeys d) = false /\ user_exists d user = true /\
        d' = enrolled_db user true (set_rows (db_passkeys d ++ [p]) d)
    | Err _ => d' = d
    end).
Proof.
  intros g. unfold insert_passkey. apply tx_bind, tx_now_v7. intros id.
  apply db_in_tx; [done|]. intros now. apply tx_bind, tx_map_err, tx_insert_free; [done|].
  intros Hc Hk. cbn [result_map_err]. apply tx_bind. tx_call set_enrolled_law.
  intros [[]|e] d'; [|done]. intros ->; [|done]. apply tx_ret. split; [done|]. split; [done|].
  split; [|done]. revert Hk. simpl. by destruct (user_exists d user).
Qed.

Lemma list_live_law d user :
  db_wp d (list_live user) (fun r d' => d' = d /\
    match r with
    | Ok l => l = sort_by (fun a b => pk_registered_at a <=? pk_registered_at b)
                    (List.filter (live_passkey user) (db_passkeys d))
    | Err _ => faulty
    end).
Proof.
  intros g. unfold list_live. apply tx_bind. tx_call (select_free_law (R := Passkey)).
  intros [l|e] d' [-> H]; [|by destruct H]. destruct H as [now ->]. by apply tx_ret.
Qed.

Lemma find_credential_law d credential_id :
  db_wp d (find_by_credential_id credential_id) (fun r d' => d' = d /\
    match r with
    | Ok (Some p) => In p (db_passkeys d) /\ pk_credential_id p = credential_id /\ pk_revoked_at p = None
    | Ok None => True
    | Err _ => faulty
    end).
Proof.
  intros g. unfold find_by_credential_id. apply tx_bind. tx_call (select_free_law (R := Passkey)).
  intros [l|e] d' [-> H]; [|by destruct H]. destruct H as [now ->]. apply tx_ret. split; [done|].
  destruct (List.filter _ _) as [|p l] eqn:E; [done|]. simpl.
  assert (Hin : In p (p :: l)) by by left. rewrite <- E in Hin.
  apply filter_In in Hin as [Hin [Hc Hr]%andb_true_iff]. apply String.eqb_eq in Hc.
  by destruct (pk_revoked_at p).
Qed.

(** The rows an assertion of the passkey with this counter may write. *)
Definition usable (id : Uuid) (count : Z) (p : Passkey) : bool :=
  bool_decide (pk_id p = id) && is_none (pk_revoked_at p)
  && ((pk_sign_counter p <? count) || (pk_sign_counter p =? 0)).

Lemma record_use_law d id count credential :
  let written now := update_rows (usable id count) (passkey_used count credential now) (db_passkeys d) in
  db_wp d (record_use id count credential) (fun r d' =>
    exists l now, d' = set_rows (l : list Passkey) d /\ (l = db_passkeys d \/ l = written now) /\
    (is_ok r = true -> length (List.filter (usable id count) (db_passkeys d)) = 1%nat /\ l = written now)).
Proof.
  intros written g. unfold record_use. apply tx_bind, db_on_pool. intros now. apply tx_update_free.
  { exists (db_passkeys d), 0. split; [by destruct d|]. split; [by left|done]. }
  cbn [result_map_err]. rewrite length_map. cbn [g_now idle_guc].
  destruct (_ =? 1)%nat eqn:H; [apply Nat.eqb_eq in H; apply tx_ret|apply tx_throw];
    exists (written now), now; (split; [done|]); (split; [by right|]); [by intros _|done].
Qed.

Lemma revoke_passkey_law d user id :
  db_wp d (revoke_passkey user id) (fun r d' =>
    match r with
    | Ok _ => exists now,
        let l := update_rows (fun p => bool_decide (pk_id p = id) && live_passkey user p)
                   (passkey_revoked now) (db_passkeys d) in
        d' = if existsb (live_passkey user) l then set_rows l d
             else enrolled_db user false (set_rows l d)
    | Err _ => d' = d
    end).
Proof.
  unfold revoke_passkey. apply db_in_tx; [done|]. intros now.
  apply tx_bind, tx_map_err, tx_update_free; [done|]. cbn [result_map_err].
  destruct (_ =? 1)%nat; [|by apply tx_throw].
  apply tx_bind, tx_map_err, tx_select_free; [done|]. cbn [result_map_err g_now idle_guc]. rewrite rows_set_rows.
  change (rows d) with (db_passkeys d). set (l := update_rows _ _ _).
  destruct (List.filter (live_passkey user) l) as [|p k] eqn:E; cbn [length Nat.eqb].
  - tx_call set_enrolled_law. intros [[]|e] d' H; [|done]. rewrite H by done. exists now. cbv zeta. fold l.
    by rewrite existsb_filter, E.
  - apply tx_ret. exists now. cbv zeta. fold l. by rewrite existsb_filter, E.
Qed.

(** ** Recovery codes *)

(** The code with this hash would be accepted from the user. *)
Definition redeemable (user : Uuid) (h : string) (d : DB) : bool :=
  existsb (fun c => live_code user c && String.eqb (rc_code_hash c) h) (db_recovery d).

Lemma redeemable_rows user h (l : list MfaRecoveryCode) d :
  redeemable user h (set_rows l d) =
  existsb (fun c => live_code user c && String.eqb (rc_code_hash c) h) l.
Proof. by destruct d. Qed.

Lemma try_consume_law d user h :
  db_wp d (try_consume user h) (fun r d' =>
    match r with
    | Ok b => b = redeemable user h d /\ exists now, d' = set_rows (update_rows
        (fun c => live_code user c && String.eqb (rc_code_hash c) h) (code_used now) (db_recovery d)) d
    | Err _ => d' = d /\ faulty
    end).
Proof.
  intros g. unfold try_consume. apply tx_bind, db_on_pool. intros now. apply tx_update_free; [done|].
  cbn [result_map_err g_now idle_guc]. apply tx_ret. split; [|by exists now].
  unfold redeemable. change (rows d) with (db_recovery d).
  rewrite existsb_filter. by destruct (List.filter _ (db_recovery d)).
Qed.

(** Marking the code makes it, and no other, unredeemable. *)
Lemma redeemable_consumed d user h now user' h' :
  redeemable user' h' (set_rows (update_rows
    (fun c => live_code user c && String.eqb (rc_code_hash c) h) (code_used now) (db_recovery d)) d) =
  redeemable user' h' d && negb (bool_decide (user' = user) && String.eqb h h').
Proof.
  rewrite redeemable_rows. unfold redeemable. induction (db_recovery d) as [|c l IH]; [done|].
  cbn [update_rows map existsb]. unfold update_rows in IH. rewrite IH, andb_orb_distrib_l. f_equal.
  unfold live_code.
  destruct (bool_decide_reflect (rc_user_id c = user)) as [<-|Hu];
    destruct (String.eqb_spec (rc_code_hash c) h) as [<-|Hh];
    destruct (is_none (rc_used_at c)) eqn:Hn; cbn [andb]; rewrite ?Hn, ?andb_false_r; cbn;
    rewrite ?andb_false_r; try done;
    destruct (bool_decide_reflect (rc_user_id c = user')) as [<-|Hu'];
    destruct (String.eqb_spec (rc_code_hash c) h') as [<-|Hh']; cbn; try done;
    rewrite ?bool_decide_true, ?String.eqb_refl by done; try done;
    rewrite ?bool_decide_false by done; try done.
  by rewrite (proj2 (String.eqb_neq h _)).
Qed.

(** The batch as it lies in the table. *)
Definition in_batch (user : Uuid) (hs : list string) (l : list MfaRecoveryCode) : Prop :=
  map rc_code_hash l = hs /\ forall c, In c l -> live_code user c = true.

Lemma insert_codes_law g d user hs :
  tx_wp g d (map_each (insert_code user) hs) (fun r d' =>
    match r with
    | Ok l => in_batch user hs l /\ d' = set_rows (db_recovery d ++ l) d
    | Err _ => True
    end).
Proof.
  revert d. induction hs as [|h hs IH]; intros d; cbn [map_each].
  { apply tx_ret. split; [done|]. rewrite app_nil_r. by destruct d. }
  apply tx_bind. unfold insert_code at 1. apply tx_bind, tx_now_v7. intros id.
  apply tx_map_err, tx_insert_free; [done|]. intros _ _. cbn [result_map_err].
  apply tx_bind. tx_call IH. intros [l|e] d'; [|done]. intros [[Hl Hc] ->]. apply tx_ret. split.
  - split; [simpl; by rewrite Hl|]. intros c [<-|Hin]; [|by apply Hc].
    unfold live_code. simpl. by rewrite bool_decide_true.
  - change (db_recovery (set_rows ?k d)) with (rows (R := MfaRecoveryCode) (set_rows k d)).
    by rewrite rows_set_rows, set_rows_set_rows, <- app_assoc.
Qed.

Lemma rotate_batch_law d user hs :
  db_wp d (rotate_batch user hs) (fun r d' =>
    match r with
    | Ok l => in_batch user hs l /\ d' = set_rows (List.filter
        (fun c => negb (bool_decide (rc_user_id c = user))) (db_recovery d) ++ l) d
    | Err _ => d' = d
    end).
Proof.
  unfold rotate_batch. apply db_in_tx; [done|]. intros now.
  apply tx_bind, tx_map_err, tx_delete_free; [done..|]. cbn [result_map_err]. tx_call insert_codes_law.
  intros [l|e] d'; [|done]. intros [Hb ->]. split; [done|].
  change (db_recovery (set_rows ?k d)) with (rows (R := MfaRecoveryCode) (set_rows k d)).
  by rewrite rows_set_rows, set_rows_set_rows.
Qed.

(** After a rotation the user's codes are those of the batch. *)
Lemma redeemable_rotated d user hs l user' h' :
  in_batch user hs l ->
  redeemable user' h' (set_rows (List.filter
    (fun c => negb (bool_decide (rc_user_id c = user))) (db_recovery d) ++ l) d) =
  if bool_decide (user' = user) then existsb (String.eqb h') hs else redeemable user' h' d.
Proof.
  intros [<- Hl]. rewrite redeemable_rows, existsb_app. unfold redeemable.
  assert (Hb : existsb (fun c => live_code user' c && String.eqb (rc_code_hash c) h') l =
    bool_decide (user' = user) && existsb (String.eqb h') (map rc_code_hash l)).
  { clear d. induction l as [|c l IH]; [by rewrite andb_false_r|]. cbn [existsb map].
    rewrite IH by (intros x Hx; apply Hl; by right). rewrite andb_orb_distrib_r. f_equal.
    specialize (Hl c (or_introl eq_refl)). unfold live_code in *.
    apply andb_true_iff in Hl as [Hu%bool_decide_eq_true ->]. rewrite Hu, andb_true_r, String.eqb_sym. f_equal.
    apply bool_decide_ext. split; intros H; by symmetry. }
  rewrite Hb. clear Hb Hl. destruct (bool_decide_reflect (user' = user)) as [->|Hne]; cbn [andb].
  - induction (db_recovery d) as [|c k IH]; [done|]. simpl.
    destruct (bool_decide (rc_user_id c = user)) eqn:E; simpl; [done|]. unfold live_code at 1. by rewrite E.
  - rewrite orb_false_r. induction (db_recovery d) as [|c k IH]; [done|]. simpl.
    destruct (bool_decide_reflect (rc_user_id c = user)) as [Hc|Hc]; simpl; rewrite IH; [|done].
    unfold live_code at 2. by rewrite bool_decide_false by congruence.
Qed.
End Laws.

(** * The enrolment flag *)

Section Enrolment.
Context `{En : Env}.

(** [users.mfa_enrolled] says whether the user has a live passkey. *)
Definition enrolment_exact (d : DB) : Prop :=
  forall u, In u (db_users d) -> us_mfa_enrolled u = existsb (live_passkey (us_id u)) (db_passkeys d).

Lemma enrolment_passkeys l d :
  (forall u, existsb (live_passkey u) l = existsb (live_passkey u) (db_passkeys d)) ->
  enrolment_exact d -> enrolment_exact (set_rows (l : list Passkey) d).
Proof. intros Hl Hd u Hu. destruct d; simpl in *. rewrite Hl. by apply Hd. Qed.

(** The flag of one user is set to what her passkeys say. *)
Lemma enrolment_set l d user b :
  b = existsb (live_passkey user) l ->
  (forall u, u <> user -> existsb (live_passkey u) l = existsb (live_passkey u) (db_passkeys d)) ->
  enrolment_exact d -> enrolment_exact (enrolled_db user b (set_rows (l : list Passkey) d)).
Proof.
  intros Hb Hl Hd u Hu. unfold enrolled_db in *. destruct d; simpl in *.
  apply in_update_rows in Hu as (u0 & Hu0 & ->).
  destruct (bool_decide_reflect (us_id u0 = user)) as [<-|Hne]; simpl; [done|].
  rewrite Hl by done. by apply Hd.
Qed.

Lemma existsb_update_same {A} (p hit : A -> bool) f l :
  (forall x, hit x = true -> p (f x) = p x) -> existsb p (update_rows hit f l) = existsb p l.
Proof.
  intros Hf. induction l as [|x l IH]; simpl; [done|]. f_equal; [|exact IH].
  destruct (hit x) eqn:E; [by apply Hf|done].
Qed.

Lemma insert_passkey_enrolment d user credential_id credential nickname :
  enrolment_exact d ->
  db_wp d (insert_passkey user credential_id credential nickname) (fun _ d' => enrolment_exact d').
Proof.
  intros Hd. eapply db_mono; [apply insert_passkey_law|].
  intros [p|e] d'; [|by intros ->]. intros (Hp & _ & _ & ->). apply enrolment_set; [| |done].
  - rewrite existsb_app. symmetry. apply orb_true_iff. right. rewrite Hp. unfold live_passkey. simpl.
    by rewrite bool_decide_true.
  - intros u Hu. rewrite existsb_app, Hp. unfold live_passkey at 2. simpl.
    by rewrite bool_decide_false, orb_false_r by done.
Qed.

Lemma record_use_enrolment d id count credential :
  enrolment_exact d -> db_wp d (record_use id count credential) (fun _ d' => enrolment_exact d').
Proof.
  intros Hd. eapply db_mono; [apply record_use_law|].
  intros r d' (l & now & -> & Hl & _). apply enrolment_passkeys; [|done]. intros u.
  destruct Hl as [->| ->]; [done|]. by apply existsb_update_same.
Qed.

Lemma revoke_passkey_enrolment d user id :
  enrolment_exact d -> db_wp d (revoke_passkey user id) (fun _ d' => enrolment_exact d').
Proof.
  intros Hd. eapply db_mono; [apply revoke_passkey_law|].
  intros [[]|e] d'; [|by intros ->]. intros [now ->]. cbv zeta. set (l := update_rows _ _ _).
  assert (Hother : forall u, u <> user -> existsb (live_passkey u) l = existsb (live_passkey u) (db_passkeys d)).
  { intros u Hu. apply existsb_update_same. intros p [_ [Hp%bool_decide_eq_true _]%andb_true_iff]%andb_true_iff.
    unfold live_passkey. simpl. rewrite Hp. by rewrite bool_decide_false by done. }
  destruct (existsb (live_passkey user) l) eqn:E; [|by apply enrolment_set].
  apply enrolment_passkeys; [|done]. intros u. destruct (decide (u = user)) as [->|Hu]; [|by apply Hother].
  rewrite E. symmetry. apply existsb_exists in E as (p & Hin & Hp). apply existsb_exists.
  apply in_update_rows in Hin as (p0 & Hin & ->). exists p0. split; [done|].
  destruct (bool_decide (pk_id p0 = id) && live_passkey user p0) eqn:E0; [|done].
  by apply andb_true_iff in E0 as [_ E0].
Qed.
End Enrolment.

(** * The text of a recovery code *)

Section Codes.
Context `{En : Env} `{CH : CodeHost}.

(** A code as it is printed: two halves of five characters of the alphabet. *)
Definition code_char (c : Ascii.ascii) : bool := contains (String c EmptyString) ALPHABET.
Definition halves (a b : string) : string := a +++ "-" +++ b.
Definition well_formed_code (code : string) : Prop :=
  exists a b, code = halves a b /\ String.length a = 5%nat /\ String.length b = 5%nat /\
    all_chars code_char (a +++ b) = true.

Definition ascii_text (s : string) : bool := all_chars (fun c => (Ascii.nat_of_ascii c <? 128)%nat) s.

(** What [hash] drops from ASCII text. *)
Definition dropped (c : Ascii.ascii) : bool :=
  existsb (Ascii.eqb c) ["009"; "010"; "011"; "012"; "013"; " "; "-"]%char.

Lemma chars_ascii c s :
  ascii_text (String c s) = true -> chars (String c s) = String c EmptyString :: chars s.
Proof.
  unfold ascii_text. cbn [all_chars]. intros [_ Hs]%andb_true_iff.
  cbn [chars]. destruct s as [|d s]; [done|]. 
  destruct (chars (String d s)) as [|x l] eqn:E.
  { exfalso. simpl in E. destruct (chars s); [done|]. by destruct (continues s). }
  simpl. cbn [all_chars] in Hs. apply andb_true_iff in Hs as [Hd _].
  unfold is_continuation. apply Nat.ltb_lt in Hd.
  destruct (128 <=? Ascii.nat_of_ascii d)%nat eqn:E2; [|done]. apply Nat.leb_le in E2. lia.
Qed.

Lemma canonical_ascii c s :
  ascii_text (String c s) = true ->
  canonical (String c s) = (if dropped c then EmptyString else String (ascii_upper c) EmptyString) +++ canonical s.
Proof.
  intros Hs. unfold canonical. rewrite chars_ascii by done. cbn [List.filter].
  assert (Hc : negb (is_white (String c EmptyString)) && negb (String.eqb (String c EmptyString) "-") = negb (dropped c)).
  { cbn [ascii_text all_chars] in Hs. clear Hs. by destruct c as [[] [] [] [] [] [] [] []]. }
  rewrite Hc. destruct (dropped c); cbn [negb]; [done|]. cbn [map to_uppercase].
  destruct (map to_uppercase _); [done|]. done.
Qed.

(** [canonical] on ASCII text. *)
Fixpoint canonical_text (s : string) : string :=
  match s with
  | EmptyString => EmptyString
  | String c s' => if dropped c then canonical_text s' else String (ascii_upper c) (canonical_text s')
  end.
Lemma canonical_text_eq s : ascii_text s = true -> canonical s = canonical_text s.
Proof.
  induction s as [|c s IH]; intros Hs; [done|]. rewrite canonical_ascii by done. cbn [canonical_text].
  rewrite IH by by apply andb_true_iff in Hs as [_ Hs]. by destruct (dropped c).
Qed.
Lemma canonical_text_app s t : canonical_text (s +++ t) = canonical_text s +++ canonical_text t.
Proof. induction s as [|c s IH]; simpl; [done|]. rewrite IH. by destruct (dropped c). Qed.
Lemma canonical_text_lower s : canonical_text (to_ascii_lowercase s) = canonical_text s.
Proof.
  unfold to_ascii_lowercase. induction s as [|c s IH]; [done|]. cbn [string_map canonical_text]. rewrite IH.
  assert (dropped (ascii_lower c) = dropped c /\ ascii_upper (ascii_lower c) = ascii_upper c) as [-> ->];
    [|done]. by destruct c as [[] [] [] [] [] [] [] []].
Qed.
Lemma canonical_text_dropped s : all_chars dropped s = true -> canonical_text s = EmptyString.
Proof. induction s as [|c s IH]; simpl; [done|]. intros [-> Hs]%andb_true_iff. auto. Qed.

Lemma code_char_facts c :
  code_char c = true -> dropped c = false /\ ascii_upper c = c /\ (Ascii.nat_of_ascii c <? 128)%nat = true.
Proof. by destruct c as [[] [] [] [] [] [] [] []]. Qed.
Lemma canonical_text_code s : all_chars code_char s = true -> canonical_text s = s /\ ascii_text s = true.
Proof.
  induction s as [|c s IH]; [done|]. cbn [all_chars canonical_text]. intros [Hc Hs]%andb_true_iff.
  apply code_char_facts in Hc as (-> & -> & Hc). destruct (IH Hs) as [-> Ht]. split; [done|].
  unfold ascii_text in *. cbn [all_chars]. by rewrite Hc.
Qed.

(** What a user may type for the code. *)
Inductive typed (a b : string) : string -> Prop :=
| typed_printed : typed a b (halves a b)
| typed_joined : typed a b (a +++ b)
| typed_lower s : typed a b s -> typed a b (to_ascii_lowercase s)
| typed_blanks w s w' : typed a b s -> all_chars dropped w = true -> all_chars dropped w' = true ->
    typed a b (w +++ s +++ w').

Lemma ascii_text_app s t : ascii_text (s +++ t) = ascii_text s && ascii_text t.
Proof. apply all_chars_app. Qed.
Lemma dropped_ascii s : all_chars dropped s = true -> ascii_text s = true.
Proof. apply all_chars_mono. intros c. by destruct c as [[] [] [] [] [] [] [] []]. Qed.

Lemma typed_canonical a b s :
  all_chars code_char (a +++ b) = true -> typed a b s ->
  ascii_text s = true /\ canonical_text s = a +++ b.
Proof.
  intros Hab Hs. pose proof Hab as Hsplit. rewrite all_chars_app in Hsplit.
  apply andb_true_iff in Hsplit as [Ha Hb].
  apply canonical_text_code in Ha as [Ha Ta], Hb as [Hb Tb], Hab as [Hab Tab].
  induction Hs as [| |s Hs [IH1 IH2]|w s w' Hs [IH1 IH2] Hw Hw'].
  - unfold halves. rewrite !ascii_text_app, !canonical_text_app, Ta, Tb, Ha, Hb. done.
  - done.
  - rewrite canonical_text_lower. split; [|done]. unfold ascii_text, to_ascii_lowercase in *.
    rewrite all_chars_map. revert IH1. apply all_chars_mono. intros c. by destruct c as [[] [] [] [] [] [] [] []].
  - rewrite !ascii_text_app, !canonical_text_app, IH1, IH2, !canonical_text_dropped by done.
    rewrite !dropped_ascii by done. by rewrite append_nil_r.
Qed.

(** The loop of [generate_one]. *)
Definition part (i : nat) (c : Ascii.ascii) : string :=
  String c (if (i =? CODE_LEN / 2 - 1)%nat then "-" else EmptyString).
Context {HCH : CodeHostLaws CH}.
Lemma code_char_get i : (i < 32)%nat -> exists c, String.get i ALPHABET = Some c /\ code_char c = true.
Proof.
  intros Hi. do 32 (destruct i as [|i]; [eexists; split; reflexivity|]). lia.
Qed.
Lemma push_chars_law {E} g d idxs :
  tx_wp g d (map_each push_char idxs : M World E _) (fun r d' => d' = d /\ exists cs,
    r = Ok (zip_with part idxs cs) /\ length cs = length idxs /\ Forall (fun c => code_char c = true) cs).
Proof.
  induction idxs as [|i idxs IH]; cbn [map_each].
  { apply tx_ret. split; [done|]. by exists []. }
  apply tx_bind. unfold push_char at 1.
  apply tx_bind, (tx_ticked _ _ (fun n => gen_range n (String.length ALPHABET))). intros n.
  destruct (code_char_get (gen_range n (String.length ALPHABET))) as (c & -> & Hc).
  { apply gen_range_lt. cbn. lia. }
  apply tx_ret, tx_bind. tx_call IH. intros r d' (-> & cs & -> & Hl & Hcs). apply tx_ret.
  split; [done|]. exists (c :: cs). split; [done|]. split; [by simpl; rewrite Hl|by constructor].
Qed.
Lemma generate_one_law {E} g d :
  tx_wp g d (generate_one : M World E _) (fun r d' => d' = d /\ exists code,
    r = Ok code /\ well_formed_code code).
Proof.
  unfold generate_one. apply tx_bind. tx_call push_chars_law.
  intros r d' (-> & cs & -> & Hl & Hcs). apply tx_ret. split; [done|]. eexists. split; [done|].
  do 10 (destruct cs as [|? cs]; [done|]). destruct cs; [|done].
  exists (String a (String a0 (String a1 (String a2 (String a3 EmptyString))))),
    (String a4 (String a5 (String a6 (String a7 (String a8 EmptyString))))).
  split; [done|]. split; [done|]. split; [done|].
  rewrite !Forall_cons in Hcs. simpl. rewrite !andb_true_iff. naive_solver.
Qed.
End Codes.

(** * Properties *)

Section Properties.
Context `{En : Env}.

(** C20: [users.mfa_enrolled] says whether the user has a live passkey: adding,
    using and revoking passkeys keep this, whichever of them fail. *)
Theorem enrolment_invariant d :
  enrolment_exact d ->
  (forall user credential_id credential nickname,
     db_wp d (insert_passkey user credential_id credential nickname) (fun _ d' => enrolment_exact d')) /\
  (forall id count credential, db_wp d (record_use id count credential) (fun _ d' => enrolment_exact d')) /\
  (forall user id, db_wp d (revoke_passkey user id) (fun _ d' => enrolment_exact d')).
Proof.
  intros Hd. split; [|split]; intros *;
    [by apply insert_passkey_enrolment|by apply record_use_enrolment|by apply revoke_passkey_enrolment].
Qed.

(** A recovery code is consumed at most once: [try_consume] answers whether
    the hash stands for a live code of the user and makes it, and no other,
    unusable; [rotate_batch] leaves the user exactly the codes of the new batch
    and every other user hers. *)
Theorem recovery_codes_single_use d user h hs :
  db_wp d (try_consume user h) (fun r d' =>
    match r with
    | Ok b => b = redeemable user h d /\ forall user' h', redeemable user' h' d' =
        redeemable user' h' d && negb (bool_decide (user' = user) && String.eqb h h')
    | Err _ => d' = d
    end) /\
  db_wp d (rotate_batch user hs) (fun r d' =>
    match r with
    | Ok l => map rc_code_hash l = hs /\ forall user' h', redeemable user' h' d' =
        if bool_decide (user' = user) then existsb (String.eqb h') hs else redeemable user' h' d
    | Err _ => d' = d
    end).
Proof.
  split.
  - eapply db_mono; [apply try_consume_law|]. intros [b|e] d'; [|by intros [-> _]].
    intros (-> & now & ->). split; [done|]. intros *. apply redeemable_consumed.
  - eapply db_mono; [apply rotate_batch_law|]. intros [l|e] d'; [|done].
    intros [Hb ->]. split; [apply Hb|]. intros *. by apply redeemable_rotated.
Qed.
End Properties.

(** * A concrete authenticator *)

(** A passkey is its credential id; the state of a ceremony lists the ids that
    may answer, and an answer is an id with a counter. *)
Definition demo_webauthn : WebAuthn := {|
  WebauthnPasskey := string;
  PasskeyRegistration := string;
  PasskeyAuthentication := string;
  RegisterPublicKeyCredential := string;
  PublicKeyCredential := string * Z;
  CreationChallenge := string;
  RequestChallenge := string;
  AuthenticationResult := Z;
  start_passkey_registration n user email name excluded := Ok (email, email);
  finish_passkey_registration answer state := Ok answer;
  start_passkey_authentication n passkeys := Ok (pretty n, String.concat "," passkeys);
  finish_passkey_authentication answer state :=
    if contains answer.1 state then Ok answer.2 else Err "UnknownCredential"%string;
  update_credential p _ := p;
  counter out := out;
  cred_id p := p;
  credential_raw_id answer := answer.1;
  registration_json s := Ok s;
  registration_of_json s := Ok s;
  authentication_json s := Ok s;
  authentication_of_json s := Ok s;
  passkey_json s := Ok s;
  passkey_of_json s := Ok s;
  base64url_decode s := Some s;
  webauthn_configured := true;
|}.

Definition demo_codes : CodeHost := {| gen_range n k := Nat.modulo n k; unicode_upper s := s |}.
#[export] Instance demo_codes_laws : CodeHostLaws demo_codes.
Proof. split. intros n k Hk. apply Nat.mod_upper_bound. lia. Qed.

(** Ada (5) has the passkey [key-a]; Cy (7) has none. *)
Definition demo_keys : DB :=
  set_rows (R := Passkey) [mkPasskey 80%N 5%N "key-a" "key-a" 3 "YubiKey" 20 None None] demo_users.

(** Cy registers a passkey, Ada revokes hers: both flags follow. *)
Lemma enrolment_invariant_witness :
  let w1 := (@insert_passkey demo_env 7%N "key-c" "key-c" "Phone" (demo_world demo_keys)).2 in
  let w2 := (@revoke_passkey demo_env 5%N 80%N w1).2 in
  enrolment_exact (w_db w1) /\ enrolment_exact (w_db w2) /\
  map us_mfa_enrolled (db_users demo_keys) = [true; false] /\
  map us_mfa_enrolled (db_users (w_db w2)) = [false; true].
Proof.
  intros w1 w2.
  assert (H0 : enrolment_exact demo_keys).
  { intros u [<-|[<-|[]]]; vm_compute; reflexivity. }
  destruct (@enrolment_invariant demo_env demo_keys H0) as [H1 _].
  pose proof (db_run _ _ _ (demo_world demo_keys) (H1 7%N "key-c" "key-c" "Phone")%string eq_refl) as E1.
  fold w1 in E1. destruct (@enrolment_invariant demo_env (w_db w1) E1) as (_ & _ & H2).
  pose proof (db_run _ _ _ w1 (H2 5%N 80%N) eq_refl) as E2. fold w2 in E2.
  split; [exact E1|]. split; [exact E2|]. split; vm_compute; reflexivity.
Defined.
