(* ===== verification/MfaRoutes.v ===== *)
(** The routes of the second factor ([crates/api/src/auth_passkey.rs]):
    registration and assertion of passkeys, their inventory, and the recovery
    codes, with the audit entries each of them writes. *)

From Stdlib Require Import Ascii.
From stdpp Require Import base gmap strings list pretty.
From S2P Require Import Prelude Errors Integrations Events Schema Database Tables Safety.
From S2P Require Import Membership Sessions Access Api Passkeys.

(** [PasskeyView] *)
Record PasskeyView := mkPasskeyView {
  py_id : Uuid;
  py_nickname : string;
  py_registered_at : Z;
  py_last_used_at : option Z;
}.
Definition passkey_view (p : Passkey) : PasskeyView :=
  mkPasskeyView (pk_id p) (pk_nickname p) (pk_registered_at p) (pk_last_used_at p).

Definition webauthn_to_api (e : WebauthnError) : PlatformError :=
  match e with
  | CeremonyMissing => NotFound "webauthn ceremony not found or expired"
  | Rejected msg => Forbidden msg
  | Config msg => Internal msg
  | Storage p => p
  end.

Definition sanitize_nickname (raw : string) : result PlatformError string :=
  let trimmed := trim raw in
  if String.eqb trimmed EmptyString then Err (Invalid "nickname must not be empty")
  else if (64 <? length (chars trimmed))%nat
  then Err (Invalid "nickname must be 64 characters or fewer")
  else Ok trimmed.

Module MfaRoutes.
Section MfaRoutes.
Context `{En : Env} `{WA : WebAuthn} `{CH : CodeHost}.

(** [require_ceremonies] *)
Definition require_ceremonies {S} : M S PlatformError unit :=
  if webauthn_configured then ret tt
  else throw (Internal "WebAuthn is not configured on this deployment (KUBINATE__WEBAUTHN_RP_ID + KUBINATE__WEBAUTHN_RP_ORIGIN)").
Definition webauthn {A} (m : M World WebauthnError A) : M World PlatformError A :=
  map_err webauthn_to_api m.

(** ** Audit *)

Definition audit_passkey_event_for_actor (actor : Actor) (rq : Request)
    (action resource_type : string) (resource_id : option string) : M World PlatformError unit :=
  tenant_tx (ac_organization_id actor) (Some (from_actor_and_headers actor rq))
    (append_explicit (ac_organization_id actor) action resource_type resource_id "allowed") ;;;
  ret tt.

Definition audit_passkey_event_for_user_with_decision (user_id : Uuid) (rq : Request)
    (action resource_type : string) (resource_id : option string) (decision : string)
  : M World PlatformError unit :=
  memberships <- on_pool (select (fun _ => privileged user_id)) ;;
  for_each (fun m =>
    tenant_tx (mb_organization_id m) (Some (from_user_id_and_headers user_id rq))
      (append_explicit (mb_organization_id m) action resource_type resource_id decision) ;;;
    ret tt) memberships.
Definition audit_passkey_event_for_user (user_id : Uuid) (rq : Request)
    (action resource_type : string) (resource_id : option string) : M World PlatformError unit :=
  audit_passkey_event_for_user_with_decision user_id rq action resource_type resource_id "allowed".

(** ** Registration *)

(** [fetch_one] *)
Definition passkey_user_email (user_id : Uuid) : M World PlatformError string :=
  rows <- on_pool (select (fun _ u => bool_decide (us_id u = user_id))) ;;
  match rows with
  | u :: _ => ret (us_email u)
  | [] => throw (Database row_not_found)
  end.

Definition stash_nickname {E} (ceremony_id : Uuid) (nickname : string) : M App E unit :=
  modify (fun a => mkApp (ap_world a) (ap_limiter a) (ap_jobs a) (<[ceremony_id := nickname]> (ap_nicknames a))).
Definition unstash_nickname {E} (ceremony_id : Uuid) : M App E (option string) :=
  fun a => (Ok (ap_nicknames a !! ceremony_id),
            mkApp (ap_world a) (ap_limiter a) (ap_jobs a) (base.delete ceremony_id (ap_nicknames a))).

Definition register_start (actor : Actor) (raw_nickname : string)
  : M App PlatformError (Uuid * CreationChallenge) :=
  require_ceremonies ;;;
  nickname <- lift (sanitize_nickname raw_nickname) ;;
  existing <- in_world (list_live (ac_user_id actor)) ;;
  user_email <- in_world (passkey_user_email (ac_user_id actor)) ;;
  started <- in_world (webauthn (start_registration (ac_user_id actor) user_email user_email
               (omap (fun p => base64url_decode (pk_credential_id p)) existing))) ;;
  stash_nickname started.1 nickname ;;;
  ret started.

Definition register_finish (actor : Actor) (rq : Request) (ceremony_id : Uuid)
    (register : RegisterPublicKeyCredential) : M App PlatformError (Z * PasskeyView) :=
  require_ceremonies ;;;
  stashed <- unstash_nickname ceremony_id ;;
  let nickname := default "Passkey"%string stashed in
  done <- in_world (webauthn (finish_registration ceremony_id register)) ;;
  row <- in_world (insert_passkey (ac_user_id actor) (co_credential_id done)
                     (co_credential_blob done) nickname) ;;
  in_world (audit_passkey_event_for_actor actor rq "passkey.enrolled" "user_passkey"
              (Some (uuid_str (pk_id row)))) ;;;
  ret (201, passkey_view row).

(** ** Assertion *)

Definition assert_start (user : SessionUser) : M World PlatformError (Uuid * RequestChallenge) :=
  require_ceremonies ;;;
  live <- list_live (su_user_id user) ;;
  match live with
  | [] => throw (Conflict "no registered passkeys; visit /app/settings/security to enroll")
  | _ =>
      passkeys <- map_each (fun p => webauthn (deserialize_passkey (pk_credential p))) live ;;
      webauthn (start_assertion (su_user_id user) passkeys)
  end.

(** The promotion of the session the request carries. *)
Definition promote (user : SessionUser) : M World PlatformError unit :=
  if negb (bool_decide (su_session_id user = Uuid_nil)) then mark_mfa_satisfied (su_session_id user)
  else ret tt.

Definition assert_finish (user : SessionUser) (rq : Request) (ceremony_id : Uuid)
    (credential : PublicKeyCredential) : M World PlatformError bool :=
  require_ceremonies ;;;
  found <- find_by_credential_id (base64url (credential_raw_id credential)) ;;
  match found with
  | None => throw (Forbidden "no live passkey matches this assertion")
  | Some row =>
      if negb (bool_decide (pk_user_id row = su_user_id user))
      then throw (Forbidden "passkey does not belong to this user")
      else
        passkey <- webauthn (deserialize_passkey (pk_credential row)) ;;
        done <- webauthn (finish_assertion ceremony_id (pk_id row) passkey credential) ;;
        record_use (pk_id row) (ca_new_sign_counter done) (ca_updated_credential_blob done) ;;;
        promote user ;;;
        audit_passkey_event_for_user (su_user_id user) rq "passkey.used" "user_passkey"
          (Some (uuid_str (pk_id row))) ;;;
        ret true
  end.

(** ** Inventory *)

Definition list_passkeys (actor : Actor) : M World PlatformError (list PasskeyView) :=
  rows <- list_live (ac_user_id actor) ;;
  ret (map passkey_view rows).

Definition revoke_passkey_route (actor : Actor) (rq : Request) (id : Uuid) : M World PlatformError Z :=
  revoke_passkey (ac_user_id actor) id ;;;
  audit_passkey_event_for_actor actor rq "passkey.revoked" "user_passkey" (Some (uuid_str id)) ;;;
  ret 204.

(** ** Recovery codes *)

Definition recovery_regenerate (actor : Actor) (rq : Request) : M World PlatformError (list string) :=
  plaintext_codes <- generate_batch ;;
  rotate_batch (ac_user_id actor) (map hash plaintext_codes) ;;;
  audit_passkey_event_for_actor actor rq "recovery_codes.regenerated" "user"
    (Some (uuid_str (ac_user_id actor))) ;;;
  ret plaintext_codes.

(** The number of codes that are left. *)
Definition recovery_redeem (user : SessionUser) (rq : Request) (code : string)
  : M World PlatformError Z :=
  consumed <- try_consume (su_user_id user) (hash code) ;;
  if negb consumed then
    ignore (audit_passkey_event_for_user_with_decision (su_user_id user) rq
              "recovery_codes.redeem_failed" "user" (Some (uuid_str (su_user_id user))) "denied") ;;;
    throw (Forbidden "recovery code is invalid or already used")
  else
    promote user ;;;
    remaining <- count_live (su_user_id user) ;;
    audit_passkey_event_for_user (su_user_id user) rq "recovery_codes.redeemed" "user"
      (Some (uuid_str (su_user_id user))) ;;;
    ret remaining.
End MfaRoutes.
End MfaRoutes.
Export MfaRoutes.

(** * Audit *)

Section Audit.
Context `{En : Env}.

(** Only entries of the audit log were added. *)
Definition audited (d d' : DB) : Prop := exists es, d' = set_audit (db_audit d ++ es) d.
#[export] Instance audited_preorder : PreOrder audited.
Proof.
  split.
  - intros d. exists []. destruct d; simpl. by rewrite app_nil_r.
  - intros d1 d2 d3 [es ->] [fs ->]. exists (es ++ fs). destruct d1; simpl. by rewrite app_assoc.
Qed.

Lemma append_audited g d org action resource_type resource_id decision :
  tx_wp g d (append_explicit org action resource_type resource_id decision) (fun r d' =>
    audited d d' /\ (is_ok r = false -> faulty)).
Proof.
  apply tx_map_err, tx_stmt; [by intros Hf; split|]. intros w <- _. cbv beta zeta. cbn [fst snd].
  split; [destruct w; constructor; simpl; done || lia|]. split; [|done]. destruct w. by eexists.
Qed.

Lemma audit_tx_law d org rq_ctx action resource_type resource_id decision :
  db_wp d (tenant_tx org (Some rq_ctx) (append_explicit org action resource_type resource_id decision) ;;; ret tt
           : M World PlatformError unit)
    (fun r d' => audited d d' /\ (is_ok r = false -> faulty)).
Proof.
  intros g. apply tx_bind, db_tenant_tx; [by intros Hf; split|]. intros now.
  tx_call append_audited. intros [id|e] d' [Ha Hf]; [by apply tx_ret|]. split; [reflexivity|auto].
Qed.

Lemma actor_audit_law d actor rq action resource_type resource_id :
  db_wp d (audit_passkey_event_for_actor actor rq action resource_type resource_id) (fun r d' =>
    audited d d' /\ (is_ok r = false -> faulty)).
Proof. apply audit_tx_law. Qed.

Lemma user_audit_law d user rq action resource_type resource_id decision :
  db_wp d (audit_passkey_event_for_user_with_decision user rq action resource_type resource_id decision)
    (fun r d' => audited d d' /\ (is_ok r = false -> faulty)).
Proof.
  intros g. unfold audit_passkey_event_for_user_with_decision. apply tx_bind, db_on_pool. intros now.
  apply tx_select; [by intros Hf; split|]. cbn [result_map_err].
  generalize (List.filter (fun m => visible (idle_guc now) m && privileged user m) (rows d)).
  intros l. revert d g. induction l as [|m l IH]; intros d g; cbn [for_each]; [by apply tx_ret|].
  apply tx_bind. tx_call audit_tx_law. intros [[]|e] d1 [H1 Hf]; [|by split; [|intros _; apply Hf]].
  tx_call IH. intros r d2 [H2 Hf2]. split; [by etrans|done].
Qed.

(** Without a tenant the production role sees no membership. *)
Lemma user_audit_hidden d user rq action resource_type resource_id decision :
  bypass_rls = false -> Forall (fun m => mb_organization_id m <> Uuid_nil) (db_memberships d) ->
  db_wp d (audit_passkey_event_for_user_with_decision user rq action resource_type resource_id decision)
    (fun _ d' => d' = d).
Proof.
  intros Hrls Hnil g. unfold audit_passkey_event_for_user_with_decision.
  apply tx_bind, db_on_pool. intros now. apply tx_select; [done|]. cbn [result_map_err].
  rewrite filter_false_in; [by apply tx_ret|]. intros m Hm. unfold visible. simpl.
  rewrite Hrls, bool_decide_false; [done|]. rewrite List.Forall_forall in Hnil. by apply Hnil.
Qed.
End Audit.

(** * Ceremonies and sessions *)

Section Ceremonies.
Context `{En : Env} `{WA : WebAuthn}.

Definition closed_db (id : Uuid) (kind : CeremonyKind) (now : Z) (d : DB) : DB :=
  set_rows (List.filter (fun c => negb (opened id kind now c)) (db_ceremonies d)) d.

Lemma close_ceremony_law d id kind :
  db_wp d (close_ceremony id kind) (fun r d' =>
    match r with
    | Ok c => exists now, In c (db_ceremonies d) /\ opened id kind now c = true /\
        d' = closed_db id kind now d
    | Err _ => d' = d
    end).
Proof.
  intros g. unfold close_ceremony, take. apply tx_bind, tx_bind, tx_map_err, db_on_pool. intros now.
  apply tx_delete_free; [done..|]. cbn [result_map_err g_now idle_guc]. change (rows d) with (db_ceremonies d).
  apply tx_ret.
  destruct (List.filter (opened id kind now) (db_ceremonies d)) as [|c l] eqn:E; cbn [head].
  - apply tx_throw. assert (Hnone : forall c, In c (db_ceremonies d) -> opened id kind now c = false).
    { intros c Hc. apply not_true_iff_false. intros Ho.
      assert (Hin : In c []) by (rewrite <- E; by apply filter_In). done. }
    rewrite filter_true_in; [by destruct d|]. intros c Hc. by rewrite Hnone.
  - assert (Hin : In c (List.filter (opened id kind now) (db_ceremonies d))) by (rewrite E; by left).
    apply filter_In in Hin as [Hin Ho]. apply tx_ret. by exists now.
Qed.

Lemma closed_none id kind now d c : In c (db_ceremonies (closed_db id kind now d)) -> opened id kind now c = false.
Proof.
  unfold closed_db. change (db_ceremonies (set_rows ?k d)) with (rows (R := CeremonyRow) (set_rows k d)).
  rewrite rows_set_rows. intros [_ Hn%negb_true_iff]%filter_In. done.
Qed.

(** Only the sessions are looked at. *)
Definition same_sessions (d d' : DB) : Prop := db_sessions d' = db_sessions d.
Lemma session_at_same t id d d' : same_sessions d d' -> session_at t id d' = session_at t id d.
Proof. intros H. unfold session_at. by rewrite H. Qed.
Lemma closed_sessions id kind now d : same_sessions d (closed_db id kind now d).
Proof. by destruct d. Qed.
Lemma audited_sessions d d' : audited d d' -> same_sessions d d'.
Proof. intros [es ->]. by destruct d. Qed.
Lemma passkeys_sessions l d : same_sessions d (set_rows (l : list Passkey) d).
Proof. by destruct d. Qed.
Lemma codes_sessions l d : same_sessions d (set_rows (l : list MfaRecoveryCode) d).
Proof. by destruct d. Qed.

(** The session of the request is satisfied, the others are as they were. *)
Definition promoted (user : SessionUser) (d d' : DB) : Prop :=
  forall t id, session_at t id d' =
    (if bool_decide (id = su_session_id user) && negb (bool_decide (su_session_id user = Uuid_nil))
     then session_satisfied else fun s => s) <$> session_at t id d.
Lemma promoted_same user d d1 d2 d' :
  same_sessions d d1 -> promoted user d1 d2 -> same_sessions d2 d' -> promoted user d d'.
Proof. intros H1 H2 H3 t id. by rewrite (session_at_same t id _ _ H3), H2, (session_at_same t id _ _ H1). Qed.

Lemma promote_law d user :
  db_wp d (promote user) (fun r d' =>
    match r with
    | Ok _ => promoted user d d' /\ exists l, d' = set_rows (l : list Session) d
    | Err _ => d' = d /\ faulty
    end).
Proof.
  intros g. unfold promote, promoted. destruct (bool_decide (su_session_id user = Uuid_nil)); cbn [negb].
  - apply tx_ret. split; [|exists (db_sessions d); by destruct d]. intros t id. rewrite andb_false_r.
    by destruct (session_at t id d).
  - tx_call mark_law. intros [[]|e] d'; [|done]. intros [[l Hl] Ht]. split; [|by exists l].
    intros t id. by rewrite andb_true_r, Ht.
Qed.

(** What the crate checked. *)
Definition accepted (d : DB) (ceremony_id : Uuid) (credential : PublicKeyCredential) (now : Z)
    (out : AuthenticationResult) : Prop :=
  exists c state, In c (db_ceremonies d) /\ opened ceremony_id Assertion now c = true /\
    authentication_of_json (cy_state c) = Ok state /\
    finish_passkey_authentication credential state = Ok out.

Lemma finish_assertion_law d ceremony_id row_id passkey credential :
  db_wp d (finish_assertion ceremony_id row_id passkey credential) (fun r d' =>
    (d' = d \/ exists now, d' = closed_db ceremony_id Assertion now d) /\
    forall done, r = Ok done -> exists now out, accepted d ceremony_id credential now out /\
      ca_new_sign_counter done = counter out /\ d' = closed_db ceremony_id Assertion now d).
Proof.
  intros g. unfold finish_assertion. apply tx_bind. tx_call close_ceremony_law.
  intros [c|e] d'; [|intros ->; split; [by left|done]]. intros (now & Hin & Ho & ->).
  assert (Hc : closed_db ceremony_id Assertion now d = d \/
    exists now', closed_db ceremony_id Assertion now d = closed_db ceremony_id Assertion now' d)
    by (right; by exists now).
  unfold serde, rejecting. apply tx_bind, tx_map_err, tx_lift.
  destruct (authentication_of_json (cy_state c)) as [state|e] eqn:Es; [|by split]. cbn [result_map_err].
  apply tx_bind, tx_map_err, tx_lift.
  destruct (finish_passkey_authentication credential state) as [out|e] eqn:Eo; [|by split]. cbn [result_map_err].
  apply tx_bind, tx_map_err, tx_lift. destruct (passkey_json _) as [blob|e]; [|by split]. cbn [result_map_err].
  apply tx_ret. split; [done|]. intros ? [= <-]. exists now, out. split; [by exists c, state|done].
Qed.
End Ceremonies.

(** * Assertion *)

Section AssertionRoute.
Context `{En : Env} `{WA : WebAuthn}.

(** A live passkey of the caller, an open ceremony, and a verified answer whose
    counter moved on. *)
Definition asserted (d : DB) (user : SessionUser) (ceremony_id : Uuid)
    (credential : PublicKeyCredential) (now : Z) : Prop :=
  exists p out, In p (db_passkeys d) /\ live_passkey (su_user_id user) p = true /\
    pk_credential_id p = base64url (credential_raw_id credential) /\
    accepted d ceremony_id credential now out /\
    (pk_sign_counter p < counter out \/ pk_sign_counter p = 0).

Lemma usable_row id count l p :
  NoDup (map pk_id l) -> In p l -> pk_id p = id -> length (List.filter (usable id count) l) = 1%nat ->
  pk_sign_counter p < count \/ pk_sign_counter p = 0.
Proof.
  intros Hnd Hp Hid Hl. destruct (List.filter (usable id count) l) as [|q k] eqn:E; [done|].
  assert (Hq : In q (List.filter (usable id count) l)) by (rewrite E; by left).
  apply filter_In in Hq as [Hq Hu]. unfold usable in Hu.
  apply andb_true_iff in Hu as [[Hq2%bool_decide_eq_true _]%andb_true_iff Hc].
  assert (q = p) as ->.
  { eapply (NoDup_map_inj pk_id l); [exact Hnd|exact Hq|exact Hp|congruence]. }
  apply orb_true_iff in Hc as [Hc%Z.ltb_lt|Hc%Z.eqb_eq]; auto.
Qed.

Lemma assert_finish_law d user rq ceremony_id credential :
  NoDup (map pk_id (db_passkeys d)) ->
  db_wp d (assert_finish user rq ceremony_id credential) (fun r d' =>
    same_sessions d d' /\ is_ok r = false \/
    promoted user d d' /\ exists now, asserted d user ceremony_id credential now /\
      forall c, In c (db_ceremonies d') -> opened ceremony_id Assertion now c = false).
Proof.
  intros Hnd g. unfold assert_finish, require_ceremonies. apply tx_bind.
  destruct webauthn_configured; [apply tx_ret|apply tx_throw; by left].
  apply tx_bind. tx_call find_credential_law. intros [[p|]|e] d'; [|by intros [-> _]; apply tx_throw; left|by intros [-> _]; left].
  intros (-> & Hp & Hcred & Hlive).
  destruct (bool_decide_reflect (pk_user_id p = su_user_id user)) as [Hu|Hu]; cbn [negb]; [|by apply tx_throw; left].
  apply tx_bind. unfold webauthn at 1, deserialize_passkey, serde. apply tx_map_err, tx_map_err, tx_lift.
  destruct (passkey_of_json _) as [pk|e]; [|by left]. cbn [result_map_err].
  apply tx_bind, tx_map_err. tx_call finish_assertion_law. intros r d1 [Hd1 Hok].
  destruct r as [ca|e]; cbn [result_map_err].
  2: { left. split; [|done]. destruct Hd1 as [->|[now ->]]; [done|apply closed_sessions]. }
  destruct (Hok ca eq_refl) as (now & out & Hacc & Hcount & ->).
  assert (Hpk : db_passkeys (closed_db ceremony_id Assertion now d) = db_passkeys d) by by destruct d.
  apply tx_bind. tx_call record_use_law. rewrite Hpk. intros r d2 (l & now2 & -> & _ & Hused).
  assert (Hs : same_sessions d (set_rows l (closed_db ceremony_id Assertion now d))).
  { etrans; [apply passkeys_sessions|apply closed_sessions]. }
  destruct r as [[]|e]; [|by left]. destruct (Hused eq_refl) as [Hlen _].
  assert (Hass : asserted d user ceremony_id credential now).
  { exists p, out. unfold live_passkey. rewrite Hu, bool_decide_true, Hlive by done.
    rewrite Hcount in Hlen. pose proof (usable_row _ _ _ p Hnd Hp eq_refl Hlen). by repeat split. }
  assert (Hopen : forall c, In c (db_ceremonies (set_rows l (closed_db ceremony_id Assertion now d))) ->
    opened ceremony_id Assertion now c = false).
  { intros c Hc. apply (closed_none _ _ _ d). by destruct d. }
  apply tx_bind. tx_call promote_law. intros [[]|e] d3; [|intros [-> _]; by left].
  intros [Hprom [ls ->]]. apply tx_bind. tx_call user_audit_law. intros r d4 [Haud _].
  assert (Hfinal : promoted user d d4 /\ exists now, asserted d user ceremony_id credential now /\
      forall c, In c (db_ceremonies d4) -> opened ceremony_id Assertion now c = false).
  { split; [eapply promoted_same; [exact Hs|exact Hprom|by apply audited_sessions]|].
    exists now. split; [done|]. intros c Hc. apply Hopen. destruct Haud as [es ->]. by destruct d. }
  destruct r as [[]|e]; [apply tx_ret|]; by right.
Qed.
End AssertionRoute.

(** * Recovery *)

Section RecoveryRoute.
Context `{En : Env} `{CH : CodeHost} {HCH : CodeHostLaws CH}.

Lemma generate_codes_law {E X} g d (l : list X) :
  tx_wp g d (map_each (fun _ => generate_one) l : M World E _) (fun r d' => d' = d /\ exists codes,
    r = Ok codes /\ length codes = length l /\ Forall well_formed_code codes).
Proof.
  induction l as [|x l IH]; cbn [map_each]; [apply tx_ret; split; [done|by exists []]|].
  apply tx_bind. tx_call generate_one_law. intros r d' (-> & code & -> & Hc).
  apply tx_bind. tx_call IH. intros r d' (-> & codes & -> & Hl & Hf). apply tx_ret. split; [done|].
  exists (code :: codes). split; [done|]. split; [by simpl; rewrite Hl|by constructor].
Qed.

Lemma redeem_law d user rq code :
  redeemable (su_user_id user) (hash code) d = true ->
  db_wp d (recovery_redeem user rq code) (fun r d' =>
    match r with
    | Ok _ => promoted user d d' /\ redeemable (su_user_id user) (hash code) d' = false
    | Err _ => faulty
    end).
Proof.
  intros Hr g. unfold recovery_redeem. apply tx_bind. tx_call try_consume_law.
  intros [b|e] d1; [|by intros [_ Hf]]. intros (-> & now & ->). rewrite Hr. cbn [negb].
  set (d1 := set_rows _ d).
  assert (H1 : redeemable (su_user_id user) (hash code) d1 = false).
  { unfold d1. rewrite redeemable_consumed, bool_decide_true, String.eqb_refl by done. by rewrite andb_false_r. }
  assert (Hs : same_sessions d d1) by apply codes_sessions.
  apply tx_bind. tx_call promote_law. intros [[]|e] d2; [|by intros [_ Hf]]. intros [Hp [l ->]].
  apply tx_bind. unfold count_live. apply tx_bind. tx_call (select_free_law (R := MfaRecoveryCode)).
  intros [rows|e] d2 [-> Hf]; [|by destruct Hf]. apply tx_ret.
  apply tx_bind. tx_call user_audit_law. intros [[]|e] d2 [Haud Hf2]; [|by apply Hf2]. apply tx_ret.
  split; [eapply promoted_same; [exact Hs|exact Hp|by apply audited_sessions]|].
  destruct Haud as [es ->]. revert H1. clear. unfold redeemable. by destruct d1.
Qed.

Lemma redeem_refused_law d user rq code :
  redeemable (su_user_id user) (hash code) d = false ->
  db_wp d (recovery_redeem user rq code) (fun r d' => is_ok r = false /\ same_sessions d d').
Proof.
  intros Hr g. unfold recovery_redeem. apply tx_bind. tx_call try_consume_law.
  intros [b|e] d1; [|by intros [-> _]]. intros (-> & now & ->). rewrite Hr. cbn [negb].
  apply tx_bind, tx_ignore. tx_call user_audit_law. intros r d2 [Haud _]. apply tx_throw.
  split; [done|]. etrans; [by apply audited_sessions|apply codes_sessions].
Qed.

Lemma regenerate_law d actor rq :
  db_wp d (recovery_regenerate actor rq) (fun r d' =>
    match r with
    | Ok codes => length codes = BATCH_SIZE /\ Forall well_formed_code codes /\ forall user h,
        redeemable user h d' = if bool_decide (user = ac_user_id actor)
                               then existsb (String.eqb h) (map hash codes) else redeemable user h d
    | Err _ => True
    end).
Proof.
  intros g. unfold recovery_regenerate, generate_batch. apply tx_bind. tx_call generate_codes_law.
  intros r d1 (-> & codes & -> & Hl & Hc). apply tx_bind. tx_call rotate_batch_law.
  intros [l|e] d1; [|done]. intros [Hb ->]. apply tx_bind. tx_call actor_audit_law.
  intros [[]|e] d2; [|done]. intros [[es ->] _]. apply tx_ret. split; [done|]. split; [done|].
  intros user h. rewrite <- (redeemable_rotated d (ac_user_id actor) (map hash codes) l) by done.
  unfold redeemable. by destruct d.
Qed.
End RecoveryRoute.

(** * Under the production role *)

Section Production.
Context `{En : Env} `{WA : WebAuthn} `{CH : CodeHost}.

(** Neither the audit log nor a membership was written. *)
Definition quiet (d d' : DB) : Prop :=
  db_audit d' = db_audit d /\ db_memberships d' = db_memberships d.
#[export] Instance quiet_preorder : PreOrder quiet.
Proof. split; [by split|]. intros d1 d2 d3 [H1 H2] [H3 H4]. split; congruence. Qed.
Lemma quiet_sessions l d : quiet d (set_rows (l : list Session) d).
Proof. by destruct d. Qed.
Lemma quiet_passkeys l d : quiet d (set_rows (l : list Passkey) d).
Proof. by destruct d. Qed.
Lemma quiet_codes l d : quiet d (set_rows (l : list MfaRecoveryCode) d).
Proof. by destruct d. Qed.
Lemma quiet_closed id kind now d : quiet d (closed_db id kind now d).
Proof. by destruct d. Qed.

Context (Hrls : bypass_rls = false).
Definition tenants_named (d : DB) : Prop :=
  Forall (fun m => mb_organization_id m <> Uuid_nil) (db_memberships d).
Lemma hidden_after d d1 user rq action resource_type resource_id decision :
  tenants_named d -> quiet d d1 ->
  db_wp d1 (audit_passkey_event_for_user_with_decision user rq action resource_type resource_id decision)
    (fun _ d' => quiet d d').
Proof.
  intros Hd Hq. eapply db_mono; [apply user_audit_hidden; [done|]|by intros r d' ->].
  destruct Hq as [_ Hq]. unfold tenants_named in Hd. by rewrite Hq.
Qed.

Lemma promote_quiet d user : db_wp d (promote user) (fun _ d' => quiet d d').
Proof.
  eapply db_mono; [apply promote_law|]. intros [[]|e] d'; [|by intros [-> _]].
  intros [_ [l ->]]. apply quiet_sessions.
Qed.

Lemma assert_finish_quiet d user rq ceremony_id credential :
  tenants_named d -> db_wp d (assert_finish user rq ceremony_id credential) (fun _ d' => quiet d d').
Proof.
  intros Hd g. unfold assert_finish, require_ceremonies. apply tx_bind.
  destruct webauthn_configured; [apply tx_ret|by apply tx_throw].
  apply tx_bind. tx_call find_credential_law.
  intros [[p|]|e] d'; [|by intros [-> _]; apply tx_throw|by intros [-> _]]. intros (-> & _).
  destruct (negb _); [by apply tx_throw|].
  apply tx_bind. unfold webauthn at 1, deserialize_passkey, serde. apply tx_map_err, tx_map_err, tx_lift.
  destruct (passkey_of_json _) as [pk|e]; [|done]. cbn [result_map_err].
  apply tx_bind, tx_map_err. tx_call finish_assertion_law. intros r d1 [Hd1 _].
  assert (H1 : quiet d d1) by (destruct Hd1 as [->|[now ->]]; [done|apply quiet_closed]).
  destruct r as [ca|e]; cbn [result_map_err]; [|done].
  apply tx_bind. tx_call record_use_law. intros r d2 (l & now & -> & _).
  assert (H2 : quiet d (set_rows l d1)) by (etrans; [exact H1|apply quiet_passkeys]).
  destruct r as [[]|e]; [|done]. apply tx_bind. tx_call promote_quiet. intros r d3 H3.
  assert (H4 : quiet d d3) by by etrans. destruct r as [[]|e]; [|done].
  apply tx_bind. tx_call hidden_after; [exact Hd|exact H4|]. intros [[]|e] d4 H; [by apply tx_ret|done].
Qed.

Lemma recovery_redeem_quiet d user rq code :
  tenants_named d -> db_wp d (recovery_redeem user rq code) (fun _ d' => quiet d d').
Proof.
  intros Hd g. unfold recovery_redeem. apply tx_bind. tx_call try_consume_law.
  intros [b|e] d1; [|by intros [-> _]]. intros (_ & now & ->). set (d1 := set_rows _ d).
  assert (H1 : quiet d d1) by apply quiet_codes. destruct b; cbn [negb].
  - apply tx_bind. tx_call promote_quiet. intros r d2 H2.
    assert (H3 : quiet d d2) by by etrans. destruct r as [[]|e]; [|done].
    apply tx_bind. unfold count_live. apply tx_bind. tx_call (select_free_law (R := MfaRecoveryCode)).
    intros [rows|e] d3 [-> _]; [|done]. apply tx_ret, tx_bind.
    tx_call hidden_after; [exact Hd|exact H3|]. intros [[]|e] d4 H; [by apply tx_ret|done].
  - apply tx_bind, tx_ignore. tx_call hidden_after; [exact Hd|exact H1|]. intros _ d4 H. by apply tx_throw.
Qed.
End Production.

(** * Properties *)

Section Properties.
Context `{En : Env} `{WA : WebAuthn} `{CH : CodeHost}.


(** C19: Generating recovery codes answers ten codes of the documented format.
    Any of them, typed in either case, with or without the hyphen and with
    blanks around it, satisfies the session of a request of the same user (only
    a failing database can prevent it), and a second attempt with it is refused
    and satisfies no session. *)
Theorem recovery_flow {HCH : CodeHostLaws CH} d actor rq :
  db_wp d (recovery_regenerate actor rq) (fun r d1 =>
    match r with
    | Ok codes => length codes = BATCH_SIZE /\ Forall well_formed_code codes /\
        forall a b text user rq', In (halves a b) codes -> all_chars code_char (a +++ b) = true ->
        typed a b text -> su_user_id user = ac_user_id actor ->
        db_wp d1 (recovery_redeem user rq' text) (fun r d2 =>
          match r with
          | Ok _ => promoted user d1 d2 /\
              db_wp d2 (recovery_redeem user rq' text) (fun r d3 => is_ok r = false /\ same_sessions d2 d3)
          | Err _ => faulty
          end)
    | Err _ => True
    end).
Proof.
  eapply db_mono; [apply regenerate_law|]. intros [codes|e] d1; [|done]. intros (Hl & Hf & Hr).
  split; [done|]. split; [done|]. intros a b text user rq' Hin Hab Ht Hu.
  assert (Hhash : hash text = hash (halves a b)).
  { destruct (typed_canonical a b text Hab Ht) as [Ha Hc].
    destruct (typed_canonical a b (halves a b) Hab) as [Ha' Hc']; [constructor|].
    unfold hash. by rewrite !canonical_text_eq, Hc, Hc' by done. }
  eapply db_mono; [apply redeem_law|].
  - rewrite Hhash, Hr, bool_decide_true by done. apply existsb_exists. exists (hash (halves a b)).
    split; [by apply in_map|]. by apply String.eqb_eq.
  - intros [n|e] d2; [|done]. intros [Hp Hspent]. split; [done|]. by apply redeem_refused_law.
Qed.

(** Under the production role the second factor leaves no trace: neither an
    assertion nor the use of a recovery code, accepted or refused, adds an entry
    to the audit log. *)
Theorem production_mfa_unaudited d :
  bypass_rls = false -> Forall (fun m => mb_organization_id m <> Uuid_nil) (db_memberships d) ->
  (forall user rq ceremony_id credential,
     db_wp d (assert_finish user rq ceremony_id credential) (fun _ d' => db_audit d' = db_audit d)) /\
  (forall user rq code, db_wp d (recovery_redeem user rq code) (fun _ d' => db_audit d' = db_audit d)).
Proof.
  intros Hrls Hd. split; intros *.
  - eapply db_mono; [by apply assert_finish_quiet|]. by intros r d' [H _].
  - eapply db_mono; [by apply recovery_redeem_quiet|]. by intros r d' [H _].
Qed.
End Properties.

(** * Concrete runs *)

(** Ada logged in and has not shown her passkey yet. *)
Definition demo_partial : DB :=
  let 'mkDB a b c d e f g h i _ j _ k m n o p t u v := demo_keys in
  mkDB a b c d e f g h i [mkMembership 50%N 1%N 5%N Owner 10 None 1] j
    [mkSession 3%N 5%N 10 10 (10 + SESSION_TTL) None false] k m n o p t u v.
Definition ada : SessionUser := mkSessionUser 5%N 3%N.
Definition plain_request : Request := headers [].


Lemma recovery_flow_witness :
  let w1 := (@recovery_regenerate demo_env demo_codes (mkActor 5%N 3%N 1%N) plain_request
               (demo_world demo_partial)).2 in
  let run := @recovery_redeem demo_env demo_codes ada plain_request (" " +++ "0123456789" +++ " ") w1 in
  run.1 = Ok 9 /\ promoted ada (w_db w1) (w_db run.2).
Proof.
  intros w1 run.
  assert (Hr : exists codes, (@recovery_regenerate demo_env demo_codes (mkActor 5%N 3%N 1%N) plain_request
    (demo_world demo_partial)).1 = Ok ("01234-56789"%string :: codes)) by (eexists; vm_compute; reflexivity).
  assert (Ht : typed "01234" "56789" (" " +++ "0123456789" +++ " ")) by (apply typed_blanks; [constructor|done..]).
  pose proof (db_run _ _ _ (demo_world demo_partial) (@recovery_flow demo_env demo_codes demo_codes_laws
    demo_partial (mkActor 5%N 3%N 1%N) plain_request) eq_refl) as H.
  destruct Hr as [codes Hr]. rewrite Hr in H. destruct H as (_ & _ & H).
  assert (Hin : In (halves "01234" "56789") ("01234-56789"%string :: codes)) by (left; reflexivity).
  assert (Hch : all_chars code_char ("01234" +++ "56789") = true) by (vm_compute; reflexivity).
  specialize (H "01234" "56789" _ ada plain_request Hin Hch Ht eq_refl)%string.
  pose proof (db_run _ _ _ w1 H eq_refl) as Hp. fold run in Hp.
  assert (Hok : run.1 = Ok 9) by (vm_compute; reflexivity).
  rewrite Hok in Hp. split; [exact Hok|exact (proj1 Hp)].
Defined.

Lemma production_mfa_unaudited_witness :
  let w := @MfaRoutes.recovery_redeem demo_env demo_codes ada plain_request "wrong" (demo_world demo_partial) in
  w.1 = Err (Forbidden "recovery code is invalid or already used") /\
  db_audit (w_db w.2) = db_audit demo_partial.
Proof.
  intros w.
  assert (Hn : Forall (fun m => mb_organization_id m <> Uuid_nil) (db_memberships demo_partial)).
  { repeat constructor. discriminate. }
  destruct (@production_mfa_unaudited demo_env demo_webauthn demo_codes demo_partial eq_refl Hn) as [_ H].
  pose proof (db_run _ _ _ (demo_world demo_partial) (H ada plain_request "wrong"%string) eq_refl) as Hw.
  split; [vm_compute; reflexivity|exact Hw].
Defined.

(** A partial session promotes itself: an [Actor] may be one, so whoever holds
    Ada's password-less log-in generates recovery codes, redeems one and passes
    the owner gate, without any of her passkeys. *)
Definition ada_cookie : Request := headers [("cookie", "kubinate_session=3")]%string.
Section Escalation.
Context `{En : Env} `{CH : CodeHost}.
Definition escalate (rq : Request) : M World Rejection (MembershipRole * MfaState) :=
  actor <- extract_actor rq ;;
  codes <- map_err RejectError (recovery_regenerate actor rq) ;;
  user <- extract_session_user rq ;;
  map_err RejectError (recovery_redeem user rq (default EmptyString (head codes))) ;;;
  owner <- extract_owner rq ;;
  state <- map_err RejectError (mfa_state (su_user_id user) (su_session_id user)) ;;
  ret (ow_role owner, state).
End Escalation.
Theorem partial_session_escalates :
  let w := demo_world_as true demo_partial in
  (@extract_owner (demo_env_as true) ada_cookie w).1 =
    Err (RejectError (MfaRequired "WebAuthn assertion required for this action")) /\
  (@escalate (demo_env_as true) demo_codes ada_cookie w).1 = Ok (Owner, Enrolled).
Proof. vm_compute. auto. Qed.

(** A ceremony is not bound to the caller: Cy finishes the registration that
    Ada began, and the credential is his. *)
Theorem ceremony_not_bound :
  let a0 := demo_app demo_partial in
  let start := @register_start demo_env demo_webauthn (mkActor 5%N 3%N 1%N) "Phone" a0 in
  match start.1 with
  | Ok (ceremony, _) =>
      let finish := @register_finish demo_env demo_webauthn (mkActor 7%N 4%N 1%N) plain_request ceremony
                      "key-x"%string start.2 in
      is_ok finish.1 = true /\ map pk_user_id (db_passkeys (ap_db finish.2)) = [5%N; 7%N]
  | Err _ => False
  end.
Proof. vm_compute. auto. Qed.
