(* ===== verification/Login.v ===== *)
(** The log-in with GitHub: the state of an authorization request and the
    linking of identities ([crates/identity/src/oidc.rs]), the client
    ([crates/integrations/src/github.rs]) and the two routes
    ([crates/api/src/auth.rs]). *)

From stdpp Require Import base gmap strings list pretty.
From S2P Require Import Prelude Errors Integrations Events Schema Database Tables.
From S2P Require Import Membership Sessions Access Passkeys Account.

(** * Tables *)

Section Tables.
Context `{En : Env}.

(** [auth_states] ([20260424120400]); the key is the text of the state. *)
#[export] Instance AuthStateTable : Table AuthState := {|
  rows := db_auth_states;
  set_rows l db :=
    let 'mkDB a b c d e f g h i j k m n o p r s t _ v := db in mkDB a b c d e f g h i j k m n o p r s t l v;
  row_id _ := Uuid_nil;
  row_tenant _ := None;
  row_audited := None;
  row_touch _ _ new := new;
  row_conflict a b := String.eqb (as_state a) (as_state b);
  row_check _ _ := None;
  row_referenced _ _ := false;
  row_after _ _ db := db;
|}.

(** [user_oidc_identities] ([20260424120000]) *)
#[export] Instance IdentityTable : Table OidcIdentity := {|
  rows := db_identities;
  set_rows l db :=
    let 'mkDB a b c d e f g h i j k m n o p r s t u _ := db in mkDB a b c d e f g h i j k m n o p r s t u l;
  row_id := oi_id;
  row_tenant _ := None;
  row_audited := None;
  row_touch _ _ new := new;
  row_conflict a b :=
    bool_decide (oi_id a = oi_id b)
    || String.eqb (oi_issuer a) (oi_issuer b) && String.eqb (oi_subject a) (oi_subject b);
  row_check db r := constraints [ (user_exists db (oi_user_id r), DbForeignKey) ];
  row_referenced _ _ := false;
  row_after _ _ db := db;
|}.

#[export] Instance AuthStateTable_laws : TableLaws AuthState.
Proof. table_laws. Qed.
#[export] Instance IdentityTable_laws : TableLaws OidcIdentity.
Proof. table_laws. Qed.
#[export] Instance AuthStateTable_plain : PlainTable AuthState := fun _ _ _ => eq_refl.
#[export] Instance IdentityTable_plain : PlainTable OidcIdentity := fun _ _ _ => eq_refl.
#[export] Instance AuthStateTable_free : FreeTable AuthState.
Proof. by split. Qed.
#[export] Instance IdentityTable_free : FreeTable OidcIdentity.
Proof. by split. Qed.
End Tables.

(** * Authorization requests *)

(** [Duration::minutes(10)], in microseconds. *)
Definition AUTH_STATE_TTL : Z := 10 * 60 * 1000000.

(** [oidc.rs: AuthStateError] *)
Inductive AuthStateError :=
| StateNotFound
| StateExpired
| StateReplay
| StateDatabase (e : DbError).
Definition auth_state_display (e : AuthStateError) : string :=
  match e with
  | StateNotFound => "auth state not found or already consumed"
  | StateExpired => "auth state expired"
  | StateReplay => "auth state already consumed"
  | StateDatabase _ => "database"
  end.
Definition auth_state_to_platform (e : AuthStateError) : PlatformError :=
  match e with
  | StateDatabase err => Database err
  | _ => Forbidden (auth_state_display e)
  end.
#[export] Instance AuthStateError_db : FromDb AuthStateError := { of_db := StateDatabase }.

Definition state_consumed (now : Z) (a : AuthState) : AuthState :=
  mkAuthState (as_state a) (as_nonce a) (as_code_verifier a) (as_provider a) (as_redirect_to a)
    (as_created_at a) (as_expires_at a) (Some now).

(** [oidc.rs: IdpUser]; the avatar is written and never read. *)
Record IdpUser := mkIdpUser {
  idp_subject : string;
  idp_issuer : string;
  idp_email : option string;
  idp_display_name : string;
}.

Module Oidc.
Section Oidc.
Context `{En : Env}.

Definition store (state nonce code_verifier provider : string) (redirect_to : option string)
  : M World AuthStateError unit :=
  now <- now_utc ;;
  on_pool (insert (fun _ => mkAuthState state nonce code_verifier provider redirect_to now
                              (now + AUTH_STATE_TTL) None)) ;;;
  ret tt.

Definition replay_or_missing (state : string) : M World AuthStateError AuthStateError :=
  rows <- on_pool (select (fun _ a => String.eqb (as_state a) state)) ;;
  ret match rows with
      | a :: _ => if is_none (as_consumed_at a) then StateExpired else StateReplay
      | [] => StateNotFound
      end.

Definition pending (state : string) (a : AuthState) : bool :=
  String.eqb (as_state a) state && is_none (as_consumed_at a).

Definition consume (state : string) : M World AuthStateError AuthState :=
  hits <- on_pool (update (fun _ => pending state) state_consumed) ;;
  match hits with
  | [] => e <- replay_or_missing state ;; throw e
  | a :: _ =>
      now <- now_utc ;;
      if as_expires_at a <=? now then throw StateExpired else ret a
  end.

(** ** Identities *)

Definition same_identity (issuer subject : string) (i : OidcIdentity) : bool :=
  String.eqb (oi_issuer i) issuer && String.eqb (oi_subject i) subject.
Definition placeholder_email (idp : IdpUser) : string :=
  idp_subject idp +++ "+" +++ idp_issuer idp +++ "@placeholder.local".
Definition login_email (idp : IdpUser) : string := default (placeholder_email idp) (idp_email idp).
(** [email] is a [citext] column. *)
Definition has_email (email : string) (u : UserRow) : bool :=
  String.eqb (citext_fold email) (citext_fold (us_email u)).

Definition upsert_identity (idp : IdpUser) : M World PlatformError Uuid :=
  existing <- sql (select (fun _ => same_identity (idp_issuer idp) (idp_subject idp))) ;;
  match existing with
  | i :: _ => ret (oi_user_id i)
  | [] =>
      user_id <- now_v7 ;;
      let email := login_email idp in
      sql (upsert_row (fun new => has_email (us_email new))
             (fun _ => mkUser user_id email (idp_display_name idp) false false)
             (fun _ new => with_user_name (us_display_name new))) ;;;
      resolved <- sql (select (fun _ => has_email email)) ;;
      match resolved with
      | [] => throw (Database row_not_found)
      | u :: _ =>
          id <- now_v7 ;;
          sql (insert_or_ignore
                 (fun new => same_identity (oi_issuer new) (oi_subject new))
                 (fun _ => mkIdentity id (us_id u) (idp_issuer idp) (idp_subject idp) (idp_email idp))) ;;;
          ret (us_id u)
      end
  end.
End Oidc.
End Oidc.
Export Oidc.

(** * GitHub *)

Definition GITHUB_AUTHORIZE_URL : string := "https://github.com/login/oauth/authorize".

(** [GithubError], [TokenResponse], [GithubProfile] *)
Inductive GithubError :=
| GithubTransport (e : string)
| TokenExchange (msg : string)
| UserLookup (status : Z).
Record TokenResponse := mkTokenResponse {
  tr_access_token : option string;
  tr_error : option string;
  tr_error_description : option string;
}.
Record GithubProfile := mkProfile {
  gp_id : Z;
  gp_login : string;
  gp_name : option string;
  gp_email : option string;
}.

(** The token endpoint, given its form, and [GET /user], given the token: a
    failed exchange, or an answer with its status; and [AuthConfig]. *)
Class GithubHost := {
  post_token : nat -> list (string * string) -> result string TokenResponse;
  get_user : nat -> string -> result string (Z * result string GithubProfile);
  github_client_id : string;
  github_client_secret : string;
  github_redirect_uri : string;
}.

Module Github.
Section Github.
Context `{En : Env} `{GH : GithubHost}.

Definition token_form (code code_verifier redirect_uri : string) : list (string * string) :=
  [("client_id", github_client_id); ("client_secret", github_client_secret); ("code", code);
   ("redirect_uri", redirect_uri); ("code_verifier", code_verifier)]%string.
Definition read_token (resp : TokenResponse) : result GithubError string :=
  match tr_error resp with
  | Some err => Err (TokenExchange (err +++ ": " +++ default "no description"%string (tr_error_description resp)))
  | None =>
      match tr_access_token resp with
      | Some token => Ok token
      | None => Err (TokenExchange "no access_token in response")
      end
  end.
Definition exchange_code (code code_verifier redirect_uri : string) : M World GithubError string :=
  fun w => (match post_token (w_tick w) (token_form code code_verifier redirect_uri) with
            | Ok resp => read_token resp
            | Err e => Err (GithubTransport e)
            end, tick w).
(** [status.is_success()] *)
Definition fetch_profile (access_token : string) : M World GithubError GithubProfile :=
  fun w => (match get_user (w_tick w) access_token with
            | Ok (status, body) =>
                if (200 <=? status) && (status <? 300)
                then result_map_err GithubTransport body else Err (UserLookup status)
            | Err e => Err (GithubTransport e)
            end, tick w).
Definition github_to_platform (e : GithubError) : PlatformError :=
  match e with
  | TokenExchange msg => Forbidden ("github token exchange: " +++ msg)
  | UserLookup status => Internal ("github user lookup status " +++ pretty status)
  | GithubTransport e => Internal e
  end.
End Github.
End Github.
Export Github.

(** * The routes *)

Definition PROVIDER_GITHUB : string := "github".

Module Login.
Section Login.
Context `{En : Env} `{GH : GithubHost}.

Definition random_url_safe {E} : M World E string :=
  fun w => (Ok (base64url (os_random (w_tick w))), tick w).

Definition checked_redirect (redirect_to : option string) : string :=
  match redirect_to with
  | Some s => if starts_with "/" s then s else "/"
  | None => "/"
  end.

(** The address and its query. *)
Definition login_start (redirect_to : option string)
  : M World PlatformError (string * list (string * string)) :=
  state_tok <- random_url_safe ;;
  nonce <- random_url_safe ;;
  code_verifier <- random_url_safe ;;
  map_err auth_state_to_platform
    (store state_tok nonce code_verifier PROVIDER_GITHUB (Some (checked_redirect redirect_to))) ;;;
  ret (GITHUB_AUTHORIZE_URL,
       [("client_id", github_client_id); ("redirect_uri", github_redirect_uri);
        ("scope", "read:user user:email"); ("state", state_tok);
        ("code_challenge", base64url (sha256 code_verifier)); ("code_challenge_method", "S256");
        ("allow_signup", "true")]%string).

Definition idp_user (p : GithubProfile) : IdpUser :=
  mkIdpUser (pretty (gp_id p)) PROVIDER_GITHUB (gp_email p) (default (gp_login p) (gp_name p)).

(** The session whose id the cookie gets, and where the browser is sent. *)
Definition callback (rq : Request) (code state : string) : M World PlatformError (Session * string) :=
  stored <- map_err auth_state_to_platform (consume state) ;;
  if negb (String.eqb (as_provider stored) PROVIDER_GITHUB)
  then throw (Forbidden "auth state provider mismatch")
  else
    access_token <- map_err github_to_platform
      (exchange_code code (as_code_verifier stored) github_redirect_uri) ;;
    profile <- map_err github_to_platform (fetch_profile access_token) ;;
    end_cookie_session rq ;;;
    session <- in_tx (user_id <- upsert_identity (idp_user profile) ;; issue_session user_id) ;;
    ret (session, default "/"%string (as_redirect_to stored)).
End Login.
End Login.
Export Login.

(** * What a log-in leaves *)

Section Laws.
Context `{En : Env}.

Definition consumed_db (state : string) (now : Z) (d : DB) : DB :=
  set_rows (update_rows (pending state) (state_consumed now) (db_auth_states d)) d.

Lemma consumed_none state now d a :
  In a (db_auth_states (consumed_db state now d)) -> pending state a = false.
Proof.
  unfold consumed_db. change (db_auth_states (set_rows ?k d)) with (rows (R := AuthState) (set_rows k d)).
  rewrite rows_set_rows. intros (a0 & _ & ->)%in_update_rows.
  destruct (pending state a0) eqn:E; [|done]. unfold pending. simpl. apply andb_false_r.
Qed.

Lemma consume_law d state :
  db_wp d (consume state) (fun r d' =>
    match r with
    | Ok a => exists now a0, In a0 (db_auth_states d) /\ pending state a0 = true /\
        a = state_consumed now a0 /\ d' = consumed_db state now d
    | Err _ => exists l, d' = set_rows (l : list AuthState) d
    end).
Proof.
  assert (Hself : exists l, d = set_rows (l : list AuthState) d) by (exists (db_auth_states d); by destruct d).
  intros g. unfold consume. apply tx_bind, db_on_pool. intros now. apply tx_update_free; [done|].
  cbn [result_map_err g_now idle_guc]. change (rows d) with (db_auth_states d).
  destruct (List.filter (pending state) (db_auth_states d)) as [|a0 l] eqn:E; cbn [map].
  - apply tx_bind. unfold replay_or_missing. apply tx_bind. 
    apply db_on_pool. intros now'. apply tx_select_free; cbn [result_map_err]; [by eexists|].
    apply tx_ret. apply tx_throw. by eexists.
  - assert (Hin : In a0 (List.filter (pending state) (db_auth_states d))) by (rewrite E; by left).
    apply filter_In in Hin as [Hin Hp]. apply tx_bind, tx_now_utc. intros t.
    destruct (_ <=? t); [apply tx_throw; by eexists|]. apply tx_ret. by exists now, a0.
Qed.

Lemma find_filter {A} (p : A -> bool) l : List.find p l = head (List.filter p l).
Proof. induction l as [|x l IH]; simpl; [done|]. by destruct (p x). Qed.
Lemma head_filter_true {A} (p : A -> bool) l x : head (List.filter p l) = Some x -> p x = true.
Proof.
  intros H. assert (Hin : In x (List.filter p l)) by (destruct (List.filter p l); [done|by left; injection H]).
  by apply filter_In in Hin as [_ Hin].
Qed.

(** The account an identity stands for: the one it is linked to, else the one
    with its address, else a new one. *)
Definition linked (idp : IdpUser) (d : DB) : option Uuid :=
  oi_user_id <$> head (List.filter (same_identity (idp_issuer idp) (idp_subject idp)) (db_identities d)).
Definition owner_of_email (email : string) (d : DB) : option Uuid :=
  us_id <$> head (List.filter (has_email email) (db_users d)).
Definition account (idp : IdpUser) (d : DB) (user : Uuid) : Prop :=
  match linked idp d with
  | Some u => user = u
  | None =>
      match owner_of_email (login_email idp) d with
      | Some u => user = u
      | None => user_exists d user = false
      end
  end.

(** Only users and identities were written, and no flag of a user. *)
Record accounts_only (d d' : DB) : Prop := mkAccountsOnly {
  ao_sessions : db_sessions d' = db_sessions d;
  ao_states : db_auth_states d' = db_auth_states d;
  ao_assert user : must_assert user d' = must_assert user d;
}.
#[export] Instance accounts_only_preorder : PreOrder accounts_only.
Proof.
  split; [by split|]. intros d1 d2 d3 [H1 H2 H3] [H4 H5 H6]. split; [congruence..|].
  intros user. by rewrite H6, H3.
Qed.

Lemma identities_accounts l d : accounts_only d (set_rows (l : list OidcIdentity) d).
Proof. split; by destruct d. Qed.

Lemma must_assert_users l d user :
  must_assert user (set_rows (l : list UserRow) d) =
  match head (List.filter (fun u => bool_decide (us_id u = user)) l) with
  | Some u => us_requires_mfa u && us_mfa_enrolled u
  | None => false
  end.
Proof. by destruct d. Qed.

Lemma renamed_accounts (p : UserRow -> bool) name d :
  accounts_only d (set_rows (update_rows p (with_user_name name) (db_users d)) d).
Proof.
  split; [by destruct d..|]. intros user. rewrite must_assert_users.
  rewrite filter_update_rows by done. rewrite head_update_rows. unfold must_assert, user_row.
  destruct (head _) as [u|]; simpl; [|done]. by destruct (p u).
Qed.

Lemma added_accounts id email name d :
  user_exists d id = false ->
  accounts_only d (set_rows (db_users d ++ [mkUser id email name false false]) d).
Proof.
  intros Hid. split; [by destruct d..|]. intros user. rewrite must_assert_users, filter_app_list.
  unfold must_assert, user_row. simpl.
  destruct (List.filter _ (db_users d)) as [|u l] eqn:E; simpl; [by destruct (bool_decide _)|done].
Qed.

Lemma owner_filter email d :
  owner_of_email email d = us_id <$> head (List.filter (has_email email) (db_users d)).
Proof. done. Qed.

Lemma upsert_identity_law g d idp :
  tx_wp g d (upsert_identity idp) (fun r d' =>
    match r with
    | Ok user => account idp d user /\ accounts_only d d'
    | Err _ => True
    end).
Proof.
  unfold upsert_identity, account. apply tx_bind, tx_map_err, tx_select_free; [done|]. cbn [result_map_err].
  change (rows d) with (db_identities d). unfold linked.
  destruct (List.filter (same_identity _ _) (db_identities d)) as [|i l] eqn:E; [|by apply tx_ret].
  cbn [head fmap option_fmap option_map]. apply tx_bind, tx_now_v7. intros id.
  set (email := login_email idp).
  (* the account, once the row is there *)
  assert (Hrest : forall d1 user u0,
    accounts_only d d1 -> List.filter (has_email email) (db_users d1) = user :: u0 ->
    match owner_of_email email d with Some u => us_id user = u | None => user_exists d (us_id user) = false end ->
    tx_wp g d1 (resolved <- sql (select (fun _ => has_email email)) ;;
      match resolved with
      | [] => throw (Database row_not_found)
      | u :: _ =>
          id <- now_v7 ;;
          sql (insert_or_ignore
                 (fun new => same_identity (oi_issuer new) (oi_subject new))
                 (fun _ => mkIdentity id (us_id u) (idp_issuer idp) (idp_subject idp) (idp_email idp))) ;;;
          ret (us_id u)
      end) (fun r d' => match r with
      | Ok user => match owner_of_email email d with
                   | Some u => user = u | None => user_exists d user = false end /\ accounts_only d d'
      | Err _ => True end)).
  { intros d1 user u0 Hd1 Hf Hu. apply tx_bind, tx_map_err, tx_select_free; [done|]. cbn [result_map_err].
    change (rows d1) with (db_users d1). rewrite Hf. apply tx_bind, tx_now_v7. intros iid.
    apply tx_bind, tx_map_err, tx_insert_or_ignore; try done; intros _; [by apply tx_ret|].
    intros t. apply tx_ret. split; [done|]. rewrite insert_db_free. etrans; [exact Hd1|apply identities_accounts]. }
  apply tx_bind, tx_map_err. apply tx_upsert_row; try done; cbn [us_email us_display_name].
  - (* an account has the address *)
    intros old Hfind _ t. cbn [result_map_err]. rewrite update_db_free. change (rows d) with (db_users d) in *.
    rewrite find_filter in Hfind. apply (Hrest _ (with_user_name (idp_display_name idp) old)
      (update_rows (has_email email) (with_user_name (idp_display_name idp)) (tail (List.filter (has_email email) (db_users d)))));
      [apply renamed_accounts| |].
    + change (db_users (set_rows ?k d)) with (rows (R := UserRow) (set_rows k d)). rewrite rows_set_rows.
      rewrite filter_update_rows by done. pose proof (head_filter_true _ _ _ Hfind) as Hold.
      destruct (List.filter (has_email email) (db_users d)) as [|u k]; [done|]. injection Hfind as ->.
      unfold update_rows. cbn [map tail]. by rewrite Hold.
    + unfold owner_of_email. by rewrite Hfind.
  - (* it has not *)
    intros Hfind Herr t. cbn [result_map_err]. rewrite insert_db_free. change (rows d) with (db_users d) in *.
    rewrite find_filter in Hfind. unfold insert_error in Herr. rewrite visible_free in Herr. simpl in Herr.
    destruct (existsb _ _) eqn:Ex in Herr; [done|]. rewrite existsb_false_iff in Ex.
    assert (Hid : user_exists d id = false).
    { unfold user_exists. apply existsb_false_iff. intros u Hu. specialize (Ex u Hu). simpl in Ex.
      apply orb_false_iff in Ex as [Ex _]. apply bool_decide_eq_false. apply bool_decide_eq_false in Ex. congruence. }
    apply (Hrest _ (mkUser id email (idp_display_name idp) false false) []); [by apply added_accounts| |].
    + change (db_users (set_rows ?k d)) with (rows (R := UserRow) (set_rows k d)). rewrite rows_set_rows, filter_app_list.
      destruct (List.filter _ (db_users d)) as [|u k]; [|done]. simpl. unfold has_email. by rewrite String.eqb_refl.
    + unfold owner_of_email. by rewrite Hfind.
Qed.
End Laws.

Section Callback.
Context `{En : Env} `{GH : GithubHost}.

(** A call to the outside that changes nothing here. *)
Lemma tx_answered {E A} g d (h : nat -> result E A) (P : result E A -> DB -> Prop) :
  (forall n, P (h n) d) -> tx_wp g d (fun w => (h (w_tick w), tick w)) P.
Proof.
  intros HP w <- _. split; [|destruct w; apply HP].
  destruct w; constructor; simpl; done || lia.
Qed.

(** What GitHub answered. *)
Definition exchanged (code verifier token : string) : Prop :=
  exists n resp, post_token n (token_form code verifier github_redirect_uri) = Ok resp /\ read_token resp = Ok token.
Definition profiled (token : string) (p : GithubProfile) : Prop :=
  exists n status, get_user n token = Ok (status, Ok p) /\ 200 <= status < 300.

Lemma exchange_law g d code verifier :
  tx_wp g d (exchange_code code verifier github_redirect_uri) (fun r d' => d' = d /\
    forall token, r = Ok token -> exchanged code verifier token).
Proof.
  apply (tx_answered _ _ (fun n =>
    match post_token n (token_form code verifier github_redirect_uri) with
    | Ok resp => read_token resp
    | Err e => Err (GithubTransport e)
    end)). intros n. split; [done|]. intros token H.
  destruct (post_token n _) as [resp|e] eqn:E; [|done]. by exists n, resp.
Qed.
Lemma profile_law g d token :
  tx_wp g d (fetch_profile token) (fun r d' => d' = d /\ forall p, r = Ok p -> profiled token p).
Proof.
  apply (tx_answered _ _ (fun n =>
    match get_user n token with
    | Ok (status, body) =>
        if (200 <=? status) && (status <? 300)
        then result_map_err GithubTransport body else Err (UserLookup status)
    | Err e => Err (GithubTransport e)
    end)). intros n. split; [done|]. intros p H.
  destruct (get_user n token) as [[status body]|e] eqn:E; [|done].
  destruct (Z.leb_spec 200 status), (Z.ltb_spec status 300); simpl in H; try done.
  destruct body as [p'|e]; [|done]. injection H as ->. by exists n, status.
Qed.

(** The transaction of the callback. *)
Lemma login_identity_law d idp :
  db_wp d (in_tx (user_id <- upsert_identity idp ;; issue_session user_id)) (fun r d' =>
    match r with
    | Ok s => account idp d (ss_user_id s) /\ ss_mfa_satisfied s = negb (must_assert (ss_user_id s) d) /\
        ~ In (ss_id s) (map ss_id (db_sessions d)) /\ session_at (ss_created_at s) (ss_id s) d' = Some s /\
        db_sessions d' = db_sessions d ++ [s] /\ db_auth_states d' = db_auth_states d
    | Err _ => d' = d
    end).
Proof.
  apply db_in_tx; [done|]. intros now. apply tx_bind. tx_call upsert_identity_law.
  intros [user|e] d1; [|done]. intros [Hacc [Hs Hst Ha]]. tx_call issue_session_law.
  intros [s|e] d2; [|done]. intros (Hu & Hm & Hr & He & Hnew & ->). rewrite Hu.
  split; [done|]. split; [by rewrite Hm, Ha|]. split; [by rewrite <- Hs|]. split.
  - rewrite session_at_new by done. unfold session_live. rewrite Hr, He. cbn [is_none andb].
    destruct (Z.ltb_spec (ss_created_at s) (ss_created_at s + SESSION_TTL)); [done|].
    unfold SESSION_TTL in *. lia.
  - change (db_sessions (set_rows ?k d1)) with (rows (R := Session) (set_rows k d1)).
    rewrite rows_set_rows, Hs, <- Hst. split; [done|]. by destruct d1.
Qed.

Lemma account_sessions idp l d user : account idp (set_rows (l : list Session) d) user = account idp d user.
Proof. by destruct d. Qed.
Lemma account_consumed idp state now d user : account idp (consumed_db state now d) user = account idp d user.
Proof. by destruct d. Qed.
Lemma must_assert_sessions l d user : must_assert user (set_rows (l : list Session) d) = must_assert user d.
Proof. by destruct d. Qed.
Lemma must_assert_consumed state now d user : must_assert user (consumed_db state now d) = must_assert user d.
Proof. by destruct d. Qed.
Lemma sessions_of_consumed state now d : db_sessions (consumed_db state now d) = db_sessions d.
Proof. by destruct d. Qed.

(** C11: A log-in succeeds only on a pending authorization request of GitHub's,
    which it consumes, with GitHub's answers for that request's verifier.  The
    session is for the account the identity is linked to, else the one with its
    address, else a new one; it is complete unless that user must present a
    second factor, its identifier is fresh, the session of the cookie is ended,
    and the browser is sent where the request said.  A failed log-in issues no
    session. *)
Theorem callback_correct d rq code state :
  db_wp d (callback rq code state) (fun r d' =>
    match r with
    | Ok (s, redirect) =>
        (exists a token profile, In a (db_auth_states d) /\ pending state a = true /\
           as_provider a = PROVIDER_GITHUB /\ redirect = default "/"%string (as_redirect_to a) /\
           exchanged code (as_code_verifier a) token /\ profiled token profile /\
           account (idp_user profile) d (ss_user_id s)) /\
        (forall a, In a (db_auth_states d') -> pending state a = false) /\
        ss_mfa_satisfied s = negb (must_assert (ss_user_id s) d) /\
        ~ In (ss_id s) (map ss_id (db_sessions d)) /\
        session_at (ss_created_at s) (ss_id s) d' = Some s /\
        forall old t, extract_session_cookie rq = Some old -> In old (map ss_id (db_sessions d)) ->
          faulty \/ session_at t old d' = None
    | Err _ => map ss_id (db_sessions d') = map ss_id (db_sessions d)
    end).
Proof.
  intros g. unfold callback. apply tx_bind, tx_map_err. tx_call consume_law.
  intros [a|e] d1; [|intros [l ->]; by destruct d]. intros (now & a0 & Hin & Hp & Ha & ->). cbn [result_map_err].
  destruct (String.eqb_spec (as_provider a) PROVIDER_GITHUB) as [Hprov|Hprov]; cbn [negb];
    [|apply tx_throw; by rewrite sessions_of_consumed].
  apply tx_bind, tx_map_err. tx_call exchange_law. intros [token|e] d1 [-> Hx]; cbn [result_map_err];
    [|by rewrite sessions_of_consumed]. specialize (Hx token eq_refl).
  apply tx_bind, tx_map_err. tx_call profile_law. intros [profile|e] d1 [-> Hpr]; cbn [result_map_err];
    [|by rewrite sessions_of_consumed]. specialize (Hpr profile eq_refl).
  apply tx_bind. tx_call end_cookie_law. intros r d2 (-> & [l Hl] & Hids & Hold).
  rewrite sessions_of_consumed in Hids. apply tx_bind. tx_call login_identity_law.
  intros [s|e] d3; [|by intros ->]. intros (Hacc & Hm & Hnew & Hat & Hs & Hst). apply tx_ret.
  rewrite Hids in Hnew.
  rewrite Hl, account_sessions, account_consumed in Hacc. rewrite Hl, must_assert_sessions, must_assert_consumed in Hm.
  split; [|split; [|do 3 (split; [done|])]].
  - exists a0, token, profile. rewrite Ha in *. by repeat split.
  - intros b Hb. rewrite Hst, Hl in Hb. apply (consumed_none state now d). by destruct d.
  - intros old t Hc Hin'. destruct (Hold old Hc) as [Hf|Hnone]; [by left|right].
    unfold session_at. rewrite Hs, filter_app_list. simpl. rewrite (bool_decide_false (ss_id s = old)) by congruence.
    simpl. rewrite app_nil_r. apply Hnone.
Qed.
End Callback.

Section Start.
Context `{En : Env} `{GH : GithubHost}.

(** A log-in begins with one pending request of GitHub's that ends ten minutes
    later; the address carries its state and the hash of its verifier only, and
    the target starts with a slash. *)
Theorem login_start_correct d redirect_to :
  db_wp d (login_start redirect_to) (fun r d' =>
    match r with
    | Ok (url, query) => url = GITHUB_AUTHORIZE_URL /\ exists a target,
        d' = set_rows (db_auth_states d ++ [a]) d /\ pending (as_state a) a = true /\
        existsb (fun b => String.eqb (as_state a) (as_state b)) (db_auth_states d) = false /\
        as_provider a = PROVIDER_GITHUB /\ as_expires_at a = as_created_at a + AUTH_STATE_TTL /\
        as_redirect_to a = Some target /\ starts_with "/" target = true /\
        In ("state"%string, as_state a) query /\
        In ("code_challenge"%string, base64url (sha256 (as_code_verifier a))) query
    | Err _ => d' = d
    end).
Proof.
  assert (Hr : starts_with "/" (checked_redirect redirect_to) = true).
  { unfold checked_redirect. destruct redirect_to as [s|]; [|done]. by destruct (starts_with "/" s) eqn:E. }
  intros g. unfold login_start, random_url_safe.
  do 3 (apply tx_bind, (tx_ticked _ _ (fun n => base64url (os_random n))); intros ?).
  apply tx_bind, tx_map_err. unfold store. apply tx_bind, tx_now_utc. intros now. apply tx_bind.
  apply db_on_pool. intros now'. apply tx_insert_free; [by intros e|]. intros Hc _.
  cbn [result_map_err]. apply tx_ret. cbn [result_map_err]. apply tx_ret. split; [done|].
  eexists _, (checked_redirect redirect_to). split; [done|]. unfold pending. simpl. rewrite String.eqb_refl.
  repeat split; [exact Hc|exact Hr|tauto|tauto].
Qed.
End Start.

(** * Concrete log-ins *)

(** GitHub knows one user, whose public address is Ada's. *)
Definition demo_github : GithubHost := {|
  post_token _ form := Ok (mkTokenResponse (Some "gho_1") None None);
  get_user _ token := Ok (200, Ok (mkProfile 99 "mallory" None (Some "ADA@x.org")));
  github_client_id := "client";
  github_client_secret := "secret";
  github_redirect_uri := "https://api/callback";
|}%string.

Definition log_in (redirect_to : option string) (w : World (H := demo_env)) :=
  let start := @login_start demo_env demo_github redirect_to w in
  match db_auth_states (w_db start.2) with
  | a :: _ => @callback demo_env demo_github (headers []) "code" (as_state a) start.2
  | [] => (Err (Database row_not_found), start.2)
  end.

(** The check of the target admits another host. *)
Theorem open_redirect :
  match (log_in (Some "//evil.example") (demo_world demo_users)).1 with
  | Ok (_, redirect) => redirect = "//evil.example"%string
  | Err _ => False
  end.
Proof. vm_compute. reflexivity. Qed.

(** An identity that was never linked gets the account with its address, and
    renames it. *)
Theorem account_by_email :
  match log_in None (demo_world demo_users) with
  | (Ok (s, _), w) => ss_user_id s = 5%N /\ linked (idp_user (mkProfile 99 "mallory" None None)) demo_users = None /\
      map us_display_name (db_users (w_db w)) = ["mallory"; "Cy"]%string
  | _ => False
  end.
Proof. vm_compute. auto. Qed.
