(* ===== verification/Startup.v ===== *)
(** The start of the API process ([crates/api/src/main.rs: main] and what it calls:
    [platform/src/config.rs], [db.rs], [metrics.rs], the constructors of the secret
    stores, [VictoriaMetricsStore::new], [WebauthnConfig], [agent.rs:
    spawn_if_enabled]): which settings it demands, in which order it opens and
    migrates the database, and when it serves; and the probes. *)

From Stdlib Require Import Ascii.
From stdpp Require Import base gmap strings list.
From S2P Require Import Prelude Errors Integrations Executors Events Schema Database Tables.
From S2P Require Import RateLimit Api AgentTunnel Passkeys.

(** The variables of the process that are UTF-8 ([std::env::var]). *)
Abbreviation Environment := (gmap string string).

(** [AppConfig] *)
Record AppConfig := mkConfig {
  cf_listen_addr : string;
  cf_database_url : string;
  cf_redis_url : string;
  cf_otlp_endpoint : option string;
  cf_environment : string;
}.

(** What start-up gets from outside: the [.env] file, the configuration crate (over
    its files, and the variables with a prefix and a separator), tracing, the
    Prometheus recorder, the database, base64, URLs and addresses, webauthn-rs, the
    HTTP client and server. *)
Class StartHost := {
  Url : Type;
  SocketAddr : Type;
  Recorder : Type;
  dotenv_file : Environment;
  config_build : list string -> string -> string -> Environment -> result string AppConfig;
  telemetry_init : result string unit;
  install_recorder : result string Recorder;
  recorder_text : Recorder -> string;
  pg_connect : nat -> string -> Z -> result string unit;
  run_migrations : nat -> string -> result string unit;
  base64_decode : string -> result string string;
  url_parse : string -> result string Url;
  url_str : Url -> string;
  http_client : result string unit;
  webauthn_builder : string -> Url -> result string unit;
  webauthn_build : string -> Url -> string -> result string unit;
  socket_parse : string -> result string SocketAddr;
  socket_str : SocketAddr -> string;
  tcp_bind : SocketAddr -> result string unit;
  http_serve : result string unit;
  k3s_node_yaml : string;
  package_version : string;
  git_sha : option string;
}.

(** [anyhow::bail!], an error behind a context, a [SecretError] behind a context. *)
Inductive StartError :=
| Bail (msg : string)
| Because (context cause : string)
| BecauseSecret (context : string) (e : SecretError).

(** [WebauthnConfig] *)
Record WebauthnConfig `{SH : StartHost} := mkWebauthnConfig {
  wc_rp_id : string;
  wc_rp_name : string;
  wc_rp_origin : Url;
}.
Arguments mkWebauthnConfig {SH} _ _ _.

(** The choice of stores. *)
Inductive SecretBackend `{SH : StartHost} :=
| PgcryptoBackend (kek : string)
| VaultBackend (base_url : Url) (token key_prefix : string).
Inductive MetricsBackend := MemoryBackend | VictoriaBackend (base_url : string).

(** The settings the state of the process is built from. *)
Record Settings `{SH : StartHost} := mkProcess {
  ps_secrets : SecretBackend;
  ps_metrics : MetricsBackend;
  ps_ssh : OpensshExecutor;
  ps_helm : HelmCliExecutor;
  ps_kubectl : KubectlCliExecutor;
  ps_ceremonies : option WebauthnConfig;
  ps_cluster_settings : ClusterSettings;
  ps_github_client_id : string;
  ps_github_redirect_uri : string;
  ps_github_secret : string;
  ps_stripe_secret : string;
  ps_webhook_secret : string;
  ps_success_url : string;
  ps_cancel_url : string;
  ps_rate_limit : RateLimiter;
}.

(** What start-up has done, and the recorder's handle. *)
Inductive StartEvent `{SH : StartHost} :=
| Connected (dsn : string) (max_connections : Z)
| Migrated (dsn : string)
| PoolClosed (dsn : string)
| Bound (addr : SocketAddr)
| AgentListening (addr : SocketAddr)
| Serving (s : Settings) (addr : SocketAddr).
Record Boot `{SH : StartHost} := mkBoot { bt_handle : option Recorder; bt_log : list StartEvent }.
Arguments mkBoot {SH} _ _.
Arguments mkProcess {SH} _ _ _ _ _ _ _ _ _ _ _ _ _ _ _.

Module Startup.
Section Startup.
Context `{SH : StartHost}.

Definition context {A} (what : string) (r : result string A) : result StartError A :=
  result_map_err (Because what) r.

(** [AppConfig::load] *)
Definition load (env : Environment) : result string AppConfig :=
  let name := default "dev"%string (env !! "KUBINATE__ENV"%string) in
  config_build ["config/default"%string; "config/" +++ name] "KUBINATE" "__" env.

(** [platform/src/metrics.rs: init], [render] *)
Definition metrics_init : M Boot string unit := fun b =>
  match bt_handle b with
  | Some _ => (Ok tt, b)
  | None =>
      match install_recorder with
      | Ok h => (Ok tt, mkBoot (Some h) (bt_log b))
      | Err e => (Err ("install prometheus recorder: " +++ e), b)
      end
  end.
Definition render (b : Boot) : string := default EmptyString (recorder_text <$> bt_handle b).

Definition note {E} (e : StartEvent) : M Boot E unit := modify (fun b => mkBoot (bt_handle b) (bt_log b ++ [e])).
(** An exchange with the outside, noted when it succeeds. *)
Definition exchange (r : nat -> result string unit) (e : StartEvent) : M Boot string unit := fun b =>
  match r (length (bt_log b)) with
  | Ok _ => note e b
  | Err msg => (Err msg, b)
  end.
(** [db.rs: pool], [migrate] *)
Definition pool (dsn : string) (max_connections : Z) : M Boot string unit :=
  exchange (fun n => pg_connect n dsn max_connections) (Connected dsn max_connections).
Definition migrate_schema (dsn : string) : M Boot string unit :=
  exchange (fun n => run_migrations n dsn) (Migrated dsn).

(** [PgcryptoStore::new], [from_env] *)
Definition pgcrypto_new (kek : string) : result SecretError SecretBackend :=
  match base64_decode kek with
  | Err e => Err (InvalidKek ("not valid base64: " +++ e))
  | Ok decoded =>
      if (String.length decoded =? 32)%nat then Ok (PgcryptoBackend kek)
      else Err (InvalidKek ("expected 32 bytes, got " +++ pretty.pretty (String.length decoded)))
  end.
Definition pgcrypto_from_env (env : Environment) : result SecretError SecretBackend :=
  match env !! "KUBINATE__KEK"%string with
  | None => Err (InvalidKek "KUBINATE__KEK not set")
  | Some kek => pgcrypto_new kek
  end.

(** [HttpVaultTransit::new], [from_env] *)
Definition vault_transit_new (base_url token : string) : result SecretError (Url * string) :=
  match url_parse base_url with
  | Err e => Err (InvalidKek ("KUBINATE__VAULT_ADDR invalid url: " +++ e))
  | Ok url =>
      match http_client with
      | Err e => Err (InvalidKek ("reqwest client: " +++ e))
      | Ok _ => Ok (url, token)
      end
  end.
Definition vault_transit_from_env (env : Environment) : result SecretError (Url * string) :=
  match env !! "KUBINATE__VAULT_ADDR"%string with
  | None => Err (InvalidKek "KUBINATE__VAULT_ADDR not set")
  | Some addr =>
      match env !! "KUBINATE__VAULT_TOKEN"%string with
      | None => Err (InvalidKek "KUBINATE__VAULT_TOKEN not set")
      | Some token => vault_transit_new addr token
      end
  end.

Definition em_dash : string := bytes [226; 128; 148]%nat.
Definition secret_backend (env : Environment) : result StartError SecretBackend :=
  let name := default "pgcrypto"%string (env !! "KUBINATE__SECRETS_BACKEND"%string) in
  if String.eqb name "pgcrypto"
  then result_map_err (BecauseSecret "secret store init (pgcrypto)") (pgcrypto_from_env env)
  else if String.eqb name "vault" then
    match vault_transit_from_env env with
    | Err e => Err (BecauseSecret ("secret store init (vault) " +++ em_dash +++
                      " KUBINATE__VAULT_ADDR + KUBINATE__VAULT_TOKEN required") e)
    | Ok (url, token) =>
        Ok (VaultBackend url token (default "kubinate"%string (env !! "KUBINATE__VAULT_KEY_PREFIX"%string)))
    end
  else Err (Bail ("KUBINATE__SECRETS_BACKEND must be 'pgcrypto' or 'vault'; got '" +++ name +++ "'")).

(** [trim_end_matches('/')] *)
Definition trim_end_slashes (s : string) : string :=
  let fix drop (r : string) := match r with
    | String c r' => if Ascii.eqb c "/"%char then drop r' else r
    | EmptyString => EmptyString
    end in
  string_rev (drop (string_rev s)).
(** [VictoriaMetricsStore::new] *)
Definition victoria_new (base_url : string) : result string MetricsBackend :=
  match url_parse base_url with
  | Err e => Err ("victoria metrics URL: " +++ e)
  | Ok _ => Ok (VictoriaBackend (trim_end_slashes base_url))
  end.
Definition not_found : string := "environment variable not found".
Definition metrics_backend (env : Environment) : result StartError MetricsBackend :=
  let name := default "memory"%string (env !! "KUBINATE__METRICS_BACKEND"%string) in
  if String.eqb name "memory" then Ok MemoryBackend
  else if String.eqb name "victoria_metrics" then
    match env !! "KUBINATE__VICTORIA_METRICS_URL"%string with
    | None => Err (Because "KUBINATE__VICTORIA_METRICS_URL required when KUBINATE__METRICS_BACKEND=victoria_metrics"
                     not_found)
    | Some url => context "victoria metrics store init" (victoria_new url)
    end
  else Err (Bail ("KUBINATE__METRICS_BACKEND must be 'memory' or 'victoria_metrics'; got '" +++ name +++ "'")).

(** [WebauthnConfig::from_env], [from_env_optional] *)
Definition webauthn_from_env (env : Environment) : result WebauthnError WebauthnConfig :=
  match env !! "KUBINATE__WEBAUTHN_RP_ID"%string with
  | None => Err (Config "KUBINATE__WEBAUTHN_RP_ID is required")
  | Some rp_id =>
      if String.eqb (trim rp_id) EmptyString then Err (Config "KUBINATE__WEBAUTHN_RP_ID must not be empty")
      else
        let rp_name := default "Kubinate"%string (env !! "KUBINATE__WEBAUTHN_RP_NAME"%string) in
        match env !! "KUBINATE__WEBAUTHN_RP_ORIGIN"%string with
        | None => Err (Config "KUBINATE__WEBAUTHN_RP_ORIGIN is required")
        | Some origin_str =>
            match url_parse origin_str with
            | Err e => Err (Config ("KUBINATE__WEBAUTHN_RP_ORIGIN invalid url: " +++ e))
            | Ok rp_origin => Ok (mkWebauthnConfig rp_id rp_name rp_origin)
            end
        end
  end.
Definition webauthn_from_env_optional (env : Environment) : result WebauthnError (option WebauthnConfig) :=
  match env !! "KUBINATE__WEBAUTHN_RP_ID"%string, env !! "KUBINATE__WEBAUTHN_RP_ORIGIN"%string with
  | Some _, Some _ =>
      match webauthn_from_env env with Ok cfg => Ok (Some cfg) | Err e => Err e end
  | _, _ => Ok None
  end.
(** [Ceremonies::new] *)
Definition ceremonies_new (cfg : WebauthnConfig) : result WebauthnError WebauthnConfig :=
  match webauthn_builder (wc_rp_id cfg) (wc_rp_origin cfg) with
  | Err e => Err (Config ("WebauthnBuilder: " +++ e))
  | Ok _ =>
      match webauthn_build (wc_rp_id cfg) (wc_rp_origin cfg) (wc_rp_name cfg) with
      | Err e => Err (Config ("Webauthn::build: " +++ e))
      | Ok _ => Ok cfg
      end
  end.
(** The facade, if it is configured; a fault is only logged. *)
Definition ceremonies (env : Environment) : option WebauthnConfig :=
  match webauthn_from_env_optional env with
  | Ok (Some cfg) => match ceremonies_new cfg with Ok cer => Some cer | Err _ => None end
  | Ok None => None
  | Err _ => None
  end.

Definition cluster_settings_of (env : Environment) : ClusterSettings :=
  mkSettings (default "kubinate-operator"%string (env !! "KUBINATE__HETZNER_SSH_KEY"%string))
    (default "v1.30.2+k3s1"%string (env !! "KUBINATE__K3S_VERSION"%string))
    k3s_node_yaml.

Definition require_env (env : Environment) (name : string) : result StartError string :=
  match env !! name with
  | Some v => Ok v
  | None => Err (Because ("missing required env var " +++ name) not_found)
  end.

(** [agent.rs: spawn_if_enabled]: a fault of its settings is only logged. *)
Definition spawn_if_enabled {E} (env : Environment) : M Boot E unit :=
  match decide_listener socket_parse (env !! "KUBINATE__AGENT_TUNNEL_ENABLED"%string)
          (env !! "KUBINATE__AGENT_TUNNEL_ADDR"%string) with
  | Disabled => ret tt
  | InvalidAddr _ => ret tt
  | Bind addr => note (AgentListening addr)
  end.

(** The database: migrated over one pool, used over another. *)
Definition open_database (env : Environment) (config : AppConfig) : M Boot StartError unit :=
  let migration_url := default (cf_database_url config) (env !! "KUBINATE__DATABASE_MIGRATION_URL"%string) in
  map_err (Because "migration pool") (pool migration_url 4) ;;;
  map_err (Because "migrations") (migrate_schema migration_url) ;;;
  note (PoolClosed migration_url) ;;;
  map_err (Because "database pool") (pool (cf_database_url config) 20).

Definition settings (env : Environment) : M Boot StartError Settings :=
  secrets <- lift (secret_backend env) ;;
  metrics <- lift (metrics_backend env) ;;
  github_client_id <- lift (require_env env "KUBINATE__GITHUB_CLIENT_ID") ;;
  github_redirect_uri <- lift (require_env env "KUBINATE__GITHUB_REDIRECT_URI") ;;
  github_secret <- lift (require_env env "KUBINATE__GITHUB_CLIENT_SECRET") ;;
  stripe_secret <- lift (require_env env "KUBINATE__STRIPE_SECRET_KEY") ;;
  webhook_secret <- lift (require_env env "KUBINATE__STRIPE_WEBHOOK_SECRET") ;;
  ret (mkProcess secrets metrics (openssh_new (env !! "KUBINATE__SSH_KEY_PATH"%string))
         (helm_new None) (kubectl_new None) (ceremonies env) (cluster_settings_of env)
         github_client_id github_redirect_uri github_secret stripe_secret webhook_secret
         (default "https://app.kubinate.com/app/settings/billing?status=success"%string
            (env !! "KUBINATE__BILLING_SUCCESS_URL"%string))
         (default "https://app.kubinate.com/app/settings/billing?status=cancelled"%string
            (env !! "KUBINATE__BILLING_CANCEL_URL"%string))
         (rate_limiter_new 5 60000000)).

Definition listen (env : Environment) (config : AppConfig) (s : Settings) : M Boot StartError unit :=
  addr <- lift (context "listen addr parse" (socket_parse (cf_listen_addr config))) ;;
  map_err (Because ("bind " +++ socket_str addr)) (exchange (fun _ => tcp_bind addr) (Bound addr)) ;;;
  spawn_if_enabled env ;;;
  note (Serving s addr) ;;;
  lift (context "serve" http_serve).

(** [main]; [dotenvy] keeps a variable that is set already. *)
Definition main (process_env : Environment) : M Boot StartError unit :=
  let env := process_env ∪ dotenv_file in
  lift (context "telemetry init" telemetry_init) ;;;
  map_err (Because "metrics init") metrics_init ;;;
  config <- lift (context "config load" (load env)) ;;
  open_database env config ;;;
  s <- settings env ;;
  listen env config s.
End Startup.
End Startup.
Export Startup.

(** * The probes *)

Module Probes.
Section Probes.
Context `{En : Env} `{SH : StartHost}.
(** [Health], [healthz]; [whole_seconds] of the time since the start. *)
Record Health := mkHealth { he_status : string; he_uptime_seconds : Z; he_version : string }.
Definition healthz {E} (started_at : Z) : M World E Health :=
  now <- now_utc ;;
  ret (mkHealth "ok" (Z.quot (now - started_at) 1000000) package_version).
(** [readyz]: [SELECT 1] *)
Definition readyz {E} : M World E Response :=
  answer <- attempt (on_pool (E := PlatformError) (stmt (fun w => (Ok 1, w)))) ;;
  match answer with
  | Ok _ => ret (mkResponse 200 "ready")
  | Err _ => ret (mkResponse 503 "not ready")
  end.
(** [Version], [version] *)
Definition version : string * option string := (package_version, git_sha).
End Probes.
End Probes.
Export Probes.

(** * What a process that serves was given *)

Section Laws.
Context `{SH : StartHost}.

Inductive secrets_ready (env : Environment) : SecretBackend -> Prop :=
| pgcrypto_ready kek decoded :
    default "pgcrypto"%string (env !! "KUBINATE__SECRETS_BACKEND"%string) = "pgcrypto"%string ->
    env !! "KUBINATE__KEK"%string = Some kek ->
    base64_decode kek = Ok decoded -> String.length decoded = 32%nat ->
    secrets_ready env (PgcryptoBackend kek)
| vault_ready addr token url :
    env !! "KUBINATE__SECRETS_BACKEND"%string = Some "vault"%string ->
    env !! "KUBINATE__VAULT_ADDR"%string = Some addr ->
    env !! "KUBINATE__VAULT_TOKEN"%string = Some token ->
    url_parse addr = Ok url -> http_client = Ok tt ->
    secrets_ready env (VaultBackend url token
      (default "kubinate"%string (env !! "KUBINATE__VAULT_KEY_PREFIX"%string))).

Inductive metrics_ready (env : Environment) : MetricsBackend -> Prop :=
| memory_ready :
    default "memory"%string (env !! "KUBINATE__METRICS_BACKEND"%string) = "memory"%string ->
    metrics_ready env MemoryBackend
| victoria_ready url parsed :
    env !! "KUBINATE__METRICS_BACKEND"%string = Some "victoria_metrics"%string ->
    env !! "KUBINATE__VICTORIA_METRICS_URL"%string = Some url -> url_parse url = Ok parsed ->
    metrics_ready env (VictoriaBackend (trim_end_slashes url)).

(** Passkeys work: both variables are set, the identifier is not blank, the origin is
    a URL, and webauthn-rs accepts them. *)
Inductive passkeys_ready (env : Environment) : WebauthnConfig -> Prop :=
| webauthn_ready rp_id origin_str origin :
    env !! "KUBINATE__WEBAUTHN_RP_ID"%string = Some rp_id -> trim rp_id <> EmptyString ->
    env !! "KUBINATE__WEBAUTHN_RP_ORIGIN"%string = Some origin_str -> url_parse origin_str = Ok origin ->
    let rp_name := default "Kubinate"%string (env !! "KUBINATE__WEBAUTHN_RP_NAME"%string) in
    webauthn_builder rp_id origin = Ok tt -> webauthn_build rp_id origin rp_name = Ok tt ->
    passkeys_ready env (mkWebauthnConfig rp_id rp_name origin).

Lemma default_other (d v : string) o : default d o = v -> v <> d -> o = Some v.
Proof. destruct o; simpl; congruence. Qed.

Lemma secret_backend_ready env b : secret_backend env = Ok b <-> secrets_ready env b.
Proof.
  unfold secret_backend, pgcrypto_from_env, pgcrypto_new, vault_transit_from_env, vault_transit_new. split.
  - destruct (String.eqb _ "pgcrypto") eqn:Hp; [apply String.eqb_eq in Hp|].
    + destruct (env !! "KUBINATE__KEK"%string) as [kek|] eqn:Hk; [|done].
      destruct (base64_decode kek) as [decoded|e] eqn:Hd; [|done].
      destruct (Nat.eqb_spec (String.length decoded) 32); [|done]. intros [= <-]. by econstructor.
    + destruct (String.eqb _ "vault") eqn:Hv; [apply String.eqb_eq in Hv|done].
      destruct (env !! "KUBINATE__VAULT_ADDR"%string) eqn:Ha; [|done].
      destruct (env !! "KUBINATE__VAULT_TOKEN"%string) eqn:Ht; [|done].
      destruct (url_parse _) eqn:Hu; [|done]. destruct http_client as [[]|] eqn:Hc; [|done]. intros [= <-].
      apply default_other in Hv; [by econstructor|done].
  - intros [kek decoded Hp Hk Hd Hl|addr token url Hv Ha Ht Hu Hc].
    + by rewrite Hp, Hk, Hd, Hl.
    + rewrite Hv. cbn [default option_rect]. by rewrite Ha, Ht, Hu, Hc.
Qed.

Lemma metrics_backend_ready env b : metrics_backend env = Ok b <-> metrics_ready env b.
Proof.
  unfold metrics_backend, victoria_new. split.
  - destruct (String.eqb _ "memory") eqn:Hm; [apply String.eqb_eq in Hm; intros [= <-]; by constructor|].
    destruct (String.eqb _ "victoria_metrics") eqn:Hv; [apply String.eqb_eq in Hv|done].
    destruct (env !! "KUBINATE__VICTORIA_METRICS_URL"%string) as [url|] eqn:Hu; [|done].
    destruct (url_parse url) eqn:Hp; [|done]. intros [= <-].
    apply default_other in Hv; [by econstructor|done].
  - intros [Hm|url parsed Hv Hu Hp]; [by rewrite Hm|]. rewrite Hv. cbn. by rewrite Hu, Hp.
Qed.

Lemma ceremonies_ready env cfg : ceremonies env = Some cfg <-> passkeys_ready env cfg.
Proof.
  unfold ceremonies, webauthn_from_env_optional, webauthn_from_env, ceremonies_new. split.
  - destruct (env !! "KUBINATE__WEBAUTHN_RP_ID"%string) as [rp_id|] eqn:Hi; [|done].
    destruct (env !! "KUBINATE__WEBAUTHN_RP_ORIGIN"%string) as [origin_str|] eqn:Ho; [|done].
    destruct (String.eqb_spec (trim rp_id) EmptyString); [done|].
    destruct (url_parse origin_str) as [origin|] eqn:Hu; [|done]. cbn [wc_rp_id wc_rp_name wc_rp_origin].
    destruct (webauthn_builder _ _) as [[]|] eqn:Hb; [|done].
    destruct (webauthn_build _ _ _) as [[]|] eqn:Hw; [|done]. intros [= <-]. by econstructor.
  - intros [rp_id origin_str origin Hi Hne Ho Hu rp_name Hb Hw]. rewrite Hi, Ho.
    apply String.eqb_neq in Hne. rewrite Hne, Hu. cbn [wc_rp_id wc_rp_name wc_rp_origin]. subst rp_name.
    by rewrite Hb, Hw.
Qed.

(** The settings of a process are those of its environment. *)
Definition configured (env : Environment) (s : Settings) : Prop :=
  secrets_ready env (ps_secrets s) /\ metrics_ready env (ps_metrics s) /\
  env !! "KUBINATE__GITHUB_CLIENT_ID"%string = Some (ps_github_client_id s) /\
  env !! "KUBINATE__GITHUB_REDIRECT_URI"%string = Some (ps_github_redirect_uri s) /\
  env !! "KUBINATE__GITHUB_CLIENT_SECRET"%string = Some (ps_github_secret s) /\
  env !! "KUBINATE__STRIPE_SECRET_KEY"%string = Some (ps_stripe_secret s) /\
  env !! "KUBINATE__STRIPE_WEBHOOK_SECRET"%string = Some (ps_webhook_secret s) /\
  (forall cfg, ps_ceremonies s = Some cfg <-> passkeys_ready env cfg).

(** Everything start-up needs is there. *)
Definition migration_url_of (env : Environment) (config : AppConfig) : string :=
  default (cf_database_url config) (env !! "KUBINATE__DATABASE_MIGRATION_URL"%string).
Definition database_opens (env : Environment) (config : AppConfig) : Prop :=
  pg_connect 0 (migration_url_of env config) 4 = Ok tt /\
  run_migrations 1 (migration_url_of env config) = Ok tt /\
  pg_connect 3 (cf_database_url config) 20 = Ok tt.
Definition can_serve (env : Environment) (config : AppConfig) (s : Settings) (addr : SocketAddr) : Prop :=
  telemetry_init = Ok tt /\ is_ok install_recorder = true /\ load env = Ok config /\
  database_opens env config /\ configured env s /\
  socket_parse (cf_listen_addr config) = Ok addr /\ tcp_bind addr = Ok tt.

Definition opening (env : Environment) (config : AppConfig) : list StartEvent :=
  let url := migration_url_of env config in
  [Connected url 4; Migrated url; PoolClosed url; Connected (cf_database_url config) 20].
Definition agent_events (env : Environment) : list StartEvent :=
  match decide_listener socket_parse (env !! "KUBINATE__AGENT_TUNNEL_ENABLED"%string)
          (env !! "KUBINATE__AGENT_TUNNEL_ADDR"%string) with
  | Bind addr => [AgentListening addr]
  | _ => []
  end.
Definition listening (e : StartEvent) : bool :=
  match e with Connected _ _ | Migrated _ | PoolClosed _ => false | _ => true end.

Lemma settings_spec env b :
  (exists s, settings env b = (Ok s, b) /\ configured env s) \/
  (exists e, settings env b = (Err e, b)) /\ forall s, ~ configured env s.
Proof.
  unfold settings. rewrite bind_lift. destruct (secret_backend env) as [sb|e] eqn:Hs.
  2: { right. split; [by eexists|]. intros s (H%secret_backend_ready & _). congruence. }
  rewrite bind_lift. destruct (metrics_backend env) as [mb|e] eqn:Hm.
  2: { right. split; [by eexists|]. intros s (_ & H%metrics_backend_ready & _). congruence. }
  apply secret_backend_ready in Hs. apply metrics_backend_ready in Hm. unfold require_env.
  rewrite !bind_lift.
  repeat match goal with
  | |- context [match ?o with Some _ => _ | None => _ end] =>
      destruct o eqn:?; [rewrite ?bind_lift|right; split; [by eexists|]; intros ? (_ & _ & ? & ? & ? & ? & ? & _); congruence]
  end.
  left. eexists. split; [reflexivity|]. split_and!; try done. apply ceremonies_ready.
Qed.

Lemma open_database_spec env config h :
  (open_database env config (mkBoot h []) = (Ok tt, mkBoot h (opening env config)) /\
   database_opens env config) \/
  (exists e b, open_database env config (mkBoot h []) = (Err e, b) /\
     Forall (fun ev => listening ev = false) (bt_log b)) /\ ~ database_opens env config.
Proof.
  unfold open_database, database_opens, pool, migrate_schema, exchange. cbn zeta. unfold migration_url_of.
  set (url := default (cf_database_url config) _). unfold bind, map_err. cbn [bt_log length].
  destruct (pg_connect 0 url 4) as [[]|e]; cbn.
  2: { right. split; [|by intros (? & _)]. do 2 eexists. split; [reflexivity|]. by repeat constructor. }
  destruct (run_migrations 1 url) as [[]|e]; cbn.
  2: { right. split; [|by intros (_ & ? & _)]. do 2 eexists. split; [reflexivity|]. by repeat constructor. }
  destruct (pg_connect 3 _ 20) as [[]|e]; cbn.
  2: { right. split; [|by intros (_ & _ & ?)]. do 2 eexists. split; [reflexivity|]. by repeat constructor. }
  by left.
Qed.

Lemma listen_spec env config s h log :
  (exists addr, listen env config s (mkBoot h log) =
     (context "serve" http_serve,
      mkBoot h (log ++ Bound addr :: agent_events env ++ [Serving s addr])) /\
     socket_parse (cf_listen_addr config) = Ok addr /\ tcp_bind addr = Ok tt) \/
  (exists e, listen env config s (mkBoot h log) = (Err e, mkBoot h log)) /\
   forall addr, socket_parse (cf_listen_addr config) = Ok addr -> tcp_bind addr <> Ok tt.
Proof.
  unfold listen. rewrite bind_lift. destruct (socket_parse _) as [addr|e] eqn:Hp; cbn.
  2: { right. split; [by eexists|done]. }
  unfold bind, map_err, exchange. destruct (tcp_bind addr) as [[]|e] eqn:Hb; cbn.
  2: { right. split; [by eexists|congruence]. }
  left. exists addr. split; [|done]. unfold spawn_if_enabled, agent_events.
  destruct (decide_listener _ _ _); cbn; unfold lift; by rewrite <- ?app_assoc.
Qed.

(** C33: The process serves exactly when everything it needs is there: tracing and the
    recorder, the configuration, a database that is reachable, migrated and reachable
    again, one of the two secret stores with its settings (a 32-byte key, or an
    address and a token), one of the two metrics stores, the five credentials of
    GitHub and Stripe, and an address it can bind.  It has then migrated the schema
    over a pool of its own before it opened its own connections.  Passkeys
    and the agents' listener never stop it.  Otherwise it ends with an error, having
    bound no socket. *)
Theorem start_up_correct process_env :
  let env := process_env ∪ dotenv_file in
  let '(r, b) := main process_env (mkBoot None []) in
  (exists config s addr, can_serve env config s addr /\ r = context "serve" http_serve /\
     bt_log b = opening env config ++ Bound addr :: agent_events env ++ [Serving s addr]) \/
  ((forall config s addr, ~ can_serve env config s addr) /\ is_ok r = false /\
   Forall (fun ev => listening ev = false) (bt_log b)).
Proof.
  cbn zeta. set (env := process_env ∪ dotenv_file). unfold main. fold env. cbn zeta. unfold can_serve.
  rewrite bind_lift. destruct telemetry_init as [[]|e]; cbn [context result_map_err].
  2: { right. split; [naive_solver|]. by split; [|constructor]. }
  unfold bind at 1, map_err, metrics_init. cbn [bt_handle bt_log].
  destruct install_recorder as [h|e]; cbn [result_map_err is_ok].
  2: { right. split; [naive_solver|]. by split; [|constructor]. }
  rewrite bind_lift. destruct (load env) as [config|e]; cbn [context result_map_err].
  2: { right. split; [naive_solver|]. by split; [|constructor]. }
  unfold bind at 1. destruct (open_database_spec env config (Some h)) as [[-> Hdb]|[(e & b & -> & Hlog) Hdb]].
  2: { right. split; [|done]. intros config' s addr (_ & _ & [= <-] & H & _). done. }
  assert (Hopen : Forall (fun ev => listening ev = false) (opening env config)) by by repeat constructor.
  unfold bind. destruct (settings_spec env (mkBoot (Some h) (opening env config)))
    as [(s & -> & Hs)|[(e & ->) Hs]].
  2: { right. split; [|done]. intros config' s addr (_ & _ & _ & _ & H & _). by eapply Hs. }
  destruct (listen_spec env config s (Some h) (opening env config)) as [(addr & -> & Hp & Hb)|[(e & ->) Hn]].
  2: { right. split; [|done]. intros config' s' addr (_ & _ & [= <-] & _ & _ & H). naive_solver. }
  left. exists config, s, addr. by split_and!.
Qed.
End Laws.

(** * Concrete starts *)

Definition demo_host (text : string) : StartHost := {|
  Url := string; SocketAddr := string; Recorder := unit;
  dotenv_file := <["KUBINATE__STRIPE_SECRET_KEY"%string := "sk"%string]> ∅;
  config_build _ _ _ _ := Ok (mkConfig "0.0.0.0:8080" "postgres://app" "redis://" None "dev");
  telemetry_init := Ok tt; install_recorder := Ok tt; recorder_text _ := "# TYPE"%string;
  pg_connect _ _ _ := Ok tt; run_migrations _ _ := Ok tt;
  base64_decode _ := Ok text;
  url_parse s := Ok s; url_str s := s; http_client := Ok tt;
  webauthn_builder _ _ := Ok tt; webauthn_build _ _ _ := Ok tt;
  socket_parse s := Ok s; socket_str s := s; tcp_bind _ := Ok tt; http_serve := Ok tt;
  k3s_node_yaml := "#cloud-config"%string; package_version := "0.1.0"%string; git_sha := None;
|}.
Definition demo_variables : Environment := list_to_map
  [("KUBINATE__KEK", "a2Vr"); ("KUBINATE__GITHUB_CLIENT_ID", "id"); ("KUBINATE__GITHUB_REDIRECT_URI", "https://cb");
   ("KUBINATE__GITHUB_CLIENT_SECRET", "gs"); ("KUBINATE__STRIPE_WEBHOOK_SECRET", "whsec");
   ("KUBINATE__DATABASE_MIGRATION_URL", "postgres://root")]%string.
Definition demo_key : string := "0123456789abcdef0123456789abcdef".

(** The process serves; a key of 31 bytes stops it before it binds. *)
Theorem demo_starts :
  let '(r, b) := @main (demo_host demo_key) demo_variables (mkBoot None []) in
  let '(r', b') := @main (demo_host "0123456789abcdef0123456789abcde") demo_variables (mkBoot None []) in
  r = Ok tt /\ length (bt_log b) = 7%nat /\
  r' = Err (BecauseSecret "secret store init (pgcrypto)" (InvalidKek "expected 32 bytes, got 31")) /\
  bt_log b' = [@Connected (demo_host "0123456789abcdef0123456789abcde") "postgres://root" 4;
               Migrated "postgres://root"; PoolClosed "postgres://root"; Connected "postgres://app" 20].
Proof. vm_compute. repeat split; reflexivity. Qed.
