(* ===== verification/E2e.v ===== *)
(** The nightly harness ([crates/e2e/src/main.rs]): it seeds a tenant with a cluster,
    provisions it with the runner, looks at the nodes, destroys it, and asks Hetzner
    for what is left. *)

From Stdlib Require Import Ascii.
From stdpp Require Import base gmap strings list pretty.
From S2P Require Import Prelude Errors Integrations Events Secrets HetznerClient Schema Database Tables.
From S2P Require Import Cluster Credentials Workflows Runner Runs Billing.

(** [HarnessArgs] *)
Record HarnessArgs := mkArgs {
  ha_database_url : string;
  ha_hetzner_token : string;
  ha_hetzner_ssh_key : string;
  ha_ssh_key_path : string;
  ha_region : string;
  ha_server_type : string;
  ha_k3s_version : string;
}.

(** [Setup]; the repository, the service and the runner are the operations themselves. *)
Record Setup := mkSetup {
  su_organization_id : Uuid;
  su_cluster_id : Uuid;
  su_cluster_name : string;
  su_hetzner : SecretRef;
}.

(** An answer to [GET /v1/servers]: its status, and the length of the array
    [servers] of its JSON, if it is one. *)
Record ListAnswer := mkListAnswer {
  la_status : Z;
  la_servers : result string (option nat);
}.

(** The end of [kubectl]: whether it succeeded, its code, its output and errors. *)
Record Exit := mkExit { ex_success : bool; ex_code : option Z; ex_stdout : string; ex_stderr : string }.

(** What the harness gets from outside beside the runner's environment: the time since
    it started to wait, in microseconds, after a number of pauses; the steps of
    writing a file; kubectl and the length of [items] of its JSON; Hetzner's list; and
    the cloud-init document.  [hh_store] is [PgcryptoStore::from_env] ([Startup.v]). *)
Class HarnessHost := {
  hh_store : result SecretError unit;
  hh_elapsed : nat -> Z;
  hh_create_file : nat -> string -> option string;
  hh_write_file : nat -> string -> option string;
  hh_set_mode : nat -> string -> option string;
  hh_kubectl : nat -> list string -> result string Exit;
  hh_items : string -> result string (option nat);
  hh_list_servers : nat -> string -> string -> option ListAnswer;
  hh_cloud_init : string;
}.

(** [anyhow] errors, the ones of a context or of [bail!] with their cause. *)
Inductive HarnessError :=
| HBecause (context : string) (cause : option AnyhowError)
| HError (e : AnyhowError)
| HSecret (e : SecretError)
| HKubectl (code : option Z) (stderr : string)
| HClusterFailed (reason : option string)
| HEndless.
#[export] Instance HarnessError_from_db : FromDb HarnessError := fun e => HError (ASqlx e).

(** Percent-encoding. *)
Definition hex_upper (n : nat) : ascii := ascii_of_nat (if (n <? 10)%nat then 48 + n else 55 + n).
Definition unreserved (c : ascii) : bool :=
  let n := nat_of_ascii c in
  ((65 <=? n) && (n <=? 90) || (97 <=? n) && (n <=? 122) || (48 <=? n) && (n <=? 57)
   || (n =? 45) || (n =? 95) || (n =? 46) || (n =? 126))%nat.
Fixpoint urlencode (input : string) : string :=
  match input with
  | EmptyString => EmptyString
  | String b rest =>
      if unreserved b then String b (urlencode rest)
      else String "%" (String (hex_upper (nat_of_ascii b / 16)) (String (hex_upper (nat_of_ascii b mod 16))
             (urlencode rest)))
  end.

Module Harness.
Section Harness.
Context `{En : Env, Ex : Externals} `{St : !SecretStore} `{HH : HarnessHost}.

Definition bail {A} (msg : string) : M World HarnessError A := throw (HBecause msg None).
Definition within {A} (context : string) (m : M World AnyhowError A) : M World HarnessError A :=
  map_err (fun e => HBecause context (Some e)) m.
Definition of_platform {A} (m : M World PlatformError A) : M World HarnessError A :=
  map_err (fun e => HError (APlatform e)) m.

(** [env_required], [HarnessArgs::from_env] *)
Definition env_required (env : gmap string string) (name : string) : result HarnessError string :=
  match env !! name with
  | Some v => Ok v
  | None => Err (HBecause ("env var " +++ name +++ " must be set") None)
  end.
Definition args_from_env (env : gmap string string) : M World HarnessError HarnessArgs :=
  database_url <- lift (env_required env "DATABASE_URL") ;;
  hetzner_token <- lift (env_required env "KUBINATE__TEST_HETZNER_TOKEN") ;;
  hetzner_ssh_key <- lift (env_required env "KUBINATE__HETZNER_SSH_KEY") ;;
  ssh_key_path <- lift (env_required env "KUBINATE__SSH_KEY_PATH") ;;
  ret (mkArgs database_url hetzner_token hetzner_ssh_key ssh_key_path
         (default "nbg1"%string (env !! "KUBINATE__E2E_REGION"%string))
         (default "cpx21"%string (env !! "KUBINATE__E2E_SERVER_TYPE"%string))
         (default "v1.30.2+k3s1"%string (env !! "KUBINATE__E2E_K3S_VERSION"%string))).

(** The first eight digits of [Uuid::simple]. *)
Definition short_id (id : Uuid) : string := take_chars 8 (str_replace "-" EmptyString (uuid_str id)).
Definition new_org (id : Uuid) (slug : string) (now : Z) : OrgRow := mkOrg id slug slug Free None now now 1.

(** [Setup::seed] *)
Definition seed (args : HarnessArgs) : M World HarnessError Setup :=
  lift (result_map_err HSecret hh_store) ;;;
  organization_id <- now_v7 ;;
  let slug := "e2e-" +++ short_id organization_id in
  on_pool (insert (new_org organization_id slug)) ;;;
  let harness_audit := mkAuditContext None (Some ("e2e-" +++ uuid_str organization_id)) (Some "e2e/harness"%string) in
  credential <- of_platform
    (create_credential organization_id "e2e-token" (ha_hetzner_token args) harness_audit) ;;
  fresh <- now_v7 ;;
  let cluster_name := "e2e-" +++ short_id fresh in
  cluster <- of_platform (create organization_id
    (mkNewCluster cluster_name (ha_region args) (ha_server_type args) 1 1 (hc_id credential)) harness_audit) ;;
  ret (mkSetup organization_id (cl_id cluster) cluster_name
         (mkSecretRef (hc_secret_id credential) organization_id)).

(** [wait_until_ready]; [n] pauses were made. *)
Definition POLL_INTERVAL : Z := 15 * 1000000.
Fixpoint wait_until_ready (fuel n : nat) (ctx : Setup) : M World HarnessError unit :=
  cluster <- of_platform (get_cluster (su_organization_id ctx) (su_cluster_id ctx)) ;;
  match cl_status cluster with
  | Ready => ret tt
  | Failed => throw (HClusterFailed (cl_status_reason cluster))
  | Destroyed => bail "cluster reached destroyed before ready"
  | _ =>
      if 30 * 60 * 1000000 <? hh_elapsed n
      then bail "provisioning did not reach ready in 30 minutes"
      else match fuel with
           | O => throw HEndless
           | S fuel' => wait_until_ready fuel' (S n) ctx
           end
  end.

Definition file_step (context : string) (f : nat -> string -> option string) (path : string)
  : M World HarnessError unit :=
  drawing (fun n => match f n path with Some e => throw (HBecause (context +++ e) None) | None => ret tt end).

(** [assert_kubectl_works] *)
Definition assert_kubectl_works (kubeconfig : string) : M World HarnessError unit :=
  id <- now_v7 ;;
  let path := temp_dir +++ "/kubinate-e2e-" +++ uuid_str id +++ ".yaml" in
  file_step "create kubeconfig tempfile: " hh_create_file path ;;;
  modify (fun w => set_files (w_files w ++ [path]) w) ;;;
  file_step EmptyString hh_write_file path ;;;
  file_step EmptyString hh_set_mode path ;;;
  output <- drawing (fun n => lift (result_map_err (fun e => HBecause ("spawn kubectl: " +++ e) None)
    (hh_kubectl n ["--kubeconfig"; path; "get"; "nodes"; "-o"; "json"]%string))) ;;
  remove_file path ;;;
  if negb (ex_success output)
  then throw (HKubectl (ex_code output) (ex_stderr output))
  else
    json <- lift (result_map_err (fun e => HBecause ("parse kubectl json: " +++ e) None) (hh_items (ex_stdout output))) ;;
    let items := default O json in
    if (items <? 2)%nat
    then bail ("expected at least 2 nodes (1 cp + 1 worker), got " +++ pretty items)
    else ret tt.

Definition residue_url (cluster_id : Uuid) : string :=
  "https://api.hetzner.cloud/v1/servers?label_selector=" +++
  urlencode ("kubinate.idempotency_key=" +++ uuid_str cluster_id).
(** [assert_no_residual_servers] *)
Definition assert_no_residual_servers (token : string) (cluster_id : Uuid) : M World HarnessError unit :=
  drawing (fun n =>
    match hh_list_servers n (residue_url cluster_id) token with
    | None => bail "hetzner servers list"
    | Some response =>
        if negb ((200 <=? la_status response) && (la_status response <? 300))
        then bail ("hetzner servers list returned " +++ pretty (la_status response))
        else
          match la_servers response with
          | Err e => bail e
          | Ok servers =>
              let count := default O servers in
              if (count =? 0)%nat then ret tt
              else bail ("post-destroy: " +++ pretty count +++ " server(s) still tagged with cluster_id "
                           +++ uuid_str cluster_id)
          end
    end).

Definition harness_input (args : HarnessArgs) (ctx : Setup) : ProvisionClusterInput :=
  mkProvisionInput (su_cluster_id ctx) (su_cluster_name ctx) (ha_region args) (ha_server_type args) 1
    (ha_hetzner_ssh_key args) hh_cloud_init (ha_k3s_version args).

(** [run_provision_and_validate]; 121 pauses make more than the half-hour. *)
Definition run_provision_and_validate (args : HarnessArgs) (ctx : Setup) : M World HarnessError unit :=
  within "provision run" (run_provision (su_organization_id ctx) (harness_input args ctx)) ;;;
  wait_until_ready 121 0 ctx ;;;
  kubeconfig <- within "fetch kubeconfig" (anyhow (fetch_kubeconfig (su_organization_id ctx) (su_cluster_id ctx))) ;;
  assert_kubectl_works kubeconfig.

(** [run], behind the connection and the migrations. *)
Definition run (args : HarnessArgs) : M World HarnessError unit :=
  ctx <- seed args ;;
  outcome <- attempt (run_provision_and_validate args ctx) ;;
  destroy_outcome <- attempt (run_destroy (su_organization_id ctx) (su_cluster_id ctx)) ;;
  assert_no_residual_servers (ha_hetzner_token args) (su_cluster_id ctx) ;;;
  match outcome with
  | Err e => throw e
  | Ok _ => lift (result_map_err HError destroy_outcome)
  end.
End Harness.
End Harness.
Export Harness.

(** * What the harness establishes *)

Section Laws.
Context `{En : Env, Ex : Externals} `{St : !SecretStore} `{HH : HarnessHost}.

(** A pause lasts at least its interval. *)
Definition pauses_last : Prop := forall n, Z.of_nat n * POLL_INTERVAL <= hh_elapsed n.

(** No call of the harness runs without end. *)
Definition ends {A} (m : M World HarnessError A) : Prop := forall w, (m w).1 <> Err HEndless.

Lemma ends_bind {A B} (m : M World HarnessError A) (k : A -> M World HarnessError B) :
  ends m -> (forall a, ends (k a)) -> ends (bind m k).
Proof.
  intros Hm Hk w. unfold bind. specialize (Hm w). destruct (m w) as [[a|e] w1]; [apply Hk|]. cbn in *. congruence.
Qed.
Lemma ends_ret {A} (a : A) : ends (ret a).
Proof. done. Qed.
Lemma ends_throw {A} e : e <> HEndless -> ends (throw e : M World HarnessError A).
Proof. intros H w. cbn. congruence. Qed.
Lemma ends_map_err {E A} (f : E -> HarnessError) (m : M World E A) :
  (forall e, f e <> HEndless) -> ends (map_err f m).
Proof. intros Hf w. unfold map_err. destruct (m w) as [[a|e] w1]; cbn; [done|]. intros [= H]. by eapply Hf. Qed.
Lemma ends_lift {E A} (f : E -> HarnessError) (r : result E A) :
  (forall e, f e <> HEndless) -> ends (lift (result_map_err f r)).
Proof. intros Hf w. destruct r as [a|e]; cbn; [done|]. intros [= H]. by eapply Hf. Qed.
Lemma ends_drawing {A} (f : nat -> M World HarnessError A) : (forall n, ends (f n)) -> ends (drawing f).
Proof. intros H w. apply H. Qed.
Lemma ends_attempt {E A} (m : M World E A) : ends (attempt m).
Proof. intros w. unfold attempt. by destruct (m w). Qed.
Lemma ends_now : ends now_v7.
Proof. done. Qed.
Lemma ends_modify f : ends (modify f).
Proof. done. Qed.
Lemma ends_on_pool {A} (m : M World DbError A) : ends (on_pool m).
Proof. intros w. unfold on_pool. by destruct (m _) as [[a|e] w1]. Qed.
Ltac ends := repeat lazymatch goal with
  | |- ends (bind _ _) => apply ends_bind; [|intros ?]
  | |- ends (ret _) => apply ends_ret
  | |- ends (throw _) => apply ends_throw; discriminate
  | |- ends (bail _) => apply ends_throw; discriminate
  | |- ends (map_err _ _) => apply ends_map_err; discriminate
  | |- ends (lift (result_map_err _ _)) => apply ends_lift; discriminate
  | |- ends (drawing _) => apply ends_drawing; intros ?
  | |- ends (modify _) => apply ends_modify
  | |- ends (on_pool _) => apply ends_on_pool
  | |- ends now_v7 => apply ends_now
  | |- ends (if ?b then _ else _) => destruct b
  | |- ends (match ?o with Some _ => _ | None => _ end) => destruct o
  end.

(** The wait makes no more than 121 pauses. *)
Lemma wait_ends fuel n ctx : pauses_last -> (121 <= n + fuel)%nat -> ends (wait_until_ready fuel n ctx).
Proof.
  intros Hp. revert n. induction fuel as [|fuel IH]; intros n Hn; cbn [wait_until_ready];
    unfold of_platform; (apply ends_bind; [by apply ends_map_err|]); intros cluster;
    destruct (cl_status cluster); try solve [ends];
    destruct (Z.ltb_spec (30 * 60 * 1000000) (hh_elapsed n)) as [|Hle]; try solve [ends];
    try (apply IH; lia); specialize (Hp n); unfold POLL_INTERVAL in Hp; lia.
Qed.

Lemma seed_ends args : ends (seed args).
Proof. unfold seed, of_platform. ends. Qed.
Lemma validate_ends args ctx : pauses_last -> ends (run_provision_and_validate args ctx).
Proof.
  intros Hp. unfold run_provision_and_validate, within, assert_kubectl_works, file_step, remove_file. ends.
  apply wait_ends; [done|lia].
Qed.
Lemma residue_ends token id : ends (assert_no_residual_servers token id).
Proof. unfold assert_no_residual_servers. ends. destruct (la_servers _); ends. Qed.

Lemma residue_ok token id w :
  (assert_no_residual_servers token id w).1 = Ok tt <-> exists response servers,
    hh_list_servers (w_tick w) (residue_url id) token = Some response /\
    200 <= la_status response < 300 /\ la_servers response = Ok servers /\ default O servers = O.
Proof.
  unfold assert_no_residual_servers, drawing, bail. split.
  - destruct (hh_list_servers _ _ _) as [response|]; [|done].
    destruct (Z.leb_spec 200 (la_status response)) as [H1|]; [|done].
    destruct (Z.ltb_spec (la_status response) 300) as [H2|]; [|done]. cbn [andb negb].
    destruct (la_servers response) as [servers|e] eqn:Hs; [|done].
    destruct (Nat.eqb_spec (default O servers) 0) as [H0|]; [|done]. intros _. by exists response, servers.
  - intros (response & servers & -> & [H1%Z.leb_le H2%Z.ltb_lt] & -> & ->). by rewrite H1, H2.
Qed.

(** The harness ends, and it passes only what it means to: a run passes if and only
    if the seeding, the provisioning with its wait and its look at the nodes, and the
    destruction all succeeded, and Hetzner listed no server under the cluster's key
    after it.  The destruction is run after every seeding, whatever came of the
    provisioning. *)
Theorem harness_verdict args w r w' :
  pauses_last -> run args w = (r, w') ->
  r <> Err HEndless /\
  match seed args w with
  | (Err e, w0) => r = Err e /\ w' = w0
  | (Ok ctx, w0) =>
      exists outcome w1 destroyed w2 residue,
        run_provision_and_validate args ctx w0 = (outcome, w1) /\
        run_destroy (su_organization_id ctx) (su_cluster_id ctx) w1 = (destroyed, w2) /\
        assert_no_residual_servers (ha_hetzner_token args) (su_cluster_id ctx) w2 = (residue, w') /\
        (r = Ok tt <-> outcome = Ok tt /\ destroyed = Ok tt /\ residue = Ok tt) /\
        (residue = Ok tt <-> exists response servers,
           hh_list_servers (w_tick w2) (residue_url (su_cluster_id ctx)) (ha_hetzner_token args) = Some response /\
           200 <= la_status response < 300 /\ la_servers response = Ok servers /\ default O servers = O)
  end.
Proof.
  intros Hp. unfold run, bind at 1. pose proof (seed_ends args w) as Hs.
  destruct (seed args w) as [[ctx|e] w0]; [|intros [= <- <-]; cbn in Hs; split; [congruence|done]]. clear Hs.
  pose proof (validate_ends args ctx Hp w0) as Hv. unfold bind at 1, attempt at 1.
  destruct (run_provision_and_validate args ctx w0) as [outcome w1] eqn:Hrun. cbn [fst] in Hv.
  unfold bind at 1, attempt. destruct (run_destroy _ _ w1) as [destroyed w2] eqn:Hd.
  pose proof (residue_ends (ha_hetzner_token args) (su_cluster_id ctx) w2) as Hr.
  pose proof (residue_ok (ha_hetzner_token args) (su_cluster_id ctx) w2) as Hok. unfold bind at 1.
  destruct (assert_no_residual_servers _ _ w2) as [residue w3] eqn:Hres. cbn [fst] in Hr, Hok.
  destruct residue as [[]|e]; intros Heq.
  - destruct outcome as [[]|e].
    + destruct destroyed as [[]|e]; injection Heq as <- <-; (split; [done|]);
        eexists _, _, _, _, _; do 3 (split; [first [exact Hrun|exact Hd|exact Hres|reflexivity]|]); (split; [intuition congruence|exact Hok]).
    + injection Heq as <- <-. split; [done|]. eexists _, _, _, _, _. do 3 (split; [first [exact Hrun|exact Hd|exact Hres|reflexivity]|]). split; [intuition congruence|exact Hok].
  - injection Heq as <- <-. split; [done|]. eexists _, _, _, _, _. do 3 (split; [first [exact Hrun|exact Hd|exact Hres|reflexivity]|]). split; [intuition congruence|exact Hok].
Qed.

(** The harness seeds its organisation without a tenant: a role that row security
    applies to cannot run it. *)
Lemma seed_needs_bypass args w :
  bypass_rls = false -> (forall n, rand_uuid n <> Uuid_nil) -> is_ok (seed args w).1 = false.
Proof.
  intros Hb Hnil. unfold seed. rewrite bind_lift. destruct hh_store as [[]|e]; [cbn [result_map_err]|done].
  assert (H : wp (on_pool (E := HarnessError) (insert (new_org (rand_uuid (w_tick w)) 
    ("e2e-" +++ short_id (rand_uuid (w_tick w)))))) (fun r _ => is_ok r = false) (tick w)).
  { apply (wp_db _ (fun r _ => is_ok r = false)); [|done].
    intros g. apply db_on_pool. intros now. apply tx_insert; [intros _; reflexivity|intros e _; reflexivity|].
    intros Hno. exfalso. revert Hno. unfold insert_error, visible. rewrite Hb. cbn [row_tenant OrgTable].
    by rewrite bool_decide_false by apply Hnil. }
  unfold wp in H. unfold bind at 1, now_v7. cbv beta iota zeta. unfold bind at 1.
  by destruct (on_pool _ (tick w)) as [[?|?] ?].
Qed.
End Laws.

(** ** Percent-encoding *)

Definition unhex (c : ascii) : option nat :=
  let n := nat_of_ascii c in
  if (48 <=? n)%nat && (n <=? 57)%nat then Some (n - 48)%nat
  else if (65 <=? n)%nat && (n <=? 70)%nat then Some (n - 55)%nat else None.
(** What a server decodes. *)
Fixpoint urldecode (s : string) : option string :=
  match s with
  | EmptyString => Some EmptyString
  | String "%" (String h (String l rest)) =>
      match unhex h, unhex l, urldecode rest with
      | Some a, Some b, Some r => Some (String (ascii_of_nat (16 * a + b)) r)
      | _, _, _ => None
      end
  | String c rest => match urldecode rest with Some r => Some (String c r) | None => None end
  end.

Lemma urlencode_decode s : urldecode (urlencode s) = Some s.
Proof.
  induction s as [|c s IH]; [done|]. cbn [urlencode].
  assert (H : forall t, (if unreserved c then urldecode (String c t)
            else urldecode (String "%" (String (hex_upper (nat_of_ascii c / 16))
                   (String (hex_upper (nat_of_ascii c mod 16)) t)))) =
          match urldecode t with Some r => Some (String c r) | None => None end).
  { intros t. destruct c as [[] [] [] [] [] [] [] []]; vm_compute (unreserved _);
      cbn [hex_upper]; try reflexivity; by destruct (urldecode t). }
  specialize (H (urlencode s)). rewrite IH in H. by destruct (unreserved c).
Qed.

(** * The residue check *)

(** A project with these servers, listed by the equality of a label. *)
Definition labelled (selector : string) (b : CreateServerBody) : bool :=
  existsb (fun '(k, v) => String.eqb selector (k +++ "=" +++ v)) (cb_labels b).
Definition project_list (servers : list CreateServerBody) (url : string) : option ListAnswer :=
  match strip_prefix "https://api.hetzner.cloud/v1/servers?label_selector=" url with
  | Some query =>
      match urldecode query with
      | Some selector =>
          Some (mkListAnswer 200 (Ok (Some (length (List.filter (labelled selector) servers)))))
      | None => None
      end
  | None => None
  end.
Definition demo_harness (servers : list CreateServerBody) : HarnessHost := {|
  hh_store := Ok tt; hh_elapsed n := Z.of_nat n * POLL_INTERVAL;
  hh_create_file _ _ := None; hh_write_file _ _ := None; hh_set_mode _ _ := None;
  hh_kubectl _ _ := Ok (mkExit true (Some 0) EmptyString EmptyString); hh_items _ := Ok (Some 2%nat);
  hh_list_servers _ url _ := project_list servers url; hh_cloud_init := "#cloud-config"%string;
|}.

(** The check asks for the key of the control plane alone: the control plane is found,
    a worker that is left is not. *)
Theorem residue_check_misses_workers :
  let check servers := (@assert_no_residual_servers demo_env (demo_harness servers) "token" 31%N (demo_world demo_db)).1 in
  let cp := @create_body demo_env (@control_plane_params 31%N "web" "cpx21" "nbg1" "key" "doc") in
  let worker := @create_body demo_env (@worker_params demo_env 31%N "web" 0 "cpx21" "nbg1" "key" "doc") in
  is_ok (check [cp]) = false /\ check [worker] = Ok tt.
Proof. vm_compute. split; reflexivity. Qed.

(** A run passes: as superuser, with an empty project at the end. *)
Definition demo_args : HarnessArgs := mkArgs "postgres://ci" "hcloud-token" "key" "/key" "nbg1" "cpx21" "v1.30.2+k3s1".
Definition ci_store : @SecretStore (demo_env_as true) := @pgcrypto_store (demo_env_as true) "kek".

Definition demo_run : result HarnessError unit * @World (demo_env_as true) :=
  @run (demo_env_as true) calm_externals ci_store (demo_harness []) demo_args (demo_world_as true demo_db).
Lemma demo_run_passes : demo_run.1 = Ok tt.
Proof. vm_compute. reflexivity. Qed.
Lemma demo_run_is :
  @run (demo_env_as true) calm_externals ci_store (demo_harness []) demo_args (demo_world_as true demo_db) =
  (demo_run.1, demo_run.2).
Proof. unfold demo_run. apply surjective_pairing. Qed.

Lemma harness_verdict_witness : demo_run.1 = Ok tt /\ demo_run.1 <> Err HEndless.
Proof.
  split; [exact demo_run_passes|].
  destruct (@harness_verdict (demo_env_as true) calm_externals ci_store (demo_harness []) demo_args
    (demo_world_as true demo_db) demo_run.1 demo_run.2 (fun n => Z.le_refl _) demo_run_is) as [H _].
  exact H.
Defined.
