(* ===== verification/E2eHelm.v ===== *)
(** The chart runner of the CI ([crates/e2e/src/bin/helm.rs]): it installs an add-on
    of the catalogue with the Helm executor into a cluster it is given, and waits for
    the pods. *)

From Stdlib Require Import Ascii.
From stdpp Require Import base strings list pretty.
From S2P Require Import Prelude Errors Integrations Executors Addons.

(** [Args] *)
Record Args := mkHelmArgs { ar_kubeconfig : string; ar_addon : string; ar_version : string }.

(** How the program ends early: an error, or the usage text with code 0. *)
Inductive Ending :=
| Failure (msg : string)
| HelmFailure (context : string) (e : HelmError)
| Usage
| Endless.

(** The monotonic clock, in microseconds, given all that was done to the host. *)
Class PodHost := {
  ph_now : list HostCall -> Z;
  ph_exists : string -> bool;
  ph_kubeconfig : option string;
}.

Module HelmRunner.
Section HelmRunner.
Context `{OS : HostOs} `{PH : PodHost}.

(** The loop of [parse_args]: a flag at the end resets its value. *)
Fixpoint parse_flags (argv : list string) (kubeconfig addon version : option string)
  : result Ending (option string * option string * option string) :=
  match argv with
  | [] => Ok (kubeconfig, addon, version)
  | arg :: rest =>
      if String.eqb arg "--kubeconfig" then
        match rest with v :: rest' => parse_flags rest' (Some v) addon version | [] => Ok (None, addon, version) end
      else if String.eqb arg "--addon" then
        match rest with v :: rest' => parse_flags rest' kubeconfig (Some v) version | [] => Ok (kubeconfig, None, version) end
      else if String.eqb arg "--version" then
        match rest with v :: rest' => parse_flags rest' kubeconfig addon (Some v) | [] => Ok (kubeconfig, addon, None) end
      else if String.eqb arg "-h" || String.eqb arg "--help" then Err Usage
      else Err (Failure ("unknown argument: " +++ arg))
  end.
Definition parse_args (argv : list string) : result Ending Args :=
  match parse_flags argv None None None with
  | Err e => Err e
  | Ok (kubeconfig, addon, version) =>
      match (match kubeconfig with Some k => Some k | None => ph_kubeconfig end) with
      | None => Err (Failure "--kubeconfig is required (or set KUBECONFIG)")
      | Some k =>
          match addon, version with
          | None, _ => Err (Failure "--addon is required")
          | _, None => Err (Failure "--version is required")
          | Some a, Some v => Ok (mkHelmArgs k a v)
          end
      end
  end.

Definition POD_READY_TIMEOUT : Z := 7 * 60 * 1000000.
Definition kubectl (kubeconfig : string) (args : list string) : Command :=
  mkCommand "kubectl" [("KUBECONFIG"%string, kubeconfig)] args.

Definition newline_char : ascii := "010"%char.
Definition nonblank_lines (s : string) : nat :=
  length (List.filter (fun l => negb (String.eqb (trim l) EmptyString)) (split_char newline_char s)).
Definition kubectl_pod_count (kubeconfig namespace : string) : Host Ending nat :=
  o <- output (kubectl kubeconfig ["get"; "pods"; "-n"; namespace; "--no-headers"; "--ignore-not-found"]%string) ;;
  match o with
  | ProcTimedOut => throw (Failure "kubectl get pods timed out")
  | ProcSpawnFailed _ => throw (Failure "kubectl get pods spawn")
  | ProcExited success _ stdout stderr =>
      if success then ret (nonblank_lines stdout) else throw (Failure ("kubectl get pods failed: " +++ stderr))
  end.

(** The loop of [wait_for_pods_ready]. *)
Fixpoint await_pods (fuel : nat) (deadline : Z) (kubeconfig namespace : string) : Host Ending unit :=
  h <- get_state ;;
  if deadline <=? ph_now h
  then throw (Failure ("timed out waiting for any pod to appear in namespace " +++ namespace))
  else
    count <- kubectl_pod_count kubeconfig namespace ;;
    if (0 <? count)%nat then ret tt
    else
      sleep 2 ;;;
      match fuel with
      | O => throw Endless
      | S fuel' => await_pods fuel' deadline kubeconfig namespace
      end.

(** 210 pauses of two seconds make the seven minutes. *)
Definition wait_for_pods_ready (kubeconfig namespace : string) (timeout : Z) : Host Ending unit :=
  h0 <- get_state ;;
  let deadline := ph_now h0 + timeout in
  await_pods 210 deadline kubeconfig namespace ;;;
  h <- get_state ;;
  let remaining := Z.max 0 (deadline - ph_now h) in
  let secs := Z.max (remaining / 1000000) 1 in
  o <- output (kubectl kubeconfig
         ["wait"; "--for=condition=Ready"; "pod"; "--all"; "-n"; namespace; "--timeout=" +++ pretty secs +++ "s"]%string) ;;
  match o with
  | ProcTimedOut => throw (Failure "kubectl wait outer timeout")
  | ProcSpawnFailed _ => throw (Failure "kubectl wait spawn")
  | ProcExited success code _ stderr =>
      if success then ret tt
      else throw (Failure ("kubectl wait failed (exit " +++ pretty (exit_status code) +++ "): " +++ stderr))
  end.

Definition chart_params (spec : AddonSpec) (version : string) : InstallParams :=
  mkInstall (sp_release_name spec) (sp_chart_name spec) (sp_chart_repo spec) version (sp_namespace spec)
    (sp_default_values_yaml spec).

(** [main]; with [NoopProgress] the workflow [install_addon] is its one call of Helm. *)
Definition helm_main (argv : list string) : Host Ending string :=
  args <- lift (parse_args argv) ;;
  if negb (ph_exists (ar_kubeconfig args))
  then throw (Failure ("kubeconfig path does not exist: " +++ ar_kubeconfig args))
  else
    match lookup_addon (ar_addon args) with
    | Err _ => throw (Failure ("addon " +++ ar_addon args +++ " is not in the catalog"))
    | Ok spec =>
        map_err (HelmFailure ("install_addon failed for " +++ sp_slug spec))
          (upgrade_install (helm_new None) (ar_kubeconfig args) (chart_params spec (ar_version args))) ;;;
        wait_for_pods_ready (ar_kubeconfig args) (sp_namespace spec) POD_READY_TIMEOUT ;;;
        ret ("OK: addon " +++ sp_slug spec +++ " v" +++ ar_version args +++ " ready in " +++ sp_namespace spec)
    end.
End HelmRunner.
End HelmRunner.
Export HelmRunner.

(** * What a run establishes *)

Section Laws.
Context `{OS : HostOs} `{PH : PodHost}.

(** The clock does not go back, and a pause lasts as long as it says. *)
Definition clock_runs : Prop := forall h c,
  ph_now h + (match c with Waited secs => secs * 1000000 | _ => 0 end) <= ph_now (h ++ [c]).

Lemma pods_awaited fuel deadline kubeconfig namespace h :
  clock_runs -> deadline <= ph_now h + Z.of_nat fuel * 2000000 ->
  (await_pods fuel deadline kubeconfig namespace h).1 <> Err Endless.
Proof.
  intros Hclock. revert h. induction fuel as [|fuel IH]; intros h Hd; cbn [await_pods];
    unfold bind at 1, get_state; destruct (Z.leb_spec deadline (ph_now h)) as [|Hlt]; try done; [lia|].
  unfold bind at 1, kubectl_pod_count, bind at 1, output.
  set (call := kubectl _ _). destruct (os_run h call) as [success code out err|e|]; try done.
  destruct success; [|done]. cbn [ret]. destruct (0 <? _)%nat; [done|]. unfold bind at 1, sleep. apply IH.
  set (ran := Ran call _). assert (ph_now h + 0 <= ph_now (h ++ [ran])) by exact (Hclock h ran).
  assert (ph_now (h ++ [ran]) + 2 * 1000000 <= ph_now ((h ++ [ran]) ++ [Waited 2]))
    by exact (Hclock (h ++ [ran]) (Waited 2)).
  lia.
Qed.

(** The program waits for pods no longer than its clock allows, whatever it does. *)
Lemma helm_main_ends argv h : clock_runs -> (helm_main argv h).1 <> Err Endless.
Proof.
  intros Hclock. unfold helm_main. rewrite bind_lift.
  destruct (parse_args argv) as [args|e] eqn:Hargs.
  2: { cbn. intros [= ->]. revert Hargs. unfold parse_args.
       destruct (parse_flags _ _ _ _) as [[[k a] v]|e] eqn:Hf.
       - destruct k, ph_kubeconfig, a, v; try done.
       - intros [= ->]. revert Hf. generalize (@None string) at 1 as k. intros k.
         generalize (@None string) at 1 as a. intros a. generalize (@None string) as v. intros v.
         revert k a v. induction argv as [argv IH] using (induction_ltof1 _ (@length string)); intros k a v.
         destruct argv as [|x [|y rest]]; [done| |]; cbn [parse_flags];
           repeat match goal with |- context [if ?b then _ else _] => destruct b end; try done;
           apply IH; unfold ltof; simpl; lia. }
  destruct (ph_exists _); [|done]. cbn [negb].
  destruct (lookup_addon _) as [spec|]; [|done]. unfold bind at 1, map_err.
  destruct (upgrade_install _ _ _ h) as [[[]|e] h1]; cbn [result_map_err]; [|done].
  unfold bind at 1, wait_for_pods_ready, bind at 1, get_state. cbn zeta. unfold bind at 1.
  pose proof (pods_awaited 210 (ph_now h1 + POD_READY_TIMEOUT) (ar_kubeconfig args) (sp_namespace spec) h1 Hclock) as Hp.
  destruct (await_pods _ _ _ _ h1) as [[[]|e] h2].
  - unfold bind at 1. cbv beta iota. unfold bind at 1, output.
    destruct (os_run _ _) as [[] ? ? ?| |]; done.
  - cbn in *. intros [= ->]. apply Hp; [unfold POD_READY_TIMEOUT; lia|done].
Qed.
End Laws.
