(* ===== verification/Integrity.v ===== *)
(** The integrity of the tables: every row satisfies its checks and foreign
    keys, no two rows violate a unique index, and the audit log is a hash chain
    that only grows.  Every write of the repositories keeps this, under either
    database role; the judgement [evolving] composes it over operations. *)

From Stdlib Require Import Btauto.
From stdpp Require Import base gmap strings list.
From S2P Require Import Prelude Errors Integrations Events Schema Database Tables Secrets Vault VaultMigrate Safety.
From S2P Require Import Credentials Membership Sessions Access Api Billing Passkeys Login.

(** * Well-formed tables *)

Section Wf.
Context `{En : Env}.

(** Every row a foreign key may point to is still there. *)
Record refs (d d' : DB) : Prop := mkRefs {
  refs_org id : org_exists d id = true -> org_exists d' id = true;
  refs_secret id : secret_exists d id = true -> secret_exists d' id = true;
  refs_user id : user_exists d id = true -> user_exists d' id = true;
  refs_cluster id : cluster_exists d id = true -> cluster_exists d' id = true;
  refs_credential id : credential_exists d id = true -> credential_exists d' id = true;
}.

Definition distinct {R} `{!Table R} (l : list R) : Prop :=
  ForallOrdPairs (fun a b => row_conflict a b = false) l.

(** The table of the rows [R] satisfies what the schema declares for it. *)
Definition table_ok (R : Type) `{!Table R} (d : DB) : Prop :=
  (forall r : R, In r (rows d) -> row_check d r = None) /\ distinct (rows d : list R).

Record wf (d : DB) : Prop := mkWf {
  wf_clusters : table_ok Cluster d;
  wf_servers : table_ok ClusterServer d;
  wf_workflows : table_ok WorkflowRow d;
  wf_secrets : table_ok SecretRow d;
  wf_credentials : table_ok HetznerCredential d;
  wf_addons : table_ok ClusterAddon d;
  wf_orgs : table_ok OrgRow d;
  wf_events : table_ok SubscriptionEvent d;
  wf_users : table_ok UserRow d;
  wf_memberships : table_ok Membership d;
  wf_invites : table_ok Invite d;
  wf_sessions : table_ok Session d;
  wf_idempotency : table_ok IdempotencyRow d;
  wf_keys : table_ok ApiKey d;
  wf_passkeys : table_ok Passkey d;
  wf_codes : table_ok MfaRecoveryCode d;
  wf_ceremonies : table_ok CeremonyRow d;
  wf_states : table_ok AuthState d;
  wf_identities : table_ok OidcIdentity d;
  wf_chain : chained (db_audit d);
}.

(** What a step of the system does to the tables. *)
Record evolves (d d' : DB) : Prop := mkEvolves {
  evolves_wf : wf d -> wf d';
  evolves_audit : exists es, db_audit d' = db_audit d ++ es;
}.
#[export] Instance evolves_preorder : PreOrder evolves.
Proof.
  split.
  - intros d. split; [done|]. exists []. by rewrite app_nil_r.
  - intros d1 d2 d3 [H1 [es He]] [H2 [fs Hf]]. split; [auto|].
    exists (es ++ fs). by rewrite Hf, He, app_assoc.
Qed.

(** The constraints of a table are stable: a conflict is symmetric, the BEFORE
    trigger changes no column of a constraint, and a check that holds goes on
    holding while the rows it refers to are there. *)
Class Checked (R : Type) `{!Table R} : Prop := {
  conflict_sym (a b : R) : row_conflict a b = row_conflict b a;
  touch_conflict now (old new b : R) : row_conflict (row_touch now old new) b = row_conflict new b;
  touch_check now d (old new : R) : row_check d (row_touch now old new) = row_check d new;
  check_mono d d' (r : R) : refs d d' -> row_check d r = None -> row_check d' r = None;
}.

(** The table is one of [wf]. *)
Class Stored (R : Type) `{!Table R} : Prop := {
  stored_ok d : wf d -> table_ok R d;
  refs_set_rows (l : list R) d :
    (forall r : R, In r (rows d) -> exists r', In r' l /\ row_id r' = row_id r) ->
    refs d (set_rows l d);
  wf_set_rows (l : list R) d :
    wf d -> refs d (set_rows l d) ->
    (forall r, In r l -> row_check (set_rows l d) r = None) -> distinct l ->
    wf (set_rows l d);
}.

(** The AFTER triggers of the table. *)
Class Triggers (R : Type) `{!Table R} : Prop :=
  wf_row_after g (r : R) d : wf d -> wf (row_after g r d).
#[export] Instance plain_triggers {R} `{!Table R} `{!PlainTable R} : Triggers R.
Proof. intros g r d Hd. by rewrite row_after_id. Qed.

Lemma exists_in {A} (key : A -> Uuid) l id :
  existsb (fun x => bool_decide (key x = id)) l = true <-> exists x, In x l /\ key x = id.
Proof.
  rewrite existsb_exists. split; intros (x & Hx & H); exists x; (split; [done|]).
  - by apply bool_decide_eq_true in H.
  - by apply bool_decide_eq_true.
Qed.

Lemma refs_same d d' :
  db_orgs d' = db_orgs d -> db_secrets d' = db_secrets d -> db_users d' = db_users d ->
  db_clusters d' = db_clusters d -> db_credentials d' = db_credentials d -> refs d d'.
Proof.
  intros H1 H2 H3 H4 H5.
  split; intros id; unfold org_exists, secret_exists, user_exists, cluster_exists, credential_exists;
    by rewrite ?H1, ?H2, ?H3, ?H4, ?H5.
Qed.

Lemma table_ok_mono {R} `{!Table R} `{!Checked R} d d' :
  (rows d' : list R) = rows d -> refs d d' -> table_ok R d -> table_ok R d'.
Proof.
  intros Hr Hd [Hc Hu]. unfold table_ok. rewrite Hr. split; [|done].
  intros r Hin. eapply check_mono; [done|]. by apply Hc.
Qed.
End Wf.

(** ** The tables *)

Lemma bool_decide_sym {A} `{EqDecision A} (x y : A) : bool_decide (x = y) = bool_decide (y = x).
Proof. apply bool_decide_ext. split; intros H; by symmetry. Qed.

Ltac conflict_symmetry a b :=
  destruct a, b; simpl; repeat
    match goal with
    | |- context [bool_decide (?x = ?y)] =>
        first [is_var x | idtac]; rewrite (bool_decide_sym x y); generalize (bool_decide (y = x)); intro
    | |- context [String.eqb ?x ?y] =>
        rewrite (String.eqb_sym x y); generalize (String.eqb y x); intro
    | |- context [Z.eqb ?x ?y] =>
        rewrite (Z.eqb_sym x y); generalize (Z.eqb y x); intro
    end; btauto.

Ltac check_monotone Hr :=
  destruct Hr; simpl; intros Hc;
  repeat match goal with
  | H : (if (match ?o with Some _ => _ | None => _ end) then _ else Some _) = None |- _ => destruct o eqn:?
  | H : (if ?b then _ else Some _) = None |- _ => destruct b eqn:?; [|discriminate]
  end;
  repeat match goal with
  | |- (if ?b then _ else Some _) = None => replace b with true by (symmetry; auto)
  end; reflexivity.

Section Instances.
Context `{En : Env}.

Ltac checked := split; [intros a b; conflict_symmetry a b | reflexivity | reflexivity
  | intros d d' r Hr; check_monotone Hr].
#[export] Instance ClusterTable_checked : Checked Cluster.
Proof. checked. Qed.
#[export] Instance ServerTable_checked : Checked ClusterServer.
Proof. checked. Qed.
#[export] Instance WorkflowTable_checked : Checked WorkflowRow.
Proof. checked. Qed.
#[export] Instance SecretTable_checked : Checked SecretRow.
Proof. checked. Qed.
#[export] Instance CredentialTable_checked : Checked HetznerCredential.
Proof. checked. Qed.
#[export] Instance AddonTable_checked : Checked ClusterAddon.
Proof. checked. Qed.
#[export] Instance SubEventTable_checked : Checked SubscriptionEvent.
Proof. checked. Qed.
#[export] Instance UserTable_checked : Checked UserRow.
Proof. checked. Qed.
#[export] Instance MembershipTable_checked : Checked Membership.
Proof. checked. Qed.
#[export] Instance InviteTable_checked : Checked Invite.
Proof. checked. Qed.
#[export] Instance SessionTable_checked : Checked Session.
Proof. checked. Qed.
#[export] Instance IdempotencyTable_checked : Checked IdempotencyRow.
Proof. checked. Qed.
#[export] Instance ApiKeyTable_checked : Checked ApiKey.
Proof. checked. Qed.
#[export] Instance PasskeyTable_checked : Checked Passkey.
Proof. checked. Qed.
#[export] Instance RecoveryTable_checked : Checked MfaRecoveryCode.
Proof. checked. Qed.
#[export] Instance CeremonyTable_checked : Checked CeremonyRow.
Proof. checked. Qed.
#[export] Instance AuthStateTable_checked : Checked AuthState.
Proof. checked. Qed.
#[export] Instance IdentityTable_checked : Checked OidcIdentity.
Proof. checked. Qed.

Lemma same_customer_sym a b : same_customer a b = same_customer b a.
Proof.
  unfold same_customer. destruct (og_stripe_customer_id a), (og_stripe_customer_id b); try done.
  apply String.eqb_sym.
Qed.
#[export] Instance OrgTable_checked : Checked OrgRow.
Proof.
  split; [|reflexivity|reflexivity|done]. intros a b. simpl.
  by rewrite (bool_decide_sym (og_id a)), (String.eqb_sym (og_slug a)), same_customer_sym.
Qed.

(** Rows of a table nothing refers to. *)
Ltac unreferenced := intros l d _; apply refs_same; by destruct d.
(** Rows other rows refer to: their ids are kept. *)
Ltac referenced :=
  intros l d Hids; split; intros id; destruct d; simpl in *; try done;
  intros (r & Hr & <-)%exists_in; apply exists_in; apply (Hids r Hr).
Ltac stored :=
  split; [by intros d [] | first [solve [unreferenced] | referenced] |];
  intros l d Hd Hrefs Hc Hu; pose proof Hd as Hwf; destruct Hwf; constructor;
  first [ solve [apply (table_ok_mono d); [by destruct d|exact Hrefs|assumption]]
        | solve [unfold table_ok; rewrite rows_set_rows; by split]
        | rewrite audit_set_rows; assumption ].
#[export] Instance ClusterTable_stored : Stored Cluster.
Proof. stored. Qed.
#[export] Instance ServerTable_stored : Stored ClusterServer.
Proof. stored. Qed.
#[export] Instance WorkflowTable_stored : Stored WorkflowRow.
Proof. stored. Qed.
#[export] Instance SecretTable_stored : Stored SecretRow.
Proof. stored. Qed.
#[export] Instance CredentialTable_stored : Stored HetznerCredential.
Proof. stored. Qed.
#[export] Instance AddonTable_stored : Stored ClusterAddon.
Proof. stored. Qed.
#[export] Instance OrgTable_stored : Stored OrgRow.
Proof. stored. Qed.
#[export] Instance SubEventTable_stored : Stored SubscriptionEvent.
Proof. stored. Qed.
#[export] Instance UserTable_stored : Stored UserRow.
Proof. stored. Qed.
#[export] Instance MembershipTable_stored : Stored Membership.
Proof. stored. Qed.
#[export] Instance InviteTable_stored : Stored Invite.
Proof. stored. Qed.
#[export] Instance SessionTable_stored : Stored Session.
Proof. stored. Qed.
#[export] Instance IdempotencyTable_stored : Stored IdempotencyRow.
Proof. stored. Qed.
#[export] Instance ApiKeyTable_stored : Stored ApiKey.
Proof. stored. Qed.
#[export] Instance PasskeyTable_stored : Stored Passkey.
Proof. stored. Qed.
#[export] Instance RecoveryTable_stored : Stored MfaRecoveryCode.
Proof. stored. Qed.
#[export] Instance CeremonyTable_stored : Stored CeremonyRow.
Proof. stored. Qed.
#[export] Instance AuthStateTable_stored : Stored AuthState.
Proof. stored. Qed.
#[export] Instance IdentityTable_stored : Stored OidcIdentity.
Proof. stored. Qed.
End Instances.

(** * Writes *)

Section Lists.
Context {A : Type} (conflict : A -> A -> bool) (Hsym : forall a b, conflict a b = conflict b a).
Let apart : list A -> Prop := ForallOrdPairs (fun a b => conflict a b = false).

Lemma distinct_snoc l x :
  apart l -> existsb (conflict x) l = false -> apart (l ++ [x]).
Proof.
  intros Hl Hx. rewrite existsb_false_iff in Hx. induction Hl as [|y l Hy Hl IH]; simpl in *.
  - by repeat constructor.
  - constructor; [|by apply IH; auto]. apply List.Forall_app. split; [done|]. constructor; [|done].
    rewrite Hsym. auto.
Qed.

Lemma distinct_map f l :
  (forall a b, In a l -> In b l -> conflict a b = false -> conflict (f a) (f b) = false) ->
  apart l -> apart (map f l).
Proof.
  intros Hf Hl. induction Hl as [|y l Hy Hl IH]; simpl in *; constructor; [|by apply IH; auto].
  apply List.Forall_map, List.Forall_forall. intros x Hx. rewrite List.Forall_forall in Hy. auto.
Qed.

Lemma distinct_filter p l : apart l -> apart (List.filter p l).
Proof.
  intros Hl. induction Hl as [|y l Hy Hl IH]; simpl; [constructor|].
  destruct (p y); [|done]. constructor; [|done]. apply List.Forall_forall.
  intros x Hx%filter_In. rewrite List.Forall_forall in Hy. apply Hy, Hx.
Qed.
End Lists.

Section Writes.
Context `{En : Env}.

Lemma wf_set_audit l d : wf d -> chained l -> wf (set_audit l d).
Proof.
  intros [] Hl.
  assert (Hr : refs d (set_audit l d)) by (apply refs_same; by destruct d).
  constructor; try (apply (table_ok_mono d); [by destruct d|exact Hr|assumption]). by destruct d.
Qed.

Lemma set_audit_evolves es d :
  (wf d -> chained (db_audit d ++ es)) -> evolves d (set_audit (db_audit d ++ es) d).
Proof.
  intros Hc. split; [intros Hd; apply wf_set_audit; auto|]. exists es. by destruct d.
Qed.

Context {R : Type} `{!Table R} `{!TableLaws R} `{!Checked R} `{!Stored R} `{!Triggers R}.

Lemma fold_after_wf g (rs : list R) d : wf d -> wf (fold_left (fun d r => row_after g r d) rs d).
Proof. revert d. induction rs as [|r rs IH]; intros d Hd; simpl; [done|]. by apply IH, wf_row_after. Qed.

Lemma fold_after_audit g (rs : list R) d :
  db_audit (fold_left (fun d r => row_after g r d) rs d) = db_audit d.
Proof. revert d. induction rs as [|r rs IH]; intros d; simpl; [done|]. by rewrite IH, row_after_audit. Qed.

Lemma after_rows_evolves g t op (rs l : list R) d :
  (wf d -> wf (set_rows l d)) -> evolves d (after_rows g t op rs (set_rows l d)).
Proof.
  intros Hl. unfold after_rows. rewrite audit_set_rows. split.
  - intros Hd. apply wf_set_audit; [by apply fold_after_wf, Hl|]. apply audit_entries_chained, Hd.
  - exists (audit_entries g t op rs (db_audit d)). by destruct (fold_left _ _ _).
Qed.

Lemma insert_evolves g t (r : R) d : insert_error g r d = None -> evolves d (insert_db t g r d).
Proof.
  intros He. apply insert_error_none in He as (_ & Hconf & Hcheck).
  apply after_rows_evolves. intros Hd. destruct (stored_ok d Hd) as [Hc Hu].
  assert (Hr : refs d (set_rows (rows d ++ [r]) d)).
  { apply refs_set_rows. intros x Hx. exists x. split; [|done]. apply in_or_app. by left. }
  apply wf_set_rows; [done|done| |].
  - intros x [Hx|[<-|[]]]%in_app_or; (eapply check_mono; [exact Hr|]); auto.
  - apply distinct_snoc; [apply conflict_sym|done|done].
Qed.

(** Rows rewritten one by one, ids kept. *)
Lemma wf_map_rows (h : R -> R) d :
  (forall r, row_id (h r) = row_id r) ->
  (forall a b, In a (rows d) -> In b (rows d) -> row_conflict a b = false ->
     row_conflict (h a) (h b) = false) ->
  (forall r, In r (rows d) -> row_check d r = None -> row_check d (h r) = None) ->
  wf d -> wf (set_rows (map h (rows d)) d).
Proof.
  intros Hid Hconf Hck Hd. destruct (stored_ok d Hd) as [Hc Hu].
  assert (Hr : refs d (set_rows (map h (rows d)) d)).
  { apply refs_set_rows. intros x Hx. exists (h x). split; [by apply in_map|apply Hid]. }
  apply wf_set_rows; [done|done| |by apply distinct_map].
  intros x (y & <- & Hy)%in_map_iff. eapply check_mono; [exact Hr|]. auto.
Qed.

(** Rewriting that adds no conflict with any row adds none between two. *)
Lemma conflict_free (h : R -> R) a b :
  (forall a b, row_conflict (h a) b = true -> row_conflict a b = true) ->
  row_conflict a b = false -> row_conflict (h a) (h b) = false.
Proof.
  intros Hh Hab. apply not_true_iff_false. intros H.
  apply Hh in H. rewrite conflict_sym in H. apply Hh in H. rewrite conflict_sym in H. congruence.
Qed.

(** An update that keeps the ids, creates no conflict and breaks no check that
    the statement does not make. *)
Record steady (chk : DB -> R -> option DbError) (f : Z -> R -> R) : Prop := mkSteady {
  steady_id now r : row_id (f now r) = row_id r;
  steady_conflict now r b : row_conflict (f now r) b = true -> row_conflict r b = true;
  steady_check d now old r : chk d (row_touch now old (f now r)) = None ->
    row_check d r = None -> row_check d (f now r) = None;
}.

Lemma find_map_in {A B} (f : A -> option B) l x : find_map f l = None -> In x l -> f x = None.
Proof.
  induction l as [|z l IH]; simpl; [done|]. destruct (f z) eqn:Ez; [done|].
  intros Hl [->|Hin]; [done|]. by apply IH.
Qed.

Lemma update_evolves t g chk (p : Z -> R -> bool) f d :
  steady chk f -> find_map (chk d) (update_hits g p f d) = None ->
  evolves d (update_db t g p f d).
Proof.
  intros [Hid Hconf Hck] Hchk. apply after_rows_evolves. unfold update_rows.
  set (h := fun r => if update_hit g p r then update_new g f r else r).
  apply (wf_map_rows h); unfold h.
  - intros r. destruct (update_hit g p r); [|done]. unfold update_new. by rewrite row_touch_id.
  - intros a b _ _. apply (conflict_free h). clear a b. intros a b. unfold h. destruct (update_hit g p a); [|done].
    unfold update_new. rewrite touch_conflict. apply Hconf.
  - intros r Hr Hc. destruct (update_hit g p r) eqn:E; [|done].
    unfold update_new. rewrite touch_check. eapply Hck; [|done].
    eapply find_map_in; [exact Hchk|]. by apply (in_map (update_new g f)), filter_In.
Qed.
End Writes.

(** * Operations *)

(** [m] relates every state it starts from to the one it ends in. *)
Definition preserves {S} (R : S -> S -> Prop) {E A} (m : M S E A) : Prop :=
  forall s, wp m (fun _ s' => R s s') s.

Section Preserves.
Context {S : Type} (R : S -> S -> Prop) `{!PreOrder R}.

Lemma preserves_ret {E A} (a : A) : preserves R (ret a : M S E A).
Proof. intros s. apply wp_ret. reflexivity. Qed.
Lemma preserves_throw {E A} (e : E) : preserves R (throw e : M S E A).
Proof. intros s. apply wp_throw. reflexivity. Qed.
Lemma preserves_lift {E A} (r : result E A) : preserves R (lift r).
Proof. intros s. apply wp_lift. reflexivity. Qed.
Lemma preserves_bind {E A B} (m : M S E A) (k : A -> M S E B) :
  preserves R m -> (forall a, preserves R (k a)) -> preserves R (bind m k).
Proof. intros Hm Hk s. apply bind_preserves; [done|apply Hm|]. intros. apply Hk. Qed.
Lemma preserves_map_err {E F A} (f : E -> F) (m : M S E A) :
  preserves R m -> preserves R (map_err f m).
Proof. intros Hm s. apply wp_map_err, Hm. Qed.
Lemma preserves_attempt {E F A} (m : M S E A) :
  preserves R m -> preserves R (attempt m : M S F (result E A)).
Proof. intros Hm s. apply wp_attempt, Hm. Qed.
Lemma preserves_ignore {E F A} (m : M S E A) :
  preserves R m -> preserves R (ignore m : M S F unit).
Proof. intros Hm s. apply wp_ignore, Hm. Qed.
Lemma preserves_for_each {E X} (f : X -> M S E unit) l :
  (forall x, preserves R (f x)) -> preserves R (for_each f l).
Proof. intros Hf s. by apply for_each_preserves. Qed.
Lemma preserves_map_each {E X A} (f : X -> M S E A) l :
  (forall x, preserves R (f x)) -> preserves R (map_each f l).
Proof. intros Hf s. by apply map_each_preserves. Qed.
Lemma preserves_fun {E A} (m : M S E A) :
  (forall s, R s (m s).2) -> preserves R m.
Proof. intros Hm s. unfold wp. specialize (Hm s). by destruct (m s). Qed.
End Preserves.

(** A relation between tables, on worlds. *)
Section Over.
Context `{En : Env} (D : DB -> DB -> Prop) `{HD : !PreOrder D}.

Definition over (w w' : World) : Prop := D (w_db w) (w_db w').
#[export] Instance over_preorder : PreOrder over.
Proof. split; [intros w|intros x y z]; unfold over; [reflexivity|apply transitivity]. Qed.

Lemma over_same w w' : w_db w' = w_db w -> over w w'.
Proof. unfold over. intros ->. reflexivity. Qed.

(** The tables are left as they are. *)
Lemma over_state {E A} (m : M World E A) : (forall w, w_db (m w).2 = w_db w) -> preserves over m.
Proof. intros H. apply preserves_fun. intros w. by apply over_same. Qed.

Lemma over_stmt {A} (f : World -> result DbError A * World) :
  (forall w, over w (f w).2) -> preserves over (stmt f).
Proof.
  intros Hf. apply preserves_fun. intros w. unfold stmt.
  destruct (db_fault (w_tick w)); [apply over_same; by destruct w|].
  specialize (Hf (tick w)). unfold over in *. by destruct w.
Qed.
Lemma over_select {R} `{!Table R} (p : Z -> R -> bool) : preserves over (select p).
Proof. apply over_stmt. intros w. by apply over_same. Qed.

Lemma over_in_tx_with {E A} (e : E) (c : A -> result E A) (body : M World E A) :
  preserves over body -> preserves over (in_tx_with e c body).
Proof.
  intros Hb. apply preserves_fun. intros w. unfold in_tx_with.
  destruct (db_fault (w_tick w)); [apply over_same; by destruct w|].
  specialize (Hb (set_guc (idle_guc (clock (w_tick w))) (tick w))). unfold wp, over in *.
  destruct (body _) as [[a|x] w1].
  - destruct (db_fault (w_tick w1)); simpl; [apply over_same; by destruct w, w1|].
    destruct w, w1. exact Hb.
  - apply over_same. by destruct w, w1.
Qed.
Lemma over_in_tx {E A} `{!FromDb E} (body : M World E A) :
  preserves over body -> preserves over (in_tx body).
Proof. apply over_in_tx_with. Qed.
Lemma over_on_pool {E A} `{!FromDb E} (m : M World DbError A) :
  preserves over m -> preserves over (on_pool m : M World E A).
Proof.
  intros Hm. apply preserves_fun. intros w. unfold on_pool.
  specialize (Hm (set_guc (idle_guc (clock (w_tick w))) w)). unfold wp, over in *.
  destruct (m _) as [r w1]. destruct w, w1. exact Hm.
Qed.
Lemma over_set_when {A} (o : option A) f : preserves over (set_when o f).
Proof.
  destruct o; simpl; [|by apply preserves_ret; apply _]. apply over_stmt. intros w. apply over_same. by destruct w.
Qed.
Lemma over_tenant_tx {E A} `{!FromDb E} org audit (body : M World E A) :
  preserves over body -> preserves over (tenant_tx org audit body).
Proof.
  intros Hb. apply over_in_tx, preserves_bind; [apply _| |done].
  apply preserves_map_err, preserves_bind; [apply _| |].
  - apply over_stmt. intros w. apply over_same. by destruct w.
  - intros _. destruct audit; [|by apply preserves_ret; apply _].
    repeat (apply preserves_bind; [apply _|apply over_set_when|intros _]). apply over_set_when.
Qed.
Lemma over_drawing {E A} (f : nat -> M World E A) :
  (forall n, preserves over (f n)) -> preserves over (drawing f).
Proof.
  intros Hf. apply preserves_fun. intros w. unfold drawing. specialize (Hf (w_tick w) (tick w)).
  unfold wp, over in *. destruct (f _ _), w. exact Hf.
Qed.
End Over.

Section Evolving.
Context `{En : Env}.

Definition evolved : World -> World -> Prop := over evolves.
#[export] Instance evolved_preorder : PreOrder evolved.
Proof. apply over_preorder, _. Qed.
Definition evolving {E A} (m : M World E A) : Prop := preserves evolved m.

Lemma evolved_same w w' : w_db w' = w_db w -> evolved w w'.
Proof. apply over_same, _. Qed.
Lemma evolving_same {E A} (m : M World E A) :
  (forall w, w_db (m w).2 = w_db w) -> evolving m.
Proof. apply over_state, _. Qed.
Lemma evolving_stmt {A} (f : World -> result DbError A * World) :
  (forall w, evolved w (f w).2) -> evolving (stmt f).
Proof. apply over_stmt, _. Qed.

Section Table.
Context {R : Type} `{!Table R}.
Context `{!TableLaws R} `{!Checked R} `{!Stored R} `{!Triggers R}.

Lemma evolving_update_chk chk (p : Z -> R -> bool) f : steady chk f -> evolving (update_chk chk p f).
Proof.
  intros Hf. apply evolving_stmt. intros w. cbv beta zeta.
  destruct (find_map _ _) eqn:E; [by apply evolved_same|]. unfold evolved, over. destruct w; simpl.
  by eapply update_evolves.
Qed.
Lemma evolving_update (p : Z -> R -> bool) f : steady (fun _ _ => None) f -> evolving (update p f).
Proof. apply evolving_update_chk. Qed.
Lemma evolving_insert (mk : Z -> R) : evolving (insert mk).
Proof.
  apply evolving_stmt. intros w. cbv beta zeta. destruct (insert_error _ _ _) eqn:E; [by apply evolved_same|].
  unfold evolved, over. destruct w; simpl. by apply insert_evolves.
Qed.
Lemma evolving_insert_or_ignore on (mk : Z -> R) : evolving (insert_or_ignore on mk).
Proof.
  apply evolving_stmt. intros w. cbv beta zeta. destruct (negb _); [by apply evolved_same|].
  destruct (existsb _ _); [by apply evolved_same|]. destruct (insert_error _ _ _) eqn:E; [by apply evolved_same|].
  unfold evolved, over. destruct w; simpl. by apply insert_evolves.
Qed.
Lemma evolving_upsert_row on (mk : Z -> R) f :
  (forall now, steady (fun _ _ => None) (fun t => f t (mk now))) -> evolving (upsert_row on mk f).
Proof.
  intros Hf. apply evolving_stmt. intros w. cbv beta zeta. destruct (negb _); [by apply evolved_same|].
  destruct (List.find _ _) as [old|].
  - destruct (visible _ old); [|by simpl]. unfold evolved, over. destruct w; simpl.
    eapply update_evolves; [apply Hf|]. apply find_map_none.
  - destruct (insert_error _ _ _) eqn:E; [by apply evolved_same|].
    unfold evolved, over. destruct w; simpl. by apply insert_evolves.
Qed.
End Table.

Lemma evolving_on_pool {E A} `{!FromDb E} (m : M World DbError A) :
  evolving m -> evolving (on_pool m : M World E A).
Proof. apply over_on_pool. Qed.
End Evolving.

(** ** Particular statements *)

Section Statements.
Context `{En : Env}.

(** The trigger of [memberships] rewrites a flag of [users]. *)
#[export] Instance MembershipTable_triggers : Triggers Membership.
Proof.
  intros g m d Hd. simpl. unfold sync_user_requires_mfa.
  change (set_users ?l d) with (set_rows (l : list UserRow) d). unfold update_rows.
  set (h := fun u => _).
  pose proof (wf_map_rows (R := UserRow) h d) as H. apply H; [| |done|done]; unfold h.
  - intros u. by destruct (bool_decide _).
  - intros a b _ _. apply (conflict_free h). clear a b. intros a b. unfold h.
    by destruct (bool_decide (us_id a = _)).
Qed.

(** A statement that deletes secrets nothing refers to. *)
Lemma delete_secret_wf (gone : SecretRow -> bool) d :
  existsb (row_referenced d) (List.filter gone (db_secrets d)) = false ->
  wf d -> wf (set_rows (List.filter (fun s => negb (gone s)) (db_secrets d)) d).
Proof.
  intros Href Hd. rewrite existsb_false_iff in Href.
  assert (Hkept : forall id, secret_exists d id = true ->
    (exists c, In c (db_clusters d) /\ cl_kubeconfig_secret_id c = Some id) \/
    (exists c, In c (db_credentials d) /\ hc_secret_id c = id) ->
    secret_exists (set_rows (List.filter (fun s => negb (gone s)) (db_secrets d)) d) id = true).
  { intros id (s & Hs & <-)%exists_in Hr. unfold secret_exists. apply exists_in. exists s.
    split; [|done].
    assert (Hr' : forall l, db_secrets (set_rows (l : list SecretRow) d) = l) by by destruct d.
    rewrite Hr'. apply filter_In. split; [done|].
    destruct (gone s) eqn:E; [|done]. exfalso.
    specialize (Href s ltac:(by apply filter_In)). simpl in Href.
    apply orb_false_iff in Href as [H1 H2]. rewrite !existsb_false_iff in *.
    destruct Hr as [(c & Hc & Hid)|(c & Hc & Hid)].
    - specialize (H1 c Hc). by rewrite Hid, bool_decide_true in H1.
    - specialize (H2 c Hc). by rewrite Hid, bool_decide_true in H2. }
  assert (Hchecks : forall (r : SecretRow), In r (List.filter (fun s => negb (gone s)) (db_secrets d)) ->
    row_check d r = None).
  { intros r [Hr _]%filter_In. by apply (wf_secrets d Hd). }
  destruct Hd as [[Hc1 Hc2] Hs Hw [Hsc Hsu] [Hk1 Hk2] Ha Ho He Hu Hm Hi Hss Hid Hks Hch].
  constructor; try (destruct d; assumption).
  - split; [|by destruct d]. intros c Hc. specialize (Hc1 c). simpl in *.
    assert (Hin : In c (db_clusters d)) by by destruct d. specialize (Hc1 Hin).
    revert Hc1. destruct (cl_kubeconfig_secret_id c) as [id|] eqn:Ek; [|by destruct d].
    intros Hc1. assert (Hex : secret_exists d id = true).
    { destruct (_ && _); [|done]. destruct (org_exists _ _); [|done].
      destruct (credential_exists _ _); [|done]. by destruct (secret_exists d id). }
    rewrite Hkept; [|done|left; by exists c]. rewrite Hex in Hc1. by destruct d.
  - split; [rewrite rows_set_rows; intros r Hr; specialize (Hchecks r Hr); by destruct d|].
    rewrite rows_set_rows. by apply distinct_filter.
  - split; [|by destruct d]. intros c Hc. specialize (Hk1 c). simpl in *.
    assert (Hin : In c (db_credentials d)) by by destruct d. specialize (Hk1 Hin).
    assert (Hex : secret_exists d (hc_secret_id c) = true).
    { destruct (org_exists _ _); [|done]. by destruct (secret_exists d _). }
    rewrite Hkept; [|done|right; by exists c]. rewrite Hex in Hk1. by destruct d.
Qed.

Lemma evolving_delete_secrets (p : Z -> SecretRow -> bool) : evolving (delete p).
Proof.
  apply evolving_stmt. intros w. cbv beta zeta.
  destruct (existsb _ _) eqn:E; [by apply evolved_same|]. unfold evolved, over.
  pose proof (after_rows_evolves (w_guc w) (w_tick w) ".deleted"
    (List.filter (update_hit (w_guc w) p) (db_secrets (w_db w))) _ (w_db w)
    (delete_secret_wf (update_hit (w_guc w) p) (w_db w) E)) as H.
  destruct w. exact H.
Qed.

(** A statement that deletes rows of a table nothing refers to. *)
Lemma evolving_delete_free {R} `{!Table R} `{!TableLaws R} `{!Checked R} `{!Stored R} `{!Triggers R}
    (p : Z -> R -> bool) :
  (forall l d, refs d (set_rows (l : list R) d)) -> evolving (delete p).
Proof.
  intros Hrefs. apply evolving_stmt. intros w. cbv beta zeta.
  destruct (existsb _ _); [by apply evolved_same|]. unfold evolved, over.
  pose proof (after_rows_evolves (w_guc w) (w_tick w) ".deleted"
    (List.filter (update_hit (w_guc w) p) (rows (w_db w)))
    (List.filter (fun r => negb (update_hit (w_guc w) p r)) (rows (w_db w))) (w_db w)) as H.
  destruct w. apply H. intros Hd. destruct (stored_ok _ Hd) as [Hc Hu].
  apply wf_set_rows; [done|apply Hrefs| |by apply distinct_filter].
  intros r [Hr _]%filter_In. eapply check_mono; [apply Hrefs|]. by apply Hc.
Qed.
Lemma ceremonies_refs l d : refs d (set_rows (l : list CeremonyRow) d).
Proof. apply refs_same; by destruct d. Qed.
Lemma codes_refs l d : refs d (set_rows (l : list MfaRecoveryCode) d).
Proof. apply refs_same; by destruct d. Qed.
(** The audit trigger of [organizations]. *)
Lemma billing_entries_chained g t writes log :
  chained log -> chained (log ++ billing_entries g t writes log).
Proof.
  revert t log. induction writes as [|[old new] writes IH]; intros t log Hl; simpl; [by rewrite app_nil_r|].
  destruct (billing_changed old new); [|by apply IH].
  rewrite cons_middle, app_assoc. apply IH. by constructor.
Qed.

Lemma evolving_update_billing p f :
  (forall now o, og_id (org_touch now o (f o)) = og_id o) ->
  (forall g d a b, wf d ->
     existsb (fun x => customer_taken d x.2) (billing_writes g p f d) = false ->
     In a (db_orgs d) -> In b (db_orgs d) -> row_conflict a b = false ->
     let h o := if visible g o && p o then org_touch (g_now g) o (f o) else o in
     row_conflict (h a) (h b) = false) ->
  evolving (update_billing p f).
Proof.
  intros Hid Hconf. apply evolving_stmt. intros w. cbv beta zeta.
  destruct (existsb _ _) eqn:E; [by apply evolved_same|]. unfold evolved, over.
  assert (H : evolves (w_db w) (billing_db (w_tick w) (w_guc w) p f (w_db w)));
    [|by destruct w].
  unfold billing_db, update_rows. set (h := fun o => _). set (es := billing_entries _ _ _ _). split.
  - intros Hd. apply wf_set_audit; [|by apply billing_entries_chained, Hd].
    pose proof (wf_map_rows (R := OrgRow) h (w_db w)) as H. apply H; [| |done|done]; unfold h.
    + intros o. destruct (_ && _); [apply Hid|done].
    + intros a b Ha Hb Hab. by apply (Hconf _ (w_db w)).
  - exists es. by destruct (w_db w).
Qed.

Lemma evolving_update_plan p plan : evolving (update_billing p (with_plan plan)).
Proof.
  apply evolving_update_billing; [done|]. intros g d a b _ _ _ _ Hab.
  cbv beta zeta. repeat case_match; exact Hab.
Qed.

Lemma evolving_update_customer org q c :
  evolving (update_billing (fun o => bool_decide (og_id o = org) && q o) (with_customer c)).
Proof.
  apply evolving_update_billing; [done|]. intros g d a b Hd Hfree Ha Hb Hab. cbv beta zeta.
  rewrite existsb_false_iff in Hfree.
  assert (Hne : og_id a <> og_id b).
  { intros H. simpl in Hab. by rewrite H, bool_decide_true in Hab. }
  assert (Hnew : forall x y, In x (db_orgs d) -> In y (db_orgs d) ->
    visible g x && (bool_decide (og_id x = org) && q x) = true -> og_id x <> og_id y ->
    row_conflict x y = false -> row_conflict (org_touch (g_now g) x (with_customer c x)) y = false).
  { intros x y Hx Hy Hp Hxy Hc. simpl in Hc |- *. apply orb_false_iff in Hc as [Hc _].
    rewrite Hc. simpl. rewrite same_customer_sym.
    assert (Hin : In (x, org_touch (g_now g) x (with_customer c x))
      (billing_writes g (fun o => bool_decide (og_id o = org) && q o) (with_customer c) d)).
    { unfold billing_writes. apply (in_map (fun r => (r, org_touch (g_now g) r (with_customer c r)))).
      by apply filter_In. }
    specialize (Hfree _ Hin). unfold customer_taken in Hfree. rewrite existsb_false_iff in Hfree.
    specialize (Hfree y Hy). cbn [snd] in Hfree.
    rewrite bool_decide_false in Hfree by (simpl; congruence). exact Hfree. }
  destruct (visible g a && _) eqn:Pa; destruct (visible g b && _) eqn:Pb.
  - exfalso. apply andb_true_iff in Pa as [_ [Ea%bool_decide_eq_true _]%andb_true_iff].
    apply andb_true_iff in Pb as [_ [Eb%bool_decide_eq_true _]%andb_true_iff]. congruence.
  - by apply Hnew.
  - rewrite conflict_sym. apply Hnew; [done..|congruence|by rewrite conflict_sym].
  - done.
Qed.

Lemma evolving_append_explicit org action rt rid decision :
  evolving (append_explicit org action rt rid decision).
Proof.
  apply preserves_map_err, evolving_stmt. intros w. cbv beta zeta. unfold evolved, over.
  pose proof (set_audit_evolves [audit_entry (w_guc w) (rand_uuid (w_tick w)) org action rt
    (default EmptyString rid) decision (db_audit (w_db w))] (w_db w)) as H.
  destruct w. apply H. intros Hd. constructor; [apply Hd|done|done].
Qed.
End Statements.

(** The same for the process. *)
Section Process.
Context `{En : Env}.
Definition app_evolved (a a' : App) : Prop := evolves (ap_db a) (ap_db a').
#[export] Instance app_evolved_preorder : PreOrder app_evolved.
Proof.
  split; [intros a; apply (reflexivity (R := evolves))|].
  intros x y z. apply (transitivity (R := evolves)).
Qed.
Lemma evolving_in_world {E A} (m : M World E A) :
  evolving m -> preserves app_evolved (in_world m).
Proof. intros Hm a. apply wp_in_world, Hm. Qed.
Lemma app_same {E A} (m : M App E A) :
  (forall a, ap_db (m a).2 = ap_db a) -> preserves app_evolved m.
Proof.
  intros H. apply preserves_fun. intros a. unfold app_evolved. rewrite H. reflexivity.
Qed.
End Process.

(** A secret store whose operations keep the tables well-formed. *)
Class SoundStore `{En : Env} (St : SecretStore) : Prop := {
  put_evolving org text : evolving (put org text);
  get_evolving ref : evolving (get ref);
  delete_evolving ref : evolving (delete_secret ref);
}.

Create HintDb evolving discriminated.

(** [steady] of an update that only writes columns outside the constraints, or
    ends a row. *)
Ltac steady :=
  split;
  [ intros; reflexivity
  | intros ? ? ?; cbn; rewrite ?orb_true_iff, ?andb_true_iff; naive_solver
  | intros ? ? ? ?; cbn; repeat match goal with |- context [match ?x with _ => _ end] => destruct x end; congruence ].

(** Prove [preserves] of a composition; what is no composition is left to [leaf]. *)
Ltac compose leaf :=
  let rec go _ :=
    cbv beta zeta;
    lazymatch goal with
    | |- forall _, _ => intro; go tt
    | |- preserves _ (ret _) => apply preserves_ret; apply _
    | |- preserves _ (throw _) => apply preserves_throw; apply _
    | |- preserves _ (lift _) => apply preserves_lift; apply _
    | |- preserves _ (bind _ _) => apply preserves_bind; [apply _|go tt|intro; go tt]
    | |- preserves _ (map_err _ _) => apply preserves_map_err; go tt
    | |- preserves _ (attempt _) => apply preserves_attempt; go tt
    | |- preserves _ (ignore _) => apply preserves_ignore; go tt
    | |- preserves _ (for_each _ _) => apply preserves_for_each; [apply _|intro; go tt]
    | |- preserves _ (map_each _ _) => apply preserves_map_each; [apply _|intro; go tt]
    | |- preserves _ (tenant_tx _ _ _) => apply over_tenant_tx; [apply _|go tt]
    | |- preserves _ (in_tx _) => apply over_in_tx; [apply _|go tt]
    | |- preserves _ (in_tx_with _ _ _) => apply over_in_tx_with; [apply _|go tt]
    | |- preserves _ (on_pool _) => apply over_on_pool; go tt
    | |- preserves _ (sql _) => apply preserves_map_err; go tt
    | |- preserves _ (select _) => apply over_select; apply _
    | |- preserves _ (drawing _) => apply over_drawing; intro; go tt
    | |- preserves _ (stmt _) =>
        apply over_stmt; [apply _|]; let w := fresh "w" in intros w; apply over_same; [apply _|];
        destruct w; reflexivity
    | |- preserves _ now_v7 =>
        apply over_state; [apply _|]; let w := fresh "w" in intros w; destruct w; reflexivity
    | |- preserves _ now_utc =>
        apply over_state; [apply _|]; let w := fresh "w" in intros w; destruct w; reflexivity
    | |- preserves _ (match ?x with _ => _ end) => destruct x; go tt
    | |- _ => leaf go
    end in
  go tt.

(** The operations already treated are found in the database. *)
Ltac evo_leaf go :=
  lazymatch goal with
  | |- evolving ?m => change (preserves evolved m); go tt
  | |- preserves _ (insert _) => apply evolving_insert
  | |- preserves _ (insert_or_ignore _ _) => apply evolving_insert_or_ignore
  | |- preserves _ (update _ _) => apply evolving_update; try solve [steady]
  | |- preserves _ (update_chk _ _ _) => apply evolving_update_chk; try solve [steady]
  | |- preserves _ (upsert_row _ _ _) => apply evolving_upsert_row; intro; try solve [steady]
  | |- preserves _ (in_world _) => apply evolving_in_world; go tt
  | |- preserves evolved ?m => change (evolving m); first [solve [eauto 3 with evolving] | idtac]
  | |- preserves (over _) ?m => change (evolving m); first [solve [eauto 3 with evolving] | idtac]
  | |- _ => idtac
  end.
Ltac evo := compose evo_leaf.

#[export] Hint Extern 1 (evolving (update_billing _ (with_plan _))) =>
  apply evolving_update_plan : evolving.
#[export] Hint Extern 1 (evolving (update_billing _ (with_customer _))) =>
  apply (evolving_update_customer _ (fun o => _)) : evolving.
#[export] Hint Extern 1 (evolving (delete _)) =>
  apply (evolving_delete_free (R := CeremonyRow)), ceremonies_refs : evolving.
#[export] Hint Extern 1 (evolving (delete _)) =>
  apply (evolving_delete_free (R := MfaRecoveryCode)), codes_refs : evolving.
#[export] Hint Extern 1 (evolving (append_explicit _ _ _ _ _)) =>
  apply evolving_append_explicit : evolving.
#[export] Hint Extern 1 (evolving (put _ _)) => apply put_evolving : evolving.
#[export] Hint Extern 1 (evolving (get _)) => apply get_evolving : evolving.
#[export] Hint Extern 1 (evolving (delete_secret _)) => apply delete_evolving : evolving.
(** A function that leaves the tables alone. *)
Ltac plain_function :=
  cbn; repeat match goal with |- context [match ?x with _ => _ end] => destruct x end; reflexivity.
#[export] Hint Extern 5 (evolving _) =>
  apply evolving_same; let w := fresh "w" in intros w; destruct w; plain_function : evolving.

Section Store.
Context `{En : Env} (kek : string).
#[export] Instance pgcrypto_sound : SoundStore (pgcrypto_store kek).
Proof.
  split; intros; cbn [put get delete_secret pgcrypto_store].
  - unfold pg_put, gen_random_bytes, pgp_sym_encrypt. evo.
  - unfold pg_get. evo.
  - unfold pg_delete. evo. apply evolving_delete_secrets.
Qed.

#[export] Instance vault_sound `{VT : VaultTransit} key_prefix : SoundStore (vault_store key_prefix).
Proof.
  split; intros; cbn [put get delete_secret vault_store].
  - unfold vault_put, transit. evo.
  - unfold vault_get, transit. evo.
  - unfold vault_delete. evo. apply evolving_delete_secrets.
Qed.
End Store.

(** The migration as well. *)
Section Migrate.
Context `{En : Env} `{VT : VaultTransit}.
Lemma migrate_row_evolving cli row : evolving (migrate_row cli row).
Proof. unfold migrate_row, decrypt_row, transit. evo. Qed.
#[local] Hint Resolve migrate_row_evolving : evolving.
Lemma migrate_rows_evolving cli rows t : evolving (migrate_rows cli rows t).
Proof. revert t. induction rows as [|row rows IH]; intros t; simpl; evo; apply IH. Qed.
#[local] Hint Resolve migrate_rows_evolving : evolving.
Lemma migrate_evolving cli fuel : evolving (migrate cli fuel).
Proof.
  assert (H : forall offset t, evolving (migrate_batches cli fuel offset t)).
  { induction fuel as [|fuel IH]; intros offset t; simpl; unfold fetch_batch; evo; apply IH. }
  unfold migrate. evo; apply H.
Qed.
End Migrate.

(** The integrity of a concrete table, computed. *)
Section Checker.
Context `{En : Env}.
Fixpoint pairwise {R} `{!Table R} (l : list R) : bool :=
  match l with
  | [] => true
  | r :: l => forallb (fun x => negb (row_conflict r x)) l && pairwise l
  end.
Definition table_okb (R : Type) `{!Table R} (d : DB) : bool :=
  forallb (fun r : R => bool_decide (row_check d r = None)) (rows d) && pairwise (rows d : list R).

Lemma table_okb_sound (R : Type) `{!Table R} d : table_okb R d = true -> table_ok R d.
Proof.
  intros [Hc Hp]%andb_true_iff. split.
  - intros r Hr. rewrite forallb_forall in Hc. specialize (Hc r Hr). by apply bool_decide_eq_true in Hc.
  - clear Hc. induction (rows d) as [|r l IH]; [constructor|]. simpl in Hp.
    apply andb_true_iff in Hp as [Hr Hp]. constructor; [|by apply IH].
    apply List.Forall_forall. intros x Hx. rewrite forallb_forall in Hr. by apply negb_true_iff, Hr.
Qed.
End Checker.
