(* ===== verification/SingleUse.v ===== *)
(** What can be used once is used once, however requests interleave: invitations,
    recovery codes, pending log-ins and WebAuthn ceremonies.  Their handlers are cut
    into tasks at the awaits of the database and of GitHub; a transaction is one step,
    as is a statement on the pool. *)

From stdpp Require Import base gmap strings list.
From S2P Require Import Prelude Errors Integrations Events Schema Database Tables.
From S2P Require Import Membership Sessions Access Api Account Passkeys MfaRoutes Login Integrity Tasks.

(** * The handlers as tasks *)

Module UseTasks.
Section UseTasks.
Context `{En : Env}.

(** [repository.rs: mark_accepted, MembershipRepository::insert] *)
Definition mark_accepted_task (id accepted_by : Uuid) (audit : AuditContext)
  : Task World PlatformError unit :=
  org <~ atom (on_pool (select (fun _ i => bool_decide (iv_id i = id)))) ;;
  match org with
  | [] => Done (Err (NotFound ("invite/" +++ uuid_str id)))
  | i :: _ =>
      hits <~ atom (tenant_tx (iv_organization_id i) (Some audit)
        (sql (update (fun now i => bool_decide (iv_id i = id) && is_live i now)
                (fun now => Membership.accepted now accepted_by)))) ;;
      match hits with
      | [] => Done (Err (Forbidden "invite is expired, revoked, or already accepted"))
      | _ => Done (Ok tt)
      end
  end.

(** [service.rs: accept_invite] *)
Definition accept_invite_task (token : string) (user_id : Uuid) (user_email : string)
    (audit : AuditContext) : Task World InviteError Invite :=
  found <~ task_map_err InvitePlatform (atom (get_by_hash (sha256 token))) ;;
  match found with
  | None => Done (Err (InviteForbidden "invite not found"))
  | Some invite =>
      now <~ atom now_utc ;;
      if negb (is_live invite now)
      then Done (Err (InviteForbidden "invite is expired, revoked, or already accepted"))
      else if negb (eq_ignore_ascii_case (iv_email invite) user_email)
      then Done (Err (InviteForbidden "invite email does not match the logged-in user"))
      else
        task_map_err InvitePlatform (mark_accepted_task (iv_id invite) user_id audit) ~;;
        task_map_err InvitePlatform
          (atom (insert_membership (iv_organization_id invite) user_id (iv_role invite) audit)) ~;;
        Done (Ok invite)
  end.

(** [auth_passkey.rs: audit_passkey_event_for_user_with_decision] *)
Definition audit_event_task (user_id : Uuid) (rq : Request) (action resource_type : string)
    (resource_id : option string) (decision : string) : Task World PlatformError unit :=
  memberships <~ atom (on_pool (select (fun _ => privileged user_id))) ;;
  task_for_each (fun m =>
    atom (tenant_tx (mb_organization_id m) (Some (from_user_id_and_headers user_id rq))
      (append_explicit (mb_organization_id m) action resource_type resource_id decision)) ~;;
    Done (Ok tt)) memberships.

Definition recovery_redeem_task `{CH : CodeHost} (user : SessionUser) (rq : Request) (code : string)
  : Task World PlatformError Z :=
  consumed <~ atom (try_consume (su_user_id user) (hash code)) ;;
  if negb consumed then
    task_ignore (audit_event_task (su_user_id user) rq
              "recovery_codes.redeem_failed" "user" (Some (uuid_str (su_user_id user))) "denied") ~;;
    Done (Err (Forbidden "recovery code is invalid or already used"))
  else
    atom (promote user) ~;;
    remaining <~ atom (count_live (su_user_id user)) ;;
    audit_event_task (su_user_id user) rq "recovery_codes.redeemed" "user"
      (Some (uuid_str (su_user_id user))) "allowed" ~;;
    Done (Ok remaining).

(** [webauthn.rs: finish_assertion] *)
Definition finish_assertion_task `{WA : WebAuthn} (ceremony_id passkey_row_id : Uuid)
    (passkey : WebauthnPasskey) (credential : PublicKeyCredential)
  : Task World WebauthnError CompletedAssertion :=
  row <~ atom (close_ceremony ceremony_id Assertion) ;;
  atom (state <- serde (authentication_of_json (cy_state row)) ;;
        outcome <- rejecting "finish_passkey_authentication" (finish_passkey_authentication credential state) ;;
        updated_blob <- serde (passkey_json (update_credential passkey outcome)) ;;
        ret (mkCompletedAssertion passkey_row_id (counter outcome) updated_blob)).

(** [auth_passkey.rs: assert_finish] *)
Definition assert_finish_task `{WA : WebAuthn} (user : SessionUser) (rq : Request) (ceremony_id : Uuid)
    (credential : PublicKeyCredential) : Task World PlatformError bool :=
  atom require_ceremonies ~;;
  found <~ atom (find_by_credential_id (base64url (credential_raw_id credential))) ;;
  match found with
  | None => Done (Err (Forbidden "no live passkey matches this assertion"))
  | Some row =>
      if negb (bool_decide (pk_user_id row = su_user_id user))
      then Done (Err (Forbidden "passkey does not belong to this user"))
      else
        passkey <~ atom (webauthn (deserialize_passkey (pk_credential row))) ;;
        completed <~ task_map_err webauthn_to_api (finish_assertion_task ceremony_id (pk_id row) passkey credential) ;;
        atom (record_use (pk_id row) (ca_new_sign_counter completed) (ca_updated_credential_blob completed)) ~;;
        atom (promote user) ~;;
        audit_event_task (su_user_id user) rq "passkey.used" "user_passkey"
          (Some (uuid_str (pk_id row))) "allowed" ~;;
        Done (Ok true)
  end.

(** [oidc.rs: consume], [auth.rs: callback] *)
Definition consume_task (state : string) : Task World AuthStateError AuthState :=
  hits <~ atom (on_pool (update (fun _ => pending state) state_consumed)) ;;
  match hits with
  | [] => e <~ atom (replay_or_missing state) ;; Done (Err e)
  | a :: _ =>
      now <~ atom now_utc ;;
      if as_expires_at a <=? now then Done (Err StateExpired) else Done (Ok a)
  end.

Definition callback_task `{GH : GithubHost} (rq : Request) (code state : string)
  : Task World PlatformError (Session * string) :=
  stored <~ task_map_err auth_state_to_platform (consume_task state) ;;
  if negb (String.eqb (as_provider stored) PROVIDER_GITHUB)
  then Done (Err (Forbidden "auth state provider mismatch"))
  else
    access_token <~ task_map_err github_to_platform
      (atom (exchange_code code (as_code_verifier stored) github_redirect_uri)) ;;
    profile <~ task_map_err github_to_platform (atom (fetch_profile access_token)) ;;
    atom (end_cookie_session rq) ~;;
    session <~ atom (in_tx (user_id <- upsert_identity (idp_user profile) ;; issue_session user_id)) ;;
    Done (Ok (session, default "/"%string (as_redirect_to stored))).
End UseTasks.
End UseTasks.
Export UseTasks.

(** Alone, each is its handler. *)
Section Alone.
Context `{En : Env} `{WA : WebAuthn} `{CH : CodeHost} `{GH : GithubHost}.

Lemma accept_invite_alone token user email audit w :
  alone (accept_invite_task token user email audit) w = accept_invite token user email audit w.
Proof. unfold accept_invite_task, mark_accepted_task, accept_invite, platform, mark_accepted. same_alone. Qed.
Lemma recovery_redeem_alone user rq code w :
  alone (recovery_redeem_task user rq code) w = recovery_redeem user rq code w.
Proof.
  unfold recovery_redeem_task, audit_event_task, recovery_redeem, audit_passkey_event_for_user,
    audit_passkey_event_for_user_with_decision. same_alone.
Qed.
Lemma assert_finish_alone user rq id credential w :
  alone (assert_finish_task user rq id credential) w = assert_finish user rq id credential w.
Proof.
  unfold assert_finish_task, finish_assertion_task, audit_event_task, assert_finish, webauthn, finish_assertion,
    audit_passkey_event_for_user, audit_passkey_event_for_user_with_decision. same_alone.
Qed.
Lemma callback_alone rq code state w : alone (callback_task rq code state) w = callback rq code state w.
Proof. unfold callback_task, consume_task, callback, consume. same_alone. Qed.
End Alone.

(** * Resources *)

(** What a request that succeeded has used up. *)
Inductive Claim :=
| CInvite (id : Uuid)
| CCode (user_id : Uuid) (code_hash : string)
| CState (state : string)
| CCeremony (id : Uuid).

Definition spent (c : Claim) (d : DB) : Prop :=
  match c with
  | CInvite id => forall i, In i (db_invites d) -> iv_id i = id -> iv_accepted_at i <> None
  | CCode user h => forall r, In r (db_recovery d) -> rc_user_id r = user -> rc_code_hash r = h -> rc_used_at r <> None
  | CState s => forall a, In a (db_auth_states d) -> as_state a = s -> as_consumed_at a <> None
  | CCeremony id => forall c, In c (db_ceremonies d) -> cy_id c <> id
  end.

(** The primary keys that identify invitations and ceremonies. *)
Definition keyed (d : DB) : Prop :=
  NoDup (map iv_id (db_invites d)) /\ NoDup (map cy_id (db_ceremonies d)).

(** Nothing that was used up comes back. *)
Definition burns (d d' : DB) : Prop := (keyed d -> keyed d') /\ forall c, spent c d -> spent c d'.
#[export] Instance burns_preorder : PreOrder burns.
Proof.
  split; [by split|]. intros d1 d2 d3 [H1 H2] [H3 H4]. split; [auto|]. intros c Hc. auto.
Qed.

Definition resources (d : DB) : list Invite * list MfaRecoveryCode * list AuthState * list CeremonyRow :=
  (db_invites d, db_recovery d, db_auth_states d, db_ceremonies d).
Lemma resources_burns d d' : resources d' = resources d -> burns d d'.
Proof.
  unfold resources, burns, keyed. intros [= H1 H2 H3 H4]. rewrite H1, H4. split; [done|].
  intros []; simpl; by rewrite ?H1, ?H2, ?H3, ?H4.
Qed.

(** Rows rewritten in place. *)
Lemma in_rewritten {A} (p : A -> bool) f l (P : A -> Prop) :
  (forall a, In a l -> P a) -> (forall a, In a l -> P a -> p a = true -> P (f a)) ->
  forall a, In a (update_rows p f l) -> P a.
Proof. intros H1 H2 a (b & Hb & ->)%in_update_rows. destruct (p b) eqn:E; auto. Qed.
Lemma map_rewritten {A B} (g : A -> B) (p : A -> bool) f l :
  (forall a, g (f a) = g a) -> map g (update_rows p f l) = map g l.
Proof.
  intros H. unfold update_rows. rewrite map_map. apply map_ext. intros a. destruct (p a); auto.
Qed.

(** Tables beside the resources. *)
Class Apart `{En : Env} (R : Type) `{TR : !Table R} : Prop := {
  apart_rows (l : list R) d : resources (set_rows l d) = resources d;
  apart_after g (r : R) d : resources (row_after g r d) = resources d;
}.

Section Apart.
Context `{En : Env}.
#[export] Instance sessions_apart : Apart Session.
Proof. split; intros; by destruct d. Qed.
#[export] Instance users_apart : Apart UserRow.
Proof. split; intros; by destruct d. Qed.
#[export] Instance passkeys_apart : Apart Passkey.
Proof. split; intros; by destruct d. Qed.
#[export] Instance identities_apart : Apart OidcIdentity.
Proof. split; intros; by destruct d. Qed.
#[export] Instance memberships_apart : Apart Membership.
Proof. split; intros; [by destruct d|]. cbn. unfold sync_user_requires_mfa. by destruct d. Qed.

Context {R : Type} `{TR : !Table R} `{HR : !Apart R}.

Lemma apart_after_rows g t op (rs : list R) d : resources (after_rows g t op rs d) = resources d.
Proof.
  unfold after_rows. assert (Ha : forall l d, resources (set_audit l d) = resources d) by (intros l []; done).
  rewrite Ha. revert d. induction rs as [|r rs IH]; intros d; [done|]. cbn [fold_left].
  by rewrite IH, apart_after.
Qed.
Lemma apart_update_db t g p f d : resources (update_db (R := R) t g p f d) = resources d.
Proof. unfold update_db. by rewrite apart_after_rows, apart_rows. Qed.
Lemma apart_insert_db t g (r : R) d : resources (insert_db t g r d) = resources d.
Proof. unfold insert_db. by rewrite apart_after_rows, apart_rows. Qed.

Lemma burns_world d n w : resources d = resources (w_db w) -> over burns w (set_tick n (set_db d w)).
Proof. intros H. unfold over. apply resources_burns. by destruct w. Qed.

(** Statements on such a table burn nothing and give nothing back. *)
Lemma burns_update (p : Z -> R -> bool) f : preserves (over burns) (update p f).
Proof.
  apply over_stmt; [apply _|]. intros w. cbv beta zeta. rewrite find_map_none. cbn [snd].
  apply burns_world, apart_update_db.
Qed.
Lemma burns_insert_or_ignore on (mk : Z -> R) : preserves (over burns) (insert_or_ignore on mk).
Proof.
  apply over_stmt; [apply _|]. intros w. cbv beta zeta.
  repeat case_match; cbn [snd]; try reflexivity. apply burns_world, apart_insert_db.
Qed.
Lemma burns_insert (mk : Z -> R) : preserves (over burns) (insert mk).
Proof.
  apply over_stmt; [apply _|]. intros w. cbv beta zeta.
  repeat case_match; cbn [snd]; try reflexivity. apply burns_world, apart_insert_db.
Qed.
Lemma burns_upsert_row on (mk : Z -> R) f : preserves (over burns) (upsert_row on mk f).
Proof.
  apply over_stmt; [apply _|]. intros w. cbv beta zeta.
  repeat case_match; cbn [snd]; try reflexivity; apply burns_world;
    [apply apart_update_db|apply apart_insert_db].
Qed.
End Apart.

Ltac burn_leaf go :=
  lazymatch goal with
  | |- preserves _ (update _ _) => apply burns_update
  | |- preserves _ (insert _) => apply burns_insert
  | |- preserves _ (insert_or_ignore _ _) => apply burns_insert_or_ignore
  | |- preserves _ (upsert_row _ _ _) => apply burns_upsert_row
  | |- preserves _ (fun _ => _) =>
      apply over_state; [apply _|]; let w := fresh "w" in intros w; destruct w; plain_function
  | |- _ => auto with burning
  end.
Ltac burn := compose burn_leaf.
Create HintDb burning.

Section Burning.
Context `{En : Env} `{WA : WebAuthn} `{CH : CodeHost} `{GH : GithubHost}.

Lemma append_explicit_burns org action type id decision :
  preserves (over burns) (append_explicit org action type id decision).
Proof.
  unfold append_explicit. apply preserves_map_err, over_stmt; [apply _|]. intros w. cbv beta zeta.
  unfold over. apply resources_burns. by destruct w as [[]].
Qed.
Lemma get_by_hash_burns h : preserves (over burns) (get_by_hash h).
Proof. unfold get_by_hash. burn. Qed.
Lemma insert_membership_burns org user role audit : preserves (over burns) (insert_membership org user role audit).
Proof. unfold insert_membership. burn. Qed.
Lemma promote_burns user : preserves (over burns) (promote user).
Proof. unfold promote, mark_mfa_satisfied. burn. Qed.
Lemma count_live_burns user : preserves (over burns) (count_live user).
Proof. unfold count_live. burn. Qed.
Lemma record_use_burns id n blob : preserves (over burns) (record_use id n blob).
Proof. unfold record_use. burn. Qed.
Lemma replay_or_missing_burns state : preserves (over burns) (replay_or_missing state).
Proof. unfold replay_or_missing. burn. Qed.
Lemma end_cookie_burns rq : preserves (over burns) (end_cookie_session rq).
Proof. unfold end_cookie_session, revoke_session. burn. Qed.
Lemma issue_burns p :
  preserves (over burns) (in_tx (E := PlatformError) (user_id <- upsert_identity p ;; issue_session user_id)).
Proof. unfold upsert_identity, issue_session, issue, issue_partial_mfa, issue_with. unfold user_requires_partial_session. burn. Qed.
Lemma require_ceremonies_burns : preserves (over burns) require_ceremonies.
Proof. unfold require_ceremonies. burn. Qed.
Lemma find_by_credential_id_burns id : preserves (over burns) (find_by_credential_id id).
Proof. unfold find_by_credential_id. burn. Qed.
Lemma deserialize_passkey_burns blob : preserves (over burns) (webauthn (deserialize_passkey blob)).
Proof. unfold webauthn, deserialize_passkey, serde. burn. Qed.
Lemma serde_burns {A} (r : result string A) : preserves (over burns) (serde r).
Proof. unfold serde. burn. Qed.
Lemma rejecting_burns {A} call (r : result string A) : preserves (over burns) (rejecting call r).
Proof. unfold rejecting. burn. Qed.
Lemma exchange_code_burns code verifier redirect : preserves (over burns) (exchange_code code verifier redirect).
Proof. unfold exchange_code. burn. Qed.
Lemma fetch_profile_burns token : preserves (over burns) (fetch_profile token).
Proof. unfold fetch_profile. burn. Qed.
End Burning.
#[export] Hint Resolve append_explicit_burns get_by_hash_burns insert_membership_burns promote_burns count_live_burns
  record_use_burns replay_or_missing_burns end_cookie_burns issue_burns require_ceremonies_burns
  find_by_credential_id_burns deserialize_passkey_burns serde_burns rejecting_burns exchange_code_burns
  fetch_profile_burns : burning.

(** * The steps that use something up *)

(** The step uses [c] up: it was there before, and is not after. *)
Definition uses (c : Claim) (d d' : DB) : Prop := keyed d -> ~ spent c d /\ spent c d'.

(** It does where [m] answers with a value [used] accepts. *)
Definition consumes `{En : Env} {E A} (m : M World E A) (c : Claim) (used : A -> bool) : Prop := forall d,
  db_wp d m (fun r d' => burns d d' /\
    match r with Ok a => used a = true -> uses c d d' | Err _ => True end).

Definition nonempty {A} (l : list A) : bool := match l with [] => false | _ :: _ => true end.

Section Using.
Context `{En : Env} `{WA : WebAuthn} `{CH : CodeHost}.

Lemma resources_audit l d : resources (set_audit l d) = resources d.
Proof. by destruct d. Qed.

(** Invitations that are accepted in place. *)
Lemma accept_burns p now user d d' :
  resources d' = (update_rows p (Membership.accepted now user) (db_invites d), db_recovery d,
                  db_auth_states d, db_ceremonies d) -> burns d d'.
Proof.
  unfold resources, burns, keyed. intros [= H1 H2 H3 H4]. rewrite H1, H4. split.
  - by rewrite map_rewritten.
  - intros []; simpl; rewrite ?H1, ?H2, ?H3, ?H4; try done.
    intros Hs. by apply (in_rewritten _ _ _ (fun i => iv_id i = id -> iv_accepted_at i <> None)).
Qed.

Lemma accept_uses p now user d d' id x :
  (forall i, p i = true -> iv_id i = id /\ iv_accepted_at i = None) ->
  In x (db_invites d) -> p x = true ->
  db_invites d' = update_rows p (Membership.accepted now user) (db_invites d) -> uses (CInvite id) d d'.
Proof.
  intros Hp Hin Hx Hd' [Hk _]. destruct (Hp x Hx) as [Hid Hnone]. split.
  - intros Hs. by apply (Hs x).
  - simpl. rewrite Hd'. intros i (y & Hy & ->)%in_update_rows.
    destruct (p y) eqn:Hpy; [done|]. intros Hyid. destruct (Hp x Hx).
    assert (y = x) as ->; [|congruence]. apply (NoDup_map_inj _ _ _ _ Hk); auto. congruence.
Qed.

Lemma accept_consumes org id user audit :
  consumes (tenant_tx (E := PlatformError) org (Some audit)
             (sql (update (fun now i => bool_decide (iv_id i = id) && is_live i now)
                     (fun now => Membership.accepted now user)))) (CInvite id) nonempty.
Proof.
  intros d. apply db_tenant_tx; [intros _; by split|]. intros now. apply tx_map_err, tx_update; [intros _; by split|].
  intros t. cbn [result_map_err]. set (g := tenant_guc now org (Some audit)).
  set (p := fun (now : Z) (i : Invite) => bool_decide (iv_id i = id) && is_live i now).
  set (f := fun now => Membership.accepted now user).
  set (d' := update_db (R := Invite) t g p f d).
  assert (Hres : resources d' = (update_rows (update_hit (R := Invite) g p) (Membership.accepted (g_now g) user)
    (db_invites d), db_recovery d, db_auth_states d, db_ceremonies d)).
  { unfold d'. rewrite update_db_plain, resources_audit. by destruct d. }
  split; [by apply (accept_burns _ _ _ _ _ Hres)|].
  destruct (update_hits (R := Invite) g p f d) as [|h l] eqn:E; [done|]. intros _.
  unfold update_hits in E. destruct (List.filter _ _) as [|x k] eqn:F; [done|].
  assert (Hx : In x (List.filter (update_hit (R := Invite) g p) (db_invites d))).
  { change (db_invites d) with (rows (R := Invite) d). rewrite F. by left. }
  apply filter_In in Hx as [Hin Hx]. apply (accept_uses (update_hit (R := Invite) g p) (g_now g) user d d' id x);
    [|done|done|by injection Hres].
  intros i [_ [Hid Hl]%andb_true_iff]%andb_true_iff. apply bool_decide_eq_true in Hid. split; [done|].
  unfold is_live in Hl. by destruct (iv_accepted_at i).
Qed.

Lemma try_consume_consumes user h : consumes (try_consume user h) (CCode user h) (fun b => b).
Proof.
  intros d. eapply db_mono; [apply try_consume_law|]. intros [b|e] d'; [|by intros [-> _]].
  set (p := fun c => live_code user c && String.eqb (rc_code_hash c) h). intros [-> [now ->]].
  set (d' := set_rows _ d).
  assert (Hres : resources d' = (db_invites d, update_rows p (code_used now) (db_recovery d),
    db_auth_states d, db_ceremonies d)) by by destruct d.
  injection Hres as H1 H2 H3 H4. split.
  - unfold burns, keyed. rewrite H1, H4. split; [done|].
    intros []; simpl; rewrite ?H1, ?H2, ?H3, ?H4; try done. intros Hs.
    by apply (in_rewritten _ _ _ (fun r => rc_user_id r = user_id -> rc_code_hash r = code_hash -> rc_used_at r <> None)).
  - destruct (redeemable user h d) eqn:E; [|done]. intros _ _. unfold redeemable in E.
    apply existsb_exists in E as (c & Hc & Hp). simpl. rewrite H2. split.
    + intros Hs. unfold live_code in Hp. apply andb_true_iff in Hp as [[Hu Hn]%andb_true_iff Hh].
      apply bool_decide_eq_true in Hu. apply String.eqb_eq in Hh. apply (Hs c); auto. by destruct (rc_used_at c).
    + intros r (y & Hy & ->)%in_update_rows. destruct (p y) eqn:Hpy; [done|]. intros Hu Hh.
      unfold p, live_code in Hpy. rewrite Hu, Hh, String.eqb_refl, bool_decide_true in Hpy by done.
      by destruct (rc_used_at y).
Qed.

Lemma pending_consumes state :
  consumes (on_pool (E := AuthStateError) (update (fun _ => pending state) state_consumed)) (CState state) nonempty.
Proof.
  intros d. apply db_on_pool. intros now. apply tx_update_free; [intros _; by split|]. cbn [result_map_err g_now idle_guc].
  change (rows d) with (db_auth_states d). set (d' := set_rows _ d).
  assert (Hres : resources d' = (db_invites d, db_recovery d,
    update_rows (pending state) (state_consumed now) (db_auth_states d), db_ceremonies d)) by by destruct d.
  injection Hres as H1 H2 H3 H4. split.
  - unfold burns, keyed. rewrite H1, H4. split; [done|].
    intros []; simpl; rewrite ?H1, ?H2, ?H3, ?H4; try done. intros Hs.
    by apply (in_rewritten _ _ _ (fun a => as_state a = state0 -> as_consumed_at a <> None)).
  - destruct (List.filter (pending state) (db_auth_states d)) as [|a l] eqn:E; [done|]. cbn [map]. intros _ _.
    assert (Ha : In a (List.filter (pending state) (db_auth_states d))) by (rewrite E; by left).
    apply filter_In in Ha as [Ha [Hs Hn]%andb_true_iff]. apply String.eqb_eq in Hs. simpl. rewrite H3. split.
    + intros Hsp. apply (Hsp a); auto. by destruct (as_consumed_at a).
    + intros b (y & Hy & ->)%in_update_rows. destruct (pending state y) eqn:Hpy; [done|]. intros Hb.
      unfold pending in Hpy. rewrite Hb, String.eqb_refl in Hpy. by destruct (as_consumed_at y).
Qed.

Lemma close_ceremony_consumes id kind : consumes (close_ceremony id kind) (CCeremony id) (fun _ => true).
Proof.
  intros d. eapply db_mono; [apply close_ceremony_law|]. intros [c|e] d'; [|by intros ->].
  intros (now & Hin & Ho & ->). set (d' := closed_db id kind now d).
  assert (Hres : resources d' = (db_invites d, db_recovery d, db_auth_states d,
    List.filter (fun c => negb (opened id kind now c)) (db_ceremonies d))) by by destruct d.
  injection Hres as H1 H2 H3 H4.
  assert (Hid : cy_id c = id).
  { unfold opened in Ho. rewrite !andb_true_iff, !bool_decide_eq_true in Ho. tauto. }
  split.
  - unfold burns, keyed. rewrite H1, H4. split.
    + intros [Hk1 Hk2]. split; [done|]. by apply NoDup_map_filter.
    + intros []; simpl; rewrite ?H1, ?H2, ?H3, ?H4; try done. intros Hs x [Hx _]%filter_In. by apply Hs.
  - intros _ [_ Hk]. simpl. rewrite H4. split; [intros Hs; by apply (Hs c)|].
    intros x [Hx Hn]%filter_In Hxid. assert (x = c) as ->; [|by rewrite Ho in Hn].
    apply (NoDup_map_inj _ _ _ _ Hk); auto. congruence.
Qed.
End Using.

(** * Racers *)

#[export] Instance claim_eq_dec : EqDecision Claim.
Proof. solve_decision. Defined.

(** The end of a request, as what it used up. *)
Definition claiming {E A} (f : A -> Claim) (r : result E A) : result unit Claim :=
  match r with Ok a => Ok (f a) | Err _ => Err tt end.

Section Racers.
Context `{En : Env} `{WA : WebAuthn} `{CH : CodeHost} `{GH : GithubHost}.

Inductive Racer :=
| Accept (token : string) (user_id : Uuid) (user_email : string) (audit : AuditContext)
| Redeem (user : SessionUser) (rq : Request) (code : string)
| Assert (user : SessionUser) (rq : Request) (ceremony_id : Uuid) (credential : PublicKeyCredential)
| Callback (rq : Request) (code state : string).

(** A request, to what it claims. *)
Definition racer_task (r : Racer) : Task World unit Claim :=
  match r with
  | Accept token user email audit =>
      finally (claiming (fun i => CInvite (iv_id i))) (accept_invite_task token user email audit)
  | Redeem user rq code =>
      finally (claiming (fun _ => CCode (su_user_id user) (hash code))) (recovery_redeem_task user rq code)
  | Assert user rq id credential =>
      finally (claiming (fun _ => CCeremony id)) (assert_finish_task user rq id credential)
  | Callback rq code state => finally (claiming (fun _ => CState state)) (callback_task rq code state)
  end.

Definition keyed_in (w : World) : Prop := keyed (w_db w).
Definition spent_in (c : Claim) (w : World) : Prop := spent c (w_db w).

Section Claim.
Variable c : Claim.

(** A step that uses nothing up. *)
Lemma races_burn {E A} won (Q : bool -> result E A -> Prop) (m : M World E A) :
  preserves (over burns) m -> (forall r, Q won r) -> races keyed_in (spent_in c) won Q (atom m).
Proof.
  intros Hm HQ. apply races_atom. intros w Hw. specialize (Hm w). unfold wp in *.
  destruct (m w) as [r w']. destruct Hm as [H1 H2]. split; [by apply H1|]. split; [by apply H2|by left].
Qed.

(** A step that uses [c'] up where it succeeds. *)
Lemma races_use {E A} (Q : bool -> result E A -> Prop) (m : M World E A) c' (used : A -> bool) :
  consumes m c' used ->
  (forall r, match r with Ok a => used a = true -> c' <> c | Err _ => True end -> Q false r) ->
  (forall a, used a = true -> c' = c -> Q true (Ok a)) -> races keyed_in (spent_in c) false Q (atom m).
Proof.
  intros Hm H0 H1. apply races_atom. intros w Hw. destruct (db_run _ _ _ w (Hm (w_db w)) eq_refl) as [[Hk Hs] Hu].
  unfold wp. destruct (m w) as [r w']. cbn [fst snd] in *. split; [by apply Hk|]. split; [by apply Hs|].
  destruct r as [a|e]; [|left; by apply H0].
  destruct (used a) eqn:Ha; [|left; apply H0; congruence].
  destruct (decide (c' = c)) as [<-|Hne]; [|left; by apply H0].
  destruct (Hu eq_refl Hw). right. auto.
Qed.
End Claim.

(** An end that claims nothing, or a resource other than [c]. *)
Ltac claimed :=
  unfold fair, claiming;
  first [ by left | by right
        | right; intros [= Hc];
          match goal with H : _ -> _ <> _ |- _ => by apply H; [try done; by apply negb_false_iff|] end
        | idtac ].

(** Cut a request into its steps; [use] treats the ones that use something up. *)
Ltac race use :=
  cbv beta zeta; cbn [result_map_err];
  lazymatch goal with
  | |- forall _, _ => intro; race use
  | |- races _ _ _ _ (and_then _ _) => apply races_and_then; race use
  | |- races _ _ _ _ (finally _ _) => apply races_finally; race use
  | |- races _ _ _ _ (task_map_err _ _) => apply races_finally; race use
  | |- races _ _ _ _ (task_ignore _) => apply races_finally; race use
  | |- races _ _ _ _ (task_for_each _ _) => apply races_for_each; [race use|intro; race use]
  | |- races _ _ _ _ (Done _) => cbn [races]; race use
  | |- races _ _ _ _ (match ?x with _ => _ end) => destruct x eqn:?; race use
  | |- races _ _ _ _ (atom _) => first [use | apply races_burn; [first [by auto with burning|by burn]|intros [?|?]; race use]]
  | |- fair _ _ _ => claimed
  | |- _ /\ _ => split; race use
  | |- _ => try done
  end.

(** The use of a resource, won or not. *)
Ltac race_use lem := eapply races_use; [eapply lem|intros [?|?] ?; race fail|intros ? ? ?; race fail].

Lemma racer_races c r : races keyed_in (spent_in c) false (fair c) (racer_task r).
Proof.
  destruct r; cbn [racer_task].
  - unfold accept_invite_task, mark_accepted_task. race ltac:(race_use accept_consumes).
  - unfold recovery_redeem_task, audit_event_task. race ltac:(race_use try_consume_consumes).
  - unfold assert_finish_task, finish_assertion_task, audit_event_task.
    race ltac:(race_use close_ceremony_consumes).
  - unfold callback_task, consume_task. race ltac:(race_use pending_consumes).
Qed.

Lemma racer_alone r w : alone (racer_task r) w =
  match r with
  | Accept token user_id user_email audit =>
      let '(a, w') := accept_invite token user_id user_email audit w in (claiming (fun i => CInvite (iv_id i)) a, w')
  | Redeem user rq code =>
      let '(a, w') := recovery_redeem user rq code w in (claiming (fun _ => CCode (su_user_id user) (hash code)) a, w')
  | Assert user rq id credential =>
      let '(a, w') := assert_finish user rq id credential w in (claiming (fun _ => CCeremony id) a, w')
  | Callback rq code state =>
      let '(a, w') := callback rq code state w in (claiming (fun _ => CState state) a, w')
  end.
Proof.
  destruct r; cbn [racer_task]; rewrite alone_finally;
    rewrite ?accept_invite_alone, ?recovery_redeem_alone, ?assert_finish_alone, ?callback_alone;
    match goal with |- context [let '(_, _) := ?x in _] => by destruct x end.
Qed.

(** The primary keys are among what the schema declares. *)
Lemma distinct_keys {R} `{!Table R} {K} (key : R -> K) (l : list R) :
  (forall a b, key a = key b -> row_conflict a b = true) -> distinct l -> NoDup (map key l).
Proof.
  intros Hk. induction 1 as [|a l Ha _ IH]; [constructor|]. cbn [map]. constructor; [|done].
  intros (b & Hb & Hin)%list_elem_of_In%in_map_iff. rewrite List.Forall_forall in Ha.
  specialize (Ha b Hin). by rewrite Hk in Ha.
Qed.
Lemma wf_keyed d : wf d -> keyed d.
Proof.
  intros [_ _ _ _ _ _ _ _ _ _ [_ Hi] _ _ _ _ _ [_ Hc] _ _ _]. split.
  - apply (distinct_keys iv_id); [|done]. intros a b H. cbn. by rewrite bool_decide_true.
  - apply (distinct_keys cy_id); [|done]. intros a b H. cbn. by rewrite bool_decide_true.
Qed.
End Racers.

Section Properties.
Context `{En : Env} `{WA : WebAuthn} `{CH : CodeHost} `{GH : GithubHost}.

(** C8: However the handlers that accept invitations, redeem recovery codes, finish
    assertions and end log-ins interleave, an invitation, a code, a ceremony or a
    pending log-in that one of them ended with was not used up before, is used up
    afterwards, and no other request ended with it. *)
Theorem used_once racers schedule w p i c : wf (w_db w) ->
  interleave schedule (map racer_task racers, w) = p -> p.1 !! i = Some (Done (Ok c)) ->
  ~ spent c (w_db w) /\ spent c (w_db p.2) /\ forall j, p.1 !! j = Some (Done (Ok c)) -> i = j.
Proof.
  intros Hwf Hp Hi. destruct p as [ts' w']. cbn [fst snd] in *.
  assert (Hr : forall i t, map racer_task racers !! i = Some t -> races keyed_in (spent_in c) false (fair c) t).
  { intros k t. change (map racer_task racers) with (racer_task <$> racers).
    rewrite list_lookup_fmap. intros (r & _ & ->)%fmap_Some. apply racer_races. }
  split; [|exact (at_most_one keyed_in (spent_in c) c schedule _ ts' w w' i (wf_keyed _ Hwf) Hr Hp Hi)].
  intros Hs. exact (none_of_spent keyed_in (spent_in c) c schedule _ ts' w w' i (wf_keyed _ Hwf) Hs Hr Hp Hi).
Qed.
End Properties.

(** * Pairs of requests that meet *)

(** Cy (7) is invited by Ada (5), who logged in partially and has a passkey, an unused
    code and an open ceremony; somebody started to log in. *)
Definition race_root : Env := demo_env_as true.
Definition race_db : DB :=
  let 'mkDB a b c d e f g h i j k _ _ _ n m o _ _ p := demo_members in
  mkDB a b c d e f g h i j k [mkSession 3%N 5%N 10 10 (10 + SESSION_TTL) None false]
    [mkPasskey 80%N 5%N "key-a" "key-a" 3 "YubiKey" 20 None None]
    [mkRecovery 81%N 5%N (@hash race_root demo_codes "0123456789") 20 None] n m o
    [mkCeremony 82%N 5%N Assertion "key-a" 100000]
    [mkAuthState "st" "nonce" "verifier" PROVIDER_GITHUB None 20 100000 None] p.
Definition race_world : World (H := race_root) := demo_world_as true race_db.

(** Two requests for each, in lockstep. *)
Definition race_pairs : list (@Racer demo_webauthn) :=
  [ Accept "kinv_cy" 7%N "cy@x.org" demo_audit; Accept "kinv_cy" 7%N "cy@x.org" demo_audit;
    Redeem ada plain_request "01234-56789"; Redeem ada plain_request "0123456789";
    @Assert demo_webauthn ada plain_request 82%N ("key-a", 4); @Assert demo_webauthn ada plain_request 82%N ("key-a", 4);
    Callback plain_request "code" "st"; Callback plain_request "code" "st" ]%string.
Definition lockstep (n : nat) : list nat := concat (replicate n (seq 0 8)).

Definition race_pool :=
  interleave (lockstep 30) (map (@racer_task race_root demo_webauthn demo_codes demo_github) race_pairs, race_world).
Definition ended {S E A} (t : Task S E A) : option (result E A) :=
  match t with Done r => Some r | Await _ => None end.

Lemma race_wf : @wf race_root race_db.
Proof. constructor; try constructor; apply table_okb_sound; vm_compute; reflexivity. Qed.
Lemma race_ends_eq : map ended race_pool.1 =
  [Some (Ok (CInvite 70%N)); Some (Err tt); Some (Ok (CCode 5%N "#0123456789")); Some (Err tt);
   Some (Ok (CCeremony 82%N)); Some (Err tt); Some (Ok (CState "st")); Some (Err tt)]%string.
Proof. vm_compute. reflexivity. Qed.
Lemma ended_at {S E A} (l : list (Task S E A)) i r :
  map ended l !! i = Some (Some r) -> l !! i = Some (Done r).
Proof.
  change (map ended l) with (ended <$> l). rewrite list_lookup_fmap.
  destruct (l !! i) as [[|]|]; [|done|done]. by intros [= ->].
Qed.

Lemma race_pool_eq :
  interleave (lockstep 30) (map (@racer_task race_root demo_webauthn demo_codes demo_github) race_pairs, race_world)
  = race_pool.
Proof. unfold race_pool. reflexivity. Qed.

(** Of each pair, one request wins. *)
Lemma used_once_witness :
  map ended race_pool.1 =
    [Some (Ok (CInvite 70%N)); Some (Err tt); Some (Ok (CCode 5%N "#0123456789")); Some (Err tt);
     Some (Ok (CCeremony 82%N)); Some (Err tt); Some (Ok (CState "st")); Some (Err tt)]%string /\
  spent (CInvite 70%N) (w_db race_pool.2) /\ ~ spent (CInvite 70%N) race_db.
Proof.
  assert (Hi : race_pool.1 !! 0%nat = Some (Done (Ok (CInvite 70%N)))).
  { apply ended_at. rewrite race_ends_eq. reflexivity. }
  destruct (@used_once race_root demo_webauthn demo_codes demo_github race_pairs (lockstep 30) race_world race_pool
    0%nat (CInvite 70%N) race_wf race_pool_eq Hi) as (Hn & Hs & _).
  split; [exact race_ends_eq|]. split; [exact Hs|exact Hn].
Defined.
