(* ===== verification/System.v ===== *)
(** The whole API process as a transition system: the router
    ([crates/api/src/main.rs]) sends a request to its handler, a spawned run
    starts at some later point, an agent's heartbeat arrives, time passes.  The
    tables stay well-formed and the audit log only grows, from any state of any
    execution. *)

From stdpp Require Import base gmap strings list relations.
From S2P Require Import Prelude Errors Integrations Events Schema Database Tables Secrets Safety.
From S2P Require Import Cluster Addons Workflows Runner Runs Credentials Membership Sessions Access.
From S2P Require Import RateLimit Api ClusterRoutes Stripe Billing TeamRoutes Metrics AgentTunnel.
From S2P Require Import Account Passkeys MfaRoutes Login Integrity.

(** * Every operation keeps the tables well-formed *)

Create HintDb ops.
#[export] Hint Unfold insert_cluster get_cluster set_kubeconfig_secret kubeconfig_secret
  update_status update_worker_count soft_delete list_clusters record_server to_inet list_servers
  soft_delete_servers require_some_row create store_kubeconfig fetch_kubeconfig begin_destroy
  finalize_destroy mark_destroy_failed : ops.
#[export] Hint Unfold upsert list_for_cluster update_addon_status get_by_id request_install : ops.
#[export] Hint Unfold insert_credential list_credentials get_credential soft_delete_credential
  create_credential delete_credential : ops.
#[export] Hint Unfold list_memberships role_of insert_membership update_membership_role
  soft_delete_membership insert_invite list_invites get_by_hash mark_accepted revoke platform
  require_member_management create_invite list_pending_invites revoke_invite accept_invite
  list_members update_role remove_member : ops.
#[export] Hint Unfold issue_with issue issue_partial_mfa user_requires_partial_session live_rows
  mfa_state mark_mfa_satisfied revoke_session bump_activity resolve issue_for_login : ops.
#[export] Hint Unfold set_tenant update_keys reject_on resolve_organization set_key_bypass select_bypassed resolve_api_key
  authentication_required cookie_session dev_header_actor extract_actor extract_session_user
  mfa_gate extract_owner list_api_keys key_expiry create_api_key revoke_api_key : ops.
#[export] Hint Unfold get_billing org_for_customer set_stripe_customer update_plan append_event
  recent_events platform_err billing_state start_checkout apply_checkout_completion
  apply_subscription_cancelled record_event billing_to_api state_route start_checkout_route
  required dispatch webhook : ops.
#[export] Hint Unfold invite_to_api create_invite_route list_invites_route revoke_invite_route
  list_members_route update_role_route remove_member_route lookup_user_email accept_invite_route
  org_mismatch get_org update_org create_credential_route list_credentials_route
  remove_credential_route list_audit_log : ops.
#[export] Hint Unfold no_user me update_me end_cookie_session logout : ops.
#[export] Hint Unfold set_enrolled insert_passkey list_live find_by_credential_id record_use
  revoke_passkey insert_code rotate_batch try_consume count_live draw push_char generate_one
  generate_batch put_ceremony take serde rejecting open_ceremony close_ceremony start_registration
  finish_registration start_assertion finish_assertion deserialize_passkey : ops.
#[export] Hint Unfold require_ceremonies webauthn audit_passkey_event_for_actor
  audit_passkey_event_for_user audit_passkey_event_for_user_with_decision passkey_user_email
  register_start register_finish assert_start promote assert_finish list_passkeys
  revoke_passkey_route recovery_regenerate recovery_redeem : ops.
#[export] Hint Unfold store replay_or_missing consume upsert_identity exchange_code fetch_profile
  random_url_safe login_start callback issue_session : ops.
#[export] Hint Unfold with_owner with_actor with_session_user create_route create_fresh
  lookup_idempotency store_idempotency read_route list_route destroy_route download_kubeconfig
  record_kubeconfig_audit install_addon_route stage_kubeconfig list_addons uninstall_addon
  scale_workers stream_events : ops.
#[export] Hint Unfold spawn_provision spawn_destroy spawn_install_addon spawn_uninstall_addon
  spawn_scale_out spawn_scale_in spawn_scale : ops.
#[export] Hint Unfold wall_clock_ms resolve_cluster send_ack : ops.
#[export] Hint Unfold anyhow cast_step insert_workflow_row finalize_workflow_row update_step
  workflow_step settle_failed write_file record run_provision run_destroy run_install_addon
  run_uninstall_addon run_scale_out soft_delete_removed run_scale_in : ops.

Ltac evo_op := intros; autounfold with ops; evo.

(** ** Background runs *)

Section Runs.
Context `{En : Env, Ex : Externals} `{St : !SecretStore} `{HSt : !SoundStore St}.

Lemma evolved_call c w : evolved w (add_call c w).
Proof. apply evolved_same. by destruct w. Qed.

Lemma publish_evolved {E} c e w : evolved w (publish (E := E) c e w).2.
Proof. apply evolved_same. by destruct w. Qed.

#[export] Instance noop_respected : Respected (Sink := NoopProgress) evolved.
Proof. split; intros; apply evolved_call. Qed.
#[export] Instance hub_respected id : Respected (Sink := HubOnlyProgress id) evolved.
Proof. split; intros; [apply evolved_call|]. etrans; [apply evolved_call|apply publish_evolved]. Qed.

Lemma workflow_step_evolving org wf id s : evolving (workflow_step org wf id s).
Proof. evo_op. Qed.
#[export] Instance workflow_respected org wf id :
  Respected (Sink := WorkflowProgress org wf id) evolved.
Proof.
  split; [intros c w _; apply evolved_call|]. intros s w. etrans; [apply evolved_call|].
  pose proof (workflow_step_evolving org wf id s (add_call (CStep s) w)) as H.
  unfold wp in H. cbn [progress_step WorkflowProgress]. by destruct (workflow_step _ _ _ _ _).
Qed.

#[local] Hint Extern 1 (evolving (provision_cluster _)) => apply provision_respects; apply _ : evolving.
#[local] Hint Extern 1 (evolving (destroy_cluster _)) => apply destroy_respects; apply _ : evolving.
#[local] Hint Extern 1 (evolving (install_addon _ _)) => apply install_respects; apply _ : evolving.
#[local] Hint Extern 1 (evolving (scale_out _)) => apply scale_out_respects; apply _ : evolving.
#[local] Hint Extern 1 (evolving (scale_in _ _)) => apply scale_in_respects; apply _ : evolving.

Lemma run_job_evolving j : evolving (run_job j).
Proof. destruct j; cbn [run_job]; evo_op. Qed.
End Runs.

(** * The router *)

(** The requests [main.rs] routes, with what is read from path, query and body;
    the metrics routes touch no table. *)
Inductive Endpoint `{WA : WebAuthn} :=
| PostCluster (body : string)
| GetClusters
| GetCluster (id : Uuid)
| DeleteCluster (id : Uuid)
| GetKubeconfig (id : Uuid)
| PostAddon (id : Uuid) (req : InstallAddonRequest)
| GetAddons (id : Uuid)
| DeleteAddon (id addon_id : Uuid)
| PostWorkers (id : Uuid) (delta : Z)
| GetEvents (id : Uuid)
| PostCredential (alias token : string)
| GetCredentials
| DeleteCredential (id : Uuid)
| GetOrg (org_id : Uuid)
| PatchOrg (org_id : Uuid) (display_name : string)
| GetMembers (org_id : Uuid)
| PatchMember (org_id user_id : Uuid) (role : MembershipRole)
| DeleteMember (org_id user_id : Uuid)
| PostInvite (org_id : Uuid) (email : string) (role : MembershipRole)
| GetInvites (org_id : Uuid)
| DeleteInvite (org_id id : Uuid)
| PostAcceptInvite (token : string)
| GetBilling (org_id : Uuid)
| PostCheckout (plan : BillingPlan)
| PostWebhook (body : string)
| GetAuditLog (org_id : Uuid) (before : option Uuid) (limit : option Z)
| GetApiKeys
| PostApiKey (name : string) (expires_in_days : option Z)
| DeleteApiKey (id : Uuid)
| GetMe
| PatchMe (display_name : string)
| PostLogout
| GetLogin (redirect_to : option string)
| GetCallback (code state : string)
| PostRegisterStart (nickname : string)
| PostRegisterFinish (ceremony_id : Uuid) (register : RegisterPublicKeyCredential)
| PostAssertStart
| PostAssertFinish (ceremony_id : Uuid) (credential : PublicKeyCredential)
| GetPasskeys
| DeletePasskey (id : Uuid)
| PostRegenerate
| PostRedeem (code : string).

Section Router.
Context `{En : Env, Ex : Externals} `{St : !SecretStore} `{Ho : Host} `{SH : StripeHost} `{AH : AgentHost}.
Context `{WA : WebAuthn} `{CH : CodeHost} `{GH : GithubHost}.

(** The body of the answer is dropped. *)
Definition answered {E A} (m : M App E A) : M App E unit := m ;;; ret tt.

Definition serve (rq : Request) (e : Endpoint) : M App HandlerError unit :=
  match e with
  | PostCluster body => answered (with_owner rq (fun o => create_route o rq body))
  | GetClusters => answered (with_actor rq list_route)
  | GetCluster id => answered (with_actor rq (fun a => read_route a id))
  | DeleteCluster id => answered (with_owner rq (fun o => destroy_route o id))
  | GetKubeconfig id => answered (with_actor rq (fun a => download_kubeconfig a rq id))
  | PostAddon id req => answered (with_owner rq (fun o => install_addon_route o rq id req))
  | GetAddons id => answered (with_actor rq (fun a => list_addons a id))
  | DeleteAddon id addon => answered (with_owner rq (fun o => uninstall_addon o rq id addon))
  | PostWorkers id delta => answered (with_owner rq (fun o => scale_workers o rq id delta))
  | GetEvents id => answered (with_actor rq (fun a => stream_events a id))
  | PostCredential alias token =>
      answered (with_owner rq (fun o => in_world (create_credential_route o rq alias token)))
  | GetCredentials => answered (with_actor rq (fun a => in_world (list_credentials_route a)))
  | DeleteCredential id => answered (with_owner rq (fun o => in_world (remove_credential_route o rq id)))
  | GetOrg org => answered (with_actor rq (fun a => in_world (get_org a org)))
  | PatchOrg org name => answered (with_owner rq (fun o => in_world (update_org o org name)))
  | GetMembers org => answered (with_actor rq (fun a => in_world (list_members_route a org)))
  | PatchMember org user role =>
      answered (with_owner rq (fun o => in_world (update_role_route o rq org user role)))
  | DeleteMember org user => answered (with_owner rq (fun o => in_world (remove_member_route o rq org user)))
  | PostInvite org email role =>
      answered (with_owner rq (fun o => in_world (create_invite_route o rq org email role)))
  | GetInvites org => answered (with_actor rq (fun a => in_world (list_invites_route a org)))
  | DeleteInvite org id => answered (with_owner rq (fun o => in_world (revoke_invite_route o rq org id)))
  | PostAcceptInvite token =>
      answered (with_session_user rq (fun u => in_world (accept_invite_route u rq token)))
  | GetBilling org => answered (with_actor rq (fun a => in_world (state_route a org)))
  | PostCheckout plan => answered (with_owner rq (fun o => in_world (start_checkout_route o plan)))
  | PostWebhook body => answered (map_err Failing (in_world (webhook rq body)))
  | GetAuditLog org before limit =>
      answered (with_owner rq (fun o => in_world (list_audit_log o org before limit)))
  | GetApiKeys => answered (with_actor rq (fun a => in_world (list_api_keys a)))
  | PostApiKey name days => answered (with_actor rq (fun a => in_world (create_api_key a name days)))
  | DeleteApiKey id => answered (with_actor rq (fun a => in_world (revoke_api_key a id)))
  | GetMe => answered (with_actor rq (fun a => in_world (me a)))
  | PatchMe name => answered (with_actor rq (fun a => in_world (update_me a name)))
  | PostLogout => answered (map_err Failing (in_world (logout rq)))
  | GetLogin redirect_to => answered (map_err Failing (in_world (login_start redirect_to)))
  | GetCallback code state => answered (map_err Failing (in_world (callback rq code state)))
  | PostRegisterStart nickname => answered (with_actor rq (fun a => register_start a nickname))
  | PostRegisterFinish id register => answered (with_actor rq (fun a => register_finish a rq id register))
  | PostAssertStart => answered (with_session_user rq (fun u => in_world (assert_start u)))
  | PostAssertFinish id credential =>
      answered (with_session_user rq (fun u => in_world (assert_finish u rq id credential)))
  | GetPasskeys => answered (with_actor rq (fun a => in_world (list_passkeys a)))
  | DeletePasskey id => answered (with_actor rq (fun a => in_world (revoke_passkey_route a rq id)))
  | PostRegenerate => answered (with_actor rq (fun a => in_world (recovery_regenerate a rq)))
  | PostRedeem code => answered (with_session_user rq (fun u => in_world (recovery_redeem u rq code)))
  end.

(** One event of the process: a request is served, a spawned run is executed,
    an agent's stream is read, time passes. *)
Inductive event : App -> App -> Prop :=
| event_request rq e a : event a (serve rq e a).2
| event_run pre j post a :
    ap_jobs a = pre ++ j :: post ->
    event a (in_world (run_job j) (mkApp (ap_world a) (ap_limiter a) (pre ++ post) (ap_nicknames a))).2
| event_agent inbound s a : event a (in_world (E := unit) (open_stream inbound s) a).2
| event_wait a : event a (set_world (tick (ap_world a)) a).
End Router.

(** * Every execution keeps the tables *)

Section Executions.
Context `{En : Env, Ex : Externals} `{St : !SecretStore} `{HSt : !SoundStore St}.
Context `{Ho : Host} `{SH : StripeHost} `{AH : AgentHost}.
Context `{WA : WebAuthn} `{CH : CodeHost} `{GH : GithubHost}.

(** The statement checks the new count itself. *)
Lemma worker_count_steady n :
  steady (fun _ c => if (1 <=? cl_worker_count c) && (cl_worker_count c <=? 50) then None else Some DbCheck)
    (fun _ => with_worker_count n).
Proof.
  split; [done|by intros now r b|]. intros now d old r. cbn.
  destruct (1 <=? n), (n <=? 50); try done.
  destruct (1 <=? cl_control_plane_count r); [|done]. cbn [andb].
  by destruct ((1 <=? cl_worker_count r) && _).
Qed.

Lemma spawn_same {E} j : preserves app_evolved (spawn (E := E) j).
Proof. by apply app_same. Qed.
Lemma check_limit_same {E} key : preserves app_evolved (check_limit (E := E) key).
Proof.
  apply app_same. intros a. unfold check_limit. destruct (check_at _ _ _ _); by destruct a as [[]].
Qed.

Lemma stash_same {E} id nickname : preserves app_evolved (stash_nickname (E := E) id nickname).
Proof. by apply app_same. Qed.
Lemma unstash_same {E} id : preserves app_evolved (unstash_nickname (E := E) id).
Proof. by apply app_same. Qed.

Lemma serve_evolving rq e : preserves app_evolved (serve rq e).
Proof.
  destruct e; unfold serve, answered; autounfold with ops; evo;
    auto using spawn_same, check_limit_same, worker_count_steady, stash_same, unstash_same.
Qed.

(** The agent's statement writes two columns outside every constraint. *)
Lemma touched_evolves t g id version d : evolves d (touched_db t g id version d).
Proof.
  apply after_rows_evolves. unfold update_rows.
  set (h := fun c => if live_cluster id c then _ else c).
  pose proof (wf_map_rows (R := Cluster) h d) as H. apply H; unfold h; intros *;
    intros; by repeat destruct (live_cluster id _).
Qed.
Lemma touch_agent_evolving id version : evolving (touch_agent_heartbeat id version).
Proof.
  apply evolving_on_pool, evolving_stmt. intros w. cbv beta zeta.
  pose proof (touched_evolves (w_tick w) (w_guc w) id version (w_db w)) as H.
  destruct (map _ _) eqn:E; [done|]. rewrite <- E. by destruct w.
Qed.

Lemma open_stream_evolving {E} inbound s : evolving (open_stream inbound s : M World E Stream).
Proof.
  revert s. induction inbound as [|[[[cluster version|org bytes|]|]|] rest IH]; intros s; cbn [open_stream];
    try apply IH; try (apply preserves_ret; apply _).
  pose proof touch_agent_evolving. autounfold with ops. evo; auto.
Qed.

Lemma event_evolves a a' : event a a' -> app_evolved a a'.
Proof.
  intros [rq e b|pre j post b Hj|inbound s b|b].
  - apply (serve_evolving rq e).
  - pose proof (evolving_in_world _ (run_job_evolving j) (mkApp (ap_world b) (ap_limiter b) (pre ++ post) (ap_nicknames b))) as H.
    exact H.
  - apply (evolving_in_world _ (open_stream_evolving inbound s) b).
  - unfold app_evolved. by destruct b as [[]].
Qed.
Lemma execution_evolves a a' : rtc event a a' -> app_evolved a a'.
Proof.
  induction 1 as [a|a b c Hab _ IH]; [reflexivity|].
  etrans; [by apply event_evolves|exact IH].
Qed.

End Executions.

(** * A concrete execution *)

(** Ada owns organisation 1 and is signed in; the superuser's role sees the
    memberships. *)
Definition demo_root : Env := demo_env_as true.
Definition session_db : DB :=
  let 'mkDB a b c d e f g h _ _ k _ m n o p q t u v := demo_db in
  mkDB a b c d e f g h [mkUser 5%N "ada@x.org" "Ada" true true]
    [mkMembership 50%N 1%N 5%N Owner 10 None 1] k
    [mkSession 3%N 5%N 10 10 (10 + SESSION_TTL) None true] m n o p q t u v.
Definition session_app : @App demo_root :=
  @mkApp demo_root (demo_world_as true session_db) (rate_limiter_new 5 60) [] ∅.
Lemma session_wf : @wf demo_root (ap_db session_app).
Proof. constructor; try constructor; apply table_okb_sound; vm_compute; reflexivity. Qed.

Definition root_store : @SecretStore demo_root := @pgcrypto_store demo_root "kek".
Definition ada_request : Request := headers [("cookie", "kubinate_session=3")]%string.
Definition served (e : Endpoint) (a : @App demo_root) : @App demo_root :=
  (@serve demo_root root_store demo_host demo_stripe demo_webauthn demo_codes demo_github ada_request e a).2.
(** The oldest run that was spawned. *)
Definition ran (a : @App demo_root) : @App demo_root :=
  match ap_jobs a with
  | j :: post => (@in_world demo_root _ _ (@run_job demo_root calm_externals root_store j)
                    (@mkApp demo_root (ap_world a) (ap_limiter a) post (ap_nicknames a))).2
  | [] => a
  end.

Definition root_event : relation (@App demo_root) :=
  @event demo_root calm_externals root_store demo_host demo_stripe demo_agent demo_webauthn demo_codes demo_github.
Lemma served_event e a : root_event a (served e a).
Proof. exact (@event_request demo_root calm_externals root_store demo_host demo_stripe demo_agent
    demo_webauthn demo_codes demo_github _ e a). Qed.
Lemma ran_event a : ap_jobs a <> [] -> root_event a (ran a).
Proof.
  unfold ran. destruct (ap_jobs a) as [|j post] eqn:Hj; [done|]. intros _.
  exact (@event_run demo_root calm_externals root_store demo_host demo_stripe demo_agent
    demo_webauthn demo_codes demo_github [] j post a Hj).
Qed.

