(* ===== verification/Races.v ===== *)
(** Handlers and background runs that meet: the change of a role, the creation of a
    cluster, its provisioning and its destruction as tasks.  Whatever interleaves, the
    tables stay well-formed and the audit log grows; what the code checks before it
    acts can be false when it acts, and the last section shows where. *)

From stdpp Require Import base gmap strings list.
From S2P Require Import Prelude Errors Integrations Events Schema Database Tables Secrets Safety.
From S2P Require Import Cluster Workflows Runner Runs Credentials Membership Sessions Access.
From S2P Require Import RateLimit Api ClusterRoutes CreateRoute Account Passkeys MfaRoutes Login Integrity System.
From S2P Require Import Tasks SingleUse.

(** * The handlers and runs as tasks *)

Module RaceTasks.
Section RaceTasks.
Context `{En : Env, Ex : Externals} `{St : !SecretStore} `{Ho : Host}.

(** [service.rs: MembershipService::update_role] *)
Definition update_role_task (organization_id target_user_id : Uuid) (new_role : MembershipRole)
    (actor_user_id : Uuid) (audit : AuditContext) : Task World InviteError unit :=
  atom (require_member_management organization_id actor_user_id) ~;;
  (if is_owner new_role then Done (Ok tt)
   else
     current <~ atom (platform (role_of organization_id target_user_id)) ;;
     match current with
     | Some Owner =>
         members <~ atom (platform (list_memberships organization_id)) ;;
         if (length (List.filter (fun m => is_owner (mv_role m)) members) <=? 1)%nat
         then Done (Err (InviteForbidden "cannot demote the last owner of the organization"))
         else Done (Ok tt)
     | _ => Done (Ok tt)
     end) ~;;
  atom (platform (update_membership_role organization_id target_user_id new_role audit)).

(** [clusters.rs: create] *)
Definition create_fresh_task (actor : Actor) (rq : Request) (req : CreateRequest)
    (idempotency_key : option string) (body_hash : string) : Task App PlatformError Response :=
  let org := ac_organization_id actor in
  cluster <~ atom (in_world (create org (new_cluster_of req) (from_actor_and_headers actor rq))) ;;
  credential <~ atom (in_world (get_credential org (cr_credential_id req))) ;;
  atom (spawn_provision org (secret_ref credential) (provision_input cluster)) ~;;
  let response_body := view_json (view_of cluster) in
  match idempotency_key with
  | Some key => atom (in_world (store_idempotency org key body_hash 202 response_body))
  | None => Done (Ok tt)
  end ~;;
  Done (Ok (mkResponse 202 response_body)).

Definition create_route_task (owner : OwnerActor) (rq : Request) (body : string)
  : Task App PlatformError Response :=
  let actor := ow_inner owner in
  req <~ Done (parse_body body) ;;
  let body_hash := sha256 body in
  let idempotency_key := rq_header rq IDEMPOTENCY_HEADER in
  cached <~ match idempotency_key with
            | Some key => atom (in_world (lookup_idempotency (ac_organization_id actor) key body_hash))
            | None => Done (Ok None)
            end ;;
  match cached with
  | Some c => Done (Ok (mkResponse (cached_status (rs_status c)) (rs_body c)))
  | None => create_fresh_task actor rq req idempotency_key body_hash
  end.

(** [cluster service.rs: store_kubeconfig, begin_destroy, finalize_destroy] *)
Definition store_kubeconfig_task (organization_id cluster_id : Uuid) (kubeconfig : string)
    (audit : AuditContext) : Task World PlatformError unit :=
  secret_ref <~ atom (map_err Secret (put organization_id kubeconfig)) ;;
  r <~ task_attempt (atom (set_kubeconfig_secret organization_id cluster_id (sr_id secret_ref) audit)) ;;
  match r with
  | Ok tt => Done (Ok tt)
  | Err err => task_ignore (atom (delete_secret secret_ref)) ~;; Done (Err err)
  end.
Definition begin_destroy_task (organization_id cluster_id : Uuid) (audit : AuditContext)
  : Task World PlatformError Cluster :=
  cluster <~ atom (get_cluster organization_id cluster_id) ;;
  if bool_decide (cl_status cluster = Destroyed)
  then Done (Err (Conflict "cluster is already destroyed"))
  else atom (update_status organization_id cluster_id Destroying None audit) ~;; Done (Ok cluster).
Definition finalize_destroy_task (organization_id cluster_id : Uuid) (audit : AuditContext)
  : Task World PlatformError unit :=
  secret_id <~ atom (kubeconfig_secret organization_id cluster_id) ;;
  match secret_id with
  | Some id => task_ignore (atom (delete_secret (mkSecretRef id organization_id)))
  | None => Done (Ok tt)
  end ~;;
  atom (soft_delete organization_id cluster_id audit) ~;;
  atom (update_status organization_id cluster_id Destroyed None audit).

(** [runner.rs: run_provision, run_destroy]; the cloud's part of a run is one step. *)
Definition run_provision_task (organization_id : Uuid) (input : ProvisionClusterInput)
  : Task World AnyhowError unit :=
  workflow_row <~ atom now_v7 ;;
  let audit := runner_audit workflow_row "runner/provision" in
  let cluster_id := pi_cluster_id input in
  task_map_err APlatform (atom (update_status organization_id cluster_id Provisioning None audit)) ~;;
  atom (insert_workflow_row workflow_row organization_id cluster_id) ~;;
  r <~ task_attempt
         (atom (provision_cluster (Sink := WorkflowProgress organization_id workflow_row cluster_id) input)) ;;
  match r with
  | Ok output =>
      atom (record organization_id cluster_id ControlPlane audit (po_control_plane output)) ~;;
      task_for_each (fun s => atom (record organization_id cluster_id Worker audit s)) (po_workers output) ~;;
      task_map_err APlatform (store_kubeconfig_task organization_id cluster_id (po_kubeconfig output) audit) ~;;
      task_map_err APlatform (atom (update_status organization_id cluster_id Ready None audit)) ~;;
      atom (finalize_workflow_row workflow_row "done" None) ~;;
      atom (publish_terminal cluster_id Ready None)
  | Err err =>
      let reason := format_activity_reason err in
      task_ignore (atom (update_status organization_id cluster_id Failed (Some reason) audit)) ~;;
      task_ignore (atom (finalize_workflow_row workflow_row "failed" (Some reason))) ~;;
      atom (publish_terminal cluster_id Failed (Some reason)) ~;;
      Done (Err (AMsg ("provisioning failed: " +++ reason)))
  end.

Definition run_destroy_task (organization_id cluster_id : Uuid) : Task World AnyhowError unit :=
  workflow_row <~ atom now_v7 ;;
  let audit := runner_audit workflow_row "runner/destroy" in
  _cluster <~ task_map_err APlatform (begin_destroy_task organization_id cluster_id audit) ;;
  servers <~ task_map_err APlatform (atom (list_servers organization_id cluster_id)) ;;
  r <~ task_attempt (atom (destroy_cluster (Sink := HubOnlyProgress cluster_id) (map server_id_of servers))) ;;
  match r with
  | Err err =>
      let reason := format_activity_reason err in
      task_ignore (atom (mark_destroy_failed organization_id cluster_id reason audit)) ~;;
      atom (publish_terminal cluster_id Failed (Some reason)) ~;;
      Done (Err (AMsg ("destroy failed: " +++ reason)))
  | Ok tt =>
      task_map_err APlatform (atom (soft_delete_servers organization_id cluster_id audit)) ~;;
      task_map_err APlatform (finalize_destroy_task organization_id cluster_id audit) ~;;
      atom (publish_terminal cluster_id Destroyed None)
  end.
End RaceTasks.
End RaceTasks.
Export RaceTasks.

(** Alone, each is its handler or run. *)
Section Alone.
Context `{En : Env, Ex : Externals} `{St : !SecretStore} `{Ho : Host}.

Lemma update_role_alone org user role actor audit w :
  alone (update_role_task org user role actor audit) w = update_role org user role actor audit w.
Proof. unfold update_role_task, update_role. same_alone. Qed.
Lemma create_route_alone owner rq body a :
  alone (create_route_task owner rq body) a = create_route owner rq body a.
Proof.
  unfold create_route_task, create_fresh_task, create_route, create_fresh. same_alone.
Qed.
Lemma run_provision_alone org input w :
  alone (run_provision_task org input) w = run_provision org input w.
Proof. unfold run_provision_task, store_kubeconfig_task, run_provision, anyhow, store_kubeconfig. same_alone. Qed.
Lemma run_destroy_alone org cluster w : alone (run_destroy_task org cluster) w = run_destroy org cluster w.
Proof.
  unfold run_destroy_task, begin_destroy_task, finalize_destroy_task, run_destroy, anyhow, begin_destroy,
    finalize_destroy. same_alone.
Qed.
End Alone.

(** * Whatever interleaves *)

(** What the process has going on at once. *)
Inductive Errand `{WA : WebAuthn} :=
| Claiming (r : Racer)
| Demoting (org target : Uuid) (role : MembershipRole) (actor : Uuid) (audit : AuditContext)
| Creating (owner : OwnerActor) (rq : Request) (body : string)
| Provisioning_run (org : Uuid) (input : ProvisionClusterInput)
| Destroying_run (org cluster : Uuid).

Section Errands.
Context `{En : Env, Ex : Externals} `{St : !SecretStore} `{HSt : !SoundStore St} `{Ho : Host}.
Context `{WA : WebAuthn} `{CH : CodeHost} `{GH : GithubHost}.

(** Only its steps matter here: its end is dropped. *)
Definition errand_task (e : Errand) : Task App unit unit :=
  match e with
  | Claiming r => task_ignore (focus ap_world set_world (racer_task r))
  | Demoting org target role actor audit =>
      task_ignore (focus ap_world set_world (update_role_task org target role actor audit))
  | Creating owner rq body => task_ignore (create_route_task owner rq body)
  | Provisioning_run org input => task_ignore (focus ap_world set_world (run_provision_task org input))
  | Destroying_run org cluster => task_ignore (focus ap_world set_world (run_destroy_task org cluster))
  end.

Lemma preserves_steps {S} (R : S -> S -> Prop) {E A} (m : M S E A) : preserves R m -> forall s, R s (m s).2.
Proof. intros H s. specialize (H s). unfold wp in H. by destruct (m s). Qed.

Ltac evolving_step := apply preserves_steps; autounfold with ops; evo; auto using spawn_same.

Lemma racer_each r : each evolved (racer_task r).
Proof.
  destruct r; cbn [racer_task].
  - unfold accept_invite_task, mark_accepted_task. every evolving_step.
  - unfold recovery_redeem_task, audit_event_task. every evolving_step.
  - unfold assert_finish_task, finish_assertion_task, audit_event_task. every evolving_step.
  - unfold callback_task, consume_task. every evolving_step.
Qed.

#[local] Hint Extern 1 (evolving (provision_cluster _)) => apply provision_respects; apply _ : evolving.
#[local] Hint Extern 1 (evolving (destroy_cluster _)) => apply destroy_respects; apply _ : evolving.

Lemma update_role_each org target role actor audit : each evolved (update_role_task org target role actor audit).
Proof. unfold update_role_task. every evolving_step. Qed.
Lemma create_route_each owner rq body : each app_evolved (create_route_task owner rq body).
Proof. unfold create_route_task, create_fresh_task. every evolving_step. Qed.
Lemma run_provision_each org input : each evolved (run_provision_task org input).
Proof. unfold run_provision_task, store_kubeconfig_task. every evolving_step. Qed.
Lemma run_destroy_each org cluster : each evolved (run_destroy_task org cluster).
Proof.
  unfold run_destroy_task, begin_destroy_task, finalize_destroy_task. every evolving_step.
Qed.

Lemma focus_each {E A} (t : Task World E A) : each evolved t -> each app_evolved (focus ap_world set_world t).
Proof. apply each_focus. by intros a w H. Qed.

Lemma errand_each e : each app_evolved (errand_task e).
Proof.
  destruct e; apply each_finally;
    first [ apply focus_each; auto using racer_each, update_role_each, run_provision_each, run_destroy_each
          | apply create_route_each ].
Qed.

End Errands.

(** * Checks that no longer hold when the code acts *)

(** Ada and Bob own organisation 1. *)
Definition two_owners : DB :=
  let 'mkDB a b c d e f g h i _ k m n o p q t u v x := demo_members in
  mkDB a b c d e f g h i
    [mkMembership 60%N 1%N 5%N Owner 10 None 1; mkMembership 61%N 1%N 6%N Owner 11 None 1]
    k m n o p q t u v x.
Definition demotion (target actor : Uuid) : Task (@World demo_env) InviteError unit :=
  @update_role_task demo_env 1%N target Developer actor demo_audit.
Definition both_demoted (schedule : list nat) :=
  interleave schedule ([demotion 5%N 6%N; demotion 6%N 5%N], demo_world two_owners).
Definition in_turn (n : nat) : list nat := concat (replicate n [0; 1]%nat).
Definition one_by_one (n : nat) : list nat := replicate n 0%nat ++ replicate n 1%nat.

(** Each counts the other's ownership before either is gone: the organisation has no
    owner left.  One after the other, the second is refused. *)
Theorem demotions_meet :
  length (owners 1%N two_owners) = 2%nat /\
  map ended (both_demoted (in_turn 10)).1 = [Some (Ok tt); Some (Ok tt)] /\
  owners 1%N (w_db (both_demoted (in_turn 10)).2) = [] /\
  map ended (both_demoted (one_by_one 10)).1 =
    [Some (Ok tt); Some (Err (InviteForbidden "only owners and admins can manage members"))] /\
  length (owners 1%N (w_db (both_demoted (one_by_one 10)).2)) = 1%nat.
Proof. vm_compute. auto. Qed.

(** A request is sent again while the first is served. *)
Definition both_created (body body' : string) (schedule : list nat) :=
  interleave schedule
    ([@create_route_task demo_env demo_host demo_owner keyed_request body;
      @create_route_task demo_env demo_host demo_owner keyed_request body'], demo_app demo_db).

(** The duplicate is no replay: the record of the response comes after the run was
    spawned, and the name of the cluster is what refuses it. *)
Theorem creates_meet :
  map ended (both_created "api" "api" (one_by_one 10)).1 =
    [Some (Ok (mkResponse 202 "1004")); Some (Ok (mkResponse 202 "1004"))]%string /\
  map ended (both_created "api" "api" (in_turn 10)).1 =
    [Some (Ok (mkResponse 202 "1008")); Some (Err (Conflict "a cluster with this name already exists"))]%string.
Proof. vm_compute. auto. Qed.

(** Under another body the key is free as well: two clusters for one key. *)
Theorem key_shared :
  map ended (both_created "api" "web2" (one_by_one 10)).1 =
    [Some (Ok (mkResponse 202 "1004"));
     Some (Err (Conflict "Idempotency-Key reused with a different request body"))]%string /\
  length (ap_jobs (both_created "api" "web2" (in_turn 10)).2) = 2%nat /\
  length (db_idempotency (ap_db (both_created "api" "web2" (in_turn 10)).2)) = 1%nat.
Proof. vm_compute. auto. Qed.

(** Cluster 31 is destroyed while its provisioning has created the servers and not yet
    recorded them. *)
Definition destroyed_amid (schedule : list nat) :=
  interleave schedule
    ([@run_provision_task demo_env calm_externals demo_store 2%N demo_input;
      @run_destroy_task demo_env calm_externals demo_store 2%N 31%N], demo_world demo_db).
Definition amid : list nat := (replicate 4 0 ++ replicate 15 1 ++ replicate 20 0)%nat.
Definition deletions (calls : list Call) : list Call :=
  List.filter (fun c => match c with CDelete _ _ => true | _ => false end) calls.
Definition servers_of (cluster : Uuid) (d : DB) : list Z :=
  map sv_hetzner_server_id (List.filter (live_server cluster) (db_servers d)).

(** The destruction succeeds and deletes nothing; the cluster is gone, its three
    servers run on and are recorded. *)
Theorem destruction_meets_provisioning :
  let p := destroyed_amid amid in
  map ended p.1 = [Some (Err (APlatform (Conflict "kubeconfig already set to a different secret"))); Some (Ok tt)] /\
  map (fun c => (cl_id c, cl_status c)) (db_clusters (w_db p.2)) = [(30%N, Ready); (31%N, Destroyed)] /\
  deletions (w_calls p.2) = [] /\ servers_of 31%N (w_db p.2) = [100; 101; 102] /\
  let q := destroyed_amid (replicate 30 0 ++ replicate 15 1)%nat in
  deletions (w_calls q.2) = [CDelete 100 (Ok tt); CDelete 101 (Ok tt); CDelete 102 (Ok tt)] /\
  servers_of 31%N (w_db q.2) = [].
Proof. vm_compute. auto 10. Qed.

(** Two creations, a provisioning with the destruction of its cluster, a demotion and a
    log-in in lockstep. *)
Definition race_errands : list (@Errand demo_webauthn) :=
  [ Creating demo_owner keyed_request "api"; Creating demo_owner keyed_request "web2";
    Provisioning_run 2%N demo_input; Destroying_run 2%N 31%N;
    Demoting 1%N 5%N Viewer 5%N demo_audit; Claiming (Callback plain_request "code" "st") ]%string.
Definition race_run :=
  interleave (concat (replicate 30 (seq 0 6)))
    (map (@errand_task demo_root calm_externals root_store demo_host demo_webauthn demo_codes demo_github) race_errands,
     session_app).
Lemma race_entries :
  map ended race_run.1 = replicate 6 (Some (Ok tt)) /\ length (ap_jobs race_run.2) = 2%nat /\
  (length (db_audit (ap_db session_app)), length (db_audit (ap_db race_run.2))) = (0, 6)%nat.
Proof. vm_compute. auto. Qed.

