(* ===== verification/Deadline.v ===== *)
(** What a deadline cuts off: the nightly harness behind its outer timeout
    ([crates/e2e/src/main.rs: main]) and requests behind the timeout layer of the API
    ([crates/api/src/main.rs]).  The task is dropped at one of its awaits; what it
    did before stays. *)

From stdpp Require Import base gmap strings list.
From S2P Require Import Prelude Tasks Errors Integrations Events Schema Database Tables Secrets Safety.
From S2P Require Import Cluster Credentials Workflows Runner Runs Membership RateLimit Api ClusterRoutes CreateRoute Billing.
From S2P Require Import Passkeys MfaRoutes Login SingleUse Races E2e.

(** * The harness as a task *)

Module HarnessTask.
Section HarnessTask.
Context `{En : Env, Ex : Externals} `{St : !SecretStore} `{HH : HarnessHost}.

Definition platform_task {A} (m : M World PlatformError A) : Task World HarnessError A :=
  task_map_err (fun e => HError (APlatform e)) (atom m).

(** [Setup::seed] *)
Definition seed_task (args : HarnessArgs) : Task World HarnessError Setup :=
  Done (result_map_err HSecret hh_store) ~;;
  organization_id <~ atom now_v7 ;;
  let slug := "e2e-" +++ short_id organization_id in
  atom (on_pool (insert (new_org organization_id slug))) ~;;
  let harness_audit := mkAuditContext None (Some ("e2e-" +++ uuid_str organization_id)) (Some "e2e/harness"%string) in
  credential <~ platform_task
    (create_credential organization_id "e2e-token" (ha_hetzner_token args) harness_audit) ;;
  fresh <~ atom now_v7 ;;
  let cluster_name := "e2e-" +++ short_id fresh in
  cluster <~ platform_task (create organization_id
    (mkNewCluster cluster_name (ha_region args) (ha_server_type args) 1 1 (hc_id credential)) harness_audit) ;;
  Done (Ok (mkSetup organization_id (cl_id cluster) cluster_name
              (mkSecretRef (hc_secret_id credential) organization_id))).

(** [wait_until_ready]; the pause is within the next step. *)
Fixpoint wait_until_ready_task (fuel n : nat) (ctx : Setup) : Task World HarnessError unit :=
  cluster <~ platform_task (get_cluster (su_organization_id ctx) (su_cluster_id ctx)) ;;
  match cl_status cluster with
  | Ready => Done (Ok tt)
  | Failed => Done (Err (HClusterFailed (cl_status_reason cluster)))
  | Destroyed => Done (Err (HBecause "cluster reached destroyed before ready" None))
  | _ =>
      if 30 * 60 * 1000000 <? hh_elapsed n
      then Done (Err (HBecause "provisioning did not reach ready in 30 minutes" None))
      else match fuel with
           | O => Done (Err HEndless)
           | S fuel' => wait_until_ready_task fuel' (S n) ctx
           end
  end.

(** [run_provision_and_validate], [run] *)
Definition within_task {A} (context : string) (t : Task World AnyhowError A) : Task World HarnessError A :=
  task_map_err (fun e => HBecause context (Some e)) t.
Definition validate_task (args : HarnessArgs) (ctx : Setup) : Task World HarnessError unit :=
  within_task "provision run" (run_provision_task (su_organization_id ctx) (harness_input args ctx)) ~;;
  wait_until_ready_task 121 0 ctx ~;;
  kubeconfig <~ within_task "fetch kubeconfig"
    (task_map_err APlatform (atom (fetch_kubeconfig (su_organization_id ctx) (su_cluster_id ctx)))) ;;
  atom (assert_kubectl_works kubeconfig).
Definition run_task (args : HarnessArgs) : Task World HarnessError unit :=
  ctx <~ seed_task args ;;
  outcome <~ task_attempt (validate_task args ctx) ;;
  destroy_outcome <~ task_attempt (run_destroy_task (su_organization_id ctx) (su_cluster_id ctx)) ;;
  atom (assert_no_residual_servers (ha_hetzner_token args) (su_cluster_id ctx)) ~;;
  match outcome with
  | Err e => Done (Err e)
  | Ok _ => Done (result_map_err HError destroy_outcome)
  end.

(** [main]; the deadline comes after some number of steps. *)
Definition timed_out : HarnessError := HBecause "e2e timed out" None.
Definition harness_main (deadline : nat) (env : gmap string string) : M World HarnessError unit :=
  args <- args_from_env env ;;
  fun w => match drive deadline (run_task args) w with
           | (Some r, w') => (r, w')
           | (None, w') => (Err timed_out, w')
           end.
End HarnessTask.
End HarnessTask.
Export HarnessTask.

Section Harness.
Context `{En : Env, Ex : Externals} `{St : !SecretStore} `{HH : HarnessHost}.

(** Alone, it is the harness. *)
Lemma wait_alone fuel n ctx w : alone (wait_until_ready_task fuel n ctx) w = wait_until_ready fuel n ctx w.
Proof.
  revert n w. induction fuel as [|fuel IH]; intros n w; cbn [wait_until_ready_task wait_until_ready];
    unfold platform_task, of_platform, bail; rewrite alone_and_then; apply bind_eq; try same_alone;
    intros cluster w1; destruct (cl_status cluster); try done; destruct (_ <? _); try done; apply IH.
Qed.
Lemma seed_alone args w : alone (seed_task args) w = seed args w.
Proof. unfold seed_task, platform_task, seed, of_platform. same_alone. Qed.
Lemma validate_alone args ctx w : alone (validate_task args ctx) w = run_provision_and_validate args ctx w.
Proof.
  unfold validate_task, within_task, run_provision_and_validate, within, anyhow.
  rewrite alone_and_then. apply bind_eq; [rewrite alone_map_err; apply map_err_eq, run_provision_alone|].
  intros _ w1. rewrite alone_and_then. apply bind_eq; [apply wait_alone|]. intros _ w2. same_alone.
Qed.
Lemma run_alone args w : alone (run_task args) w = E2e.Harness.run args w.
Proof.
  unfold run_task, E2e.Harness.run. rewrite alone_and_then. apply bind_eq; [apply seed_alone|]. intros ctx w1.
  rewrite alone_and_then. apply bind_eq; [rewrite alone_attempt; apply attempt_eq, validate_alone|]. intros outcome w2.
  rewrite alone_and_then. apply bind_eq; [rewrite alone_attempt; apply attempt_eq, run_destroy_alone|].
  intros destroyed w3. same_alone.
Qed.
End Harness.

Section Verdict.
Context `{En : Env, Ex : Externals} `{St : !SecretStore} `{HH : HarnessHost}.

Lemma args_end env w : (args_from_env env w).1 <> Err HEndless.
Proof.
  unfold args_from_env, env_required, bind, lift.
  destruct (env !! "DATABASE_URL"%string), (env !! "KUBINATE__TEST_HETZNER_TOKEN"%string),
    (env !! "KUBINATE__HETZNER_SSH_KEY"%string), (env !! "KUBINATE__SSH_KEY_PATH"%string); discriminate.
Qed.

(** C35: The harness behind its deadline ends; it passes only where the seeding, the
    provisioning with its wait and its look at the nodes, and the destruction
    succeeded and Hetzner listed no server under the cluster's key after them; and
    under a deadline that is late enough it is the run itself. *)
Theorem harness_main_verdict deadline env w r w' :
  pauses_last -> harness_main deadline env w = (r, w') ->
  r <> Err HEndless /\
  (r = Ok tt -> exists args w0 ctx w1 w2 w3 response servers,
     args_from_env env w = (Ok args, w0) /\ seed args w0 = (Ok ctx, w1) /\
     run_provision_and_validate args ctx w1 = (Ok tt, w2) /\
     run_destroy (su_organization_id ctx) (su_cluster_id ctx) w2 = (Ok tt, w3) /\
     hh_list_servers (w_tick w3) (residue_url (su_cluster_id ctx)) (ha_hetzner_token args) = Some response /\
     200 <= la_status response < 300 /\ la_servers response = Ok servers /\ default O servers = O) /\
  exists n, forall later, (n <= later)%nat ->
    harness_main later env w = (args <- args_from_env env ;; E2e.Harness.run args) w.
Proof.
  intros Hp. unfold harness_main, bind. pose proof (args_end env w) as Ha.
  destruct (args_from_env env w) as [[args|e] w0] eqn:Hargs; cbn [fst] in Ha.
  2: { intros [= <- <-]. split; [congruence|]. split; [done|]. by exists O. }
  intros Hrun. split; [|split].
  - destruct (drive deadline (run_task args) w0) as [[r0|] w1] eqn:Hd; injection Hrun as <- <-; [|done].
    apply drive_alone in Hd. rewrite run_alone in Hd. by destruct (harness_verdict args w0 r0 w1 Hp Hd).
  - intros ->. destruct (drive deadline (run_task args) w0) as [[r0|] w1] eqn:Hd; [|done].
    injection Hrun as -> <-. apply drive_alone in Hd. rewrite run_alone in Hd.
    destruct (harness_verdict args w0 (Ok tt) w1 Hp Hd) as [_ H].
    destruct (seed args w0) as [[ctx|e] w2] eqn:Hs; [|by destruct H].
    destruct H as (o & w3 & d & w4 & x & H1 & H2 & _ & H4 & H5).
    destruct H4 as [H4 _]. destruct (H4 eq_refl) as (-> & -> & ->). destruct H5 as [H5 _].
    destruct (H5 eq_refl) as (response & servers & H6). exists args, w0, ctx, w2, w3, w4, response, servers. tauto.
  - destruct (drive_enough (run_task args) w0) as [n Hn]. exists n. intros later Hl.
    rewrite (Hn later Hl), run_alone. by destruct (E2e.Harness.run args w0).
Qed.
End Verdict.

(** * Dropped at a deadline *)

Definition ci_variables : gmap string string := list_to_map
  [("DATABASE_URL", "postgres://ci"); ("KUBINATE__TEST_HETZNER_TOKEN", "hcloud-token");
   ("KUBINATE__HETZNER_SSH_KEY", "key"); ("KUBINATE__SSH_KEY_PATH", "/key")]%string.
Definition creations (calls : list Call) : list Call :=
  List.filter (fun c => match c with CCreate _ (Ok _) => true | _ => false end) calls.
Definition nightly (deadline : nat) : result HarnessError unit * @World (demo_env_as true) :=
  @harness_main (demo_env_as true) calm_externals ci_store (demo_harness []) deadline ci_variables
    (demo_world_as true demo_db).

(** A deadline after the first worker was provisioned leaves two servers running, which
    the harness says it never does; one step before the end is one step too early, too. *)
Theorem deadline_leaves_servers :
  (nightly 16).1 = Err timed_out /\
  length (creations (w_calls (nightly 16).2)) = 2%nat /\ deletions (w_calls (nightly 16).2) = [] /\
  (nightly 31).1 = Ok tt /\ length (deletions (w_calls (nightly 31).2)) = 2%nat /\
  (nightly 30).1 = Err timed_out.
Proof. vm_compute. auto 10. Qed.

Lemma nightly_is : @harness_main (demo_env_as true) calm_externals ci_store (demo_harness []) 31 ci_variables
    (demo_world_as true demo_db) = ((nightly 31).1, (nightly 31).2).
Proof. unfold nightly. apply surjective_pairing. Qed.
Lemma nightly_passes : (nightly 31).1 = Ok tt.
Proof. vm_compute. reflexivity. Qed.

Lemma harness_main_verdict_witness : (nightly 31).1 = Ok tt /\ exists n, forall later, (n <= later)%nat ->
  @harness_main (demo_env_as true) calm_externals ci_store (demo_harness []) later ci_variables
    (demo_world_as true demo_db) =
  (args <- args_from_env ci_variables ;;
   @E2e.Harness.run (demo_env_as true) calm_externals ci_store (demo_harness []) args) (demo_world_as true demo_db).
Proof.
  split; [exact nightly_passes|].
  destruct (@harness_main_verdict (demo_env_as true) calm_externals ci_store (demo_harness []) 31 ci_variables
    (demo_world_as true demo_db) (nightly 31).1 (nightly 31).2 (fun n => Z.le_refl _) nightly_is) as (_ & _ & H).
  exact H.
Defined.

(** ** The timeout layer *)

(** [TimeoutLayer]: no answer of the handler in time is the answer 408. *)
Definition answer_in_time {S E A} (deadline : nat) (t : Task S E A) (s : S) : (Z + result E A) * S :=
  match drive deadline t s with
  | (Some r, s') => (inr r, s')
  | (None, s') => (inl 408, s')
  end.

(** The invitation is used up before the membership is there. *)
Theorem acceptance_cut_off :
  let t := @accept_invite_task race_root "kinv_cy" 7%N "cy@x.org" demo_audit in
  match answer_in_time 4 t race_world with
  | (inl status, w) =>
      status = 408 /\ spent (CInvite 70%N) (w_db w) /\ db_memberships (w_db w) = db_memberships race_db /\
      (@accept_invite race_root "kinv_cy" 7%N "cy@x.org" demo_audit w).1 =
        Err (InviteForbidden "invite is expired, revoked, or already accepted")
  | _ => False
  end.
Proof. vm_compute. split; [reflexivity|]. split; [|auto]. intros i [<-|[]] _. discriminate. Qed.

(** A cluster that is recorded and for which no run was spawned stays pending; the same
    request sent again is refused for its name. *)
Theorem creation_cut_off :
  let t := @create_route_task demo_env demo_host demo_owner keyed_request "api" in
  match answer_in_time 2 t (demo_app demo_db) with
  | (inl status, a) =>
      status = 408 /\ map cl_status (db_clusters (ap_db a)) = [Ready; Ready; Pending] /\ ap_jobs a = [] /\
      (@create_route demo_env demo_host demo_owner keyed_request "api" a).1 =
        Err (Conflict "a cluster with this name already exists")
  | _ => False
  end.
Proof. vm_compute. auto. Qed.
