(* ===== verification/Router.v ===== *)
(** The routing tables of the API ([routes] and its siblings in [crates/api/src] and the
    router of [main.rs]), the extractor each handler stands behind, and what it takes
    to get past it. *)

From Stdlib Require Import Ascii.
From stdpp Require Import base gmap strings list.
From S2P Require Import Prelude Errors Integrations Events Schema Database Tables Secrets.
From S2P Require Import Cluster Addons Membership Sessions Access RateLimit Api Stripe Billing Passkeys Login System.

(** * The tables *)

Inductive Method := GET | POST | PATCH | DELETE.
#[export] Instance Method_eq_dec : EqDecision Method.
Proof. solve_decision. Defined.

(** The handler functions, by file. *)
Inductive Handler :=
| Main_healthz | Main_readyz | Main_version | Main_metrics_endpoint | Main_me | Main_update_me
| Auth_start | Auth_callback | Auth_logout
| Passkey_register_start | Passkey_register_finish | Passkey_assert_start | Passkey_assert_finish
| Passkey_list | Passkey_revoke | Recovery_regenerate | Recovery_redeem
| Clusters_create | Clusters_list | Clusters_read | Clusters_destroy | Clusters_download_kubeconfig
| Clusters_install_addon | Clusters_list_addons | Clusters_uninstall_addon | Clusters_scale_workers
| Clusters_stream_events | Clusters_query_metrics | Clusters_catalog
| Integrations_create | Integrations_list | Integrations_remove
| Team_get_org | Team_update_org | Team_list_members | Team_update_role | Team_remove_member
| Team_create_invite | Team_list_invites | Team_revoke_invite | Team_accept_invite
| Billing_state | Billing_start_checkout | Billing_webhook
| Audit_list | Keys_list | Keys_create | Keys_revoke
| Observability_write | Observability_query.
#[export] Instance Handler_eq_dec : EqDecision Handler.
Proof. solve_decision. Defined.

(** A path with its method router. *)
Definition MethodRouter : Type := list (Method * Handler).
Definition Routes : Type := list (string * MethodRouter).
Definition route (path : string) (methods : MethodRouter) : Routes := [(path, methods)].
(** [nest]; the root of the nested router is the prefix itself. *)
Definition nest (prefix : string) (r : Routes) : Routes :=
  map (fun x => ((if String.eqb x.1 "/" then prefix else prefix +++ x.1), x.2)) r.

Module Tables.
Definition auth_routes : Routes :=
  route "/github/start" [(GET, Auth_start)] ++
  route "/github/callback" [(GET, Auth_callback)] ++
  route "/logout" [(POST, Auth_logout)].
Definition passkey_routes : Routes :=
  route "/register/start" [(POST, Passkey_register_start)] ++
  route "/register/finish" [(POST, Passkey_register_finish)] ++
  route "/assert/start" [(POST, Passkey_assert_start)] ++
  route "/assert/finish" [(POST, Passkey_assert_finish)] ++
  route "/list" [(GET, Passkey_list)] ++
  route "/{id}" [(DELETE, Passkey_revoke)].
Definition recovery_routes : Routes :=
  route "/regenerate" [(POST, Recovery_regenerate)] ++
  route "/redeem" [(POST, Recovery_redeem)].
Definition cluster_routes : Routes :=
  route "/" [(POST, Clusters_create); (GET, Clusters_list)] ++
  route "/{id}" [(GET, Clusters_read); (DELETE, Clusters_destroy)] ++
  route "/{id}/kubeconfig" [(GET, Clusters_download_kubeconfig)] ++
  route "/{id}/addons" [(POST, Clusters_install_addon); (GET, Clusters_list_addons)] ++
  route "/{id}/addons/{addon_id}" [(DELETE, Clusters_uninstall_addon)] ++
  route "/{id}/workers" [(POST, Clusters_scale_workers)] ++
  route "/{id}/events" [(GET, Clusters_stream_events)] ++
  route "/{id}/metrics" [(GET, Clusters_query_metrics)].
Definition integration_routes : Routes :=
  route "/" [(POST, Integrations_create); (GET, Integrations_list)] ++
  route "/{id}" [(DELETE, Integrations_remove)].
Definition org_routes : Routes :=
  route "/" [(GET, Team_get_org); (PATCH, Team_update_org)] ++
  route "/members" [(GET, Team_list_members)] ++
  route "/members/{user_id}" [(PATCH, Team_update_role); (DELETE, Team_remove_member)] ++
  route "/invites" [(POST, Team_create_invite); (GET, Team_list_invites)] ++
  route "/invites/{id}" [(DELETE, Team_revoke_invite)].
Definition invite_accept_route : Routes := route "/accept" [(POST, Team_accept_invite)].
Definition billing_routes : Routes :=
  route "/checkout" [(POST, Billing_start_checkout)] ++
  route "/webhook" [(POST, Billing_webhook)].
Definition org_state_route : Routes := route "/billing" [(GET, Billing_state)].
Definition audit_routes : Routes := route "/audit-log" [(GET, Audit_list)].
Definition key_routes : Routes :=
  route "/" [(GET, Keys_list); (POST, Keys_create)] ++
  route "/{id}" [(DELETE, Keys_revoke)].
Definition observability_routes : Routes :=
  route "/write" [(POST, Observability_write)] ++
  route "/query" [(POST, Observability_query)].

(** [main.rs: main] *)
Definition app_routes : Routes :=
  route "/healthz" [(GET, Main_healthz)] ++
  route "/readyz" [(GET, Main_readyz)] ++
  route "/version" [(GET, Main_version)] ++
  route "/metrics" [(GET, Main_metrics_endpoint)] ++
  route "/v1/me" [(GET, Main_me); (PATCH, Main_update_me)] ++
  nest "/v1/auth" auth_routes ++
  nest "/v1/auth/passkey" passkey_routes ++
  nest "/v1/auth/recovery-codes" recovery_routes ++
  nest "/v1/clusters" cluster_routes ++
  route "/v1/catalog/clusters" [(GET, Clusters_catalog)] ++
  nest "/v1/integrations/hetzner" integration_routes ++
  nest "/v1/organizations/{org_id}" org_routes ++
  nest "/v1/organizations/{org_id}" org_state_route ++
  nest "/v1/organizations/{org_id}" audit_routes ++
  nest "/v1/invites" invite_accept_route ++
  nest "/v1/billing" billing_routes ++
  nest "/v1/api-keys" key_routes ++
  nest "/v1/observability" observability_routes.
End Tables.
Export Tables.

(** Each mounted method of each path. *)
Definition mounted (r : Routes) : list (Method * string * Handler) :=
  flat_map (fun x => map (fun m => (m.1, x.1, m.2)) x.2) r.

(** * Extractors *)

(** What the signature of a handler asks of a request before its body runs. *)
Inductive Extractor := Public | ByActor | ByOwner | BySessionUser.
Definition extractor (h : Handler) : Extractor :=
  match h with
  | Main_healthz | Main_readyz | Main_version | Main_metrics_endpoint | Clusters_catalog
  | Auth_start | Auth_callback | Auth_logout | Billing_webhook => Public
  | Passkey_assert_start | Passkey_assert_finish | Recovery_redeem | Team_accept_invite => BySessionUser
  | Clusters_create | Clusters_destroy | Clusters_install_addon | Clusters_uninstall_addon
  | Clusters_scale_workers | Integrations_create | Integrations_remove | Team_update_org | Team_update_role
  | Team_remove_member | Team_create_invite | Team_revoke_invite | Billing_start_checkout | Audit_list => ByOwner
  | _ => ByActor
  end.

Definition handler_of `{WA : WebAuthn} (e : Endpoint) : Handler :=
  match e with
  | PostCluster _ => Clusters_create
  | GetClusters => Clusters_list
  | GetCluster _ => Clusters_read
  | DeleteCluster _ => Clusters_destroy
  | GetKubeconfig _ => Clusters_download_kubeconfig
  | PostAddon _ _ => Clusters_install_addon
  | GetAddons _ => Clusters_list_addons
  | DeleteAddon _ _ => Clusters_uninstall_addon
  | PostWorkers _ _ => Clusters_scale_workers
  | GetEvents _ => Clusters_stream_events
  | PostCredential _ _ => Integrations_create
  | GetCredentials => Integrations_list
  | DeleteCredential _ => Integrations_remove
  | GetOrg _ => Team_get_org
  | PatchOrg _ _ => Team_update_org
  | GetMembers _ => Team_list_members
  | PatchMember _ _ _ => Team_update_role
  | DeleteMember _ _ => Team_remove_member
  | PostInvite _ _ _ => Team_create_invite
  | GetInvites _ => Team_list_invites
  | DeleteInvite _ _ => Team_revoke_invite
  | PostAcceptInvite _ => Team_accept_invite
  | GetBilling _ => Billing_state
  | PostCheckout _ => Billing_start_checkout
  | PostWebhook _ => Billing_webhook
  | GetAuditLog _ _ _ => Audit_list
  | GetApiKeys => Keys_list
  | PostApiKey _ _ => Keys_create
  | DeleteApiKey _ => Keys_revoke
  | GetMe => Main_me
  | PatchMe _ => Main_update_me
  | PostLogout => Auth_logout
  | GetLogin _ => Auth_start
  | GetCallback _ _ => Auth_callback
  | PostRegisterStart _ => Passkey_register_start
  | PostRegisterFinish _ _ => Passkey_register_finish
  | PostAssertStart => Passkey_assert_start
  | PostAssertFinish _ _ => Passkey_assert_finish
  | GetPasskeys => Passkey_list
  | DeletePasskey _ => Passkey_revoke
  | PostRegenerate => Recovery_regenerate
  | PostRedeem _ => Recovery_redeem
  end.

(** * The tables are unambiguous *)

(** A path up to the names of its parameters. *)
Definition shape (path : string) : list string :=
  map (fun s => if starts_with "{" s then "{}"%string else s) (split_char "/"%char path).

(** No method of a path is mounted twice, and two paths of one shape are the same path:
    otherwise the router would panic while it is built. *)
Definition builds (r : Routes) : bool :=
  bool_decide (NoDup (map fst (mounted r))) &&
  forallb (fun x => forallb (fun y =>
    negb (bool_decide (shape x.1 = shape y.1)) || String.eqb x.1 y.1) r) r.
Lemma app_routes_build : builds app_routes = true.
Proof. vm_compute. reflexivity. Qed.

(** Every handler is mounted, at one method of one path. *)
Lemma mounted_once h :
  exists m p, List.filter (fun x => bool_decide (x.2 = h)) (mounted app_routes) = [(m, p, h)].
Proof. destruct h; do 2 eexists; vm_compute; reflexivity. Qed.

(** * What it takes *)

Section Mediation.
Context `{En : Env}.

(** Why a request was taken to come from a user, whatever the organisation. *)
Inductive recognised (rq : Request) (d : DB) : SessionUser -> Prop :=
| by_live_session id now s :
    extract_session_cookie rq = Some id -> session_at now id d = Some s ->
    recognised rq d (mkSessionUser (ss_user_id s) (ss_id s))
| by_user_header user :
    allow_header_actor = true -> header_uuid rq "x-actor-user-id" = Some user ->
    recognised rq d (mkSessionUser user Uuid_nil).

Lemma extract_session_user_law d rq :
  db_wp d (extract_session_user rq) (fun r d' => bumped d d' /\
    match r with Ok u => recognised rq d u | Err e => refusal e end).
Proof.
  intros g. unfold extract_session_user, authentication_required, refusal.
  apply tx_bind. tx_call cookie_session_law.
  intros [[s|]|e] d' [-> H]; [| |split; [apply bumped_refl|by right; right; destruct H]].
  - destruct H as (id & now & Hid & Hs). apply tx_ret. split; [apply bumped_refl|]. by eapply by_live_session.
  - destruct allow_header_actor eqn:Ha; [|apply tx_throw; split; [apply bumped_refl|by left]].
    destruct (header_uuid rq "x-actor-user-id") as [user|] eqn:Hu;
      [apply tx_ret|apply tx_throw]; (split; [apply bumped_refl|]); [by apply by_user_header|by left].
Qed.

(** An owner's or admin's own membership, and the second factor of the session. *)
Definition authorised (rq : Request) (d : DB) (o : OwnerActor) : Prop :=
  authenticated rq d (ow_inner o) /\ mfa_passed (ac_session_id (ow_inner o)) d /\
  can_manage_members (ow_role o) = true /\
  exists m, In m (db_memberships d) /\ mb_role m = ow_role o /\
    (exists now, visible (idle_guc now) m = true) /\
    own_membership (ac_organization_id (ow_inner o)) (ac_user_id (ow_inner o)) m = true.

Definition permitted (x : Extractor) (rq : Request) (d : DB) : Prop :=
  match x with
  | Public => True
  | ByActor => exists actor, authenticated rq d actor
  | ByOwner => exists owner, authorised rq d owner
  | BySessionUser => exists user, recognised rq d user
  end.

(** The body of a handler runs only when the extractor permits it; a refusal comes
    before anything but times of last use changed. *)
Definition mediated {A} (P : Prop) (a : App) (r : result HandlerError A) (a' : App) : Prop :=
  match r with
  | Err (Refused e) =>
      refusal e /\ bumped (ap_db a) (ap_db a') /\ ap_jobs a' = ap_jobs a /\
      ap_limiter a' = ap_limiter a /\ ap_nicknames a' = ap_nicknames a
  | _ => P
  end.

Lemma extractor_mediates {X A} (m : M World Rejection X) (Q : X -> Prop) (h : X -> M App PlatformError A) a :
  db_wp (ap_db a) m (fun r d' => bumped (ap_db a) d' /\
    match r with Ok x => Q x | Err e => refusal e end) ->
  wp (x <- map_err Refused (in_world m) ;; map_err Failing (h x)) (mediated (exists x, Q x) a) a.
Proof.
  intros Hm. apply wp_bind, wp_map_err. eapply wp_in_db; [exact Hm|].
  intros [x|e] w [Hb H] _; cbn [result_map_err mediated].
  - apply wp_map_err. unfold wp. destruct (h x _) as [[y|e] a']; cbn; by exists x.
  - by repeat split.
Qed.

Lemma answered_mediated {A} P a (m : M App HandlerError A) :
  wp m (mediated P a) a -> wp (answered m) (mediated P a) a.
Proof. intros H. unfold answered. apply wp_bind. eapply wp_mono; [exact H|]. by intros [x|[e|e]] a'. Qed.

Lemma public_mediated {A} a (m : M App PlatformError A) : wp (map_err Failing m) (mediated True a) a.
Proof. apply wp_map_err. unfold wp. by destruct (m a) as [[x|e] a']. Qed.

Context {Ex : Externals} `{St : !SecretStore} `{Ho : Host} `{SH : StripeHost}.
Context `{WA : WebAuthn} `{CH : CodeHost} `{GH : GithubHost}.

End Mediation.

(** * A partial session becomes an owner *)

(** Ada's session has not satisfied the second factor: her own deletion of a cluster is
    refused.  She draws an API key with it, and the key, which has no session, may
    delete the cluster. *)
Definition partial_db : DB :=
  let 'mkDB a b c d e f g h i j k _ m n o p q t u v := session_db in
  mkDB a b c d e f g h i j k [mkSession 3%N 5%N 10 10 (10 + SESSION_TTL) None false] m n o p q t u v.
Definition partial_app : @App demo_root :=
  @mkApp demo_root (demo_world_as true partial_db) (rate_limiter_new 5 60) [] ∅.
Definition answer (rq : Request) (e : Endpoint) (a : @App demo_root) : result HandlerError unit * @App demo_root :=
  @serve demo_root root_store demo_host demo_stripe demo_webauthn demo_codes demo_github rq e a.
Definition minted : result HandlerError (ApiKey * string) * @App demo_root :=
  @with_actor demo_root _ ada_request
    (fun actor => @in_world demo_root _ _ (@create_api_key demo_root actor "ci" None)) partial_app.

Example partial_session_mints_owner_key :
  match answer ada_request (DeleteCluster 30%N) partial_app, minted with
  | (Err (Refused (RejectError (MfaRequired _))), _), (Ok (_, token), a) =>
      let rq := headers [("authorization", "Bearer " +++ token)]%string in
      match answer rq (DeleteCluster 30%N) a with
      | (Ok _, a') => length (ap_jobs a') = 1%nat
      | _ => False
      end
  | _, _ => False
  end.
Proof. vm_compute. reflexivity. Qed.
