(* ===== verification/WorkflowTests.v ===== *)
(** The unit tests of the workflows and activities ([crates/workflows/src], the test
    modules of [workflows.rs] and [activities.rs]): the fakes as [Externals], every
    test as the conjunction of its assertions over the model.  What a fake records is
    read off the call log. *)

From Stdlib Require Import Ascii.
From stdpp Require Import base gmap strings list pretty.
From S2P Require Import Prelude Errors Integrations Events Schema Database Tables Addons Workflows.

(** * What the fakes record *)

(** [FakeHetzner.created] *)
Definition created_of (calls : list Call) : list CreateServerParams :=
  flat_map (fun c => match c with CCreate p (Ok _) => [p] | _ => [] end) calls.
(** [DestructibleHetzner.deleted] *)
Definition deleted_of (calls : list Call) : list ServerId :=
  flat_map (fun c => match c with CDelete id (Ok _) => [id] | _ => [] end) calls.
(** [RecordingProgress.steps] *)
Definition steps_of (calls : list Call) : list string :=
  flat_map (fun c => match c with CStep s => [s] | _ => [] end) calls.
(** [FakeHelm.calls] *)
Definition installs_of (calls : list Call) : list InstallParams :=
  flat_map (fun c => match c with CHelmInstall _ p _ => [p] | _ => [] end) calls.
Definition polls_of (id : ServerId) (calls : list Call) : nat :=
  length (List.filter (fun c => match c with CGet i _ => i =? id | _ => false end) calls).

(** * The fakes *)

(** A call no test of the fake makes: [unreachable!], and services a test has none of. *)
Definition unreachable {E A} (e : E) : result E A := Err e.
Definition panicking : Externals := {|
  on_create_server _ _ := unreachable HTransport;
  on_get_server _ _ := unreachable HTransport;
  on_delete_server _ _ := unreachable HTransport;
  on_ssh _ _ _ := unreachable (SshTransport EmptyString);
  on_helm_install _ _ _ := unreachable (HelmTransport EmptyString);
  on_helm_uninstall _ _ _ _ := unreachable (HelmTransport EmptyString);
  on_drain _ _ _ := unreachable (KubectlTransport EmptyString);
  on_delete_node _ _ _ := unreachable (KubectlTransport EmptyString);
|}.

Definition fake_server (id : ServerId) (status : ServerStatus) : HetznerServer :=
  mkServer id status (Some ("203.0.113." +++ pretty (id mod 250))) (Some ("10.20.1." +++ pretty (id mod 250))).

Module WorkflowFakes.
Definition FakeSsh (command : string) : result SshError string :=
  if starts_with "sudo cat /var/lib/rancher/k3s" command then Ok "K10test-token::server"%string
  else if starts_with "sudo cat /etc/rancher/k3s" command
  then Ok ("apiVersion: v1" +++ nl +++ "server: https://127.0.0.1:6443" +++ nl +++ "cluster: test" +++ nl)
  else Ok EmptyString.
(** [FakeHetzner] and [FakeSsh]; the ids count from [next]. *)
Definition FakeHetzner (next : Z) : Externals := {|
  on_create_server h _ := Ok (next + Z.of_nat (length (created_of h)));
  on_get_server _ id := Ok (fake_server id SReady);
  on_delete_server _ _ := Ok tt;
  on_ssh _ _ command := FakeSsh command;
  on_helm_install := @on_helm_install panicking;
  on_helm_uninstall := @on_helm_uninstall panicking;
  on_drain := @on_drain panicking;
  on_delete_node := @on_delete_node panicking;
|}.
(** [DestructibleHetzner], and [FakeKubectl] for the scale-in tests. *)
Definition DestructibleHetzner (already_gone : list ServerId) : Externals := {|
  on_create_server := @on_create_server panicking;
  on_get_server := @on_get_server panicking;
  on_delete_server _ id := if existsb (Z.eqb id) already_gone then Err (HStatus 404 "not found") else Ok tt;
  on_ssh := @on_ssh panicking;
  on_helm_install := @on_helm_install panicking;
  on_helm_uninstall := @on_helm_uninstall panicking;
  on_drain _ _ _ := Ok tt;
  on_delete_node _ _ _ := Ok tt;
|}.
Definition drained_of (calls : list Call) : list string :=
  flat_map (fun c => match c with CDrain _ node _ => [node] | _ => [] end) calls.
(** [FakeKubectl.deleted]: not the nodes [already_gone]. *)
Definition removed_of (already_gone : list string) (calls : list Call) : list string :=
  flat_map (fun c => match c with
                     | CDeleteNode _ node _ => if existsb (String.eqb node) already_gone then [] else [node]
                     | _ => []
                     end) calls.
Definition FakeHelm (fail_with : option HelmError) : Externals := {|
  on_create_server := @on_create_server panicking;
  on_get_server := @on_get_server panicking;
  on_delete_server := @on_delete_server panicking;
  on_ssh := @on_ssh panicking;
  on_helm_install _ _ _ := match fail_with with Some _ => Err (HelmTimeout 1) | None => Ok tt end;
  on_helm_uninstall _ _ _ _ := match fail_with with Some _ => Err (HelmTimeout 1) | None => Ok tt end;
  on_drain := @on_drain panicking;
  on_delete_node := @on_delete_node panicking;
|}.
End WorkflowFakes.
Export WorkflowFakes.

(** * The tests of [workflows.rs] *)

(** What a workflow answers and the calls it makes. *)
Definition ran {A} (m : M (World (H := demo_env)) ActivityError A) : result ActivityError A * list Call :=
  let '(r, w) := m (demo_world demo_db) in (r, w_calls w).

Module WorkflowsRs.
Definition fixed_input (cluster_id : Uuid) : ProvisionClusterInput :=
  mkProvisionInput cluster_id "acme-prod" "nbg1" "cpx21" 2 "ssh-ed25519 AAAA..." ("#cloud-config" +++ nl) "v1.30.2+k3s1".

Definition provision (next : Z) (input : ProvisionClusterInput) :=
  ran (@provision_cluster demo_env (FakeHetzner next) NoopProgress input).
Definition destroy (already_gone server_ids : list ServerId) :=
  ran (@destroy_cluster demo_env (DestructibleHetzner already_gone) NoopProgress server_ids).

Definition replay_run : bool * (list string * list string) :=
  let '(r, calls) := provision 1000 (fixed_input Uuid_nil) in
  (is_ok r, (map (fun p => cp_name p +++ "|" +++ @uuid_str demo_env (cp_idempotency_key p)) (created_of calls),
             steps_of calls)).
Definition workflow_is_deterministic_under_replay : bool :=
  let first := replay_run in
  let second := replay_run in
  first.1 && second.1 && (first.2 ==? second.2).

Definition destroy_deletes_every_server_in_input : bool :=
  let '(r, calls) := destroy [] [101; 102; 103] in
  is_ok r && (length (deleted_of calls) ==? 3%nat) && (steps_of calls ==? ["destroying_servers"; "done"]%string).

Definition destroy_is_idempotent_when_some_servers_already_gone : bool :=
  let '(r, calls) := destroy [101; 103] [101; 102; 103] in
  is_ok r && (deleted_of calls ==? [102]).

Definition destroy_succeeds_when_everything_already_gone : bool :=
  let '(r, calls) := destroy [201; 202] [201; 202] in
  is_ok r && (deleted_of calls ==? []).

(** [cluster_id]: [Uuid::now_v7()]. *)
Definition happy_path_runs_all_steps_in_order (cluster_id : Uuid) : bool :=
  let '(r, calls) := provision 1000 (fixed_input cluster_id) in
  match r with
  | Ok out =>
      (length (po_workers out) ==? 2%nat) && contains "https://203.0.113" (po_kubeconfig out) &&
      (steps_of calls ==?
         ["creating_control_plane"; "waiting_cloud_init_cp"; "installing_k3s_server"; "creating_workers";
          "waiting_cloud_init_workers"; "installing_k3s_agents"; "collecting_kubeconfig"; "done"]%string) &&
      (length (created_of calls) ==? 3%nat) &&
      (cp_name <$> created_of calls !! 0%nat ==? Some "acme-prod-cp-01"%string) &&
      (cp_name <$> created_of calls !! 1%nat ==? Some "acme-prod-worker-00"%string)
  | Err _ => false
  end.

Definition install_addon_happy_path_invokes_helm_once : bool :=
  let params := mkInstall "ingress-nginx" "ingress-nginx" "https://kubernetes.github.io/ingress-nginx" "4.10.0"
                  "ingress-nginx" ("controller:" +++ nl +++ "  replicaCount: 1" +++ nl) in
  let '(r, calls) := ran (@install_addon demo_env (FakeHelm None) NoopProgress params "/tmp/kubeconfig-fake") in
  is_ok r && (length (installs_of calls) ==? 1%nat) &&
  (ip_release <$> installs_of calls !! 0%nat ==? Some (ip_release params)) &&
  (steps_of calls ==? ["installing"; "done"]%string).

Definition scale_out_appends_workers_at_the_next_index (cluster_id : Uuid) : bool :=
  let '(r, calls) := ran (@scale_out demo_env (FakeHetzner 2000) NoopProgress
    (mkScaleOut cluster_id "acme-prod" "nbg1" "cpx21" "ssh-ed25519 AAAA..." ("#cloud-config" +++ nl) "v1.30.2+k3s1"
       "203.0.113.10" "K10test::server" 2 2)) in
  match r with
  | Ok workers =>
      (length workers ==? 2%nat) && (length (created_of calls) ==? 2%nat) &&
      (map cp_name (created_of calls) ==? ["acme-prod-worker-02"; "acme-prod-worker-03"]%string) &&
      (steps_of calls ==?
         ["creating_workers"; "waiting_cloud_init_workers"; "installing_k3s_agents"; "done"]%string)
  | Err _ => false
  end.

Definition scaled_in (already_gone : list ServerId) (targets : list WorkerToRemove) :=
  ran (@scale_in demo_env (DestructibleHetzner already_gone) NoopProgress targets "/tmp/kubeconfig-fake").
Definition scale_in_drains_then_deletes_each_target : bool :=
  let '(r, calls) := scaled_in []
    [mkWorkerToRemove 501 "acme-prod-worker-04"; mkWorkerToRemove 502 "acme-prod-worker-05"] in
  is_ok r && (drained_of calls ==? ["acme-prod-worker-04"; "acme-prod-worker-05"]%string) &&
  (removed_of [] calls ==? ["acme-prod-worker-04"; "acme-prod-worker-05"]%string) &&
  (deleted_of calls ==? [501; 502]) &&
  (steps_of calls ==? ["draining_nodes"; "deleting_nodes"; "destroying_servers"; "done"]%string).
Definition scale_in_is_idempotent_when_targets_already_gone : bool :=
  let '(r, calls) := scaled_in [701] [mkWorkerToRemove 701 "acme-prod-worker-06"] in
  is_ok r && (length (drained_of calls) ==? 1%nat) && (removed_of ["acme-prod-worker-06"%string] calls ==? []) &&
  (deleted_of calls ==? []).

Definition install_addon_surfaces_helm_errors : bool :=
  let params := mkInstall "ingress-nginx" "ingress-nginx" "x" "1" "ingress-nginx" EmptyString in
  match (ran (@install_addon demo_env (FakeHelm (Some (HelmTimeout 1))) NoopProgress params "/tmp/kc")).1 with
  | Err (AHelm (HelmTimeout _)) => true
  | _ => false
  end.
End WorkflowsRs.
Export WorkflowsRs.

(** * The tests of [activities.rs] *)

Module ActivitiesRs.
(** Every created server is ready on its second poll; [FakeSsh::scripted] answers the
    exact command, or its first word. *)
Definition first_word (s : string) : string := hd EmptyString (split_char " "%char (trim s)).
Definition PollingFakes (script : list (string * string)) : Externals := {|
  on_create_server h _ := Ok (1000 + Z.of_nat (length (created_of h)));
  on_get_server h id :=
    let n := S (polls_of id h) in
    let threshold := if existsb (fun c => match c with CCreate _ (Ok i) => i =? id | _ => false end) h
                     then 1%nat else 0%nat in
    Ok (fake_server id (if (threshold <? n)%nat then SReady else SInitializing));
  on_delete_server _ _ := Ok tt;
  on_ssh _ _ command :=
    match List.find (fun p => String.eqb p.1 command) script with
    | Some p => Ok p.2
    | None => match List.find (fun p => String.eqb p.1 (first_word command)) script with
              | Some p => Ok p.2
              | None => Ok EmptyString
              end
    end;
  on_helm_install := @on_helm_install panicking;
  on_helm_uninstall := @on_helm_uninstall panicking;
  on_drain := @on_drain panicking;
  on_delete_node := @on_delete_node panicking;
|}.

Definition create_server_passes_params_through (cluster_id : Uuid) : bool :=
  let params := control_plane_params cluster_id "acme-prod" "cpx21" "nbg1" "ssh-ed25519 AAAA..." ("#cloud-config" +++ nl) in
  let '(r, calls) := ran (@hetzner_create_server demo_env (PollingFakes []) params) in
  match r with
  | Ok id => (1000 <=? id) && (length (created_of calls) ==? 1%nat) &&
             (cp_name <$> created_of calls !! 0%nat ==? Some "acme-prod-cp-01"%string)
  | Err _ => false
  end.

Definition wait_for_cloud_init_polls_until_ready (cluster_id : Uuid) : bool :=
  let params := control_plane_params cluster_id "acme" "cpx21" "nbg1" "ssh-ed25519 k" ("#cloud-config" +++ nl) in
  let '(r, calls) := ran (
    id <- @hetzner_create_server demo_env (PollingFakes []) params ;;
    server <- @wait_for_cloud_init demo_env (PollingFakes []) id ;;
    ret server) in
  match r with
  | Ok server => match hs_status server with SReady => true | _ => false end
  | Err _ => false
  end.

Definition cp_target : SshTarget := mkTarget "203.0.113.10" "kubinate".
Definition ssh_install_k3s_server_returns_token : bool :=
  let fakes := PollingFakes [("k3sup", EmptyString); ("sudo", "K10abcdef::server" +++ nl)]%string in
  match (ran (@ssh_install_k3s_server demo_env fakes cp_target "v1.30.2+k3s1")).1 with
  | Ok token => String.eqb token "K10abcdef::server"
  | Err _ => false
  end.

Definition collect_kubeconfig_rewrites_server_url : bool :=
  let fakes := PollingFakes [("sudo"%string, "apiVersion: v1" +++ nl +++ "server: https://127.0.0.1:6443" +++ nl)] in
  match (ran (@collect_kubeconfig demo_env fakes cp_target "https://cp.example.com:6443")).1 with
  | Ok kc => contains "https://cp.example.com:6443" kc && negb (contains "127.0.0.1" kc)
  | Err _ => false
  end.

Definition retryable_hetzner_429_is_flagged_for_retry : bool :=
  is_retryable (AHetzner (HStatus 429 "rate limited")).
Definition deterministic_errors_are_not_retried : bool := negb (is_retryable (ACloudInitTimeout 60)).
End ActivitiesRs.
Export ActivitiesRs.

(** The unit tests of the workflows and of the activities hold of their model,
    whatever identifier a test draws. *)
Theorem workflow_tests_pass (cluster_id : Uuid) :
  forallb (fun b => b)
    [ workflow_is_deterministic_under_replay; destroy_deletes_every_server_in_input;
      destroy_is_idempotent_when_some_servers_already_gone; destroy_succeeds_when_everything_already_gone;
      happy_path_runs_all_steps_in_order cluster_id; install_addon_happy_path_invokes_helm_once;
      scale_out_appends_workers_at_the_next_index cluster_id; scale_in_drains_then_deletes_each_target;
      scale_in_is_idempotent_when_targets_already_gone; install_addon_surfaces_helm_errors;
      create_server_passes_params_through cluster_id; wait_for_cloud_init_polls_until_ready cluster_id;
      ssh_install_k3s_server_returns_token; collect_kubeconfig_rewrites_server_url;
      retryable_hetzner_429_is_flagged_for_retry; deterministic_errors_are_not_retried ] = true.
Proof. vm_compute. reflexivity. Qed.
