(* ===== verification/UnitTests.v ===== *)
(** The unit tests of the other crates, each the conjunction of its assertions over the
    model: [status.rs], [catalog.rs], [service.rs] (clusters and add-ons), [events.rs],
    [rate_limit.rs], [recovery_codes.rs], [stripe.rs], [hetzner.rs], [metrics.rs],
    [webauthn.rs], [agent.rs], [connect.rs] and the migration's [main.rs]. *)

From Stdlib Require Import Ascii.
From stdpp Require Import base gmap strings list pretty.
From S2P Require Import Prelude Errors Integrations Events Schema Database Tables Secrets.
From S2P Require Import Cluster Addons RateLimit Stripe Metrics Vault AgentTunnel.
From S2P Require Passkeys HetznerClient Startup ClusterAgent.

(** [matches!(err, PlatformError::Invalid(_))] *)
Definition invalid {A} (r : result PlatformError A) : bool :=
  match r with Err (Invalid _) => true | _ => false end.

(** * [crates/cluster/src/status.rs] *)

Module StatusRs.
Definition non_failed_states_have_no_category : bool :=
  forallb (fun s => error_category s (Some "hetzner: 429"%string) ==? None)
    [Pending; Provisioning; Ready; Scaling; Destroying; Destroyed].
Definition hetzner_429_maps_to_network_error : bool :=
  error_category Failed (Some "hetzner: 429 rate limited"%string) ==? Some NetworkError.
Definition hetzner_quota_maps_to_provider_error : bool :=
  error_category Failed (Some "hetzner: 403 server quota exceeded"%string) ==? Some ProviderError.
Definition ssh_failure_maps_to_installation_error : bool :=
  error_category Failed (Some "ssh: NonZeroExit code=42 stderr=k3s install failed"%string) ==? Some InstallationError.
Definition cloud_init_timeout_maps_to_boot_timeout : bool :=
  error_category Failed (Some "cloud-init timed out after 60 polls"%string) ==? Some BootTimeout.
Definition unknown_reason_maps_to_unknown_category : bool :=
  error_category Failed (Some "something we did not bucket"%string) ==? Some UnknownError.
Definition empty_reason_on_failed_still_produces_unknown : bool :=
  error_category Failed None ==? Some UnknownError.
Definition status_tests : list bool :=
  [ non_failed_states_have_no_category; hetzner_429_maps_to_network_error; hetzner_quota_maps_to_provider_error;
    ssh_failure_maps_to_installation_error; cloud_init_timeout_maps_to_boot_timeout;
    unknown_reason_maps_to_unknown_category; empty_reason_on_failed_still_produces_unknown ].
End StatusRs.

(** * [crates/addons/src/catalog.rs, service.rs] *)

Module AddonsRs.
Definition ingress_nginx_is_on_the_allowlist : bool :=
  match lookup_addon "ingress-nginx" with
  | Ok spec => String.eqb (sp_namespace spec) "ingress-nginx" && starts_with "https://" (sp_chart_repo spec)
  | Err _ => false
  end.
Definition unknown_addon_is_rejected : bool := invalid (lookup_addon "definitely-not-real").
Definition slugs_includes_ingress_nginx : bool := existsb (String.eqb "ingress-nginx") slugs.
Definition cert_manager_is_on_the_allowlist : bool :=
  match lookup_addon "cert-manager" with
  | Ok spec =>
      String.eqb (sp_namespace spec) "cert-manager" && starts_with "https://" (sp_chart_repo spec) &&
      contains "crds:" (sp_default_values_yaml spec) && contains "enabled: true" (sp_default_values_yaml spec)
  | Err _ => false
  end.
Definition catalog_slugs_are_unique : bool := bool_decide (NoDup slugs).

(** The helper of the tests, beside [request_install]. *)
Definition pre_check (new : NewAddon) : result PlatformError unit :=
  if String.eqb (trim (na_version new)) EmptyString then Err (Invalid "version must not be empty")
  else match lookup_addon (na_addon new) with Ok _ => Ok tt | Err e => Err e end.
Definition empty_version_rejected_before_catalog_lookup : bool := invalid (pre_check (mkNewAddon "ingress-nginx" "  ")).
Definition valid_request_passes_pre_check : bool := is_ok (pre_check (mkNewAddon "ingress-nginx" "4.10.0")).
Definition addon_tests : list bool :=
  [ ingress_nginx_is_on_the_allowlist; unknown_addon_is_rejected; slugs_includes_ingress_nginx;
    cert_manager_is_on_the_allowlist; catalog_slugs_are_unique; empty_version_rejected_before_catalog_lookup;
    valid_request_passes_pre_check ].
End AddonsRs.

(** * [crates/cluster/src/service.rs] *)

Module ClusterServiceRs.
Definition base_new (credential_id : Uuid) : NewCluster := mkNewCluster "prod" "nbg1" "cpx21" 1 3 credential_id.
Definition rejects_unknown_region (id : Uuid) : bool :=
  invalid (validate_allowed (mkNewCluster "prod" "mars1" "cpx21" 1 3 id)).
Definition rejects_unknown_server_type (id : Uuid) : bool :=
  invalid (validate_allowed (mkNewCluster "prod" "nbg1" "xxl-not-real" 1 3 id)).
Definition rejects_multi_control_plane_with_adr_pointer (id : Uuid) : bool :=
  match validate_allowed (mkNewCluster "prod" "nbg1" "cpx21" 3 3 id) with
  | Err (Invalid msg) => contains "ADR-0012" msg
  | _ => false
  end.
Definition rejects_worker_count_out_of_range (id : Uuid) : bool :=
  invalid (validate_allowed (mkNewCluster "prod" "nbg1" "cpx21" 1 42 id)).
Definition accepts_valid_request (id : Uuid) : bool := is_ok (validate_allowed (base_new id)).
Definition cluster_service_tests (id : Uuid) : list bool :=
  [ rejects_unknown_region id; rejects_unknown_server_type id; rejects_multi_control_plane_with_adr_pointer id;
    rejects_worker_count_out_of_range id; accepts_valid_request id ].
End ClusterServiceRs.

(** * [crates/workflows/src/events.rs]; the channel counts its receivers *)

Module EventsRs.
Definition subscriber_receives_published_step : bool :=
  let hub := @hub_subscribe counting_broadcast 7%N (@hub_new counting_broadcast) in
  let '(observers, hub) := @hub_publish counting_broadcast 7%N (Step "installing_k3s_server") hub in
  (observers ==? 1%nat) && (@hub_log counting_broadcast 7%N hub ==? [Step "installing_k3s_server"]).
Definition publish_with_no_subscribers_is_a_noop (id : Uuid) : bool :=
  (@hub_publish counting_broadcast id (Step "x") (@hub_new counting_broadcast)).1 ==? 0%nat.
Definition distinct_clusters_do_not_cross_publish : bool :=
  let hub := @hub_subscribe counting_broadcast 2%N (@hub_subscribe counting_broadcast 1%N (@hub_new counting_broadcast)) in
  let hub := (@hub_publish counting_broadcast 1%N (Step "for-a") hub).2 in
  (@hub_log counting_broadcast 1%N hub ==? [Step "for-a"]) && (@hub_log counting_broadcast 2%N hub ==? []).
Definition event_tests (id : Uuid) : list bool :=
  [ subscriber_receives_published_step; publish_with_no_subscribers_is_a_noop id;
    distinct_clusters_do_not_cross_publish ].
End EventsRs.

(** * [crates/api/src/rate_limit.rs]; instants are seconds from one that can be subtracted from *)

Module RateLimitRs.
Definition admits (max : nat) (calls : list (Uuid * Z)) : list bool :=
  map snd (run_checks 0 calls (rate_limiter_new max 60)).
Definition admits_up_to_the_limit_then_rejects (t0 : Z) : bool :=
  admits 3 [(1%N, t0); (1%N, t0); (1%N, t0); (1%N, t0)] ==? [true; true; true; false].
Definition slides_window_forward (t0 : Z) : bool :=
  admits 2 [(1%N, t0); (1%N, t0); (1%N, t0); (1%N, t0 + 61)] ==? [true; true; false; true].
Definition keys_are_independent (t : Z) : bool :=
  admits 1 [(1%N, t); (1%N, t); (2%N, t)] ==? [true; false; true].
Definition rate_limit_tests (t : Z) : list bool :=
  [ admits_up_to_the_limit_then_rejects t; slides_window_forward t; keys_are_independent t ].
End RateLimitRs.

(** * [crates/identity/src/recovery_codes.rs]; the generator is any sequence of draws *)

Module RecoveryCodesRs.
Import Passkeys.
Definition demo_draws (seed : nat) : CodeHost :=
  {| gen_range n k := Z.to_nat ((Z.of_nat (n + seed) * 2654435761 / 65536) mod Z.of_nat k); unicode_upper s := s |}.
Definition generated (seed : nat) : string :=
  match (@generate_one demo_env (demo_draws seed) unit (demo_world demo_db)).1 with Ok code => code | Err _ => EmptyString end.
Definition generated_code_has_canonical_format : bool :=
  let code := generated 42 in
  (String.length code ==? (CODE_LEN + 1)%nat) && (String.get 5 code ==? Some "-"%char) &&
  forallb (fun c => String.eqb c "-" || contains c ALPHABET) (chars code).
Definition generate_batch_yields_unique_codes : bool :=
  match (@generate_batch demo_env (demo_draws 7) unit (demo_world demo_db)).1 with
  | Ok batch => (length batch ==? BATCH_SIZE) && bool_decide (NoDup batch)
  | Err _ => false
  end.
Definition hashed (code : string) : string := @hash demo_env (demo_draws 0) code.
Definition hash_strips_hyphens_and_uppercases : bool :=
  let canonical := hashed "AB12C-D3E4F" in
  String.eqb canonical (hashed "AB12CD3E4F") && String.eqb canonical (hashed "ab12c-d3e4f") &&
  String.eqb canonical (hashed " AB12C-D3E4F ").
Definition distinct_codes_hash_differently : bool :=
  negb (String.eqb (hashed "AB12C-D3E4F") (hashed "AB12C-D3E4G")).
Definition recovery_tests : list bool :=
  [ generated_code_has_canonical_format; generate_batch_yields_unique_codes; hash_strips_hyphens_and_uppercases;
    distinct_codes_hash_differently ].
End RecoveryCodesRs.

(** * [crates/integrations/src/stripe.rs]; the digest keeps its key and its input *)

Module StripeRs.
Definition mac (input key : string) : string := key +++ "|" +++ input.
Definition sign (payload secret : string) (ts : Z) : string :=
  "t=" +++ pretty ts +++ ",v1=" +++ hex_lower (mac (pretty ts +++ "." +++ payload) secret).
Definition verified (payload header secret : string) (now : Z) : result SignatureError unit :=
  verify_signature mac payload header secret now STRIPE_TIMESTAMP_TOLERANCE.
Definition refused (e : SignatureError) (r : result SignatureError unit) : bool :=
  match e, r with
  | Malformed, Err Malformed | Timestamp, Err Timestamp | Mismatch, Err Mismatch => true
  | _, _ => false
  end.
Definition json (id type : string) : string :=
  let q := String "034"%char EmptyString in
  "{" +++ q +++ "id" +++ q +++ ":" +++ q +++ id +++ q +++ "," +++ q +++ "type" +++ q +++ ":" +++ q +++ type +++ q +++ "}".
Definition known_good_signature_verifies : bool :=
  let body := json "evt_1" "checkout.session.completed" in
  is_ok (verified body (sign body "whsec_test" 1700000000) "whsec_test" 1700000000).
Definition tampered_payload_is_rejected : bool :=
  let header := sign (json "evt_1" "checkout.session.completed") "whsec_test" 1700000000 in
  refused Mismatch (verified (json "evt_1" "checkout.session.expired") header "whsec_test" 1700000000).
Definition wrong_secret_is_rejected : bool :=
  refused Mismatch (verified "hello" (sign "hello" "whsec_one" 1700000000) "whsec_two" 1700000000).
Definition timestamp_outside_tolerance_is_rejected : bool :=
  refused Timestamp (verified "hello" (sign "hello" "whsec_test" 1700000000) "whsec_test" (1700000000 + 8 * 60)).
Definition malformed_header_rejected : bool := refused Malformed (verified "x" "no-equals-here" "whsec_test" 0).
Definition missing_v1_rejected : bool :=
  refused Malformed (verified "x" "t=1700000000,v0=deadbeef" "whsec_test" 1700000000).
Definition stripe_tests : list bool :=
  [ known_good_signature_verifies; tampered_payload_is_rejected; wrong_secret_is_rejected;
    timestamp_outside_tolerance_is_rejected; malformed_header_rejected; missing_v1_rejected ].
End StripeRs.

(** * [crates/observability/src/metrics.rs]; a float is its text *)

Module MetricsRs.
#[export] Instance literal : Float := {| f64 := string; f64_str s := s |}.
Definition sample (name : string) (ts : Z) (value : string) : Sample := mkSample [mkLabel "__name__" name] ts value.
Definition labelled (name value : string) (s : Sample) : Sample :=
  mkSample (sm_labels s ++ [mkLabel name value]) (sm_timestamp_ms s) (sm_value s).
Definition range_for (metric : string) (start fin : Z) : RangeQuery := mkQuery metric [] start fin.
Definition found (m : M Store MetricsError (list Sample)) : list Sample :=
  match (m ∅).1 with Ok l => l | Err _ => [] end.

Definition round_trip_returns_only_the_writers_samples : bool :=
  let q := range_for "api_requests_total" 0 2000 in
  let written := handle_write 1%N (mkWrite 1%N [sample "api_requests_total" 1000 "42.0"]) in
  let result_a := found (written ;;; handle_query 1%N q) in
  let result_b := found (written ;;; handle_query 2%N q) in
  (map sm_value result_a ==? ["42.0"%string]) && (length result_b ==? 0%nat).
Definition tenant_mismatch_in_write_body_is_rejected : bool :=
  match (handle_write 1%N (mkWrite 2%N [sample "api_requests_total" 1000 "1.0"]) ∅).1 with
  | Err (TenantMismatch a b) => (a ==? 1%N) && (b ==? 2%N)
  | _ => false
  end.
Definition time_range_filters_out_pre_and_post_window_samples : bool :=
  let result := found (handle_write 1%N (mkWrite 1%N
      [sample "cpu_usage" 100 "0.1"; sample "cpu_usage" 500 "0.5"; sample "cpu_usage" 1000 "0.9"]) ;;;
    handle_query 1%N (range_for "cpu_usage" 200 800)) in
  map sm_timestamp_ms result ==? [500].
Definition label_matchers_narrow_the_result : bool :=
  let s1 := labelled "method" "GET" (sample "api_requests_total" 1000 "1.0") in
  let s2 := labelled "method" "POST" (sample "api_requests_total" 1500 "1.0") in
  let q := mkQuery "api_requests_total" [mkLabel "method" "POST"] 0 2000 in
  map sm_timestamp_ms (found (handle_write 1%N (mkWrite 1%N [s1; s2]) ;;; handle_query 1%N q)) ==? [1500].
Definition metrics_tests : list bool :=
  [ round_trip_returns_only_the_writers_samples; tenant_mismatch_in_write_body_is_rejected;
    time_range_filters_out_pre_and_post_window_samples; label_matchers_narrow_the_result ].
End MetricsRs.

(** * [crates/integrations/src/hetzner.rs]; a read of the store is a tick *)

Module HetznerRs.
Definition MockStore (plaintext : string) : @SecretStore demo_env := {|
  put organization_id _ := id <- now_v7 ;; ret (mkSecretRef id organization_id);
  get _ := fun w => (Ok plaintext, tick w);
  delete_secret _ := ret tt;
  resolves _ _ p := p = plaintext;
  store_failure _ := False;
|}.
Definition resolve_token_routes_through_secret_store (id organization_id : Uuid) : bool :=
  let w := demo_world demo_db in
  let '(token, w') := @HetznerClient.HetznerClient.resolve_token demo_env (MockStore "hcloud_ut_token")
                        (mkSecretRef id organization_id) w in
  match token with Ok t => String.eqb t "hcloud_ut_token" | Err _ => false end && (w_tick w' ==? S (w_tick w)).
Definition hetzner_tests (id org : Uuid) : list bool := [ resolve_token_routes_through_secret_store id org ].
End HetznerRs.

(** * [crates/identity/src/webauthn.rs]; the library accepts an origin whose host is the relying party's *)

Module WebauthnRs.
Import Passkeys.
(** [CeremonyKind::as_str] *)
Definition kind_str (k : CeremonyKind) : string :=
  match k with Registration => "registration" | Schema.Assertion => "assertion" end.
Definition host_of (url : string) : string :=
  hd EmptyString (split_char ":"%char (str_replace "http://" "" (str_replace "https://" "" url))).
Definition matching_host : Startup.StartHost := {|
  Startup.Url := string; Startup.SocketAddr := string; Startup.Recorder := unit;
  Startup.dotenv_file := ∅;
  Startup.config_build _ _ _ _ := Err EmptyString;
  Startup.telemetry_init := Ok tt; Startup.install_recorder := Ok tt; Startup.recorder_text _ := EmptyString;
  Startup.pg_connect _ _ _ := Ok tt; Startup.run_migrations _ _ := Ok tt;
  Startup.base64_decode s := Ok s;
  Startup.url_parse s := Ok s; Startup.url_str s := s; Startup.http_client := Ok tt;
  Startup.webauthn_builder rp url :=
    if String.eqb (host_of url) rp then Ok tt else Err "origin host mismatch"%string;
  Startup.webauthn_build _ _ _ := Ok tt;
  Startup.socket_parse s := Ok s; Startup.socket_str s := s; Startup.tcp_bind _ := Ok tt; Startup.http_serve := Ok tt;
  Startup.k3s_node_yaml := EmptyString; Startup.package_version := EmptyString; Startup.git_sha := None;
|}.
Definition config (rp_id rp_name rp_origin : string) : @Startup.WebauthnConfig matching_host :=
  @Startup.mkWebauthnConfig matching_host rp_id rp_name rp_origin.
Definition dev_config : @Startup.WebauthnConfig matching_host :=
  config "localhost" "Kubinate (test)" "http://localhost:5173".

Definition ceremony_kind_round_trips_with_table_check_constraint : bool :=
  String.eqb (kind_str Registration) "registration" && String.eqb (kind_str Schema.Assertion) "assertion".
Definition config_from_env_rejects_empty_rp_id : bool :=
  match @Startup.Startup.webauthn_from_env matching_host (list_to_map
    [("KUBINATE__WEBAUTHN_RP_ID", "  "); ("KUBINATE__WEBAUTHN_RP_ORIGIN", "http://localhost:5173")]%string) with
  | Err (Config msg) => contains "must not be empty" msg
  | _ => false
  end.
Definition ceremonies_construction_succeeds_with_dev_config : bool :=
  match @Startup.Startup.ceremonies_new matching_host dev_config with
  | Ok cfg => String.eqb (@Startup.wc_rp_id matching_host cfg) "localhost"
  | Err _ => false
  end.
Definition ceremonies_rejects_origin_host_mismatch : bool :=
  match @Startup.Startup.ceremonies_new matching_host
          (config "app.kubinate.com" "Kubinate" "https://other-domain.example.com") with
  | Err (Config _) => true
  | _ => false
  end.
(** [now]: the clock of the put; the takes come within the five minutes. *)
Definition in_memory_store_consume_is_one_shot (id user_id : Uuid) (now : Z) : bool :=
  let row := mkCeremony id user_id Registration "123" (now + CEREMONY_TTL) in
  let '(first, s) := (memory_put row ;;; memory_take now id Registration) ∅ in
  let '(second, _) := memory_take now id Registration s in
  match first, second with Ok (Some _), Ok None => true | _, _ => false end.
Definition in_memory_store_rejects_wrong_kind (id user_id : Uuid) (now : Z) : bool :=
  let row := mkCeremony id user_id Registration EmptyString (now + CEREMONY_TTL) in
  match ((memory_put row ;;; memory_take now id Schema.Assertion) ∅).1 with Ok None => true | _ => false end.
Definition webauthn_tests (id user_id : Uuid) (now : Z) : list bool :=
  [ ceremony_kind_round_trips_with_table_check_constraint; config_from_env_rejects_empty_rp_id;
    ceremonies_construction_succeeds_with_dev_config; ceremonies_rejects_origin_host_mismatch;
    in_memory_store_consume_is_one_shot id user_id now; in_memory_store_rejects_wrong_kind id user_id now ].
End WebauthnRs.

(** * [crates/api/src/agent.rs]; the clock starts where the heartbeat was sent *)

Module AgentRs.
Definition test_host (agent_sent_at : Z) : AgentHost :=
  {| unix_millis n := Some (agent_sent_at + Z.of_nat n); client_gone _ := false |}.
(** [NullClusterRepo] is never asked: the id is no UUID. *)
Definition heartbeat_round_trips_through_api_agent_service : bool :=
  let agent_sent_at := 1700000000000 in
  match (@open_stream demo_env (test_host agent_sent_at) unit
           [Some (Some (Heartbeat "cluster-test-0001" "0.1.0"))] fresh_stream (demo_world demo_db)).1 with
  | Ok s => match st_acks s with [ack] => agent_sent_at <=? ack | _ => false end
  | Err _ => false
  end.
(** A [SocketAddr] is its text. *)
Definition parse_addr (s : string) : result string string :=
  if contains ":" s then Ok s else Err "invalid socket address syntax"%string.
Definition is_loopback (addr : string) : bool := starts_with "127." addr || starts_with "[::1]" addr.
Definition bound (d : ListenerDecision string) : option string :=
  match d with Bind addr => Some addr | _ => None end.
Definition decide_listener_on_by_default : bool :=
  bound (decide_listener parse_addr None None) ==? Some "0.0.0.0:8082"%string.
Definition decide_listener_disabled_only_by_zero : bool :=
  match decide_listener parse_addr (Some "0"%string) None with Disabled => true | _ => false end &&
  forallb (fun s => negb (is_none (bound (decide_listener parse_addr (Some s) None)))) ["1"; "false"; "off"; "no"]%string.
Definition decide_listener_accepts_non_loopback_addr : bool :=
  forallb (fun s => negb (is_none (bound (decide_listener parse_addr None (Some s)))))
    ["0.0.0.0:8082"; "[::]:8082"; "192.0.2.1:8082"]%string.
Definition decide_listener_accepts_loopback_override : bool :=
  forallb (fun s => match bound (decide_listener parse_addr None (Some s)) with
                    | Some addr => is_loopback addr
                    | None => false
                    end) ["127.0.0.1:9000"; "[::1]:9000"]%string.
Definition decide_listener_reports_malformed_addr : bool :=
  match decide_listener parse_addr None (Some "not-an-addr"%string) with
  | InvalidAddr reason => contains "not-an-addr" reason
  | _ => false
  end.
Definition agent_tests : list bool :=
  [ heartbeat_round_trips_through_api_agent_service; decide_listener_on_by_default;
    decide_listener_disabled_only_by_zero; decide_listener_accepts_non_loopback_addr;
    decide_listener_accepts_loopback_override; decide_listener_reports_malformed_addr ].
End AgentRs.

(** * [agent/src/connect.rs]; a draw at either end and in the middle *)

Module ConnectRs.
Definition draws : list Z := [0; 2 ^ 52; 2 ^ 53 - 1].
Definition delays (attempts : nat) : list Z :=
  flat_map (fun attempt => map (fun draw => ClusterAgent.backoff_delay draw (Z.of_nat attempt)) draws) (seq 0 attempts).
Definition backoff_delay_never_exceeds_cap : bool := forallb (fun d => d <=? 60000) (delays 30).
Definition backoff_delay_is_zero_or_positive : bool := forallb (fun d => 0 <=? d) (delays 10).
Definition connect_tests : list bool := [ backoff_delay_never_exceeds_cap; backoff_delay_is_zero_or_positive ].
End ConnectRs.

(** * [crates/vault-migrate/src/main.rs] *)

Module MigrateRs.
Definition key_name_matches_vault_store_format (organization_id : Uuid) : bool :=
  String.eqb ("kubinate/" +++ @uuid_str demo_env organization_id) (@vault_key_name demo_env "kubinate" organization_id).
Definition vault_roundtrip_via_in_memory_transit (organization_id : Uuid) : bool :=
  let key_name := "kubinate/" +++ @uuid_str demo_env organization_id in
  match ((mem_ensure_key key_name ;;;
          ciphertext <- mem_encrypt key_name "hunter2" ;;
          mem_decrypt key_name ciphertext) new_vault).1 with
  | Ok plaintext => String.eqb plaintext "hunter2"
  | Err _ => false
  end.
Definition migrate_tests (org : Uuid) : list bool :=
  [ key_name_matches_vault_store_format org; vault_roundtrip_via_in_memory_transit org ].
End MigrateRs.

(** The unit tests of the other crates hold of the model. *)
Theorem unit_tests_pass :
  forallb (fun b => b)
    (StatusRs.status_tests ++ AddonsRs.addon_tests ++ ClusterServiceRs.cluster_service_tests 10%N ++
     EventsRs.event_tests 3%N ++ RateLimitRs.rate_limit_tests 1000 ++ RecoveryCodesRs.recovery_tests ++
     StripeRs.stripe_tests ++ MetricsRs.metrics_tests ++ HetznerRs.hetzner_tests 4%N 1%N ++
     WebauthnRs.webauthn_tests 5%N 6%N 1000 ++ AgentRs.agent_tests ++ ConnectRs.connect_tests ++
     MigrateRs.migrate_tests 1%N) = true.
Proof. vm_compute. reflexivity. Qed.
